(** * RecruitPulse extension: helpers, submission client and orchestrator

    A shallow embedding of the JavaScript sources
      - utils/helpers.js     ([retry], [generateJobId], [getDomainGroup], ...)
      - utils/constants.js   (the numeric configuration)
      - utils/api.js         ([sendJobToAPI])
      - background.js        (the service worker: [handleStartQueue],
                              [runQueue], [processSingleJob],
                              [processJobFlow], [runResumeBuilderQueue],
                              [finishQueue])
    followed by the properties of the pipeline proved over it.

    Conventions of the embedding.
    - A JavaScript string is a [string]; every [ascii] stands for one
      UTF-16 code unit, so the strings covered are those whose code units
      lie below 256 (Basic Latin and Latin-1 Supplement).  [undefined] and
      [''] are both falsy in every place the sources read a string field,
      and a missing field is represented by the empty string.
    - Numbers that count (indices, counters, attempts, tab ids) are [nat];
      the 32-bit hash and the delays in milliseconds are [Z].
    - An [async] function is a state-passing computation [M A] over a
      [World]; a rejected promise is the outcome [Throw].  The replies of
      the browser, of the content scripts and of the backend are read from
      an environment record, so that every theorem quantifies over all the
      behaviours of the collaborators. *)

From Stdlib Require Import String Ascii ZArith List Bool Arith Lia DecimalString.
Import ListNotations.

Local Open Scope string_scope.
Local Open Scope Z_scope.

(* ===================================================================== *)
(** * JavaScript strings                                                  *)
(* ===================================================================== *)

Module JsString.

(** [s.charCodeAt(i)] of the code unit [c]. *)
Definition charCode (c : ascii) : Z := Z.of_N (N_of_ascii c).

(** WhiteSpace and LineTerminator code units removed by
    [String.prototype.trim]: TAB, LF, VT, FF, CR, SP and NBSP are the ones
    below 256. *)
Definition isWhiteSpace (c : ascii) : bool :=
  let n := charCode c in
  ((9 <=? n) && (n <=? 13)) || (n =? 32) || (n =? 160).

(** Lower-casing of one code unit: [A-Z], and the Latin-1 capitals
    U+00C0..U+00DE except the multiplication sign U+00D7, move up by 32. *)
Definition lowerChar (c : ascii) : ascii :=
  let n := charCode c in
  if ((65 <=? n) && (n <=? 90))
     || ((192 <=? n) && (n <=? 222) && negb (n =? 215))
  then ascii_of_N (Z.to_N (n + 32))
  else c.

(** [s.toLowerCase()]. *)
Fixpoint toLowerCase (s : string) : string :=
  match s with
  | EmptyString => EmptyString
  | String c r => String (lowerChar c) (toLowerCase r)
  end.

(** [s.trimStart()]. *)
Fixpoint trimStart (s : string) : string :=
  match s with
  | EmptyString => EmptyString
  | String c r => if isWhiteSpace c then trimStart r else s
  end.

(** [s.trimEnd()]. *)
Fixpoint trimEnd (s : string) : string :=
  match s with
  | EmptyString => EmptyString
  | String c r =>
      match trimEnd r with
      | EmptyString => if isWhiteSpace c then EmptyString else String c EmptyString
      | r' => String c r'
      end
  end.

(** [s.trim()]. *)
Definition trim (s : string) : string := trimEnd (trimStart s).

(** [s.startsWith(p)]. *)
Fixpoint startsWith (s p : string) : bool :=
  match p, s with
  | EmptyString, _ => true
  | String _ _, EmptyString => false
  | String a p', String b s' => Ascii.eqb a b && startsWith s' p'
  end.

(** [s.includes(p)]. *)
Fixpoint includes (s p : string) : bool :=
  startsWith s p
  || match s with
     | EmptyString => false
     | String _ s' => includes s' p
     end.

(** A string in a boolean position: [''] is falsy. *)
Definition truthy (s : string) : bool :=
  match s with EmptyString => false | String _ _ => true end.

(** [a || b] on strings. *)
Definition orElse (a b : string) : string := if truthy a then a else b.

(** The decimal rendering of a non-negative integer in a template literal. *)
Definition ofN (n : N) : string := NilEmpty.string_of_uint (N.to_uint n).
Definition ofNat (n : nat) : string := NilEmpty.string_of_uint (Nat.to_uint n).

End JsString.

Infix "|||" := JsString.orElse (at level 50, left associativity).

(* ===================================================================== *)
(** * utils/constants.js                                                  *)
(* ===================================================================== *)

Definition JOB_DELAY_MS : Z := 5000.
Definition MAX_RETRIES : nat := 3.
Definition RETRY_BASE_DELAY_MS : Z := 1000.

(* ===================================================================== *)
(** * utils/helpers.js: deduplication id and extractor routing            *)
(* ===================================================================== *)

(** [ToInt32]: the value of [x | 0] for an integral [x]. *)
Definition toInt32 (x : Z) : Z :=
  let m := x mod 2 ^ 32 in
  if 2 ^ 31 <=? m then m - 2 ^ 32 else m.

(** [x << k] on 32-bit integers. *)
Definition shl32 (x : Z) (k : Z) : Z := toInt32 (Z.shiftl (toInt32 x) k).

(** One round of the loop of [generateJobId]:
    [hash = (hash << 5) - hash + char; hash |= 0]. *)
Definition hashStep (hash : Z) (c : ascii) : Z :=
  toInt32 (shl32 hash 5 - hash + JsString.charCode c).

(** The loop [for (i = 0; i < raw.length; i++)], from the running [hash]. *)
Fixpoint hashFrom (hash : Z) (raw : string) : Z :=
  match raw with
  | EmptyString => hash
  | String c r => hashFrom (hashStep hash c) r
  end.

(** [title.trim().toLowerCase()]. *)
Definition normalize (s : string) : string :=
  JsString.toLowerCase (JsString.trim s).

Definition generateJobId (title company : string) : string :=
  let raw := normalize title ++ "::" ++ normalize company in
  let hash := hashFrom 0 raw in
  "job_" ++ JsString.ofN (Z.abs_N hash).

Section DomainGroup.

(** [new URL(url).hostname] is the platform's URL parser: [None] stands
    for the [TypeError] it throws on an input that is not a URL. *)
Variable hostnameOfURL : string -> option string.

Definition getDomainGroup (url : string) : string :=
  match hostnameOfURL url with
  | Some h =>
      let hostname := JsString.toLowerCase h in
      if JsString.includes hostname "linkedin.com" then "linkedin"
      else if JsString.includes hostname "indeed.com" then "indeed"
      else "generic"
  | None => "generic"
  end.

End DomainGroup.

(* ===================================================================== *)
(** * Data exchanged by the service worker                                *)
(* ===================================================================== *)

(** A row collected from the dashboard ([queue[i]]). *)
Record RawJob := mkRawJob {
  raw_title : string;
  raw_company : string
}.

(** [hiringManager] of the detail panel. *)
Record HiringManager := mkHiringManager {
  hm_name : string;
  hm_profileUrl : string
}.

(** The detail-panel fields pushed with [JOB_POPUP_DATA]; an absent
    [hiringManager] is [None]. *)
Record PopupData := mkPopupData {
  popup_title : string;
  popup_company : string;
  popup_hiringManager : option HiringManager;
  popup_shortDescription : string;
  popup_viewFullPostUrl : string
}.

(** The result of [scrapeExternalJobPage]. *)
Record ExternalData := mkExternalData {
  ext_fullDescription : string;
  ext_applyEmail : string;
  ext_location : string;
  ext_experience : string
}.

(** The fields pushed with [EMAIL_DATA]. *)
Record EmailData := mkEmailData {
  mail_emailSubject : string;
  mail_emailBody : string
}.

(** [jobPayload]: the merged record stored locally and posted to the
    backend.  [hiringManager] is [None] for [''].  [jdResumeBuiltAt] is added
    by the resume-builder phase and is empty before. *)
Record JobPayload := mkJobPayload {
  jobId : string;
  title : string;
  company : string;
  hiringManager : option HiringManager;
  shortDescription : string;
  viewFullPostUrl : string;
  fullDescription : string;
  applyEmail : string;
  location : string;
  experience : string;
  emailSubject : string;
  emailBody : string;
  source : string;
  processedAt : string;
  jdResumeBuilt : bool;
  jdResumeBuiltAt : string
}.

(** [recruitpulse_stats] in [chrome.storage.local]. *)
Record Stats := mkStats {
  stats_success : nat;
  stats_failed : nat;
  stats_lastRun : option string
}.

(** A thrown value: an [Error] with its [message], or [undefined]. *)
Inductive Exn := JsError (message : string) | JsUndefined.

(** The return value of [sendJobToAPI]. *)
Record ApiResult := mkApiResult {
  api_success : bool;
  api_response : string;
  api_error : string
}.

(** [`[${i + 1}/${queue.length}]`]. *)
Record JobNum := mkJobNum { num_index : nat; num_total : nat }.

(* ===================================================================== *)
(** * Observable events                                                   *)
(* ===================================================================== *)

Inductive LogLevel := DEBUG | INFO | WARN | ERROR.

(** [LEVELS] and [CURRENT_LEVEL] of helpers.js. *)
Definition LEVELS (l : LogLevel) : nat :=
  match l with DEBUG => 0 | INFO => 1 | WARN => 2 | ERROR => 3 end%nat.
Definition CURRENT_LEVEL : nat := LEVELS DEBUG.

(** The [level] argument of [broadcastStatus]. *)
Inductive StatusLevel := Sinfo | Ssuccess | Swarn | Serror | Scomplete.

(** The messages given to [broadcastStatus], one constructor for each
    template literal of background.js. *)
Inductive StatusText :=
| TNoDashboardTab
| TCollecting
| TCollectFailed (message : string)
| TNoNewJobs
| TFound (n : nat)
| TStopped
| TProcessing (num : JobNum) (rawTitle : string)
| TDone (num : JobNum) (rawTitle : string)
| TFailed (num : JobNum) (rawTitle : string) (message : string)
| TWaiting (seconds : Z)
| TPhase1Complete (succeeded failed : nat)
| TStartingPhase2
| TSimulating (num : JobNum)
| TOpening (num : JobNum) (source : string)
| TExtractingEmail (num : JobNum)
| TFetchJobsFailed (message : string)
| TNoPendingJobs
| TBuildingResumes (n : nat)
| TNavigateFailed (message : string)
| TBuildingResume (num : JobNum) (jobTitle : string)
| TResumeBuilt (num : JobNum) (jobTitle : string)
| TResumeFailed (num : JobNum) (jobTitle : string) (message : string)
| TWaitingReload
| TPhase2Complete.

(** The messages given to [log] directly, one constructor for each call. *)
Inductive LogText :=
| LStatus (text : StatusText)
| LRetry (attempt maxRetries : nat) (delay : Z) (message : string)
| LSending (id jobTitle : string)
| LSent (id response : string)
| LSendFailed (id message : string)
| LStopRequested
| LAlreadyRunning
| LStarting
| LClearedHistory
| LDashboardTab (id : nat)
| LFindTabFailed (err : Exn)
| LJobFailed (num : JobNum) (rawTitle message : string)
| LPopupExtracted (num : JobNum) (data : PopupData)
| LScrapeEmpty (num : JobNum)
| LExternalExtracted (num : JobNum) (data : ExternalData)
| LExtractorFailed (num : JobNum) (message : string)
| LTabClosed (num : JobNum)
| LEmailExtracted (num : JobNum) (data : EmailData)
| LEmailFailed (num : JobNum) (message : string)
| LSavedLocal (num : JobNum)
| LSaveLocalFailed (num : JobNum) (err : Exn)
| LApiFailedContinuing (message : string)
| LApiCallFailed (message : string)
| LStartingResumeQueue
| LResumeBuildFailed (num : JobNum) (message : string)
| LRedirecting
| LShutDown.

(** Requests issued to the browser, the content scripts and the backend. *)
Inductive Request :=
| RSimulateClick (tab : option nat) (rowIndex : nat)
| RClickJobAction (tab : option nat) (rowIndex : nat)
| RExtractEmailData (tab : option nat)
| RCollectJobs (tab : option nat)
| RQueryDashboardTabs
| RTabCreate (url : string)
| RTabWaitComplete (tab : option nat)
| RScrape (tab : nat)
| RTabRemove (tab : nat)
| RTabUpdate (tab : option nat) (url : string)
| RTabReload (tab : option nat)
| RPostJob (payload : JobPayload) (telegram : option string)
| RGetJobs
| RBuildResume (tab : option nat) (job : JobPayload).

Inductive Event :=
| EvLog (level : LogLevel) (text : LogText)
| EvStatus (text : StatusText) (level : StatusLevel)
           (processed failed queueLength : nat)
| EvSleep (ms : Z)
| EvRequest (r : Request).

(* ===================================================================== *)
(** * The world: module state, extension storage, tabs and the trace      *)
(* ===================================================================== *)

Record World := mkWorld {
  (* the module-level variables of background.js *)
  queue : list RawJob;
  isRunning : bool;
  stopRequested : bool;
  dashboardTabId : option nat;
  processedCount : nat;
  failedCount : nat;
  isProcessing : bool;
  (* chrome.storage.local; [None] is an absent key *)
  scrapedJobs : option (list JobPayload);
  processedIds : option (list string);
  stats : option Stats;
  queueActive : option bool;
  telegram_config : option string;
  (* the auxiliary tabs created by the worker and still open *)
  openTabs : list nat;
  (* the number of submission attempts issued so far *)
  attempts : nat;
  (* what happened, newest event first *)
  trace : list Event
}.

Definition set_queue (v : list RawJob) (w : World) : World :=
  mkWorld v (isRunning w) (stopRequested w) (dashboardTabId w)
    (processedCount w) (failedCount w) (isProcessing w) (scrapedJobs w)
    (processedIds w) (stats w) (queueActive w) (telegram_config w)
    (openTabs w) (attempts w) (trace w).

Definition set_isRunning (v : bool) (w : World) : World :=
  mkWorld (queue w) v (stopRequested w) (dashboardTabId w)
    (processedCount w) (failedCount w) (isProcessing w) (scrapedJobs w)
    (processedIds w) (stats w) (queueActive w) (telegram_config w)
    (openTabs w) (attempts w) (trace w).

Definition set_stopRequested (v : bool) (w : World) : World :=
  mkWorld (queue w) (isRunning w) v (dashboardTabId w)
    (processedCount w) (failedCount w) (isProcessing w) (scrapedJobs w)
    (processedIds w) (stats w) (queueActive w) (telegram_config w)
    (openTabs w) (attempts w) (trace w).

Definition set_dashboardTabId (v : option nat) (w : World) : World :=
  mkWorld (queue w) (isRunning w) (stopRequested w) v
    (processedCount w) (failedCount w) (isProcessing w) (scrapedJobs w)
    (processedIds w) (stats w) (queueActive w) (telegram_config w)
    (openTabs w) (attempts w) (trace w).

Definition set_processedCount (v : nat) (w : World) : World :=
  mkWorld (queue w) (isRunning w) (stopRequested w) (dashboardTabId w)
    v (failedCount w) (isProcessing w) (scrapedJobs w)
    (processedIds w) (stats w) (queueActive w) (telegram_config w)
    (openTabs w) (attempts w) (trace w).

Definition set_failedCount (v : nat) (w : World) : World :=
  mkWorld (queue w) (isRunning w) (stopRequested w) (dashboardTabId w)
    (processedCount w) v (isProcessing w) (scrapedJobs w)
    (processedIds w) (stats w) (queueActive w) (telegram_config w)
    (openTabs w) (attempts w) (trace w).

Definition set_isProcessing (v : bool) (w : World) : World :=
  mkWorld (queue w) (isRunning w) (stopRequested w) (dashboardTabId w)
    (processedCount w) (failedCount w) v (scrapedJobs w)
    (processedIds w) (stats w) (queueActive w) (telegram_config w)
    (openTabs w) (attempts w) (trace w).

Definition set_scrapedJobs (v : option (list JobPayload)) (w : World) : World :=
  mkWorld (queue w) (isRunning w) (stopRequested w) (dashboardTabId w)
    (processedCount w) (failedCount w) (isProcessing w) v
    (processedIds w) (stats w) (queueActive w) (telegram_config w)
    (openTabs w) (attempts w) (trace w).

Definition set_processedIds (v : option (list string)) (w : World) : World :=
  mkWorld (queue w) (isRunning w) (stopRequested w) (dashboardTabId w)
    (processedCount w) (failedCount w) (isProcessing w) (scrapedJobs w)
    v (stats w) (queueActive w) (telegram_config w)
    (openTabs w) (attempts w) (trace w).

Definition set_stats (v : option Stats) (w : World) : World :=
  mkWorld (queue w) (isRunning w) (stopRequested w) (dashboardTabId w)
    (processedCount w) (failedCount w) (isProcessing w) (scrapedJobs w)
    (processedIds w) v (queueActive w) (telegram_config w)
    (openTabs w) (attempts w) (trace w).

Definition set_queueActive (v : option bool) (w : World) : World :=
  mkWorld (queue w) (isRunning w) (stopRequested w) (dashboardTabId w)
    (processedCount w) (failedCount w) (isProcessing w) (scrapedJobs w)
    (processedIds w) (stats w) v (telegram_config w)
    (openTabs w) (attempts w) (trace w).

Definition set_openTabs (v : list nat) (w : World) : World :=
  mkWorld (queue w) (isRunning w) (stopRequested w) (dashboardTabId w)
    (processedCount w) (failedCount w) (isProcessing w) (scrapedJobs w)
    (processedIds w) (stats w) (queueActive w) (telegram_config w)
    v (attempts w) (trace w).

Definition set_attempts (v : nat) (w : World) : World :=
  mkWorld (queue w) (isRunning w) (stopRequested w) (dashboardTabId w)
    (processedCount w) (failedCount w) (isProcessing w) (scrapedJobs w)
    (processedIds w) (stats w) (queueActive w) (telegram_config w)
    (openTabs w) v (trace w).

Definition set_trace (v : list Event) (w : World) : World :=
  mkWorld (queue w) (isRunning w) (stopRequested w) (dashboardTabId w)
    (processedCount w) (failedCount w) (isProcessing w) (scrapedJobs w)
    (processedIds w) (stats w) (queueActive w) (telegram_config w)
    (openTabs w) (attempts w) v.

(* ===================================================================== *)
(** * Promises as state-passing computations                              *)
(* ===================================================================== *)

Inductive Outcome (A : Type) :=
| Ok (a : A)
| Throw (e : Exn).
Arguments Ok {A} a.
Arguments Throw {A} e.

Definition M (A : Type) : Type := World -> Outcome A * World.

Definition ret {A} (a : A) : M A := fun w => (Ok a, w).

Definition throw {A} (e : Exn) : M A := fun w => (Throw e, w).

Definition bind {A B} (m : M A) (k : A -> M B) : M B :=
  fun w =>
    match m w with
    | (Ok a, w') => k a w'
    | (Throw e, w') => (Throw e, w')
    end.

(** [try { m } catch (err) { h err }]. *)
Definition tryCatch {A} (m : M A) (h : Exn -> M A) : M A :=
  fun w =>
    match m w with
    | (Ok a, w') => (Ok a, w')
    | (Throw e, w') => h e w'
    end.

(** [try { m } finally { f }]: [f] always runs; when it throws, its error
    replaces the outcome of [m]. *)
Definition tryFinally {A} (m : M A) (f : M unit) : M A :=
  fun w =>
    match m w with
    | (r, w') =>
        match f w' with
        | (Ok _, w'') => (r, w'')
        | (Throw e, w'') => (Throw e, w'')
        end
    end.

(** A state change that cannot fail. *)
Definition modify (f : World -> World) : M unit := fun w => (Ok tt, f w).

(** Reading the state. *)
Definition gets {A} (f : World -> A) : M A := fun w => (Ok (f w), w).

Declare Scope js_scope.
Delimit Scope js_scope with js.
Notation "x <- c ;; k" := (bind c (fun x => k))
  (at level 61, c at next level, right associativity) : js_scope.
Notation "c ;; k" := (bind c (fun _ => k))
  (at level 61, right associativity) : js_scope.
Local Open Scope js_scope.

(** [err.message]; reading it from [undefined] is a [TypeError]. *)
Definition errMessage (err : Exn) : M string :=
  match err with
  | JsError m => ret m
  | JsUndefined => throw (JsError "TypeError: err is undefined")
  end.

(* ===================================================================== *)
(** * The collaborators                                                   *)
(* ===================================================================== *)

(** How an awaited promise of the platform settles. *)
Inductive Reply (A : Type) :=
| Resolved (a : A)
| Rejected (message : string).
Arguments Resolved {A} a.
Arguments Rejected {A} message.

Definition await {A} (r : Reply A) : M A :=
  match r with
  | Resolved a => ret a
  | Rejected m => throw (JsError m)
  end.

(** One run of the function given to [retry] by [sendJobToAPI]: reading
    [telegram_config] rejects, [fetch] rejects, or a response arrives with
    its [ok] flag, [status] and body ([response.text()] when not ok, the
    parsed [response.json()] otherwise). *)
Inductive AttemptReply :=
| ConfigRejected (message : string)
| FetchRejected (message : string)
| Response (ok : bool) (status : nat) (body : string).

(** What the outside does while item [i] of the queue is processed. *)
Record ItemEnv := mkItemEnv {
  item_click : Reply unit;               (* executeScript(simulateClickInMainWorld) *)
  item_popup : Reply PopupData;          (* getPopupData *)
  item_tabCreate : Reply nat;            (* chrome.tabs.create, the new tab's id *)
  item_tabComplete : Reply unit;         (* waitForTabComplete *)
  item_scrape : Reply (option ExternalData);
                                         (* executeScript(scrapeExternalJobPage);
                                            [None]: no usable results[0].result *)
  item_tabRemove : Reply unit;           (* chrome.tabs.remove *)
  item_email : Reply EmailData;          (* getEmailData *)
  item_storageGet : Reply unit;          (* chrome.storage.local.get(['scrapedJobs']) *)
  item_storageSet : Reply unit;          (* chrome.storage.local.set({ scrapedJobs }) *)
  item_processedAt : string;             (* new Date().toISOString() of the payload *)
  item_statsAt : string;                 (* new Date().toISOString() of updateStats *)
  item_stopInFlight : bool;              (* STOP_QUEUE arrives while the item is awaited *)
  item_stopInDelay : bool                (* STOP_QUEUE arrives during the inter-item delay *)
}.

(** The reply to [fetch(`${API_BASE_URL}/api/jobs`)] of the second phase. *)
Inductive JobsReply :=
| JobsRejected (message : string)
| JobsResponse (ok : bool) (status : nat) (json : Reply (list JobPayload)).

(** What the outside does during the resume-builder phase. *)
Record Phase2Env := mkPhase2Env {
  p2_jobs : JobsReply;
  p2_update : Reply unit;                (* chrome.tabs.update to the builder page *)
  p2_complete : Reply unit;              (* waitForTabComplete after it *)
  p2_build : nat -> Reply bool;          (* BUILD_RESUME round trip: [result && result.success] *)
  p2_builtAt : nat -> string;            (* new Date().toISOString() *)
  p2_reload : nat -> Reply unit;         (* chrome.tabs.reload *)
  p2_reloaded : nat -> Reply unit;       (* waitForTabComplete after it *)
  p2_stopInFlight : nat -> bool          (* STOP_QUEUE arrives while record i is built *)
}.

(** What the outside does while a start command is handled. *)
Record StartEnv := mkStartEnv {
  start_setActive : Reply unit;          (* storage.set({ QUEUE_ACTIVE: true }) *)
  start_removeHistory : Reply unit;      (* storage.remove([PROCESSED_IDS, STATS]) *)
  start_tabs : Reply (list nat);         (* chrome.tabs.query, the ids of the tabs found *)
  start_collect : Reply unit;            (* requestJobCollection *)
  start_collected : option (list RawJob) (* JOBS_COLLECTED arriving before the pause ends *)
}.

Record Env := mkEnv {
  env_hostname : string -> option string;  (* new URL(url).hostname *)
  env_start : StartEnv;
  env_item : nat -> ItemEnv;
  env_attempt : nat -> AttemptReply;       (* the k-th submission attempt of the run *)
  env_phase2 : Phase2Env
}.

(* ===================================================================== *)
(** * utils/helpers.js: logging, timing, retry, bookkeeping               *)
(* ===================================================================== *)

Definition emit (e : Event) : M unit :=
  modify (fun w => set_trace (e :: trace w) w).

Definition log (level : LogLevel) (text : LogText) : M unit :=
  if (LEVELS level <? CURRENT_LEVEL)%nat then ret tt
  else emit (EvLog level text).

Definition sleep (ms : Z) : M unit := emit (EvSleep ms).

(** The loop of [retry] from attempt number [attempt], with [remaining]
    rounds to go ([attempt <= maxRetries] holds exactly when [remaining] is
    not zero) and the last error caught so far. *)
Fixpoint retryLoop {A} (fn : M A) (maxRetries : nat) (baseDelayMs : Z)
    (remaining attempt : nat) (lastError : Exn) : M A :=
  match remaining with
  | O => throw lastError
  | S remaining' =>
      tryCatch fn (fun err =>
        let delay := baseDelayMs * 2 ^ (Z.of_nat (attempt - 1)) in
        m <- errMessage err ;;
        log WARN (LRetry attempt maxRetries delay m) ;;
        (if (attempt <? maxRetries)%nat then sleep delay else ret tt) ;;
        retryLoop fn maxRetries baseDelayMs remaining' (S attempt) err)
  end.

Definition retry {A} (fn : M A) (maxRetries : nat) (baseDelayMs : Z) : M A :=
  retryLoop fn maxRetries baseDelayMs maxRetries 1 JsUndefined.

Definition markAsProcessed (id : string) : M unit :=
  modify (fun w =>
    let ids := match processedIds w with Some l => l | None => [] end in
    let ids' := if existsb (String.eqb id) ids then ids else (ids ++ [id])%list in
    set_processedIds (Some ids') w).

Inductive StatType := StatSuccess | StatFailed.

Definition updateStats (type : StatType) (now : string) : M unit :=
  modify (fun w =>
    let st := match stats w with
              | Some s => s
              | None => mkStats 0 0 None
              end in
    let s1 := match type with
              | StatSuccess => S (stats_success st)
              | StatFailed => stats_success st
              end in
    let f1 := match type with
              | StatFailed => S (stats_failed st)
              | StatSuccess => stats_failed st
              end in
    set_stats (Some (mkStats s1 f1 (Some now))) w).

Section Orchestrator.

Variable env : Env.

(* =================================================================== *)
(** ** utils/api.js                                                     *)
(* =================================================================== *)

(** The function given to [retry]: one POST of the record.  The reply is
    the one the environment holds for the next submission attempt. *)
Definition postJob (jobData : JobPayload) : M string :=
  fun w =>
    let w1 := set_attempts (S (attempts w)) w in
    match env_attempt env (attempts w) with
    | ConfigRejected m => (Throw (JsError m), w1)
    | FetchRejected m =>
        (emit (EvRequest (RPostJob jobData (telegram_config w))) ;;
         throw (JsError m)) w1
    | Response ok status body =>
        (emit (EvRequest (RPostJob jobData (telegram_config w))) ;;
         if ok then ret body
         else throw (JsError ("API error " ++ JsString.ofNat status
                              ++ ": " ++ body))) w1
    end.

Definition sendJobToAPI (jobData : JobPayload) : M ApiResult :=
  log INFO (LSending (jobId jobData) (title jobData)) ;;
  tryCatch
    (result <- retry (postJob jobData) MAX_RETRIES RETRY_BASE_DELAY_MS ;;
     log INFO (LSent (jobId jobData) result) ;;
     ret (mkApiResult true result EmptyString))
    (fun err =>
       m <- errMessage err ;;
       log ERROR (LSendFailed (jobId jobData) m) ;;
       ret (mkApiResult false EmptyString m)).

(* =================================================================== *)
(** ** background.js                                                    *)
(* =================================================================== *)

Definition broadcastStatus (message : StatusText) (level : StatusLevel)
  : M unit :=
  log INFO (LStatus message) ;;
  w <- gets (fun w => w) ;;
  emit (EvStatus message level (processedCount w) (failedCount w)
                 (length (queue w))).

(** The [STOP_QUEUE] case of the message router. *)
Definition onStopQueue : M unit :=
  modify (set_stopRequested true) ;;
  log INFO LStopRequested.

(** [await m] at a point where a stop command may be delivered: the
    router runs while the worker is suspended, and the worker resumes
    with the outcome of [m]. *)
Definition awaiting {A} (stopArrives : bool) (m : M A) : M A :=
  tryFinally m (if stopArrives then onStopQueue else ret tt).

Definition dashboardUrl : string := "https://landbetterjobs.com/dashboard".
Definition resumeBuilderUrl : string :=
  "https://landbetterjobs.com/jd-resume-builder".

(** [finishQueue]; [chrome.tabs.update] and [chrome.storage.local.set] are
    fired without being awaited, so that their rejections reach nobody;
    the stored flag is taken to be written at once. *)
Definition finishQueue : M unit :=
  tab <- gets dashboardTabId ;;
  match tab with
  | Some (S _) =>
      log INFO LRedirecting ;;
      emit (EvRequest (RTabUpdate tab dashboardUrl))
  | _ => ret tt
  end ;;
  modify (set_isRunning false) ;;
  modify (set_stopRequested false) ;;
  modify (set_dashboardTabId None) ;;
  modify (set_queue []) ;;
  modify (set_queueActive (Some false)) ;;
  log INFO LShutDown.

Definition getPopupData (rowIndex : nat) : M PopupData :=
  tab <- gets dashboardTabId ;;
  emit (EvRequest (RClickJobAction tab rowIndex)) ;;
  await (item_popup (env_item env rowIndex)).

(** [getEmailData] of the item at [rowIndex]. *)
Definition getEmailData (rowIndex : nat) : M EmailData :=
  tab <- gets dashboardTabId ;;
  emit (EvRequest (RExtractEmailData tab)) ;;
  await (item_email (env_item env rowIndex)).

Definition waitForTabComplete (tabId : option nat) (reply : Reply unit)
  : M unit :=
  emit (EvRequest (RTabWaitComplete tabId)) ;;
  await reply.

Definition dquote : string := String (ascii_of_nat 34) EmptyString.

(** ['No "View Full Post" URL found in popup']. *)
Definition noViewUrlMessage : string :=
  "No " ++ dquote ++ "View Full Post" ++ dquote ++ " URL found in popup".

(** The initial value of [externalData]. *)
Definition emptyExternalData : ExternalData :=
  mkExternalData EmptyString EmptyString EmptyString EmptyString.

(** The initial value of [emailData]. *)
Definition emptyEmailData : EmailData := mkEmailData EmptyString EmptyString.

Definition removeTab (id : nat) (tabs : list nat) : list nat :=
  filter (fun t => negb (Nat.eqb t id)) tabs.

(** *** [processJobFlow], block by block *)

(** Step 1: the simulated click in the main world of the dashboard. *)
Definition stepSimulateClick (rowIndex : nat) (jobNum : JobNum) : M unit :=
  broadcastStatus (TSimulating jobNum) Sinfo ;;
  tryCatch
    (tab <- gets dashboardTabId ;;
     emit (EvRequest (RSimulateClick tab rowIndex)) ;;
     await (item_click (env_item env rowIndex)))
    (fun err =>
       m <- errMessage err ;;
       throw (JsError ("Failed to simulate click: " ++ m))).

(** Step 2: the popup data, and the required [viewFullPostUrl]. *)
Definition stepPopupData (rowIndex : nat) (jobNum : JobNum) : M PopupData :=
  popupData <- tryCatch (getPopupData rowIndex)
                 (fun err =>
                    m <- errMessage err ;;
                    throw (JsError ("Popup extraction failed: " ++ m))) ;;
  log INFO (LPopupExtracted jobNum popupData) ;;
  if negb (JsString.truthy (popup_viewFullPostUrl popupData))
  then throw (JsError noViewUrlMessage)
  else ret popupData.

(** Opening the external tab and waiting for its load. *)
Definition stepOpenTab (rowIndex : nat) (viewUrl : string) : M nat :=
  tryCatch
    (emit (EvRequest (RTabCreate viewUrl)) ;;
     id <- await (item_tabCreate (env_item env rowIndex)) ;;
     modify (fun w => set_openTabs (id :: openTabs w) w) ;;
     waitForTabComplete (Some id) (item_tabComplete (env_item env rowIndex)) ;;
     ret id)
    (fun err =>
       m <- errMessage err ;;
       throw (JsError ("Failed to open/load external tab: " ++ m))).

(** Step 3 and step 4: the scraper runs in the tab, and the tab is closed
    in the [finally] block. *)
Definition stepScrape (rowIndex : nat) (jobNum : JobNum) (tab : nat)
  : M ExternalData :=
  tryFinally
    (tryCatch
       (sleep 1000 ;;
        emit (EvRequest (RScrape tab)) ;;
        results <- await (item_scrape (env_item env rowIndex)) ;;
        match results with
        | None =>
            log WARN (LScrapeEmpty jobNum) ;;
            ret emptyExternalData
        | Some data =>
            log INFO (LExternalExtracted jobNum data) ;;
            ret data
        end)
       (fun err =>
          m <- errMessage err ;;
          log WARN (LExtractorFailed jobNum m) ;;
          ret emptyExternalData))
    (tryCatch
       (emit (EvRequest (RTabRemove tab)) ;;
        await (item_tabRemove (env_item env rowIndex)) ;;
        modify (fun w => set_openTabs (removeTab tab (openTabs w)) w) ;;
        log INFO (LTabClosed jobNum))
       (fun _ => ret tt)).

(** Step 4.5: the email template. *)
Definition stepEmail (rowIndex : nat) (jobNum : JobNum) : M EmailData :=
  broadcastStatus (TExtractingEmail jobNum) Sinfo ;;
  tryCatch
    (emailData <- getEmailData rowIndex ;;
     log INFO (LEmailExtracted jobNum emailData) ;;
     ret emailData)
    (fun err =>
       m <- errMessage err ;;
       log WARN (LEmailFailed jobNum m) ;;
       ret emptyEmailData).

(** Step 5: the merged [jobPayload]. *)
Definition mergePayload (rawJob : RawJob) (id : string)
    (popupData : PopupData) (viewUrl : string)
    (externalData : ExternalData) (emailData : EmailData)
    (src now : string) : JobPayload :=
  {| jobId := id;
     title := popup_title popupData ||| raw_title rawJob ||| EmptyString;
     company := popup_company popupData ||| raw_company rawJob ||| EmptyString;
     hiringManager := popup_hiringManager popupData;
     shortDescription := popup_shortDescription popupData ||| EmptyString;
     viewFullPostUrl := viewUrl;
     fullDescription := ext_fullDescription externalData ||| EmptyString;
     applyEmail := ext_applyEmail externalData ||| "not-provided";
     location := ext_location externalData ||| EmptyString;
     experience := ext_experience externalData ||| EmptyString;
     emailSubject := mail_emailSubject emailData ||| EmptyString;
     emailBody := mail_emailBody emailData ||| EmptyString;
     source := src;
     processedAt := now;
     jdResumeBuilt := false;
     jdResumeBuiltAt := EmptyString |}.

(** [jobs.filter(j => j.jobId !== jobId)] followed by [push]. *)
Definition replaceById (jobs : list JobPayload) (jobPayload : JobPayload)
  : list JobPayload :=
  (filter (fun j => negb (String.eqb (jobId j) (jobId jobPayload))) jobs
   ++ [jobPayload])%list.

(** Save to local storage. *)
Definition stepSaveLocal (rowIndex : nat) (jobNum : JobNum)
    (jobPayload : JobPayload) : M unit :=
  tryCatch
    (await (item_storageGet (env_item env rowIndex)) ;;
     stored <- gets scrapedJobs ;;
     let jobs := match stored with Some l => l | None => [] end in
     let filtered := replaceById jobs jobPayload in
     await (item_storageSet (env_item env rowIndex)) ;;
     modify (set_scrapedJobs (Some filtered)) ;;
     log INFO (LSavedLocal jobNum))
    (fun err => log WARN (LSaveLocalFailed jobNum err)).

(** Send to API (optional). *)
Definition stepSendToAPI (jobPayload : JobPayload) : M unit :=
  tryCatch
    (apiResult <- sendJobToAPI jobPayload ;;
     if negb (api_success apiResult)
     then log WARN (LApiFailedContinuing (api_error apiResult))
     else ret tt)
    (fun err =>
       m <- errMessage err ;;
       log WARN (LApiCallFailed m)).

Definition processJobFlow (rawJob : RawJob) (id : string)
    (rowIndex : nat) (jobNum : JobNum) : M unit :=
  stepSimulateClick rowIndex jobNum ;;
  popupData <- stepPopupData rowIndex jobNum ;;
  let viewUrl := popup_viewFullPostUrl popupData in
  let src := getDomainGroup (env_hostname env) viewUrl in
  broadcastStatus (TOpening jobNum src) Sinfo ;;
  tab <- stepOpenTab rowIndex viewUrl ;;
  externalData <- stepScrape rowIndex jobNum tab ;;
  emailData <- stepEmail rowIndex jobNum ;;
  let jobPayload :=
    mergePayload rawJob id popupData viewUrl externalData emailData src
      (item_processedAt (env_item env rowIndex)) in
  stepSaveLocal rowIndex jobNum jobPayload ;;
  stepSendToAPI jobPayload.

(** The wrapper holding the sequential lock. *)
Definition processSingleJob (rawJob : RawJob) (id : string)
    (rowIndex : nat) (jobNum : JobNum) : M unit :=
  locked <- gets isProcessing ;;
  if locked then ret tt
  else
    modify (set_isProcessing true) ;;
    tryFinally
      (processJobFlow rawJob id rowIndex jobNum ;;
       markAsProcessed id ;;
       updateStats StatSuccess (item_statsAt (env_item env rowIndex)))
      (modify (set_isProcessing false)).

(** *** Phase 2: the resume-builder queue *)

(** The loop over [pendingJobs] from index [i]; [rest] is
    [pendingJobs.slice(i)] and [total] is [pendingJobs.length]. *)
Fixpoint resumeLoop (rest : list JobPayload) (i total : nat) : M unit :=
  match rest with
  | [] => ret tt
  | job :: rest' =>
      stop <- gets stopRequested ;;
      if stop then ret tt
      else
        let jobNum := mkJobNum (i + 1) total in
        broadcastStatus (TBuildingResume jobNum (title job)) Sinfo ;;
        tryCatch
          (tab <- gets dashboardTabId ;;
           emit (EvRequest (RBuildResume tab job)) ;;
           built <- awaiting (p2_stopInFlight (env_phase2 env) i)
                      (await (p2_build (env_phase2 env) i)) ;;
           if built then
             let job' :=
               {| jobId := jobId job; title := title job;
                  company := company job;
                  hiringManager := hiringManager job;
                  shortDescription := shortDescription job;
                  viewFullPostUrl := viewFullPostUrl job;
                  fullDescription := fullDescription job;
                  applyEmail := applyEmail job;
                  location := location job;
                  experience := experience job;
                  emailSubject := emailSubject job;
                  emailBody := emailBody job;
                  source := source job;
                  processedAt := processedAt job;
                  jdResumeBuilt := true;
                  jdResumeBuiltAt := p2_builtAt (env_phase2 env) i |} in
             sendJobToAPI job' ;;
             broadcastStatus (TResumeBuilt jobNum (title job)) Ssuccess
           else ret tt)
          (fun err =>
             m <- errMessage err ;;
             log ERROR (LResumeBuildFailed jobNum m) ;;
             broadcastStatus (TResumeFailed jobNum (title job) m) Serror) ;;
        stop' <- gets stopRequested ;;
        (if (i <? total - 1)%nat && negb stop' then
           broadcastStatus TWaitingReload Sinfo ;;
           sleep 5000 ;;
           tab <- gets dashboardTabId ;;
           emit (EvRequest (RTabReload tab)) ;;
           await (p2_reload (env_phase2 env) i) ;;
           waitForTabComplete tab (p2_reloaded (env_phase2 env) i) ;;
           sleep 3000
         else ret tt) ;;
        resumeLoop rest' (S i) total
  end.

Definition runResumeBuilderQueue : M unit :=
  log INFO LStartingResumeQueue ;;
  fetched <-
    tryCatch
      (emit (EvRequest RGetJobs) ;;
       match p2_jobs (env_phase2 env) with
       | JobsRejected m => throw (JsError m)
       | JobsResponse ok status json =>
           if ok then (jobs <- await json ;; ret (Some jobs))
           else throw (JsError ("HTTP error! status: "
                                ++ JsString.ofNat status))
       end)
      (fun err =>
         m <- errMessage err ;;
         broadcastStatus (TFetchJobsFailed m) Serror ;;
         ret None) ;;
  match fetched with
  | None => ret tt
  | Some jobs =>
      let pendingJobs := filter (fun job => negb (jdResumeBuilt job)) jobs in
      match pendingJobs with
      | [] => broadcastStatus TNoPendingJobs Ssuccess
      | _ :: _ =>
          broadcastStatus (TBuildingResumes (length pendingJobs)) Sinfo ;;
          navigated <-
            tryCatch
              (tab <- gets dashboardTabId ;;
               emit (EvRequest (RTabUpdate tab resumeBuilderUrl)) ;;
               await (p2_update (env_phase2 env)) ;;
               waitForTabComplete tab (p2_complete (env_phase2 env)) ;;
               sleep 2000 ;;
               ret true)
              (fun err =>
                 m <- errMessage err ;;
                 broadcastStatus (TNavigateFailed m) Serror ;;
                 ret false) ;;
          if navigated then
            resumeLoop pendingJobs 0 (length pendingJobs) ;;
            broadcastStatus TPhase2Complete Scomplete
          else ret tt
      end
  end.

(** *** Phase 1: the main queue loop *)

(** The end of the [try] block of a round: the item is counted as
    processed. *)
Definition itemSucceeded (jobNum : JobNum) (rawJob : RawJob) : M unit :=
  modify (fun w => set_processedCount (S (processedCount w)) w) ;;
  broadcastStatus (TDone jobNum (raw_title rawJob)) Ssuccess.

(** The [catch] block of a round: the item is counted as failed. *)
Definition itemFailed (i : nat) (jobNum : JobNum) (rawJob : RawJob)
    (err : Exn) : M unit :=
  modify (fun w => set_failedCount (S (failedCount w)) w) ;;
  updateStats StatFailed (item_statsAt (env_item env i)) ;;
  m <- errMessage err ;;
  log ERROR (LJobFailed jobNum (raw_title rawJob) m) ;;
  broadcastStatus (TFailed jobNum (raw_title rawJob) m) Serror.

(** The wait before the next job (except after the last). *)
Definition interItemDelay (i : nat) : M unit :=
  total <- gets (fun w => length (queue w)) ;;
  stop <- gets stopRequested ;;
  if (i <? total - 1)%nat && negb stop then
    broadcastStatus (TWaiting (JOB_DELAY_MS / 1000)) Sinfo ;;
    awaiting (item_stopInDelay (env_item env i)) (sleep JOB_DELAY_MS)
  else ret tt.

(** One round of the loop of [runQueue] for the item at index [i], from
    the status line "Processing" to the inter-item delay. *)
Definition runQueueItem (i : nat) (rawJob : RawJob) : M unit :=
  total <- gets (fun w => length (queue w)) ;;
  let id := generateJobId (raw_title rawJob ||| ("job_" ++ JsString.ofNat i))
                          (raw_company rawJob ||| "unknown") in
  let jobNum := mkJobNum (i + 1) total in
  broadcastStatus (TProcessing jobNum (raw_title rawJob)) Sinfo ;;
  tryCatch
    (awaiting (item_stopInFlight (env_item env i))
       (processSingleJob rawJob id i jobNum) ;;
     itemSucceeded jobNum rawJob)
    (itemFailed i jobNum rawJob) ;;
  interItemDelay i.

(** [for (let i = ...; i < queue.length; i++)] from index [i]; [fuel]
    bounds the number of rounds ([runQueue] gives [queue.length]). *)
Fixpoint runQueueLoop (fuel i : nat) : M unit :=
  match fuel with
  | O => ret tt
  | S fuel' =>
      q <- gets queue ;;
      if (i <? length q)%nat then
        stop <- gets stopRequested ;;
        if stop then broadcastStatus TStopped Swarn
        else
          match nth_error q i with
          | Some rawJob =>
              runQueueItem i rawJob ;;
              runQueueLoop fuel' (S i)
          | None => throw (JsError "TypeError: rawJob is undefined")
          end
      else ret tt
  end.

(** What [runQueue] does once the loop is left. *)
Definition runQueueEpilogue : M unit :=
  w <- gets (fun w => w) ;;
  broadcastStatus (TPhase1Complete (processedCount w) (failedCount w))
    Ssuccess ;;
  stop <- gets stopRequested ;;
  (if negb stop then
     broadcastStatus TStartingPhase2 Sinfo ;;
     sleep 2000 ;;
     runResumeBuilderQueue
   else ret tt) ;;
  finishQueue.

Definition runQueue : M unit :=
  n <- gets (fun w => length (queue w)) ;;
  runQueueLoop n 0 ;;
  runQueueEpilogue.

(** *** The start command *)

Record StartOptions := mkStartOptions { clearHistory : bool }.

(** The [JOBS_COLLECTED] case of the message router. *)
Definition onJobsCollected (jobs : list RawJob) : M unit :=
  modify (set_queue jobs).

Definition handleStartQueue (options : StartOptions) : M unit :=
  running <- gets isRunning ;;
  if running then log WARN LAlreadyRunning
  else
    log INFO LStarting ;;
    modify (set_isRunning true) ;;
    modify (set_stopRequested false) ;;
    modify (set_processedCount 0) ;;
    modify (set_failedCount 0) ;;
    await (start_setActive (env_start env)) ;;
    modify (set_queueActive (Some true)) ;;
    (if clearHistory options then
       await (start_removeHistory (env_start env)) ;;
       modify (set_processedIds None) ;;
       modify (set_stats None) ;;
       log INFO LClearedHistory
     else ret tt) ;;
    found <-
      tryCatch
        (emit (EvRequest RQueryDashboardTabs) ;;
         tabs <- await (start_tabs (env_start env)) ;;
         match tabs with
         | [] =>
             broadcastStatus TNoDashboardTab Serror ;;
             finishQueue ;;
             ret false
         | id :: _ =>
             modify (set_dashboardTabId (Some id)) ;;
             log INFO (LDashboardTab id) ;;
             ret true
         end)
        (fun err =>
           log ERROR (LFindTabFailed err) ;;
           finishQueue ;;
           ret false) ;;
    if negb found then ret tt
    else
      broadcastStatus TCollecting Sinfo ;;
      collected <-
        tryCatch
          (tab <- gets dashboardTabId ;;
           emit (EvRequest (RCollectJobs tab)) ;;
           await (start_collect (env_start env)) ;;
           ret true)
          (fun err =>
             m <- errMessage err ;;
             broadcastStatus (TCollectFailed m) Serror ;;
             finishQueue ;;
             ret false) ;;
      if negb collected then ret tt
      else
        sleep 800 ;;
        match start_collected (env_start env) with
        | Some jobs => onJobsCollected jobs
        | None => ret tt
        end ;;
        q <- gets queue ;;
        match q with
        | [] =>
            broadcastStatus TNoNewJobs Swarn ;;
            sleep 2000 ;;
            runResumeBuilderQueue ;;
            finishQueue
        | _ :: _ =>
            broadcastStatus (TFound (length q)) Sinfo ;;
            runQueue
        end.

End Orchestrator.

(* ===================================================================== *)
(** * Vocabulary of the statements                                        *)
(* ===================================================================== *)

(** A string that does not begin with white space. *)
Definition cleanStart (s : string) : Prop :=
  match s with
  | EmptyString => True
  | String c _ => JsString.isWhiteSpace c = false
  end.

(** The world [w] with the events [es] (newest first) added to its trace. *)
Definition pushEvents (es : list Event) (w : World) : World :=
  set_trace (es ++ trace w)%list w.

(** The world after [broadcastStatus message level]. *)
Definition announced (message : StatusText) (level : StatusLevel) (w : World)
  : World :=
  pushEvents [EvStatus message level (processedCount w) (failedCount w)
                       (length (queue w));
              EvLog INFO (LStatus message)] w.

(** The world after the router has handled [STOP_QUEUE]. *)
Definition stopped (w : World) : World :=
  pushEvents [EvLog INFO LStopRequested] (set_stopRequested true w).

(** The world after [finishQueue]. *)
Definition finished (w : World) : World :=
  let w1 :=
    match dashboardTabId w with
    | Some (S _) =>
        pushEvents [EvRequest (RTabUpdate (dashboardTabId w) dashboardUrl);
                    EvLog INFO LRedirecting] w
    | _ => w
    end in
  pushEvents [EvLog INFO LShutDown]
    (set_queueActive (Some false)
       (set_queue []
          (set_dashboardTabId None
             (set_stopRequested false (set_isRunning false w1))))).

(** [stored.scrapedJobs || []]. *)
Definition storedJobs (w : World) : list JobPayload :=
  match scrapedJobs w with Some l => l | None => [] end.

(** The value of [externalData] after the scraping step, by the reply of
    the scraper. *)
Definition externalOf (r : Reply (option ExternalData)) : ExternalData :=
  match r with
  | Resolved (Some data) => data
  | Resolved None | Rejected _ => emptyExternalData
  end.

(** The value of [emailData] after step 4.5, by the reply of the
    dashboard. *)
Definition emailOf (r : Reply EmailData) : EmailData :=
  match r with
  | Resolved data => data
  | Rejected _ => emptyEmailData
  end.

(** The id given to the item at index [i] by [runQueue]. *)
Definition jobIdOf (i : nat) (rawJob : RawJob) : string :=
  generateJobId (raw_title rawJob ||| ("job_" ++ JsString.ofNat i))
                (raw_company rawJob ||| "unknown").

(** The record merged for the item at index [i] when its detail panel
    gives [popupData]. *)
Definition payloadOf (env : Env) (i : nat) (rawJob : RawJob) (id : string)
    (popupData : PopupData) : JobPayload :=
  mergePayload rawJob id popupData (popup_viewFullPostUrl popupData)
    (externalOf (item_scrape (env_item env i)))
    (emailOf (item_email (env_item env i)))
    (getDomainGroup (env_hostname env) (popup_viewFullPostUrl popupData))
    (item_processedAt (env_item env i)).

(** The message of the error with which a submission attempt fails, if it
    fails. *)
Definition attemptError (r : AttemptReply) : option string :=
  match r with
  | ConfigRejected m | FetchRejected m => Some m
  | Response false status body =>
      Some ("API error " ++ JsString.ofNat status ++ ": " ++ body)
  | Response true _ _ => None
  end.

(** The events of steps 1 and 2 of the flow of item [i], newest first. *)
Definition popupEvents (i : nat) (jobNum : JobNum) (popupData : PopupData)
    (w : World) : list Event :=
  [EvLog INFO (LPopupExtracted jobNum popupData);
   EvRequest (RClickJobAction (dashboardTabId w) i);
   EvRequest (RSimulateClick (dashboardTabId w) i);
   EvStatus (TSimulating jobNum) Sinfo (processedCount w) (failedCount w)
     (length (queue w));
   EvLog INFO (LStatus (TSimulating jobNum))].

(** The events of the flow of item [i] up to the wait for the external tab
    [tab], newest first. *)
Definition openEvents (env : Env) (i : nat) (jobNum : JobNum)
    (popupData : PopupData) (tab : nat) (w : World) : list Event :=
  ([EvRequest (RTabWaitComplete (Some tab));
    EvRequest (RTabCreate (popup_viewFullPostUrl popupData));
    EvStatus (TOpening jobNum
                (getDomainGroup (env_hostname env)
                   (popup_viewFullPostUrl popupData)))
      Sinfo (processedCount w) (failedCount w) (length (queue w));
    EvLog INFO (LStatus (TOpening jobNum
                           (getDomainGroup (env_hostname env)
                              (popup_viewFullPostUrl popupData))))]
   ++ popupEvents i jobNum popupData w)%list.

(** [w'] has the stored records, the submission count and the
    configuration of [w]. *)
Definition sameStore (w w' : World) : Prop :=
  attempts w' = attempts w
  /\ telegram_config w' = telegram_config w
  /\ scrapedJobs w' = scrapedJobs w.

(** [w'] has the queue, the run flag, the dashboard tab and the counters
    of [w]. *)
Definition sameRun (w w' : World) : Prop :=
  queue w' = queue w
  /\ isRunning w' = isRunning w
  /\ dashboardTabId w' = dashboardTabId w
  /\ processedCount w' = processedCount w
  /\ failedCount w' = failedCount w.

(** ** Classes of events *)

Definition isSleep (e : Event) : bool :=
  match e with EvSleep _ => true | _ => false end.

(** The status line that opens the processing of an item. *)
Definition startsItem (e : Event) : bool :=
  match e with EvStatus (TProcessing _ _) _ _ _ _ => true | _ => false end.

(** The events by which the resume-builder phase is entered. *)
Definition entersPhase2 (e : Event) : bool :=
  match e with
  | EvStatus TStartingPhase2 _ _ _ _ => true
  | EvLog _ LStartingResumeQueue => true
  | EvLog _ (LStatus TStartingPhase2) => true
  | EvRequest RGetJobs => true
  | _ => false
  end.

(** The levels other than [error] and [warn]. *)
Definition quietLevel (l : StatusLevel) : bool :=
  match l with
  | Serror | Swarn => false
  | Sinfo | Ssuccess | Scomplete => true
  end.

(** A status broadcast at level [error] or [warn]. *)
Definition isProblemStatus (e : Event) : bool :=
  match e with
  | EvStatus _ l _ _ _ => negb (quietLevel l)
  | _ => false
  end.

(** An event other than a status of level [error] or [warn]. *)
Definition quiet (e : Event) : bool := negb (isProblemStatus e).

(** The trace of [w'] extends the trace of [w] by events satisfying [ok]. *)
Definition extendsBy (ok : Event -> bool) (w w' : World) : Prop :=
  exists es, trace w' = (es ++ trace w)%list /\ forallb ok es = true.

(** An event by which the worker goes on working: a sleep, the start of
    an item, or the entry into the resume-builder phase. *)
Definition resumesWork (e : Event) : bool :=
  isSleep e || startsItem e || entersPhase2 e.

(** The last event of the trace is the status closing an item, [Done] or
    [Failed]. *)
Definition endsWithItemStatus (w : World) : Prop :=
  match trace w with
  | EvStatus (TDone _ _) Ssuccess _ _ _ :: _ => True
  | EvStatus (TFailed _ _ _) Serror _ _ _ :: _ => True
  | _ => False
  end.

(** A request to close a tab. *)
Definition isTabRemove (e : Event) : bool :=
  match e with EvRequest (RTabRemove _) => true | _ => false end.

(** The text and the level of the statuses broadcast, oldest first. *)
Definition statusesOf (t : list Event) : list (StatusText * StatusLevel) :=
  rev (flat_map (fun e => match e with
                          | EvStatus text level _ _ _ => [(text, level)]
                          | _ => []
                          end) t).

(** ** Assertions on computations *)

(** The outcome is not a thrown [undefined]. *)
Definition errorsOnly {A} (r : Outcome A) : Prop :=
  match r with
  | Throw JsUndefined => False
  | _ => True
  end.

(** The outcome is a normal return. *)
Definition succeeds {A} (r : Outcome A) : Prop :=
  match r with
  | Ok _ => True
  | Throw _ => False
  end.

(** From every world satisfying [I], the computation [m] ends in a world
    satisfying [I] with an outcome satisfying [Q]. *)
Definition sat {A} (I : World -> Prop) (Q : Outcome A -> Prop) (m : M A)
  : Prop :=
  forall w, I w -> I (snd (m w)) /\ Q (fst (m w)).

(** [m] keeps [I] and throws nothing but [Error]s. *)
Definition safe {A} (I : World -> Prop) (m : M A) : Prop := sat I errorsOnly m.

(** [m] keeps [I] and returns normally. *)
Definition nothrow {A} (I : World -> Prop) (m : M A) : Prop := sat I succeeds m.

(** ** A concrete platform, for examples *)

Module Sample.

(** A URL parser for [http://host...] and [https://host...]: the host
    runs up to the first [/], [?], [#] or [:] and must not be empty; every
    other input is rejected. *)
Fixpoint dropChars (n : nat) (s : string) : string :=
  match n, s with
  | O, _ => s
  | S n', String _ r => dropChars n' r
  | S _, EmptyString => EmptyString
  end.

Fixpoint takeHost (s : string) : string :=
  match s with
  | EmptyString => EmptyString
  | String c r =>
      if (Ascii.eqb c "/" || Ascii.eqb c "?" || Ascii.eqb c "#"
          || Ascii.eqb c ":")%char
      then EmptyString
      else String c (takeHost r)
  end.

Definition hostname (url : string) : option string :=
  let rest :=
    if JsString.startsWith url "https://" then Some (dropChars 8 url)
    else if JsString.startsWith url "http://" then Some (dropChars 7 url)
    else None in
  match rest with
  | Some r =>
      match takeHost r with
      | EmptyString => None
      | h => Some h
      end
  | None => None
  end.

Definition job1 : RawJob := mkRawJob "Backend Engineer" "Acme Inc".
Definition job2 : RawJob := mkRawJob "QA Analyst" "Globex".

Definition popup (url : string) : PopupData :=
  mkPopupData "Backend Engineer" "Acme Inc"
    (Some (mkHiringManager "Dana" "https://www.linkedin.com/in/dana"))
    "Short text" url.

Definition external : ExternalData :=
  mkExternalData "Full text" "jobs@acme.example" "Berlin" "3 years".

(** An item for which every collaborator answers; the detail panel gives
    [url] as the target. *)
Definition itemOk (url : string) : ItemEnv :=
  {| item_click := Resolved tt;
     item_popup := Resolved (popup url);
     item_tabCreate := Resolved 42%nat;
     item_tabComplete := Resolved tt;
     item_scrape := Resolved (Some external);
     item_tabRemove := Resolved tt;
     item_email := Resolved (mkEmailData "Subject" "Body");
     item_storageGet := Resolved tt;
     item_storageSet := Resolved tt;
     item_processedAt := "2026-01-01T00:00:00.000Z";
     item_statsAt := "2026-01-01T00:00:01.000Z";
     item_stopInFlight := false;
     item_stopInDelay := false |}.

Definition jobUrl : string := "https://www.linkedin.com/jobs/view/1".

(** Every item of the queue is such an item. *)
Definition allOk : nat -> ItemEnv := fun _ => itemOk jobUrl.

(** The same item when the external page cannot be scraped. *)
Definition itemScrapeFails : ItemEnv :=
  {| item_click := Resolved tt;
     item_popup := Resolved (popup jobUrl);
     item_tabCreate := Resolved 42%nat;
     item_tabComplete := Resolved tt;
     item_scrape := Rejected "Cannot access contents of the page";
     item_tabRemove := Resolved tt;
     item_email := Resolved (mkEmailData "Subject" "Body");
     item_storageGet := Resolved tt;
     item_storageSet := Resolved tt;
     item_processedAt := "2026-01-01T00:00:00.000Z";
     item_statsAt := "2026-01-01T00:00:01.000Z";
     item_stopInFlight := false;
     item_stopInDelay := false |}.

(** The same item when the external tab is created and never finishes
    loading. *)
Definition itemLoadTimeout : ItemEnv :=
  {| item_click := Resolved tt;
     item_popup := Resolved (popup jobUrl);
     item_tabCreate := Resolved 42%nat;
     item_tabComplete := Rejected "Timeout waiting for tab 42 to complete";
     item_scrape := Resolved (Some external);
     item_tabRemove := Resolved tt;
     item_email := Resolved (mkEmailData "Subject" "Body");
     item_storageGet := Resolved tt;
     item_storageSet := Resolved tt;
     item_processedAt := "2026-01-01T00:00:00.000Z";
     item_statsAt := "2026-01-01T00:00:01.000Z";
     item_stopInFlight := false;
     item_stopInDelay := false |}.

(** The same item when a stop command arrives while it is in flight. *)
Definition itemStopped : ItemEnv :=
  {| item_click := Resolved tt;
     item_popup := Resolved (popup jobUrl);
     item_tabCreate := Resolved 42%nat;
     item_tabComplete := Resolved tt;
     item_scrape := Resolved (Some external);
     item_tabRemove := Resolved tt;
     item_email := Resolved (mkEmailData "Subject" "Body");
     item_storageGet := Resolved tt;
     item_storageSet := Resolved tt;
     item_processedAt := "2026-01-01T00:00:00.000Z";
     item_statsAt := "2026-01-01T00:00:01.000Z";
     item_stopInFlight := true;
     item_stopInDelay := false |}.

(** The queue of two items of the end-to-end scenario: the first item
    resolves [jobUrl], the detail panel of the second has no target. *)
Definition secondWithoutUrl (i : nat) : ItemEnv :=
  match i with
  | O => itemOk jobUrl
  | _ => itemOk EmptyString
  end.

(** The external tab of the first item does not finish loading. *)
Definition firstLoadTimeout (i : nat) : ItemEnv :=
  match i with
  | O => itemLoadTimeout
  | _ => itemOk jobUrl
  end.

(** A backend without pending records. *)
Definition phase2 : Phase2Env :=
  {| p2_jobs := JobsResponse true 200 (Resolved []);
     p2_update := Resolved tt;
     p2_complete := Resolved tt;
     p2_build := fun _ => Resolved true;
     p2_builtAt := fun _ => "2026-01-01T00:01:00.000Z";
     p2_reload := fun _ => Resolved tt;
     p2_reloaded := fun _ => Resolved tt;
     p2_stopInFlight := fun _ => false |}.

Definition start : StartEnv :=
  {| start_setActive := Resolved tt;
     start_removeHistory := Resolved tt;
     start_tabs := Resolved [7%nat];
     start_collect := Resolved tt;
     start_collected := Some [job1; job2] |}.

(** The platform with the given items and submission replies. *)
Definition env (items : nat -> ItemEnv) (replies : nat -> AttemptReply)
  : Env :=
  mkEnv hostname start items replies phase2.

(** Every submission is answered by [503]. *)
Definition backendDown : nat -> AttemptReply :=
  fun _ => Response false 503 "unavailable".

(** Every submission is accepted. *)
Definition backendUp : nat -> AttemptReply :=
  fun _ => Response true 200 "{}".

(** The worker in the middle of a run over [jobs], nothing processed. *)
Definition running (jobs : list RawJob) : World :=
  {| queue := jobs; isRunning := true; stopRequested := false;
     dashboardTabId := Some 7%nat; processedCount := 0; failedCount := 0;
     isProcessing := false; scrapedJobs := None; processedIds := None;
     stats := None; queueActive := Some true; telegram_config := None;
     openTabs := []; attempts := 0; trace := [] |}.

(** The idle worker after installation. *)
Definition idle : World :=
  {| queue := []; isRunning := false; stopRequested := false;
     dashboardTabId := None; processedCount := 0; failedCount := 0;
     isProcessing := false; scrapedJobs := None; processedIds := None;
     stats := None; queueActive := None; telegram_config := None;
     openTabs := []; attempts := 0; trace := [] |}.

End Sample.

(* ===================================================================== *)
(** * utils/helpers.js and background.js: reading the stores              *)
(* ===================================================================== *)

(** [result[STORAGE.PROCESSED_IDS] || []]. *)
Definition storedIds (w : World) : list string :=
  match processedIds w with Some l => l | None => [] end.

(** [isAlreadyProcessed]: [ids.includes(jobId)]. *)
Definition isAlreadyProcessed (jobId : string) : M bool :=
  gets (fun w => existsb (String.eqb jobId) (storedIds w)).

(** [clearProcessedIds]: [chrome.storage.local.remove(PROCESSED_IDS)]. *)
Definition clearProcessedIds : M unit :=
  modify (set_processedIds None).

(** [result[STORAGE.STATS] || { success: 0, failed: 0, lastRun: null }]. *)
Definition statsOf (w : World) : Stats :=
  match stats w with
  | Some s => s
  | None => mkStats 0 0 None
  end.

(** [getStats]: the stored statistics, or the initial ones. *)
Definition getStats : M Stats := gets statsOf.

(** [isJobAlreadyScraped]: [jobs.some(j => j.jobId === jobId)] over
    [result.scrapedJobs || []]. *)
Definition isJobAlreadyScraped (id : string) : M bool :=
  gets (fun w => existsb (fun j => String.eqb (jobId j) id) (storedJobs w)).

(** The answer of the message router to [GET_STATUS]. *)
Record StatusReport := mkStatusReport {
  report_isRunning : bool;
  report_stopRequested : bool;
  report_processedCount : nat;
  report_failedCount : nat;
  report_queueLength : nat
}.

(** The [GET_STATUS] case of the message router. *)
Definition onGetStatus : M StatusReport :=
  gets (fun w => mkStatusReport (isRunning w) (stopRequested w)
                   (processedCount w) (failedCount w) (length (queue w))).

(* ===================================================================== *)
(** * Vocabulary of the further statements                                *)
(* ===================================================================== *)

(** The value of the polynomial
    [hash * 31^n + c_1 * 31^(n-1) + ... + c_n] over the code units of
    [raw], in unbounded integers. *)
Fixpoint polyHash (hash : Z) (raw : string) : Z :=
  match raw with
  | EmptyString => hash
  | String c r => polyHash (31 * hash + JsString.charCode c) r
  end.

(** The ids of the stored records, in order. *)
Definition storedRecordIds (w : World) : list string :=
  map jobId (storedJobs w).

(** A record posted to the backend. *)
Definition isPostJob (e : Event) : bool :=
  match e with EvRequest (RPostJob _ _) => true | _ => false end.

(** The number of stored records with the id [id]. *)
Definition recordsWithId (id : string) (jobs : list JobPayload) : nat :=
  length (filter (fun j => String.eqb (jobId j) id) jobs).

(** The worker as [finishQueue] leaves it. *)
Definition idleWorker (w : World) : Prop :=
  isRunning w = false
  /\ stopRequested w = false
  /\ dashboardTabId w = None
  /\ queue w = []
  /\ queueActive w = Some false.

(** The durations of the sleeps of a trace, oldest first. *)
Definition sleepsOf (t : list Event) : list Z :=
  rev (flat_map (fun e => match e with EvSleep ms => [ms] | _ => [] end) t).

(** The delays [retry] waits after the failures of the attempts number
    [attempt], [attempt + 1], ..., [k] of them. *)
Fixpoint backoffDelays (baseDelayMs : Z) (attempt k : nat) : list Z :=
  match k with
  | O => []
  | S k' =>
      (baseDelayMs * 2 ^ Z.of_nat (attempt - 1))
        :: backoffDelays baseDelayMs (S attempt) k'
  end.

(** The world [w] after [n] submission attempts in all, with the events
    [es] added to the trace. *)
Definition afterAttempts (n : nat) (es : list Event) (w : World) : World :=
  pushEvents es (set_attempts n w).

(** Both requests of the step that saves a record locally are accepted. *)
Definition storageAccepts (item : ItemEnv) : bool :=
  match item_storageGet item, item_storageSet item with
  | Resolved _, Resolved _ => true
  | _, _ => false
  end.

(** From every world satisfying [P], the computation [m] either returns a
    value [a] in a world satisfying [Q a], or throws an [Error] in a world
    satisfying [E]; it does not throw [undefined]. *)
Definition triple {A} (P : World -> Prop) (m : M A)
    (Q : A -> World -> Prop) (E : World -> Prop) : Prop :=
  forall w, P w ->
    match m w with
    | (Ok a, w') => Q a w'
    | (Throw (JsError _), w') => E w'
    | (Throw JsUndefined, _) => False
    end.

(** The computation [m] neither reads nor writes what [g] changes: run
    from [g w], it has the outcome of the run from [w] and leaves the
    world of that run, changed by [g]. *)
Definition commutesWith (g : World -> World) {A} (m : M A) : Prop :=
  forall w, m (g w) = (fst (m w), g (snd (m w))).

(** The run flag is set. *)
Definition running (w : World) : Prop := isRunning w = true.

(** No stop command arrives during the rounds of the items below [n]. *)
Definition noStopBelow (env : Env) (n : nat) : Prop :=
  forall j, (j < n)%nat ->
    item_stopInFlight (env_item env j) = false
    /\ item_stopInDelay (env_item env j) = false.

(** The start command is past its storage requests: the flag
    [queueActive] is stored and, when asked for, the history is removed. *)
Definition storageReady (env : Env) (options : StartOptions) : Prop :=
  start_setActive (env_start env) = Resolved tt
  /\ (clearHistory options = true ->
      start_removeHistory (env_start env) = Resolved tt).

(** What a start command that finds no work leaves: the run is closed, the
    session counters are zero, the stored records are those of [w], and
    the statuses broadcast since [w] are [statuses]. *)
Definition closedWith (statuses : list (StatusText * StatusLevel))
    (w w' : World) : Prop :=
  idleWorker w'
  /\ processedCount w' = 0%nat
  /\ failedCount w' = 0%nat
  /\ scrapedJobs w' = scrapedJobs w
  /\ exists es, trace w' = (es ++ trace w)%list /\ statusesOf es = statuses.

(* ===================================================================== *)
(** * background.js: the body of the loop of the second phase             *)
(* ===================================================================== *)

(** The record after [job.jdResumeBuilt = true; job.jdResumeBuiltAt = now]. *)
Definition builtRecord (job : JobPayload) (now : string) : JobPayload :=
  {| jobId := jobId job; title := title job;
     company := company job;
     hiringManager := hiringManager job;
     shortDescription := shortDescription job;
     viewFullPostUrl := viewFullPostUrl job;
     fullDescription := fullDescription job;
     applyEmail := applyEmail job;
     location := location job;
     experience := experience job;
     emailSubject := emailSubject job;
     emailBody := emailBody job;
     source := source job;
     processedAt := processedAt job;
     jdResumeBuilt := true;
     jdResumeBuiltAt := now |}.

(** The [try] block of a round of [runResumeBuilderQueue]: the record is
    sent to the builder page and, when the page reports success, its new
    state is submitted to the backend. *)
Definition stepBuildResume (env : Env) (i total : nat) (job : JobPayload)
  : M unit :=
  let jobNum := mkJobNum (i + 1) total in
  tryCatch
    (tab <- gets dashboardTabId ;;
     emit (EvRequest (RBuildResume tab job)) ;;
     built <- awaiting (p2_stopInFlight (env_phase2 env) i)
                (await (p2_build (env_phase2 env) i)) ;;
     if built then
       sendJobToAPI env (builtRecord job (p2_builtAt (env_phase2 env) i)) ;;
       broadcastStatus (TResumeBuilt jobNum (title job)) Ssuccess
     else ret tt)
    (fun err =>
       m <- errMessage err ;;
       log ERROR (LResumeBuildFailed jobNum m) ;;
       broadcastStatus (TResumeFailed jobNum (title job) m) Serror).

(** The wait and the reload of the builder page between two records. *)
Definition stepReload (env : Env) (i : nat) : M unit :=
  broadcastStatus TWaitingReload Sinfo ;;
  sleep 5000 ;;
  tab <- gets dashboardTabId ;;
  emit (EvRequest (RTabReload tab)) ;;
  await (p2_reload (env_phase2 env) i) ;;
  waitForTabComplete tab (p2_reloaded (env_phase2 env) i) ;;
  sleep 3000.

(** ** Vocabulary of the second phase *)

(** A record sent to the builder page. *)
Definition isBuild (e : Event) : bool :=
  match e with EvRequest (RBuildResume _ _) => true | _ => false end.

(** A reload of the builder page. *)
Definition isReload (e : Event) : bool :=
  match e with EvRequest (RTabReload _) => true | _ => false end.

Definition notBuild (e : Event) : bool := negb (isBuild e).

(** Neither a record sent to the builder page nor a reload of it. *)
Definition afterBuild (e : Event) : bool := negb (isBuild e) && negb (isReload e).

(** The records sent to the builder page in a trace, oldest first. *)
Definition buildsOf (t : list Event) : list JobPayload :=
  rev (flat_map (fun e => match e with
                          | EvRequest (RBuildResume _ job) => [job]
                          | _ => []
                          end) t).

(** The records of the backend's list whose resume is still to be built;
    none when the list cannot be fetched. *)
Definition pendingOf (r : JobsReply) : list JobPayload :=
  match r with
  | JobsResponse true _ (Resolved jobs) =>
      filter (fun job => negb (jdResumeBuilt job)) jobs
  | _ => []
  end.

(** The builder page can be reached: the navigation and the load that
    follows both succeed. *)
Definition builderReached (p2 : Phase2Env) : Prop :=
  p2_update p2 = Resolved tt /\ p2_complete p2 = Resolved tt.

(** No stop command arrives while a record is built, and every reload of
    the builder page succeeds. *)
Definition undisturbed (p2 : Phase2Env) : Prop :=
  forall i,
    p2_stopInFlight p2 i = false
    /\ p2_reload p2 i = Resolved tt
    /\ p2_reloaded p2 i = Resolved tt.

(* ===================================================================== *)
(** * A platform on which the second phase fails                          *)
(* ===================================================================== *)

Module ReloadRejected.

(** The record of the first item, as the backend lists it after the
    first phase, and a record left pending by an earlier run. *)
Definition fresh : JobPayload :=
  payloadOf (Sample.env Sample.secondWithoutUrl Sample.backendUp) 0
    Sample.job1 (jobIdOf 0 Sample.job1) (Sample.popup Sample.jobUrl).

Definition older : JobPayload :=
  mergePayload Sample.job2 "job_77" (Sample.popup Sample.jobUrl)
    Sample.jobUrl Sample.external (mkEmailData "Subject" "Body")
    "linkedin" "2025-12-31T00:00:00.000Z".

(** The backend lists both records as pending; the builder page is
    reached and builds the first resume; the reload that follows is
    rejected, as it is when the tab has been closed. *)
Definition phase2 : Phase2Env :=
  {| p2_jobs := JobsResponse true 200 (Resolved [fresh; older]);
     p2_update := Resolved tt;
     p2_complete := Resolved tt;
     p2_build := fun _ => Resolved true;
     p2_builtAt := fun _ => "2026-01-01T00:01:00.000Z";
     p2_reload := fun _ => Rejected "No tab with id: 7.";
     p2_reloaded := fun _ => Resolved tt;
     p2_stopInFlight := fun _ => false |}.

Definition env : Env :=
  mkEnv Sample.hostname Sample.start Sample.secondWithoutUrl
    Sample.backendUp phase2.

End ReloadRejected.

(* ===================================================================== *)
(** * background.js: the fallback text of [scrapeExternalJobPage]         *)
(* ===================================================================== *)

(** [s.split(p)[0]] for a non-empty [p]: the text before the first
    occurrence of [p], and all of [s] when [p] does not occur. *)
Fixpoint beforeFirst (s p : string) : string :=
  if JsString.startsWith s p then EmptyString
  else match s with
       | EmptyString => EmptyString
       | String c r => String c (beforeFirst r p)
       end.

(** The words at which the text of the container is cut off. *)
Definition markers : list string :=
  ["Like"; "Comment"; "Repost"; "Send"; "Reactions"].

(** [if (rawText.includes(marker)) rawText = rawText.split(marker)[0]]. *)
Definition cutAtMarker (rawText marker : string) : string :=
  if JsString.includes rawText marker then beforeFirst rawText marker
  else rawText.

(** The loop [for (const marker of markers)]. *)
Definition cutAtMarkers (rawText : string) : string :=
  fold_left cutAtMarker markers rawText.

(** The description taken from the text of the post container when no
    text block is found in it: [rawText.trim()] after the loop. *)
Definition fallbackDescription (innerText : string) : string :=
  JsString.trim (cutAtMarkers innerText).

(* ===================================================================== *)
(** * background.js: the calls waiting for a message of the dashboard     *)
(* ===================================================================== *)

(** [getPopupData] and [getEmailData] each return a promise, arm a timer
    and leave a resolver in a slot of [_pendingResolvers]; the message
    router hands the data of the dashboard to the resolver it finds in
    the slot.  The model keeps the promises made so far, the timers still
    armed and the slots; a resolver is the number of the call that
    installed it. *)
Module Pending.

(** The slots of [_pendingResolvers]. *)
Inductive Slot := popupData | externalData | emailData.

(** The functions that install a resolver. *)
Inductive Call := GetPopupData | GetEmailData.

Definition slotOf (c : Call) : Slot :=
  match c with
  | GetPopupData => popupData
  | GetEmailData => emailData
  end.

Definition timeoutMessage (c : Call) : string :=
  match c with
  | GetPopupData =>
      "Timeout waiting for popup data from dashboard content script"
  | GetEmailData =>
      "Timeout waiting for email data from dashboard content script"
  end.

(** The object [msg.data]: its [error] field, empty when absent, and the
    rest of it. *)
Record Data := mkData {
  data_error : string;
  data_fields : string
}.

(** The state of a promise; [Fulfilled None] is [resolve(undefined)]. *)
Inductive Promise :=
| Waiting
| Fulfilled (value : option Data)
| Failed (message : string).

(** A call made: its function, its promise, and whether its timer is
    still armed. *)
Record Invocation := mkInvocation {
  inv_call : Call;
  inv_promise : Promise;
  inv_timer : bool
}.

Record State := mkState {
  slot_popupData : option nat;
  slot_externalData : option nat;
  slot_emailData : option nat;
  calls : list Invocation
}.

(** The service worker after its start. *)
Definition initial : State := mkState None None None [].

Definition getSlot (s : Slot) (st : State) : option nat :=
  match s with
  | popupData => slot_popupData st
  | externalData => slot_externalData st
  | emailData => slot_emailData st
  end.

Definition setSlot (s : Slot) (v : option nat) (st : State) : State :=
  match s with
  | popupData =>
      mkState v (slot_externalData st) (slot_emailData st) (calls st)
  | externalData =>
      mkState (slot_popupData st) v (slot_emailData st) (calls st)
  | emailData =>
      mkState (slot_popupData st) (slot_externalData st) v (calls st)
  end.

Fixpoint update (id : nat) (f : Invocation -> Invocation)
    (l : list Invocation) : list Invocation :=
  match l, id with
  | [], _ => []
  | inv :: l', O => f inv :: l'
  | inv :: l', S id' => inv :: update id' f l'
  end.

Definition onCall (id : nat) (f : Invocation -> Invocation) (st : State)
  : State :=
  mkState (slot_popupData st) (slot_externalData st) (slot_emailData st)
    (update id f (calls st)).

(** [resolve] and [reject]: a promise is settled once, later calls have
    no effect. *)
Definition settle (p : Promise) (inv : Invocation) : Invocation :=
  match inv_promise inv with
  | Waiting => mkInvocation (inv_call inv) p (inv_timer inv)
  | _ => inv
  end.

(** [clearTimeout(timeout)], and a timer that has fired. *)
Definition disarm (inv : Invocation) : Invocation :=
  mkInvocation (inv_call inv) (inv_promise inv) false.

(** The executor of the promise of [getPopupData] or [getEmailData]: the
    timer is armed and the resolver is stored in the slot, over whatever
    the slot held.  The result is the number of the call. *)
Definition request (c : Call) (st : State) : nat * State :=
  let id := length (calls st) in
  (id,
   setSlot (slotOf c) (Some id)
     (mkState (slot_popupData st) (slot_externalData st)
        (slot_emailData st)
        (calls st ++ [mkInvocation c Waiting true])%list)).

(** The resolver of call [id] applied to [data]:
    [clearTimeout(timeout); if (data && data.error) return reject(...);
     resolve(data)]. *)
Definition resolver (id : nat) (data : option Data) (st : State) : State :=
  let st1 := onCall id disarm st in
  match data with
  | Some d =>
      if JsString.truthy (data_error d)
      then onCall id (settle (Failed (data_error d))) st1
      else onCall id (settle (Fulfilled data)) st1
  | None => onCall id (settle (Fulfilled data)) st1
  end.

(** The cases [JOB_POPUP_DATA], [EMAIL_DATA] and [EXTERNAL_DATA] of the
    message router. *)
Definition onMessage (s : Slot) (data : option Data) (st : State) : State :=
  match getSlot s st with
  | Some id => setSlot s None (resolver id data st)
  | None => st
  end.

(** The timer of call [id] fires, if it is still armed: the slot is
    emptied and the promise rejected. *)
Definition onTimeout (id : nat) (st : State) : State :=
  match nth_error (calls st) id with
  | Some inv =>
      if inv_timer inv then
        onCall id (settle (Failed (timeoutMessage (inv_call inv))))
          (setSlot (slotOf (inv_call inv)) None (onCall id disarm st))
      else st
  | None => st
  end.

(** The callback of [chrome.tabs.sendMessage] of call [id] finds
    [chrome.runtime.lastError] set: the timer is cleared, the slot
    emptied and the promise rejected. *)
Definition onSendError (id : nat) (message : string) (st : State) : State :=
  match nth_error (calls st) id with
  | Some inv =>
      onCall id (settle (Failed message))
        (setSlot (slotOf (inv_call inv)) None (onCall id disarm st))
  | None => st
  end.

(** What happens to the service worker, one task at a time. *)
Inductive Event :=
| Request (c : Call)
| Message (s : Slot) (data : option Data)
| Timeout (id : nat)
| SendError (id : nat) (message : string).

Definition step (st : State) (e : Event) : State :=
  match e with
  | Request c => snd (request c st)
  | Message s data => onMessage s data st
  | Timeout id => onTimeout id st
  | SendError id message => onSendError id message st
  end.

Definition run (st : State) (es : list Event) : State :=
  fold_left step es st.

(** ** Vocabulary *)

(** The promise of call [id], if the call was made. *)
Definition promiseOf (id : nat) (st : State) : option Promise :=
  option_map inv_promise (nth_error (calls st) id).

(** Call [id] was made by [c], is waiting, and its timer is armed. *)
Definition waitingCall (c : Call) (id : nat) (st : State) : Prop :=
  nth_error (calls st) id = Some (mkInvocation c Waiting true).

(** Every resolver in a slot belongs to a call made for that slot which
    is still waiting with its timer armed; the slot [externalData] is
    empty. *)
Definition slotsSound (st : State) : Prop :=
  (forall s id,
      getSlot s st = Some id ->
      exists c, slotOf c = s /\ waitingCall c id st)
  /\ slot_externalData st = None.

(** Call [id] has lost its place in the slot and has not been
    fulfilled. *)
Definition displaced (id : nat) (st : State) : Prop :=
  exists inv,
    nth_error (calls st) id = Some inv
    /\ getSlot (slotOf (inv_call inv)) st <> Some id
    /\ match inv_promise inv with
       | Fulfilled _ => False
       | _ => True
       end.

(** The state in which the resolver leaves the promise of a waiting
    call when it is given [data]. *)
Definition settledBy (data : option Data) : Promise :=
  match data with
  | Some d =>
      if JsString.truthy (data_error d) then Failed (data_error d)
      else Fulfilled data
  | None => Fulfilled None
  end.

End Pending.

(* ===================================================================== *)
(** * Commands that arrive while the worker is suspended                  *)
(* ===================================================================== *)

(** [meanwhile other m]: the router starts the task [other] while the
    worker is suspended in [m]; [other] has run when the worker resumes
    with the outcome of [m].  Nobody awaits [other]: whether it returns or
    throws is dropped.  [awaiting] is the case of a stop command. *)
Definition meanwhile {A} (other : M unit) (m : M A) : M A :=
  fun w => let (r, w') := m w in (r, snd (other w')).

(** The places at which the worker is suspended during a run. *)
Inductive Await :=
| AtSetup (k : nat)      (** the requests of [handleStartQueue], in order *)
| AtStep (i k : nat)     (** step [k] of item [i] of the first phase *)
| AtFailure (i : nat)    (** [updateStats('failed')] of item [i] *)
| AtDelay (i : nat)      (** the delay after item [i] *)
| AtPhase2 (k : nat)     (** the requests before the loop of phase two *)
| AtBuild (i k : nat).   (** request [k] of the round of pending job [i] *)

(** The functions of a run, with a task started at each of their awaits.
    They are the definitions of [processJobFlow], [processSingleJob],
    [runQueue], [runResumeBuilderQueue] and [handleStartQueue] with each
    awaited call put under [meanwhile]; the awaits inside a step of
    [processJobFlow], inside [sendJobToAPI] and inside the [catch] block of
    a round are taken together, the task being run when the step
    returns. *)
Section Interleaved.

Variable env : Env.

Definition processJobFlowMeanwhile (other : nat -> M unit)
    (rawJob : RawJob) (id : string) (rowIndex : nat) (jobNum : JobNum)
  : M unit :=
  meanwhile (other 0%nat) (stepSimulateClick env rowIndex jobNum) ;;
  popupData <- meanwhile (other 1%nat) (stepPopupData env rowIndex jobNum) ;;
  let viewUrl := popup_viewFullPostUrl popupData in
  let src := getDomainGroup (env_hostname env) viewUrl in
  broadcastStatus (TOpening jobNum src) Sinfo ;;
  tab <- meanwhile (other 2%nat) (stepOpenTab env rowIndex viewUrl) ;;
  externalData <- meanwhile (other 3%nat)
                    (stepScrape env rowIndex jobNum tab) ;;
  emailData <- meanwhile (other 4%nat) (stepEmail env rowIndex jobNum) ;;
  let jobPayload :=
    mergePayload rawJob id popupData viewUrl externalData emailData src
      (item_processedAt (env_item env rowIndex)) in
  meanwhile (other 5%nat) (stepSaveLocal env rowIndex jobNum jobPayload) ;;
  meanwhile (other 6%nat) (stepSendToAPI env jobPayload).

(** Between the test of [isProcessing] and its assignment the worker is
    not suspended. *)
Definition processSingleJobMeanwhile (other : nat -> M unit)
    (rawJob : RawJob) (id : string) (rowIndex : nat) (jobNum : JobNum)
  : M unit :=
  locked <- gets isProcessing ;;
  if locked then ret tt
  else
    modify (set_isProcessing true) ;;
    tryFinally
      (processJobFlowMeanwhile other rawJob id rowIndex jobNum ;;
       meanwhile (other 7%nat) (markAsProcessed id) ;;
       meanwhile (other 8%nat)
         (updateStats StatSuccess (item_statsAt (env_item env rowIndex))))
      (modify (set_isProcessing false)).

Variable other : Await -> M unit.

Fixpoint resumeLoopMeanwhile (rest : list JobPayload) (i total : nat)
  : M unit :=
  match rest with
  | [] => ret tt
  | job :: rest' =>
      stop <- gets stopRequested ;;
      if stop then ret tt
      else
        let jobNum := mkJobNum (i + 1) total in
        broadcastStatus (TBuildingResume jobNum (title job)) Sinfo ;;
        tryCatch
          (tab <- gets dashboardTabId ;;
           emit (EvRequest (RBuildResume tab job)) ;;
           built <- meanwhile (other (AtBuild i 0))
                      (awaiting (p2_stopInFlight (env_phase2 env) i)
                         (await (p2_build (env_phase2 env) i))) ;;
           if built then
             let job' :=
               {| jobId := jobId job; title := title job;
                  company := company job;
                  hiringManager := hiringManager job;
                  shortDescription := shortDescription job;
                  viewFullPostUrl := viewFullPostUrl job;
                  fullDescription := fullDescription job;
                  applyEmail := applyEmail job;
                  location := location job;
                  experience := experience job;
                  emailSubject := emailSubject job;
                  emailBody := emailBody job;
                  source := source job;
                  processedAt := processedAt job;
                  jdResumeBuilt := true;
                  jdResumeBuiltAt := p2_builtAt (env_phase2 env) i |} in
             meanwhile (other (AtBuild i 1)) (sendJobToAPI env job') ;;
             broadcastStatus (TResumeBuilt jobNum (title job)) Ssuccess
           else ret tt)
          (fun err =>
             m <- errMessage err ;;
             log ERROR (LResumeBuildFailed jobNum m) ;;
             broadcastStatus (TResumeFailed jobNum (title job) m) Serror) ;;
        stop' <- gets stopRequested ;;
        (if (i <? total - 1)%nat && negb stop' then
           broadcastStatus TWaitingReload Sinfo ;;
           meanwhile (other (AtBuild i 2)) (sleep 5000) ;;
           tab <- gets dashboardTabId ;;
           emit (EvRequest (RTabReload tab)) ;;
           meanwhile (other (AtBuild i 3))
             (await (p2_reload (env_phase2 env) i)) ;;
           meanwhile (other (AtBuild i 4))
             (waitForTabComplete tab (p2_reloaded (env_phase2 env) i)) ;;
           meanwhile (other (AtBuild i 5)) (sleep 3000)
         else ret tt) ;;
        resumeLoopMeanwhile rest' (S i) total
  end.

Definition runResumeBuilderQueueMeanwhile : M unit :=
  log INFO LStartingResumeQueue ;;
  fetched <-
    tryCatch
      (emit (EvRequest RGetJobs) ;;
       meanwhile (other (AtPhase2 0))
         match p2_jobs (env_phase2 env) with
         | JobsRejected m => throw (JsError m)
         | JobsResponse ok status json =>
             if ok then (jobs <- await json ;; ret (Some jobs))
             else throw (JsError ("HTTP error! status: "
                                  ++ JsString.ofNat status))
         end)
      (fun err =>
         m <- errMessage err ;;
         broadcastStatus (TFetchJobsFailed m) Serror ;;
         ret None) ;;
  match fetched with
  | None => ret tt
  | Some jobs =>
      let pendingJobs := filter (fun job => negb (jdResumeBuilt job)) jobs in
      match pendingJobs with
      | [] => broadcastStatus TNoPendingJobs Ssuccess
      | _ :: _ =>
          broadcastStatus (TBuildingResumes (length pendingJobs)) Sinfo ;;
          navigated <-
            tryCatch
              (tab <- gets dashboardTabId ;;
               emit (EvRequest (RTabUpdate tab resumeBuilderUrl)) ;;
               meanwhile (other (AtPhase2 1))
                 (await (p2_update (env_phase2 env))) ;;
               meanwhile (other (AtPhase2 2))
                 (waitForTabComplete tab (p2_complete (env_phase2 env))) ;;
               meanwhile (other (AtPhase2 3)) (sleep 2000) ;;
               ret true)
              (fun err =>
                 m <- errMessage err ;;
                 broadcastStatus (TNavigateFailed m) Serror ;;
                 ret false) ;;
          if navigated then
            resumeLoopMeanwhile pendingJobs 0 (length pendingJobs) ;;
            broadcastStatus TPhase2Complete Scomplete
          else ret tt
      end
  end.

Definition interItemDelayMeanwhile (i : nat) : M unit :=
  total <- gets (fun w => length (queue w)) ;;
  stop <- gets stopRequested ;;
  if (i <? total - 1)%nat && negb stop then
    broadcastStatus (TWaiting (JOB_DELAY_MS / 1000)) Sinfo ;;
    meanwhile (other (AtDelay i))
      (awaiting (item_stopInDelay (env_item env i)) (sleep JOB_DELAY_MS))
  else ret tt.

Definition runQueueItemMeanwhile (i : nat) (rawJob : RawJob) : M unit :=
  total <- gets (fun w => length (queue w)) ;;
  let id := generateJobId (raw_title rawJob ||| ("job_" ++ JsString.ofNat i))
                          (raw_company rawJob ||| "unknown") in
  let jobNum := mkJobNum (i + 1) total in
  broadcastStatus (TProcessing jobNum (raw_title rawJob)) Sinfo ;;
  tryCatch
    (awaiting (item_stopInFlight (env_item env i))
       (processSingleJobMeanwhile (fun k => other (AtStep i k))
          rawJob id i jobNum) ;;
     itemSucceeded jobNum rawJob)
    (fun err =>
       meanwhile (other (AtFailure i)) (itemFailed env i jobNum rawJob err)) ;;
  interItemDelayMeanwhile i.

Fixpoint runQueueLoopMeanwhile (fuel i : nat) : M unit :=
  match fuel with
  | O => ret tt
  | S fuel' =>
      q <- gets queue ;;
      if (i <? length q)%nat then
        stop <- gets stopRequested ;;
        if stop then broadcastStatus TStopped Swarn
        else
          match nth_error q i with
          | Some rawJob =>
              runQueueItemMeanwhile i rawJob ;;
              runQueueLoopMeanwhile fuel' (S i)
          | None => throw (JsError "TypeError: rawJob is undefined")
          end
      else ret tt
  end.

Definition runQueueEpilogueMeanwhile : M unit :=
  w <- gets (fun w => w) ;;
  broadcastStatus (TPhase1Complete (processedCount w) (failedCount w))
    Ssuccess ;;
  stop <- gets stopRequested ;;
  (if negb stop then
     broadcastStatus TStartingPhase2 Sinfo ;;
     meanwhile (other (AtPhase2 4)) (sleep 2000) ;;
     runResumeBuilderQueueMeanwhile
   else ret tt) ;;
  finishQueue.

Definition runQueueMeanwhile : M unit :=
  n <- gets (fun w => length (queue w)) ;;
  runQueueLoopMeanwhile n 0 ;;
  runQueueEpilogueMeanwhile.

Definition handleStartQueueMeanwhile (options : StartOptions) : M unit :=
  running <- gets isRunning ;;
  if running then log WARN LAlreadyRunning
  else
    log INFO LStarting ;;
    modify (set_isRunning true) ;;
    modify (set_stopRequested false) ;;
    modify (set_processedCount 0) ;;
    modify (set_failedCount 0) ;;
    meanwhile (other (AtSetup 0)) (await (start_setActive (env_start env))) ;;
    modify (set_queueActive (Some true)) ;;
    (if clearHistory options then
       meanwhile (other (AtSetup 1))
         (await (start_removeHistory (env_start env))) ;;
       modify (set_processedIds None) ;;
       modify (set_stats None) ;;
       log INFO LClearedHistory
     else ret tt) ;;
    found <-
      tryCatch
        (emit (EvRequest RQueryDashboardTabs) ;;
         tabs <- meanwhile (other (AtSetup 2))
                   (await (start_tabs (env_start env))) ;;
         match tabs with
         | [] =>
             broadcastStatus TNoDashboardTab Serror ;;
             finishQueue ;;
             ret false
         | id :: _ =>
             modify (set_dashboardTabId (Some id)) ;;
             log INFO (LDashboardTab id) ;;
             ret true
         end)
        (fun err =>
           log ERROR (LFindTabFailed err) ;;
           finishQueue ;;
           ret false) ;;
    if negb found then ret tt
    else
      broadcastStatus TCollecting Sinfo ;;
      collected <-
        tryCatch
          (tab <- gets dashboardTabId ;;
           emit (EvRequest (RCollectJobs tab)) ;;
           meanwhile (other (AtSetup 3))
             (await (start_collect (env_start env))) ;;
           ret true)
          (fun err =>
             m <- errMessage err ;;
             broadcastStatus (TCollectFailed m) Serror ;;
             finishQueue ;;
             ret false) ;;
      if negb collected then ret tt
      else
        meanwhile (other (AtSetup 4)) (sleep 800) ;;
        match start_collected (env_start env) with
        | Some jobs => onJobsCollected jobs
        | None => ret tt
        end ;;
        q <- gets queue ;;
        match q with
        | [] =>
            broadcastStatus TNoNewJobs Swarn ;;
            meanwhile (other (AtSetup 5)) (sleep 2000) ;;
            runResumeBuilderQueueMeanwhile ;;
            finishQueue
        | _ :: _ =>
            broadcastStatus (TFound (length q)) Sinfo ;;
            runQueueMeanwhile
        end.

End Interleaved.

(** The start commands that arrive during a run: at the await [p], the
    command with the options [opts p], run on the platform [envs p], when
    [arrives p] holds. *)
Definition startCommands (arrives : Await -> bool) (envs : Await -> Env)
    (opts : Await -> StartOptions) (p : Await) : M unit :=
  if arrives p then handleStartQueue (envs p) (opts p) else ret tt.

(** A warning logged at each of these awaits. *)
Definition ignoredCommands (arrives : Await -> bool) (p : Await) : M unit :=
  if arrives p then log WARN LAlreadyRunning else ret tt.

(** The entries into [processSingleJob] made while an item is in flight:
    at step [k], the entry for the job [jobs k]. *)
Definition secondEntries (arrives : nat -> bool) (envs : nat -> Env)
    (jobs : nat -> RawJob) (ids : nat -> string) (rows : nat -> nat)
    (nums : nat -> JobNum) (k : nat) : M unit :=
  if arrives k then processSingleJob (envs k) (jobs k) (ids k) (rows k) (nums k)
  else ret tt.

(** [m1] and [m2] run alike from every world satisfying [P]; [m2] leaves a
    world satisfying [Q] when it returns and [E] when it throws, and
    throws nothing but [Error]s. *)
Definition agree {A} (P : World -> Prop) (m1 m2 : M A)
    (Q : A -> World -> Prop) (E : World -> Prop) : Prop :=
  forall w, P w ->
    m1 w = m2 w
    /\ match m2 w with
       | (Ok a, w') => Q a w'
       | (Throw (JsError _), w') => E w'
       | (Throw JsUndefined, _) => False
       end.

(** [m1] and [m2] run alike from every world satisfying [I], and keep
    [I]. *)
Definition agreeOn {A} (I : World -> Prop) (m1 m2 : M A) : Prop :=
  agree I m1 m2 (fun _ => I) I.

(** [m1] and [m2] run alike from every world. *)
Definition alike {A} (m1 m2 : M A) : Prop := forall w, m1 w = m2 w.

(** The log line of a start command that is taken up. *)
Definition startsRun (e : Event) : bool :=
  match e with
  | EvLog INFO LStarting => true
  | _ => false
  end.

(** The log line of a start command that is ignored. *)
Definition ignoresStart (e : Event) : bool :=
  match e with
  | EvLog WARN LAlreadyRunning => true
  | _ => false
  end.

(* ===================================================================== *)
(** * Properties of the fingerprint                                       *)
(* ===================================================================== *)

Module JsStringFacts.
Import JsString.

Lemma lowerChar_idempotent (c : ascii) : lowerChar (lowerChar c) = lowerChar c.
Proof. destruct c as [[] [] [] [] [] [] [] []]; reflexivity. Qed.

Lemma isWhiteSpace_lowerChar (c : ascii) :
  isWhiteSpace (lowerChar c) = isWhiteSpace c.
Proof. destruct c as [[] [] [] [] [] [] [] []]; reflexivity. Qed.

Lemma toLowerCase_idempotent (s : string) :
  toLowerCase (toLowerCase s) = toLowerCase s.
Proof.
  induction s as [|c r IH]; simpl; [reflexivity|].
  now rewrite lowerChar_idempotent, IH.
Qed.

Lemma toLowerCase_empty (s : string) :
  toLowerCase s = EmptyString <-> s = EmptyString.
Proof. destruct s; simpl; split; congruence. Qed.

Lemma trimStart_toLowerCase (s : string) :
  trimStart (toLowerCase s) = toLowerCase (trimStart s).
Proof.
  induction s as [|c r IH]; simpl; [reflexivity|].
  rewrite isWhiteSpace_lowerChar.
  destruct (isWhiteSpace c); [exact IH | reflexivity].
Qed.

Lemma trimEnd_toLowerCase (s : string) :
  trimEnd (toLowerCase s) = toLowerCase (trimEnd s).
Proof.
  induction s as [|c r IH]; simpl; [reflexivity|].
  rewrite IH, isWhiteSpace_lowerChar.
  destruct (trimEnd r) as [|c' r'] eqn:E; simpl.
  - destruct (isWhiteSpace c); reflexivity.
  - reflexivity.
Qed.

Lemma trim_toLowerCase (s : string) :
  trim (toLowerCase s) = toLowerCase (trim s).
Proof.
  unfold trim. now rewrite trimStart_toLowerCase, trimEnd_toLowerCase.
Qed.

Lemma trimStart_cleanStart (s : string) : cleanStart (trimStart s).
Proof.
  induction s as [|c r IH]; simpl; [exact I|].
  destruct (isWhiteSpace c) eqn:E; [exact IH | exact E].
Qed.

Lemma trimStart_fixed (s : string) : cleanStart s -> trimStart s = s.
Proof. destruct s as [|c r]; simpl; intros H; [reflexivity | now rewrite H]. Qed.

Lemma trimEnd_cleanStart (s : string) : cleanStart s -> cleanStart (trimEnd s).
Proof.
  destruct s as [|c r]; simpl; intros H; [exact I|].
  destruct (trimEnd r); [rewrite H|]; exact H.
Qed.

Lemma trimEnd_idempotent (s : string) : trimEnd (trimEnd s) = trimEnd s.
Proof.
  induction s as [|c r IH]; simpl; [reflexivity|].
  destruct (trimEnd r) as [|c' r'] eqn:E.
  - destruct (isWhiteSpace c) eqn:W; simpl; [reflexivity | now rewrite W].
  - simpl in *. now rewrite IH.
Qed.

Lemma trim_idempotent (s : string) : trim (trim s) = trim s.
Proof.
  unfold trim.
  rewrite (trimStart_fixed (trimEnd (trimStart s))).
  - apply trimEnd_idempotent.
  - apply trimEnd_cleanStart, trimStart_cleanStart.
Qed.

End JsStringFacts.

Lemma normalize_trim (s : string) : normalize (JsString.trim s) = normalize s.
Proof. unfold normalize. now rewrite JsStringFacts.trim_idempotent. Qed.

Lemma normalize_toLowerCase (s : string) :
  normalize (JsString.toLowerCase s) = normalize s.
Proof.
  unfold normalize.
  now rewrite JsStringFacts.trim_toLowerCase, JsStringFacts.toLowerCase_idempotent.
Qed.

Lemma generateJobId_normalized (t t' c c' : string) :
  normalize t = normalize t' -> normalize c = normalize c' ->
  generateJobId t c = generateJobId t' c'.
Proof. unfold generateJobId. now intros -> ->. Qed.

(** C1.  The fingerprint depends on the normalized inputs only: trimming or
    lower-casing the title or the company leaves the id unchanged, two calls
    whose titles and companies normalize to the same strings return the same
    id, and the two spellings of the specification's example get one id. *)
Theorem generateJobId_deterministic_on_normalized :
  (forall t c,
      generateJobId (JsString.trim t) c = generateJobId t c
      /\ generateJobId t (JsString.trim c) = generateJobId t c
      /\ generateJobId (JsString.toLowerCase t) c = generateJobId t c
      /\ generateJobId t (JsString.toLowerCase c) = generateJobId t c)
  /\ (forall t t' c c',
         normalize t = normalize t' -> normalize c = normalize c' ->
         generateJobId t c = generateJobId t' c')
  /\ generateJobId "Backend Engineer" "Acme Inc"
     = generateJobId " backend engineer " "ACME INC".
Proof.
  split; [|split].
  - intros t c.
    repeat split; apply generateJobId_normalized;
      auto using normalize_trim, normalize_toLowerCase.
  - exact generateJobId_normalized.
  - vm_compute. reflexivity.
Qed.

(** The theorem above at the inputs of the specification's example. *)
Lemma generateJobId_deterministic_on_normalized_witness :
  normalize "Backend Engineer" = normalize " backend engineer "
  /\ normalize "Acme Inc" = normalize "ACME INC"
  /\ generateJobId "Backend Engineer" "Acme Inc"
     = generateJobId " backend engineer " "ACME INC".
Proof.
  assert (Ht : normalize "Backend Engineer" = normalize " backend engineer ")
    by (vm_compute; reflexivity).
  assert (Hc : normalize "Acme Inc" = normalize "ACME INC")
    by (vm_compute; reflexivity).
  split; [exact Ht | split; [exact Hc|]].
  exact (proj1 (proj2 generateJobId_deterministic_on_normalized)
           "Backend Engineer" " backend engineer " "Acme Inc" "ACME INC" Ht Hc).
Defined.

(** C9 as stated fails: swapping title and company changes the id. *)
Lemma generateJobId_order_matters :
  generateJobId "a" "b" <> generateJobId "b" "a".
Proof. vm_compute. discriminate. Qed.

(** C9, amended.  The id is the hash of the normalized title followed by
    [::] and the normalized company, in that order: it is the same for
    inputs whose normalized titles agree and whose normalized companies
    agree, and swapping the arguments keeps it when the two normalized
    strings are equal. *)
Theorem generateJobId_ordered_pair (t c : string) :
  generateJobId t c
    = "job_" ++ JsString.ofN
                  (Z.abs_N (hashFrom 0 (normalize t ++ "::" ++ normalize c)))
  /\ (normalize t = normalize c -> generateJobId t c = generateJobId c t).
Proof.
  split; [reflexivity|].
  intros H. apply generateJobId_normalized; congruence.
Qed.

Lemma generateJobId_ordered_pair_witness :
  normalize "Acme" = normalize " ACME "
  /\ generateJobId "Acme" " ACME " = generateJobId " ACME " "Acme".
Proof.
  assert (H : normalize "Acme" = normalize " ACME ") by (vm_compute; reflexivity).
  split; [exact H|].
  exact (proj2 (generateJobId_ordered_pair "Acme" " ACME ") H).
Defined.

(* ===================================================================== *)
(** * Reasoning rules for computations                                    *)
(* ===================================================================== *)

(** ** Running a computation whose first part is known *)

Lemma bind_ok {A B} (m : M A) (k : A -> M B) w a w' :
  m w = (Ok a, w') -> bind m k w = k a w'.
Proof. unfold bind. now intros ->. Qed.

Lemma bind_throw {A B} (m : M A) (k : A -> M B) w e w' :
  m w = (Throw e, w') -> bind m k w = (Throw e, w').
Proof. unfold bind. now intros ->. Qed.

Lemma tryCatch_ok {A} (m : M A) (h : Exn -> M A) w a w' :
  m w = (Ok a, w') -> tryCatch m h w = (Ok a, w').
Proof. unfold tryCatch. now intros ->. Qed.

Lemma tryCatch_throw {A} (m : M A) (h : Exn -> M A) w e w' :
  m w = (Throw e, w') -> tryCatch m h w = h e w'.
Proof. unfold tryCatch. now intros ->. Qed.

Lemma set_trace_set_trace v v' w :
  set_trace v (set_trace v' w) = set_trace v w.
Proof. reflexivity. Qed.

(** ** Assertions *)

Lemma succeeds_errorsOnly {A} (r : Outcome A) : succeeds r -> errorsOnly r.
Proof. destruct r as [a|[m|]]; simpl; tauto. Qed.

Lemma nothrow_safe {A} I (m : M A) : nothrow I m -> safe I m.
Proof.
  intros H w Hw. destruct (H w Hw) as [H1 H2].
  split; [exact H1 | now apply succeeds_errorsOnly].
Qed.

Lemma nothrow_run {A} I (m : M A) w :
  nothrow I m -> I w -> exists a w', m w = (Ok a, w') /\ I w'.
Proof.
  intros H Hw. destruct (H w Hw) as [H1 H2].
  destruct (m w) as [[a|e] w'] eqn:E; simpl in *; [|contradiction].
  now exists a, w'.
Qed.

Lemma safe_run_throw {A} I (m : M A) w e w' :
  safe I m -> I w -> m w = (Throw e, w') -> exists msg, e = JsError msg.
Proof.
  intros H Hw E. destruct (H w Hw) as [_ H2]. rewrite E in H2.
  destruct e as [msg|]; simpl in H2; [now exists msg | contradiction].
Qed.

Lemma sat_inv {A} I Q (m : M A) w : sat I Q m -> I w -> I (snd (m w)).
Proof. intros H Hw. exact (proj1 (H w Hw)). Qed.

Section Rules.

Variable I : World -> Prop.

Lemma nothrow_ret {A} (a : A) : nothrow I (ret a).
Proof. intros w Hw. simpl. auto. Qed.

Lemma safe_throw {A} msg : safe I (@throw A (JsError msg)).
Proof. intros w Hw. simpl. auto. Qed.

Lemma nothrow_gets {A} (f : World -> A) : nothrow I (gets f).
Proof. intros w Hw. simpl. auto. Qed.

Lemma nothrow_modify (g : World -> World) :
  (forall w, I w -> I (g w)) -> nothrow I (modify g).
Proof. intros Hg w Hw. simpl. auto. Qed.

Lemma safe_await {A} (r : Reply A) : safe I (await r).
Proof. intros w Hw. destruct r; simpl; auto. Qed.

Lemma nothrow_await {A} (a : A) : nothrow I (await (Resolved a)).
Proof. intros w Hw. simpl. auto. Qed.

Lemma safe_errMessage e : safe I (errMessage e).
Proof. intros w Hw. destruct e; simpl; auto. Qed.

Lemma nothrow_errMessage msg : nothrow I (errMessage (JsError msg)).
Proof. intros w Hw. simpl. auto. Qed.

Lemma safe_bind {A B} (m : M A) (k : A -> M B) :
  safe I m -> (forall a, safe I (k a)) -> safe I (bind m k).
Proof.
  intros Hm Hk w Hw. unfold bind.
  destruct (Hm w Hw) as [H1 H2].
  destruct (m w) as [[a|e] w']; simpl in *.
  - exact (Hk a w' H1).
  - auto.
Qed.

Lemma nothrow_bind {A B} (m : M A) (k : A -> M B) :
  nothrow I m -> (forall a, nothrow I (k a)) -> nothrow I (bind m k).
Proof.
  intros Hm Hk w Hw. unfold bind.
  destruct (Hm w Hw) as [H1 H2].
  destruct (m w) as [[a|e] w']; simpl in *.
  - exact (Hk a w' H1).
  - contradiction.
Qed.

Lemma safe_tryCatch {A} (m : M A) (h : Exn -> M A) :
  safe I m -> (forall msg, safe I (h (JsError msg))) ->
  safe I (tryCatch m h).
Proof.
  intros Hm Hh w Hw. unfold tryCatch.
  destruct (Hm w Hw) as [H1 H2].
  destruct (m w) as [[a|[msg|]] w']; simpl in *.
  - auto.
  - exact (Hh msg w' H1).
  - contradiction.
Qed.

Lemma nothrow_tryCatch {A} (m : M A) (h : Exn -> M A) :
  safe I m -> (forall msg, nothrow I (h (JsError msg))) ->
  nothrow I (tryCatch m h).
Proof.
  intros Hm Hh w Hw. unfold tryCatch.
  destruct (Hm w Hw) as [H1 H2].
  destruct (m w) as [[a|[msg|]] w']; simpl in *.
  - auto.
  - exact (Hh msg w' H1).
  - contradiction.
Qed.

Lemma safe_tryFinally {A} (m : M A) (f : M unit) :
  safe I m -> safe I f -> safe I (tryFinally m f).
Proof.
  intros Hm Hf w Hw. unfold tryFinally.
  destruct (Hm w Hw) as [H1 H2].
  destruct (m w) as [r w']; simpl in *.
  destruct (Hf w' H1) as [H3 H4].
  destruct (f w') as [[u|e] w'']; simpl in *; auto.
Qed.

Lemma nothrow_tryFinally {A} (m : M A) (f : M unit) :
  nothrow I m -> nothrow I f -> nothrow I (tryFinally m f).
Proof.
  intros Hm Hf w Hw. unfold tryFinally.
  destruct (Hm w Hw) as [H1 H2].
  destruct (m w) as [r w']; simpl in *.
  destruct (Hf w' H1) as [H3 H4].
  destruct (f w') as [[u|e] w'']; simpl in *; auto.
Qed.

End Rules.

(** One step of a derivation of [safe] or [nothrow]: the rule of the head
    combinator, or a case analysis on the value the computation branches
    on. *)
Ltac sat_step :=
  lazymatch goal with
  | |- nothrow _ (ret _) => apply nothrow_ret
  | |- nothrow _ (gets _) => apply nothrow_gets
  | |- nothrow _ (modify _) => apply nothrow_modify
  | |- nothrow _ (await (Resolved _)) => apply nothrow_await
  | |- nothrow _ (errMessage (JsError _)) => apply nothrow_errMessage
  | |- nothrow _ (bind _ _) => apply nothrow_bind; [|intros ?]
  | |- nothrow _ (tryCatch _ _) => apply nothrow_tryCatch; [|intros ?]
  | |- nothrow _ (tryFinally _ _) => apply nothrow_tryFinally
  | |- safe _ (throw (JsError _)) => apply safe_throw
  | |- safe _ (await _) => apply safe_await
  | |- safe _ (errMessage _) => apply safe_errMessage
  | |- safe _ (bind _ _) => apply safe_bind; [|intros ?]
  | |- safe _ (tryCatch _ _) => apply safe_tryCatch; [|intros ?]
  | |- safe _ (tryFinally _ _) => apply safe_tryFinally
  | |- safe _ (ret _) => apply nothrow_safe, nothrow_ret
  | |- safe _ (gets _) => apply nothrow_safe, nothrow_gets
  | |- safe _ (modify _) => apply nothrow_safe, nothrow_modify
  | |- sat _ _ (match ?x with _ => _ end) => destruct x
  | |- safe _ (match ?x with _ => _ end) => destruct x
  | |- nothrow _ (match ?x with _ => _ end) => destruct x
  end.

(** A field kept by a setter of another field. *)
Ltac frame_leaf :=
  try (intros; simpl in *; first [assumption | tauto | congruence | lia]).

Create HintDb sat discriminated.

Ltac sat_auto :=
  repeat first
    [ solve [eauto 2 with sat nocore]
    | sat_step ];
  frame_leaf.

(* ===================================================================== *)
(** * What the functions of the worker keep                               *)
(* ===================================================================== *)

Section Frame.

Variable env : Env.
Variable I : World -> Prop.

(** [I] is kept when an event other than a status of level [error] or
    [warn] is added to the trace. *)
Hypothesis I_quiet :
  forall e w, isProblemStatus e = false -> I w -> I (set_trace (e :: trace w) w).

Local Hint Resolve nothrow_safe : sat.

Lemma nothrow_emit e : isProblemStatus e = false -> nothrow I (emit e).
Proof. intros He. unfold emit. apply nothrow_modify. intros w. now apply I_quiet. Qed.
Local Hint Extern 1 (nothrow _ (emit _)) =>
  apply nothrow_emit; reflexivity : sat.

Lemma nothrow_log level text : nothrow I (log level text).
Proof. unfold log. destruct (_ <? _)%nat; sat_auto. Qed.
Local Hint Resolve nothrow_log : sat.

Lemma nothrow_sleep ms : nothrow I (sleep ms).
Proof. unfold sleep. sat_auto. Qed.
Local Hint Resolve nothrow_sleep : sat.

Lemma nothrow_broadcastStatus message level :
  quietLevel level = true -> nothrow I (broadcastStatus message level).
Proof.
  intros Hl. unfold broadcastStatus.
  apply nothrow_bind; [sat_auto|]. intros _.
  apply nothrow_bind; [sat_auto|]. intros w.
  apply nothrow_emit. simpl. now rewrite Hl.
Qed.
Local Hint Extern 1 (nothrow _ (broadcastStatus _ _)) =>
  apply nothrow_broadcastStatus; reflexivity : sat.

Lemma safe_waitForTabComplete tab reply :
  safe I (waitForTabComplete tab reply).
Proof. unfold waitForTabComplete. sat_auto. Qed.
Local Hint Resolve safe_waitForTabComplete : sat.

Lemma safe_getPopupData rowIndex : safe I (getPopupData env rowIndex).
Proof. unfold getPopupData. sat_auto. Qed.

Lemma safe_getEmailData rowIndex : safe I (getEmailData env rowIndex).
Proof. unfold getEmailData. sat_auto. Qed.
Local Hint Resolve safe_getPopupData safe_getEmailData : sat.

(** The loop of [retry] throws the last [Error] caught, never
    [undefined], once an [Error] is at hand or a round is left. *)
Lemma safe_retryLoop {A} (fn : M A) maxRetries baseDelayMs :
  safe I fn ->
  forall remaining attempt lastError,
    (remaining = O -> exists msg, lastError = JsError msg) ->
    safe I (retryLoop fn maxRetries baseDelayMs remaining attempt lastError).
Proof.
  intros Hfn. induction remaining as [|r IH]; intros attempt lastError Hl.
  - destruct (Hl eq_refl) as [msg ->]. simpl. sat_auto.
  - simpl. apply safe_tryCatch; [exact Hfn|]. intros msg.
    apply safe_bind; [sat_auto|]. intros m.
    apply safe_bind; [sat_auto|]. intros _.
    apply safe_bind; [destruct (_ <? _)%nat; sat_auto|]. intros _.
    apply IH. intros _. now exists msg.
Qed.

Lemma safe_retry {A} (fn : M A) n baseDelayMs :
  safe I fn -> safe I (retry fn (S n) baseDelayMs).
Proof. intros H. apply safe_retryLoop; [exact H | discriminate]. Qed.

(** [I] does not depend on the count of submission attempts. *)
Hypothesis I_attempts : forall v w, I w -> I (set_attempts v w).
Local Hint Resolve I_attempts : sat.

Lemma safe_postJob jobData : safe I (postJob env jobData).
Proof.
  intros w Hw. unfold postJob.
  assert (H1 : I (set_attempts (S (attempts w)) w)) by auto with sat.
  destruct (env_attempt env (attempts w)) as [m|m|ok status body].
  - simpl. auto.
  - assert (S : safe I (emit (EvRequest (RPostJob jobData (telegram_config w))) ;;
                        @throw string (JsError m))%js) by sat_auto.
    exact (S _ H1).
  - assert (S : safe I
                  (emit (EvRequest (RPostJob jobData (telegram_config w))) ;;
                   if ok then ret body
                   else throw (JsError ("API error " ++ JsString.ofNat status
                                        ++ ": " ++ body)))%js)
      by (destruct ok; sat_auto).
    exact (S _ H1).
Qed.

Lemma nothrow_sendJobToAPI jobData : nothrow I (sendJobToAPI env jobData).
Proof.
  unfold sendJobToAPI, MAX_RETRIES.
  apply nothrow_bind; [sat_auto|]. intros _.
  apply nothrow_tryCatch.
  - apply safe_bind; [apply safe_retry, safe_postJob|]. intros r. sat_auto.
  - intros msg. sat_auto.
Qed.
Local Hint Resolve nothrow_sendJobToAPI : sat.

Lemma nothrow_stepSendToAPI jobPayload :
  nothrow I (stepSendToAPI env jobPayload).
Proof. unfold stepSendToAPI. sat_auto. Qed.

Lemma nothrow_stepEmail rowIndex jobNum :
  nothrow I (stepEmail env rowIndex jobNum).
Proof. unfold stepEmail. sat_auto. Qed.

Lemma safe_stepSimulateClick rowIndex jobNum :
  safe I (stepSimulateClick env rowIndex jobNum).
Proof. unfold stepSimulateClick. sat_auto. Qed.

Lemma safe_stepPopupData rowIndex jobNum :
  safe I (stepPopupData env rowIndex jobNum).
Proof. unfold stepPopupData. sat_auto. Qed.

Local Hint Resolve nothrow_stepSendToAPI nothrow_stepEmail
  safe_stepSimulateClick safe_stepPopupData : sat.

(** [I] does not depend on the set of open tabs nor on the stored
    records. *)
Hypothesis I_openTabs : forall v w, I w -> I (set_openTabs v w).
Hypothesis I_scrapedJobs : forall v w, I w -> I (set_scrapedJobs v w).
Local Hint Resolve I_openTabs I_scrapedJobs : sat.

Lemma safe_stepOpenTab rowIndex viewUrl :
  safe I (stepOpenTab env rowIndex viewUrl).
Proof. unfold stepOpenTab. sat_auto; auto with sat. Qed.

Lemma nothrow_stepScrape rowIndex jobNum tab :
  nothrow I (stepScrape env rowIndex jobNum tab).
Proof. unfold stepScrape. sat_auto; auto with sat. Qed.

Lemma nothrow_stepSaveLocal rowIndex jobNum jobPayload :
  nothrow I (stepSaveLocal env rowIndex jobNum jobPayload).
Proof. unfold stepSaveLocal. sat_auto; auto with sat. Qed.

Local Hint Resolve safe_stepOpenTab nothrow_stepScrape
  nothrow_stepSaveLocal : sat.

Lemma safe_processJobFlow rawJob id rowIndex jobNum :
  safe I (processJobFlow env rawJob id rowIndex jobNum).
Proof. unfold processJobFlow. sat_auto. Qed.
Local Hint Resolve safe_processJobFlow : sat.

(** [I] does not depend on the processed ids nor on the statistics. *)
Hypothesis I_processedIds : forall v w, I w -> I (set_processedIds v w).
Hypothesis I_stats : forall v w, I w -> I (set_stats v w).
Local Hint Resolve I_processedIds I_stats : sat.

Lemma nothrow_markAsProcessed id : nothrow I (markAsProcessed id).
Proof. unfold markAsProcessed. sat_auto; auto with sat. Qed.

Lemma nothrow_updateStats type now : nothrow I (updateStats type now).
Proof. unfold updateStats. sat_auto; auto with sat. Qed.
Local Hint Resolve nothrow_markAsProcessed nothrow_updateStats : sat.

(** The body guarded by the lock. *)
Lemma safe_lockedBody rawJob id rowIndex jobNum :
  safe I (processJobFlow env rawJob id rowIndex jobNum ;;
          markAsProcessed id ;;
          updateStats StatSuccess (item_statsAt (env_item env rowIndex)))%js.
Proof. sat_auto. Qed.

(** [I] does not depend on the lock nor on a stop request being
    raised. *)
Hypothesis I_isProcessing : forall v w, I w -> I (set_isProcessing v w).
Hypothesis I_stop : forall w, I w -> I (set_stopRequested true w).
Local Hint Resolve I_isProcessing I_stop : sat.

Lemma safe_processSingleJob rawJob id rowIndex jobNum :
  safe I (processSingleJob env rawJob id rowIndex jobNum).
Proof.
  unfold processSingleJob.
  apply safe_bind; [sat_auto|]. intros [|]; [sat_auto|].
  apply safe_bind; [sat_auto; auto with sat|]. intros _.
  apply safe_tryFinally; [apply safe_lockedBody|].
  sat_auto; auto with sat.
Qed.
Local Hint Resolve safe_processSingleJob : sat.

Lemma nothrow_onStopQueue : nothrow I onStopQueue.
Proof. unfold onStopQueue. sat_auto; auto with sat. Qed.
Local Hint Resolve nothrow_onStopQueue : sat.

Lemma safe_awaiting {A} stop (m : M A) : safe I m -> safe I (awaiting stop m).
Proof. intros H. unfold awaiting. destruct stop; sat_auto. Qed.

Lemma nothrow_awaiting {A} stop (m : M A) :
  nothrow I m -> nothrow I (awaiting stop m).
Proof. intros H. unfold awaiting. destruct stop; sat_auto. Qed.

(** [I] does not depend on the trace nor on the counters. *)
Hypothesis I_trace : forall v w, I w -> I (set_trace v w).
Hypothesis I_processedCount : forall v w, I w -> I (set_processedCount v w).
Hypothesis I_failedCount : forall v w, I w -> I (set_failedCount v w).
Local Hint Resolve I_trace I_processedCount I_failedCount : sat.

Lemma nothrow_emit_any e : nothrow I (emit e).
Proof. unfold emit. sat_auto. Qed.
Local Hint Resolve nothrow_emit_any : sat.

Lemma nothrow_broadcastStatus_any message level :
  nothrow I (broadcastStatus message level).
Proof. unfold broadcastStatus. sat_auto. Qed.
Local Hint Resolve nothrow_broadcastStatus_any : sat.

Lemma nothrow_itemSucceeded jobNum rawJob :
  nothrow I (itemSucceeded jobNum rawJob).
Proof. unfold itemSucceeded. sat_auto; auto with sat. Qed.

Lemma nothrow_itemFailed i jobNum rawJob msg :
  nothrow I (itemFailed env i jobNum rawJob (JsError msg)).
Proof. unfold itemFailed. sat_auto; auto with sat. Qed.

Lemma nothrow_interItemDelay i : nothrow I (interItemDelay env i).
Proof.
  unfold interItemDelay.
  apply nothrow_bind; [sat_auto|]. intros total.
  apply nothrow_bind; [sat_auto|]. intros stop.
  destruct (_ && _); [|sat_auto].
  apply nothrow_bind; [sat_auto|]. intros _.
  apply nothrow_awaiting. sat_auto.
Qed.

(** A round of the main loop always returns: a failing item is caught. *)
Lemma nothrow_runQueueItem i rawJob : nothrow I (runQueueItem env i rawJob).
Proof.
  unfold runQueueItem.
  apply nothrow_bind; [sat_auto|]. intros total.
  apply nothrow_bind; [sat_auto|]. intros _.
  apply nothrow_bind; [|intros _; apply nothrow_interItemDelay].
  apply nothrow_tryCatch.
  - apply safe_bind; [apply safe_awaiting; sat_auto|]. intros _.
    apply nothrow_safe, nothrow_itemSucceeded.
  - intros msg. apply nothrow_itemFailed.
Qed.

(** The resume-builder phase. *)
Lemma safe_resumeLoop rest : forall i total,
  safe I (resumeLoop env rest i total).
Proof.
  induction rest as [|job rest IH]; intros i total; simpl; [sat_auto|].
  apply safe_bind; [sat_auto|]. intros [|]; [sat_auto|].
  apply safe_bind; [sat_auto|]. intros _.
  apply safe_bind.
  - apply safe_tryCatch.
    + apply safe_bind; [sat_auto|]. intros tab.
      apply safe_bind; [sat_auto|]. intros _.
      apply safe_bind; [apply safe_awaiting; sat_auto|]. intros [|]; sat_auto.
    + intros msg. sat_auto.
  - intros _.
    apply safe_bind; [sat_auto|]. intros stop'.
    apply safe_bind; [|intros _; apply IH].
    destruct (_ && _); sat_auto.
Qed.

Lemma safe_runResumeBuilderQueue : safe I (runResumeBuilderQueue env).
Proof.
  unfold runResumeBuilderQueue.
  apply safe_bind; [sat_auto|]. intros _.
  apply safe_bind; [sat_auto|]. intros [jobs|]; [|sat_auto].
  destruct (filter _ jobs) as [|j l] eqn:E; [sat_auto|].
  apply safe_bind; [sat_auto|]. intros _.
  apply safe_bind; [sat_auto|]. intros [|]; [|sat_auto].
  apply safe_bind; [apply safe_resumeLoop|]. intros _. sat_auto.
Qed.

(** When every reload of the builder page succeeds, the phase returns
    normally whatever else happens. *)
Hypothesis reloads :
  forall i, p2_reload (env_phase2 env) i = Resolved tt
            /\ p2_reloaded (env_phase2 env) i = Resolved tt.

Lemma nothrow_resumeLoop rest : forall i total,
  nothrow I (resumeLoop env rest i total).
Proof.
  induction rest as [|job rest IH]; intros i total; simpl; [sat_auto|].
  apply nothrow_bind; [sat_auto|]. intros [|]; [sat_auto|].
  apply nothrow_bind; [sat_auto|]. intros _.
  apply nothrow_bind.
  - apply nothrow_tryCatch.
    + apply safe_bind; [sat_auto|]. intros tab.
      apply safe_bind; [sat_auto|]. intros _.
      apply safe_bind; [apply safe_awaiting; sat_auto|]. intros [|]; sat_auto.
    + intros msg. sat_auto.
  - intros _.
    apply nothrow_bind; [sat_auto|]. intros stop'.
    apply nothrow_bind; [|intros _; apply IH].
    destruct (_ && _); [|sat_auto].
    destruct (reloads i) as [R1 R2].
    unfold waitForTabComplete. rewrite R1, R2. sat_auto.
Qed.

Lemma nothrow_runResumeBuilderQueue : nothrow I (runResumeBuilderQueue env).
Proof.
  unfold runResumeBuilderQueue.
  apply nothrow_bind; [sat_auto|]. intros _.
  apply nothrow_bind; [sat_auto|]. intros [jobs|]; [|sat_auto].
  destruct (filter _ jobs) as [|j l] eqn:E; [sat_auto|].
  apply nothrow_bind; [sat_auto|]. intros _.
  apply nothrow_bind; [sat_auto|]. intros [|]; [|sat_auto].
  apply nothrow_bind; [apply nothrow_resumeLoop|]. intros _. sat_auto.
Qed.

End Frame.

(* ===================================================================== *)
(** * Extractor routing                                                   *)
(* ===================================================================== *)

Example getDomainGroup_linkedin :
  getDomainGroup Sample.hostname "https://WWW.LinkedIn.com/jobs/view/1"
  = "linkedin".
Proof. reflexivity. Qed.

Example getDomainGroup_indeed :
  getDomainGroup Sample.hostname "http://de.indeed.com:80/viewjob?jk=1"
  = "indeed".
Proof. reflexivity. Qed.

Example getDomainGroup_other :
  getDomainGroup Sample.hostname "https://careers.acme.example/" = "generic".
Proof. reflexivity. Qed.

Example getDomainGroup_not_a_url :
  getDomainGroup Sample.hostname "linkedin.com" = "generic".
Proof. reflexivity. Qed.

(** C10.  Whatever the URL parser of the platform does, [getDomainGroup]
    returns one of the three group names for every input, and it returns
    [generic] on every input the parser rejects; the empty string is such
    an input as soon as the parser rejects it. *)
Theorem getDomainGroup_total
    (hostnameOfURL : string -> option string) (url : string) :
  (getDomainGroup hostnameOfURL url = "linkedin"
   \/ getDomainGroup hostnameOfURL url = "indeed"
   \/ getDomainGroup hostnameOfURL url = "generic")
  /\ (hostnameOfURL url = None -> getDomainGroup hostnameOfURL url = "generic").
Proof.
  unfold getDomainGroup. split.
  - destruct (hostnameOfURL url) as [h|]; [|auto].
    destruct (JsString.includes _ "linkedin.com"); [auto|].
    destruct (JsString.includes _ "indeed.com"); auto.
  - intros ->. reflexivity.
Qed.

(** The empty string, with the sample parser. *)
Lemma getDomainGroup_total_witness :
  Sample.hostname EmptyString = None
  /\ getDomainGroup Sample.hostname EmptyString = "generic".
Proof.
  split; [reflexivity|].
  apply (getDomainGroup_total Sample.hostname EmptyString). reflexivity.
Defined.

(* ===================================================================== *)
(** * Running the worker step by step                                     *)
(* ===================================================================== *)

Ltac run_unfold :=
  unfold bind, tryCatch, tryFinally, broadcastStatus, log, sleep, emit,
    modify, gets, ret, await, throw, errMessage, waitForTabComplete in *.

Section Runs.

Variable env : Env.

Lemma run_broadcastStatus message level w :
  broadcastStatus message level w = (Ok tt, announced message level w).
Proof. reflexivity. Qed.

Lemma run_awaiting {A} stop (m : M A) w :
  awaiting stop m w
  = (fst (m w), if stop then stopped (snd (m w)) else snd (m w)).
Proof.
  unfold awaiting, tryFinally. destruct (m w) as [r w'].
  destruct stop; reflexivity.
Qed.

Lemma processSingleJob_held rawJob id rowIndex jobNum w :
  isProcessing w = true ->
  processSingleJob env rawJob id rowIndex jobNum w = (Ok tt, w).
Proof. intros H. unfold processSingleJob, bind, gets. now rewrite H. Qed.

Lemma processSingleJob_free rawJob id rowIndex jobNum w :
  isProcessing w = false ->
  let body :=
    (processJobFlow env rawJob id rowIndex jobNum ;;
     markAsProcessed id ;;
     updateStats StatSuccess (item_statsAt (env_item env rowIndex)))%js in
  processSingleJob env rawJob id rowIndex jobNum w
  = (fst (body (set_isProcessing true w)),
     set_isProcessing false (snd (body (set_isProcessing true w)))).
Proof.
  intros H body.
  unfold processSingleJob. unfold bind at 1, gets. rewrite H.
  unfold bind at 1, modify at 1. unfold tryFinally. fold body.
  destruct (body (set_isProcessing true w)) as [r w']. reflexivity.
Qed.

(** The inter-item delay, spelled out. *)
Lemma run_interItemDelay i w :
  interItemDelay env i w
  = (Ok tt,
     if (i <? length (queue w) - 1)%nat && negb (stopRequested w) then
       let w1 := pushEvents [EvSleep JOB_DELAY_MS]
                   (announced (TWaiting 5) Sinfo w) in
       if item_stopInDelay (env_item env i) then stopped w1 else w1
     else w).
Proof.
  unfold interItemDelay. unfold bind at 1 2, gets.
  destruct (_ && _); [|reflexivity].
  destruct (item_stopInDelay (env_item env i)); reflexivity.
Qed.

(** A round of the queue loop, from the outcome of the awaited item. *)
Lemma runQueueItem_ok i rawJob w w2 :
  let jobNum := mkJobNum (i + 1) (length (queue w)) in
  awaiting (item_stopInFlight (env_item env i))
    (processSingleJob env rawJob (jobIdOf i rawJob) i jobNum)
    (announced (TProcessing jobNum (raw_title rawJob)) Sinfo w)
  = (Ok tt, w2) ->
  runQueueItem env i rawJob w
  = interItemDelay env i
      (announced (TDone jobNum (raw_title rawJob)) Ssuccess
         (set_processedCount (S (processedCount w2)) w2)).
Proof.
  intros jobNum H.
  unfold runQueueItem. unfold bind at 1, gets.
  rewrite (bind_ok _ _ _ _ _ (run_broadcastStatus _ _ _)).
  fold (jobIdOf i rawJob). fold jobNum.
  unfold bind at 1.
  rewrite (tryCatch_ok _ _ _ tt
             (announced (TDone jobNum (raw_title rawJob)) Ssuccess
                (set_processedCount (S (processedCount w2)) w2))).
  - reflexivity.
  - rewrite (bind_ok _ _ _ _ _ H). reflexivity.
Qed.

Lemma runQueueItem_failed i rawJob w w2 msg :
  let jobNum := mkJobNum (i + 1) (length (queue w)) in
  awaiting (item_stopInFlight (env_item env i))
    (processSingleJob env rawJob (jobIdOf i rawJob) i jobNum)
    (announced (TProcessing jobNum (raw_title rawJob)) Sinfo w)
  = (Throw (JsError msg), w2) ->
  runQueueItem env i rawJob w
  = interItemDelay env i
      (announced (TFailed jobNum (raw_title rawJob) msg) Serror
         (pushEvents [EvLog ERROR (LJobFailed jobNum (raw_title rawJob) msg)]
            (snd (updateStats StatFailed (item_statsAt (env_item env i))
                    (set_failedCount (S (failedCount w2)) w2))))).
Proof.
  intros jobNum H.
  unfold runQueueItem. unfold bind at 1, gets.
  rewrite (bind_ok _ _ _ _ _ (run_broadcastStatus _ _ _)).
  fold (jobIdOf i rawJob). fold jobNum.
  unfold bind at 1.
  rewrite (tryCatch_throw _ _ _ (JsError msg) w2).
  - reflexivity.
  - rewrite (bind_throw _ _ _ _ _ H). reflexivity.
Qed.

(** The queue loop, one round at a time. *)
Lemma runQueueLoop_next fuel i rawJob w w' :
  nth_error (queue w) i = Some rawJob ->
  stopRequested w = false ->
  runQueueItem env i rawJob w = (Ok tt, w') ->
  runQueueLoop env (S fuel) i w = runQueueLoop env fuel (S i) w'.
Proof.
  intros Hn Hs Hr.
  assert (Hi : (i <? length (queue w))%nat = true).
  { apply Nat.ltb_lt. apply nth_error_Some. congruence. }
  simpl. unfold bind at 1, gets. rewrite Hi.
  unfold bind at 1. rewrite Hs, Hn.
  now rewrite (bind_ok _ _ _ _ _ Hr).
Qed.

Lemma runQueueLoop_stopped fuel i w :
  (i < length (queue w))%nat ->
  stopRequested w = true ->
  runQueueLoop env (S fuel) i w = (Ok tt, announced TStopped Swarn w).
Proof.
  intros Hi Hs. apply Nat.ltb_lt in Hi.
  simpl. unfold bind at 1, gets. rewrite Hi.
  unfold bind at 1. rewrite Hs. reflexivity.
Qed.

Lemma runQueueLoop_done fuel i w :
  (length (queue w) <= i)%nat ->
  runQueueLoop env fuel i w = (Ok tt, w).
Proof.
  intros Hi. apply Nat.ltb_ge in Hi.
  destruct fuel; [reflexivity|].
  simpl. unfold bind at 1, gets. now rewrite Hi.
Qed.

End Runs.

(* ===================================================================== *)
(** * The flow of one item under known replies                            *)
(* ===================================================================== *)

Lemma sameStore_trans w1 w2 w3 :
  sameStore w1 w2 -> sameStore w2 w3 -> sameStore w1 w3.
Proof. unfold sameStore. intros (?&?&?) (?&?&?). repeat split; congruence. Qed.

Section Flow.

Variable env : Env.
Variables (rawJob : RawJob) (id : string) (i : nat) (jobNum : JobNum).

(** The scraping step returns the data of [externalOf], whatever the
    scraper and the closing of the tab do. *)
Lemma run_stepScrape tab w :
  exists w',
    stepScrape env i jobNum tab w
    = (Ok (externalOf (item_scrape (env_item env i))), w')
    /\ sameStore w w'.
Proof.
  unfold stepScrape.
  destruct (item_scrape (env_item env i)) as [[d|]|ms];
    destruct (item_tabRemove (env_item env i)) as [[]|mr];
    (eexists; split; [reflexivity | repeat split]).
Qed.

Lemma run_stepEmail w :
  exists w',
    stepEmail env i jobNum w = (Ok (emailOf (item_email (env_item env i))), w')
    /\ sameStore w w'.
Proof.
  unfold stepEmail, getEmailData.
  destruct (item_email (env_item env i)) as [mail|me];
    (eexists; split; [reflexivity | repeat split]).
Qed.

Lemma run_stepSaveLocal jobPayload w :
  exists w',
    stepSaveLocal env i jobNum jobPayload w = (Ok tt, w')
    /\ attempts w' = attempts w
    /\ telegram_config w' = telegram_config w
    /\ (item_storageGet (env_item env i) = Resolved tt ->
        item_storageSet (env_item env i) = Resolved tt ->
        scrapedJobs w' = Some (replaceById (storedJobs w) jobPayload)).
Proof.
  unfold stepSaveLocal, storedJobs.
  destruct (item_storageGet (env_item env i)) as [[]|mg];
    destruct (item_storageSet (env_item env i)) as [[]|mt];
    (eexists; split; [reflexivity | repeat split; intros; try discriminate]);
    reflexivity.
Qed.

Variable popupData : PopupData.

Hypothesis click_ok : item_click (env_item env i) = Resolved tt.
Hypothesis popup_ok : item_popup (env_item env i) = Resolved popupData.

(** Without a target URL the flow stops after step 2. *)
Lemma processJobFlow_no_url w :
  JsString.truthy (popup_viewFullPostUrl popupData) = false ->
  processJobFlow env rawJob id i jobNum w
  = (Throw (JsError noViewUrlMessage),
     pushEvents (popupEvents i jobNum popupData w) w).
Proof.
  intros Hu.
  unfold processJobFlow, stepSimulateClick, stepPopupData, getPopupData.
  rewrite click_ok, popup_ok. run_unfold. simpl. rewrite Hu. reflexivity.
Qed.

Hypothesis url_ok : JsString.truthy (popup_viewFullPostUrl popupData) = true.

Variable tab : nat.
Hypothesis tab_created : item_tabCreate (env_item env i) = Resolved tab.

(** When the tab is created and its load fails, the flow stops there:
    the tab stays in the set of open tabs. *)
Lemma processJobFlow_load_fails w msg :
  item_tabComplete (env_item env i) = Rejected msg ->
  processJobFlow env rawJob id i jobNum w
  = (Throw (JsError ("Failed to open/load external tab: " ++ msg)),
     set_openTabs (tab :: openTabs w)
       (pushEvents (openEvents env i jobNum popupData tab w) w)).
Proof.
  intros Hl.
  unfold processJobFlow, stepSimulateClick, stepPopupData, getPopupData,
    stepOpenTab.
  rewrite click_ok, popup_ok, tab_created, Hl. run_unfold. simpl.
  rewrite url_ok. reflexivity.
Qed.

Hypothesis tab_loaded : item_tabComplete (env_item env i) = Resolved tt.

(** The flow up to the scraping step. *)
Lemma processJobFlow_opened w :
  processJobFlow env rawJob id i jobNum w
  = (externalData <- stepScrape env i jobNum tab ;;
     emailData <- stepEmail env i jobNum ;;
     let jobPayload :=
       mergePayload rawJob id popupData (popup_viewFullPostUrl popupData)
         externalData emailData
         (getDomainGroup (env_hostname env) (popup_viewFullPostUrl popupData))
         (item_processedAt (env_item env i)) in
     stepSaveLocal env i jobNum jobPayload ;;
     stepSendToAPI env jobPayload)%js
      (set_openTabs (tab :: openTabs w)
         (pushEvents (openEvents env i jobNum popupData tab w) w)).
Proof.
  unfold processJobFlow, stepSimulateClick, stepPopupData, getPopupData,
    stepOpenTab.
  rewrite click_ok, popup_ok, tab_created, tab_loaded.
  unfold bind at 1 2 3 4.
  run_unfold. simpl. rewrite url_ok. reflexivity.
Qed.

(** When the tab loads, the flow reaches the submission of the merged
    record, whatever the scraper, the email request and the storage do;
    the record is in local storage by then if the storage accepted it. *)
Lemma processJobFlow_to_submission w :
  exists w3,
    processJobFlow env rawJob id i jobNum w
    = stepSendToAPI env (payloadOf env i rawJob id popupData) w3
    /\ attempts w3 = attempts w
    /\ telegram_config w3 = telegram_config w
    /\ (item_storageGet (env_item env i) = Resolved tt ->
        item_storageSet (env_item env i) = Resolved tt ->
        scrapedJobs w3
        = Some (replaceById (storedJobs w)
                  (payloadOf env i rawJob id popupData))).
Proof.
  rewrite processJobFlow_opened.
  set (w0 := set_openTabs _ _).
  destruct (run_stepScrape tab w0) as (w1 & E1 & S1).
  destruct (run_stepEmail w1) as (w2 & E2 & S2).
  destruct (run_stepSaveLocal (payloadOf env i rawJob id popupData) w2)
    as (w3 & E3 & A3 & T3 & J3).
  exists w3.
  rewrite (bind_ok _ _ _ _ _ E1), (bind_ok _ _ _ _ _ E2).
  fold (payloadOf env i rawJob id popupData).
  rewrite (bind_ok _ _ _ _ _ E3).
  assert (S02 : sameStore w0 w2) by (eapply sameStore_trans; eauto).
  destruct S02 as (A2 & T2 & J2).
  split; [reflexivity|].
  split; [now rewrite A3, A2|].
  split; [now rewrite T3, T2|].
  intros Hg Hs. rewrite (J3 Hg Hs). unfold storedJobs. now rewrite J2.
Qed.

End Flow.

(* ===================================================================== *)
(** * Submission when every attempt fails                                 *)
(* ===================================================================== *)

Lemma extendsBy_refl ok w : extendsBy ok w w.
Proof. exists []. split; reflexivity. Qed.

Lemma extendsBy_trans ok w1 w2 w3 :
  extendsBy ok w1 w2 -> extendsBy ok w2 w3 -> extendsBy ok w1 w3.
Proof.
  intros (es1 & E1 & F1) (es2 & E2 & F2).
  exists (es2 ++ es1)%list. split.
  - now rewrite E2, E1, app_assoc.
  - now rewrite forallb_app, F1, F2.
Qed.

Lemma extendsBy_pushEvents ok es w :
  forallb ok es = true -> extendsBy ok w (pushEvents es w).
Proof. intros H. exists es. split; [reflexivity | exact H]. Qed.

(** Three failures in a row, for any function. *)
Lemma retry_three_failures {A} (fn : M A) w m1 w1 m2 w2 m3 w3 :
  fn w = (Throw (JsError m1), w1) ->
  fn (pushEvents [EvSleep 1000; EvLog WARN (LRetry 1 3 1000 m1)] w1)
    = (Throw (JsError m2), w2) ->
  fn (pushEvents [EvSleep 2000; EvLog WARN (LRetry 2 3 2000 m2)] w2)
    = (Throw (JsError m3), w3) ->
  retry fn MAX_RETRIES RETRY_BASE_DELAY_MS w
    = (Throw (JsError m3), pushEvents [EvLog WARN (LRetry 3 3 4000 m3)] w3).
Proof.
  intros H1 H2 H3.
  unfold pushEvents in *. cbn [app] in *.
  unfold retry, MAX_RETRIES, RETRY_BASE_DELAY_MS. simpl retryLoop.
  rewrite (tryCatch_throw _ _ _ _ _ H1).
  cbn. rewrite set_trace_set_trace, (tryCatch_throw _ _ _ _ _ H2).
  cbn. rewrite set_trace_set_trace, (tryCatch_throw _ _ _ _ _ H3).
  reflexivity.
Qed.

(** A failing attempt throws the error of [attemptError]. *)
Lemma postJob_fails env jobData w m :
  attemptError (env_attempt env (attempts w)) = Some m ->
  exists w',
    postJob env jobData w = (Throw (JsError m), w')
    /\ attempts w' = S (attempts w)
    /\ scrapedJobs w' = scrapedJobs w
    /\ extendsBy quiet w w'.
Proof.
  intros H. unfold postJob.
  destruct (env_attempt env (attempts w)) as [a|a|[|] s b];
    simpl in H; try discriminate; injection H as <-.
  - eexists. split; [reflexivity|]. repeat split. exists []. now split.
  - eexists. split; [reflexivity|]. repeat split.
    exists [EvRequest (RPostJob jobData (telegram_config w))]. now split.
  - eexists. split; [reflexivity|]. repeat split.
    exists [EvRequest (RPostJob jobData (telegram_config w))]. now split.
Qed.

Section Exhausted.

Variable env : Env.
Variable jobData : JobPayload.
Variables (w : World) (m1 m2 m3 : string).

Hypothesis fail1 : attemptError (env_attempt env (attempts w)) = Some m1.
Hypothesis fail2 : attemptError (env_attempt env (S (attempts w))) = Some m2.
Hypothesis fail3 :
  attemptError (env_attempt env (S (S (attempts w)))) = Some m3.

(** After three failed attempts the client returns a failure result. *)
Lemma sendJobToAPI_exhausted :
  exists w',
    sendJobToAPI env jobData w = (Ok (mkApiResult false EmptyString m3), w')
    /\ attempts w' = S (S (S (attempts w)))
    /\ scrapedJobs w' = scrapedJobs w
    /\ extendsBy quiet w w'.
Proof.
  set (w0 := pushEvents [EvLog INFO (LSending (jobId jobData) (title jobData))] w).
  destruct (postJob_fails env jobData w0 m1 fail1) as (w1 & P1 & A1 & J1 & X1).
  set (w1' := pushEvents [EvSleep 1000; EvLog WARN (LRetry 1 3 1000 m1)] w1).
  assert (F2 : attemptError (env_attempt env (attempts w1')) = Some m2).
  { change (attempts w1') with (attempts w1). rewrite A1. exact fail2. }
  destruct (postJob_fails env jobData w1' m2 F2) as (w2 & P2 & A2 & J2 & X2).
  set (w2' := pushEvents [EvSleep 2000; EvLog WARN (LRetry 2 3 2000 m2)] w2).
  assert (F3 : attemptError (env_attempt env (attempts w2')) = Some m3).
  { change (attempts w2') with (attempts w2). rewrite A2.
    change (attempts w1') with (attempts w1). rewrite A1. exact fail3. }
  destruct (postJob_fails env jobData w2' m3 F3) as (w3 & P3 & A3 & J3 & X3).
  pose proof (retry_three_failures _ _ _ _ _ _ _ _ P1 P2 P3) as R.
  exists (pushEvents [EvLog ERROR (LSendFailed (jobId jobData) m3);
                      EvLog WARN (LRetry 3 3 4000 m3)] w3).
  split.
  - unfold sendJobToAPI.
    rewrite (bind_ok _ _ w tt w0) by reflexivity.
    rewrite (tryCatch_throw _ _ _ (JsError m3)
               (pushEvents [EvLog WARN (LRetry 3 3 4000 m3)] w3)).
    + reflexivity.
    + now rewrite (bind_throw _ _ _ _ _ R).
  - split; [|split].
    + change (attempts w3 = S (S (S (attempts w)))).
      rewrite A3. change (attempts w2') with (attempts w2). rewrite A2.
      change (attempts w1') with (attempts w1). now rewrite A1.
    + change (scrapedJobs w3 = scrapedJobs w).
      rewrite J3. change (scrapedJobs w2') with (scrapedJobs w2). rewrite J2.
      change (scrapedJobs w1') with (scrapedJobs w1). now rewrite J1.
    + apply (extendsBy_trans quiet w w3).
      * apply (extendsBy_trans quiet w w0);
          [now apply extendsBy_pushEvents|].
        apply (extendsBy_trans quiet w0 w1 w3 X1).
        apply (extendsBy_trans quiet w1 w1');
          [now apply extendsBy_pushEvents|].
        apply (extendsBy_trans quiet w1' w2 w3 X2).
        apply (extendsBy_trans quiet w2 w2');
          [now apply extendsBy_pushEvents|].
        exact X3.
      * now apply extendsBy_pushEvents.
Qed.

End Exhausted.

(* ===================================================================== *)
(** * The retry policy of the submission client                           *)
(* ===================================================================== *)

Lemma attempts_postJob env jobData w :
  attempts (snd (postJob env jobData w)) = S (attempts w).
Proof.
  unfold postJob.
  destruct (env_attempt env (attempts w)) as [m|m|[|] status body]; reflexivity.
Qed.

(** Every round of the loop calls the submission function once, and the
    loop makes no more rounds than it has left. *)
Lemma attempts_retryLoop env jobData maxRetries baseDelayMs :
  forall remaining attempt lastError w,
    (attempts w
     <= attempts (snd (retryLoop (postJob env jobData) maxRetries baseDelayMs
                         remaining attempt lastError w))
     <= attempts w + remaining)%nat.
Proof.
  induction remaining as [|r IH]; intros attempt lastError w.
  - simpl. lia.
  - simpl. unfold tryCatch.
    pose proof (attempts_postJob env jobData w) as Hp.
    destruct (postJob env jobData w) as [[body|err] w1]; simpl in Hp.
    + simpl. lia.
    + destruct err as [msg|]; [|simpl; lia].
      cbn -[retryLoop Nat.ltb Z.mul Z.pow].
      destruct (attempt <? maxRetries)%nat;
        cbn -[retryLoop Z.mul Z.pow];
        match goal with
        | |- context [retryLoop _ _ _ r (S attempt) (JsError msg) ?w3] =>
            specialize (IH (S attempt) (JsError msg) w3)
        end;
        simpl in IH; lia.
Qed.

(** C4.  With three attempts and a base delay of one second, [retry] calls
    the function at the start, again one second after a first failure and
    again two seconds after a second one; after the third failure it throws
    that last error at once, with no further call and no further sleep.
    For the submission function of the client, whatever the backend
    replies, no more than three attempts are issued. *)
Theorem retry_three_attempts_backoff :
  (forall (A : Type) (fn : M A) w m1 w1 m2 w2 m3 w3,
      fn w = (Throw (JsError m1), w1) ->
      fn (pushEvents [EvSleep 1000; EvLog WARN (LRetry 1 3 1000 m1)] w1)
        = (Throw (JsError m2), w2) ->
      fn (pushEvents [EvSleep 2000; EvLog WARN (LRetry 2 3 2000 m2)] w2)
        = (Throw (JsError m3), w3) ->
      retry fn MAX_RETRIES RETRY_BASE_DELAY_MS w
        = (Throw (JsError m3),
           pushEvents [EvLog WARN (LRetry 3 3 4000 m3)] w3))
  /\ (forall env jobData w,
         (attempts w
          <= attempts (snd (retry (postJob env jobData)
                              MAX_RETRIES RETRY_BASE_DELAY_MS w))
          <= attempts w + 3)%nat).
Proof.
  split.
  - intros A fn w m1 w1 m2 w2 m3 w3. apply retry_three_failures.
  - intros env jobData w. unfold retry, MAX_RETRIES.
    apply attempts_retryLoop.
Qed.

(** Three replies [503] from the backend. *)
Lemma retry_three_attempts_backoff_witness :
  let fn := postJob (Sample.env Sample.allOk Sample.backendDown)
              (mergePayload Sample.job1 "job_1" (Sample.popup Sample.jobUrl)
                 Sample.jobUrl Sample.external (mkEmailData "S" "B")
                 "linkedin" "now") in
  let m := "API error 503: unavailable" in
  exists w1 w2 w3,
    fn Sample.idle = (Throw (JsError m), w1)
    /\ fn (pushEvents [EvSleep 1000; EvLog WARN (LRetry 1 3 1000 m)] w1)
       = (Throw (JsError m), w2)
    /\ fn (pushEvents [EvSleep 2000; EvLog WARN (LRetry 2 3 2000 m)] w2)
       = (Throw (JsError m), w3)
    /\ retry fn MAX_RETRIES RETRY_BASE_DELAY_MS Sample.idle
       = (Throw (JsError m), pushEvents [EvLog WARN (LRetry 3 3 4000 m)] w3)
    /\ attempts w3 = 3%nat.
Proof.
  intros fn m.
  pose (w1 := snd (fn Sample.idle)).
  pose (w2 := snd (fn (pushEvents
                         [EvSleep 1000; EvLog WARN (LRetry 1 3 1000 m)] w1))).
  pose (w3 := snd (fn (pushEvents
                         [EvSleep 2000; EvLog WARN (LRetry 2 3 2000 m)] w2))).
  assert (H1 : fn Sample.idle = (Throw (JsError m), w1))
    by (vm_compute; reflexivity).
  assert (H2 : fn (pushEvents
                     [EvSleep 1000; EvLog WARN (LRetry 1 3 1000 m)] w1)
               = (Throw (JsError m), w2))
    by (vm_compute; reflexivity).
  assert (H3 : fn (pushEvents
                     [EvSleep 2000; EvLog WARN (LRetry 2 3 2000 m)] w2)
               = (Throw (JsError m), w3))
    by (vm_compute; reflexivity).
  exists w1, w2, w3.
  split; [exact H1|]. split; [exact H2|]. split; [exact H3|].
  split.
  - exact (proj1 retry_three_attempts_backoff string fn Sample.idle
             m w1 m w2 m w3 H1 H2 H3).
  - vm_compute. reflexivity.
Defined.

(* ===================================================================== *)
(** * One round of the queue                                              *)
(* ===================================================================== *)

Lemma extendsBy_emit w x e :
  isProblemStatus e = false ->
  extendsBy quiet w x -> extendsBy quiet w (set_trace (e :: trace x) x).
Proof.
  intros He (es & E & F). exists (e :: es). split.
  - simpl. now rewrite E.
  - simpl. unfold quiet at 1. now rewrite He, F.
Qed.

(** The side conditions of the frame lemmas, for an assertion that speaks
    of fields the setter at hand does not touch. *)
Ltac untouched :=
  first
    [ exact (fun _ _ H => H)
    | exact (fun _ H => H)
    | exact (fun _ _ _ H => H)
    | (intros; apply extendsBy_emit; assumption) ].

Section Item.

Variable env : Env.
Variables (i : nat) (rawJob : RawJob).

(** The item behind the lock keeps the run state, the stop flag and the
    lock, and broadcasts no error or warning. *)
Lemma lockedBody_frame id jobNum w :
  let w' :=
    snd ((processJobFlow env rawJob id i jobNum ;;
          markAsProcessed id ;;
          updateStats StatSuccess (item_statsAt (env_item env i)))%js w) in
  sameRun w w'
  /\ stopRequested w' = stopRequested w
  /\ isProcessing w' = isProcessing w
  /\ extendsBy quiet w w'.
Proof.
  intros w'. subst w'. repeat split.
  - apply (sat_inv (fun x => queue x = queue w) errorsOnly); [|reflexivity].
    apply safe_lockedBody; untouched.
  - apply (sat_inv (fun x => isRunning x = isRunning w) errorsOnly);
      [|reflexivity].
    apply safe_lockedBody; untouched.
  - apply (sat_inv (fun x => dashboardTabId x = dashboardTabId w) errorsOnly);
      [|reflexivity].
    apply safe_lockedBody; untouched.
  - apply (sat_inv (fun x => processedCount x = processedCount w) errorsOnly);
      [|reflexivity].
    apply safe_lockedBody; untouched.
  - apply (sat_inv (fun x => failedCount x = failedCount w) errorsOnly);
      [|reflexivity].
    apply safe_lockedBody; untouched.
  - apply (sat_inv (fun x => stopRequested x = stopRequested w) errorsOnly);
      [|reflexivity].
    apply safe_lockedBody; untouched.
  - apply (sat_inv (fun x => isProcessing x = isProcessing w) errorsOnly);
      [|reflexivity].
    apply safe_lockedBody; untouched.
  - apply (sat_inv (extendsBy quiet w) errorsOnly);
      [|apply extendsBy_refl].
    apply safe_lockedBody; untouched.
Qed.

(** The submission step keeps the stored records. *)
Lemma stepSendToAPI_returns jobPayload w :
  exists w',
    stepSendToAPI env jobPayload w = (Ok tt, w')
    /\ scrapedJobs w' = scrapedJobs w.
Proof.
  destruct (nothrow_run (fun x => scrapedJobs x = scrapedJobs w)
              (stepSendToAPI env jobPayload) w) as ([] & w' & E & H).
  - apply nothrow_stepSendToAPI; untouched.
  - reflexivity.
  - now exists w'.
Qed.

Variable popupData : PopupData.
Variable tab : nat.

Hypothesis click_ok : item_click (env_item env i) = Resolved tt.
Hypothesis popup_ok : item_popup (env_item env i) = Resolved popupData.
Hypothesis url_ok : JsString.truthy (popup_viewFullPostUrl popupData) = true.
Hypothesis tab_created : item_tabCreate (env_item env i) = Resolved tab.
Hypothesis tab_loaded : item_tabComplete (env_item env i) = Resolved tt.

(** When the external tab loads, the awaited item returns normally. *)
Lemma processSingleJob_succeeds w :
  isProcessing w = false ->
  let jobNum := mkJobNum (i + 1) (length (queue w)) in
  let w1 := announced (TProcessing jobNum (raw_title rawJob)) Sinfo w in
  exists w2,
    awaiting (item_stopInFlight (env_item env i))
      (processSingleJob env rawJob (jobIdOf i rawJob) i jobNum) w1
    = (Ok tt, w2)
    /\ sameRun w w2
    /\ isProcessing w2 = false
    /\ stopRequested w2
       = (item_stopInFlight (env_item env i) || stopRequested w)%bool
    /\ extendsBy quiet w w2
    /\ (item_storageGet (env_item env i) = Resolved tt ->
        item_storageSet (env_item env i) = Resolved tt ->
        scrapedJobs w2
        = Some (replaceById (storedJobs w)
                  (payloadOf env i rawJob (jobIdOf i rawJob) popupData))).
Proof.
  intros Hfree jobNum w1.
  set (id := jobIdOf i rawJob).
  set (body := (processJobFlow env rawJob id i jobNum ;;
                markAsProcessed id ;;
                updateStats StatSuccess (item_statsAt (env_item env i)))%js).
  set (held := set_isProcessing true w1).
  (* the flow reaches the submission and returns *)
  destruct (processJobFlow_to_submission env rawJob id i jobNum popupData
              click_ok popup_ok url_ok tab tab_created tab_loaded held)
    as (w3 & E3 & _ & _ & J3).
  destruct (stepSendToAPI_returns (payloadOf env i rawJob id popupData) w3)
    as (w4 & E4 & J4).
  assert (Eflow : processJobFlow env rawJob id i jobNum held = (Ok tt, w4))
    by (rewrite E3; exact E4).
  assert (Ebody : body held
                  = (Ok tt,
                     snd (updateStats StatSuccess
                            (item_statsAt (env_item env i))
                            (snd (markAsProcessed id w4))))).
  { unfold body. rewrite (bind_ok _ _ _ _ _ Eflow). reflexivity. }
  pose proof (lockedBody_frame id jobNum held) as F. fold body in F.
  cbv zeta in F. destruct F as (FR & FS & FP & FX).
  pose proof (processSingleJob_free env rawJob id i jobNum w1 Hfree) as Ep.
  cbv zeta in Ep. fold body held in Ep.
  set (w5 := snd (body held)) in *.
  exists (if item_stopInFlight (env_item env i)
          then stopped (set_isProcessing false w5)
          else set_isProcessing false w5).
  split.
  { rewrite run_awaiting, Ep. rewrite Ebody. reflexivity. }
  destruct FR as (Fq & Fr & Fd & Fc & Ff).
  assert (X : extendsBy quiet w (set_isProcessing false w5)).
  { apply (extendsBy_trans quiet w w1); [now apply extendsBy_pushEvents|].
    exact FX. }
  assert (J : item_storageGet (env_item env i) = Resolved tt ->
              item_storageSet (env_item env i) = Resolved tt ->
              scrapedJobs w5
              = Some (replaceById (storedJobs w)
                        (payloadOf env i rawJob id popupData))).
  { intros Hg Hs. unfold w5. rewrite Ebody. simpl.
    rewrite J4. exact (J3 Hg Hs). }
  assert (R : sameRun w (set_isProcessing false w5))
    by (repeat split; assumption).
  destruct (item_stopInFlight (env_item env i)).
  - split; [exact R|]. split; [reflexivity|]. split; [reflexivity|].
    split; [|exact J].
    apply (extendsBy_trans quiet w _ _ X).
    exists [EvLog INFO LStopRequested]. now split.
  - split; [exact R|]. split; [reflexivity|]. split; [exact FS|].
    split; [exact X | exact J].
Qed.

(** The round of such an item: it is counted as processed, and nothing
    but the trace, the stores and the stop flag changes. *)
Lemma runQueueItem_succeeds w :
  isProcessing w = false ->
  exists w',
    runQueueItem env i rawJob w = (Ok tt, w')
    /\ queue w' = queue w
    /\ isRunning w' = isRunning w
    /\ isProcessing w' = false
    /\ processedCount w' = S (processedCount w)
    /\ failedCount w' = failedCount w
    /\ (item_stopInFlight (env_item env i) = false ->
        item_stopInDelay (env_item env i) = false
        \/ (length (queue w) <= S i)%nat ->
        stopRequested w' = stopRequested w)
    /\ extendsBy quiet w w'
    /\ (item_storageGet (env_item env i) = Resolved tt ->
        item_storageSet (env_item env i) = Resolved tt ->
        scrapedJobs w'
        = Some (replaceById (storedJobs w)
                  (payloadOf env i rawJob (jobIdOf i rawJob) popupData))).
Proof.
  intros Hfree.
  destruct (processSingleJob_succeeds w Hfree)
    as (w2 & E2 & (Fq & Fr & Fd & Fc & Ff) & Fp & Fs & X & J).
  pose proof (runQueueItem_ok env i rawJob w w2 E2) as Er.
  rewrite run_interItemDelay in Er.
  set (jobNum := mkJobNum (i + 1) (length (queue w))) in *.
  set (wd := announced (TDone jobNum (raw_title rawJob)) Ssuccess
               (set_processedCount (S (processedCount w2)) w2)) in *.
  assert (Xd : extendsBy quiet w wd).
  { apply (extendsBy_trans quiet w w2 _ X).
    exists [EvStatus (TDone jobNum (raw_title rawJob)) Ssuccess
              (S (processedCount w2)) (failedCount w2) (length (queue w2));
            EvLog INFO (LStatus (TDone jobNum (raw_title rawJob)))].
    now split. }
  eexists. split; [exact Er|].
  destruct ((i <? length (queue wd) - 1)%nat && negb (stopRequested wd))
    eqn:Ec.
  - apply andb_prop in Ec. destruct Ec as [Ec _].
    apply Nat.ltb_lt in Ec. change (queue wd) with (queue w2) in Ec.
    rewrite Fq in Ec.
    destruct (item_stopInDelay (env_item env i)) eqn:Ed.
    + split; [exact Fq|]. split; [exact Fr|]. split; [exact Fp|].
      split; [simpl; now rewrite Fc|]. split; [exact Ff|].
      split; [intros _ [Hd|Hd]; [discriminate | lia]|].
      split; [|exact J].
      apply (extendsBy_trans quiet w wd _ Xd).
      exists [EvLog INFO LStopRequested; EvSleep JOB_DELAY_MS;
              EvStatus (TWaiting 5) Sinfo (processedCount wd)
                (failedCount wd) (length (queue wd));
              EvLog INFO (LStatus (TWaiting 5))].
      now split.
    + split; [exact Fq|]. split; [exact Fr|]. split; [exact Fp|].
      split; [simpl; now rewrite Fc|]. split; [exact Ff|].
      split; [intros Hf _; simpl; rewrite Fs, Hf; reflexivity|].
      split; [|exact J].
      apply (extendsBy_trans quiet w wd _ Xd).
      exists [EvSleep JOB_DELAY_MS;
              EvStatus (TWaiting 5) Sinfo (processedCount wd)
                (failedCount wd) (length (queue wd));
              EvLog INFO (LStatus (TWaiting 5))].
      now split.
  - split; [exact Fq|]. split; [exact Fr|]. split; [exact Fp|].
    split; [simpl; now rewrite Fc|]. split; [exact Ff|].
    split; [intros Hf _; simpl; rewrite Fs, Hf; reflexivity|].
    split; [exact Xd | exact J].
Qed.

End Item.

Section NoUrl.

Variable env : Env.
Variables (i : nat) (rawJob : RawJob) (popupData : PopupData).

Hypothesis click_ok : item_click (env_item env i) = Resolved tt.
Hypothesis popup_ok : item_popup (env_item env i) = Resolved popupData.
Hypothesis no_url : JsString.truthy (popup_viewFullPostUrl popupData) = false.

(** The round of an item without target URL: it is counted as failed. *)
Lemma runQueueItem_no_url w :
  isProcessing w = false ->
  exists w',
    runQueueItem env i rawJob w = (Ok tt, w')
    /\ queue w' = queue w
    /\ isRunning w' = isRunning w
    /\ isProcessing w' = false
    /\ processedCount w' = processedCount w
    /\ failedCount w' = S (failedCount w)
    /\ scrapedJobs w' = scrapedJobs w
    /\ (item_stopInFlight (env_item env i) = false ->
        item_stopInDelay (env_item env i) = false
        \/ (length (queue w) <= S i)%nat ->
        stopRequested w' = stopRequested w)
    /\ In (EvLog ERROR
             (LJobFailed (mkJobNum (i + 1) (length (queue w)))
                (raw_title rawJob) noViewUrlMessage)) (trace w').
Proof.
  intros Hfree.
  set (jobNum := mkJobNum (i + 1) (length (queue w))).
  set (w1 := announced (TProcessing jobNum (raw_title rawJob)) Sinfo w).
  set (held := set_isProcessing true w1).
  set (wt := set_isProcessing false
               (pushEvents (popupEvents i jobNum popupData held) held)).
  assert (Ep : processSingleJob env rawJob (jobIdOf i rawJob) i jobNum w1
               = (Throw (JsError noViewUrlMessage), wt)).
  { rewrite (processSingleJob_free env rawJob _ i jobNum w1 Hfree).
    fold held.
    rewrite (bind_throw _ _ _ _ _
               (processJobFlow_no_url env rawJob (jobIdOf i rawJob) i jobNum
                  popupData click_ok popup_ok held no_url)).
    reflexivity. }
  pose proof (run_awaiting (item_stopInFlight (env_item env i))
                (processSingleJob env rawJob (jobIdOf i rawJob) i jobNum) w1)
    as Ea.
  rewrite Ep in Ea. simpl fst in Ea. simpl snd in Ea.
  pose proof (runQueueItem_failed env i rawJob w _ noViewUrlMessage Ea) as Er.
  rewrite run_interItemDelay in Er.
  eexists. split; [exact Er|].
  match goal with
  | |- context [if ?c then _ else _] => destruct c eqn:Ec
  end.
  - apply andb_prop in Ec. destruct Ec as [Ec _].
    apply Nat.ltb_lt in Ec.
    assert (Hlen : (S i < length (queue w))%nat).
    { destruct (item_stopInFlight (env_item env i)); simpl in Ec; lia. }
    clear Ec.
    destruct (item_stopInFlight (env_item env i));
      destruct (item_stopInDelay (env_item env i));
      repeat split; try reflexivity;
      try (intros Hf Hd; first [discriminate Hf
                               | destruct Hd as [Hd|Hd];
                                 [discriminate Hd | lia]
                               | reflexivity]);
      simpl; auto 10.
  - clear Ec.
    destruct (item_stopInFlight (env_item env i));
      repeat split; try reflexivity;
      try (intros Hf Hd; first [discriminate Hf | reflexivity]);
      simpl; auto 10.
Qed.

End NoUrl.

(* ===================================================================== *)
(** * The fuel of the queue loop                                          *)
(* ===================================================================== *)

(** A round keeps the queue, and returns. *)
Lemma runQueueItem_keeps_queue env i rawJob w :
  exists w', runQueueItem env i rawJob w = (Ok tt, w') /\ queue w' = queue w.
Proof.
  destruct (nothrow_run (fun x => queue x = queue w)
              (runQueueItem env i rawJob) w) as ([] & w' & E & H).
  - apply nothrow_runQueueItem; untouched.
  - reflexivity.
  - now exists w'.
Qed.

(** The loop started by [runQueue] never runs out of fuel: from index [i],
    any fuel of at least [queue.length - i] gives the same run. *)
Lemma runQueueLoop_enough_fuel env fuel :
  forall i w,
    (length (queue w) - i <= fuel)%nat ->
    runQueueLoop env fuel i w
    = runQueueLoop env (length (queue w) - i) i w.
Proof.
  induction fuel as [|fuel IH]; intros i w Hf.
  - replace (length (queue w) - i)%nat with 0%nat by lia. reflexivity.
  - destruct (Nat.lt_ge_cases i (length (queue w))) as [Hlt|Hge].
    + destruct (length (queue w) - i)%nat as [|k] eqn:Ek; [lia|].
      destruct (stopRequested w) eqn:Es.
      * now rewrite !runQueueLoop_stopped.
      * destruct (nth_error (queue w) i) as [rawJob|] eqn:En.
        2:{ apply nth_error_None in En. lia. }
        destruct (runQueueItem_keeps_queue env i rawJob w) as (w' & Er & Hq).
        rewrite !(runQueueLoop_next env _ i rawJob w w' En Es Er).
        rewrite IH by (rewrite Hq; lia).
        f_equal. rewrite Hq. lia.
    + now rewrite !runQueueLoop_done.
Qed.

(* ===================================================================== *)
(** * Cooperative cancellation                                            *)
(* ===================================================================== *)

Lemma run_finishQueue w : finishQueue w = (Ok tt, finished w).
Proof.
  unfold finishQueue, finished.
  destruct (dashboardTabId w) as [[|t]|] eqn:E;
    unfold bind at 1, gets; rewrite E; reflexivity.
Qed.

Lemma finished_calm w : extendsBy (fun e => negb (resumesWork e)) w (finished w).
Proof.
  unfold finished.
  destruct (dashboardTabId w) as [[|t]|].
  - exists [EvLog INFO LShutDown]. now split.
  - exists [EvLog INFO LShutDown;
            EvRequest (RTabUpdate (Some (S t)) dashboardUrl);
            EvLog INFO LRedirecting]. now split.
  - exists [EvLog INFO LShutDown]. now split.
Qed.

(** After the loop, with a stop request pending, the run is closed without
    entering the second phase. *)
Lemma runQueueEpilogue_stopped env w :
  stopRequested w = true ->
  runQueueEpilogue env w
  = (Ok tt,
     finished (announced (TPhase1Complete (processedCount w) (failedCount w))
                 Ssuccess w)).
Proof.
  intros H. unfold runQueueEpilogue.
  unfold bind at 1, gets.
  rewrite (bind_ok _ _ _ _ _ (run_broadcastStatus _ _ _)).
  unfold bind at 1, gets.
  change (stopRequested (announced _ _ w)) with (stopRequested w). rewrite H.
  simpl negb. cbv iota.
  rewrite (bind_ok _ _ _ tt
             (announced (TPhase1Complete (processedCount w) (failedCount w))
                Ssuccess w)) by reflexivity.
  apply run_finishQueue.
Qed.

Section Stop.

Variable env : Env.
Variables (i : nat) (rawJob : RawJob) (w : World).

Hypothesis stop_in_flight : item_stopInFlight (env_item env i) = true.

(** The round of the item in flight. *)
Lemma runQueueItem_stop_in_flight :
  exists w1,
    runQueueItem env i rawJob w = (Ok tt, w1)
    /\ (processedCount w1 + failedCount w1
        = S (processedCount w + failedCount w))%nat
    /\ stopRequested w1 = true
    /\ queue w1 = queue w
    /\ endsWithItemStatus w1.
Proof.
  set (jobNum := mkJobNum (i + 1) (length (queue w))).
  set (w0 := announced (TProcessing jobNum (raw_title rawJob)) Sinfo w).
  set (job := processSingleJob env rawJob (jobIdOf i rawJob) i jobNum).
  assert (Fq : queue (snd (job w0)) = queue w).
  { apply (sat_inv (fun x => queue x = queue w) errorsOnly); [|reflexivity].
    apply safe_processSingleJob; untouched. }
  assert (Fc : processedCount (snd (job w0)) = processedCount w).
  { apply (sat_inv (fun x => processedCount x = processedCount w) errorsOnly);
      [|reflexivity].
    apply safe_processSingleJob; untouched. }
  assert (Ff : failedCount (snd (job w0)) = failedCount w).
  { apply (sat_inv (fun x => failedCount x = failedCount w) errorsOnly);
      [|reflexivity].
    apply safe_processSingleJob; untouched. }
  pose proof (run_awaiting (item_stopInFlight (env_item env i)) job w0) as Ea.
  rewrite stop_in_flight in Ea.
  destruct (job w0) as [[[]|err] w2] eqn:Ej; simpl in Ea, Fq, Fc, Ff.
  - (* the item succeeded *)
    pose proof (runQueueItem_ok env i rawJob w (stopped w2)) as Er.
    cbv zeta in Er. fold jobNum w0 job in Er. rewrite stop_in_flight in Er.
    specialize (Er Ea). rewrite run_interItemDelay in Er.
    change (stopRequested (announced _ _ _)) with true in Er.
    rewrite andb_false_r in Er.
    eexists. split; [exact Er|].
    split; [simpl; rewrite Fc, Ff; reflexivity|].
    split; [reflexivity|]. split; [exact Fq | exact I].
  - (* the item failed *)
    assert (exists msg, err = JsError msg) as [msg ->].
    { apply (safe_run_throw (fun _ => True) job w0 err w2); [|exact I|exact Ej].
      apply safe_processSingleJob; intros; exact I. }
    pose proof (runQueueItem_failed env i rawJob w (stopped w2) msg) as Er.
    cbv zeta in Er. fold jobNum w0 job in Er. rewrite stop_in_flight in Er.
    specialize (Er Ea). rewrite run_interItemDelay in Er.
    change (stopRequested (announced _ _ _)) with true in Er.
    rewrite andb_false_r in Er.
    eexists. split; [exact Er|].
    split; [simpl; rewrite Fc, Ff; lia|].
    split; [reflexivity|]. split; [exact Fq | exact I].
Qed.

End Stop.

Lemma finished_counters w :
  processedCount (finished w) = processedCount w
  /\ failedCount (finished w) = failedCount w
  /\ scrapedJobs (finished w) = scrapedJobs w
  /\ isRunning (finished w) = false
  /\ queue (finished w) = [].
Proof. unfold finished. destruct (dashboardTabId w) as [[|t]|]; repeat split. Qed.

Example stop_during_first_item_counts :
  let env := Sample.env (fun _ => Sample.itemStopped) Sample.backendUp in
  let w' := snd (runQueue env (Sample.running [Sample.job1; Sample.job2])) in
  processedCount w' = 1%nat /\ failedCount w' = 0%nat
  /\ existsb startsItem (trace w') = true
  /\ length (filter startsItem (trace w')) = 1%nat
  /\ existsb entersPhase2 (trace w') = false
  /\ existsb (fun e => match e with
                       | EvSleep ms => ms =? JOB_DELAY_MS
                       | _ => false
                       end) (trace w') = false.
Proof. vm_compute. repeat split. Qed.

(* ===================================================================== *)
(** * Single flight                                                       *)
(* ===================================================================== *)

(** The steps of an item keep the value of the lock. *)
Lemma lock_kept_by_body env rawJob id rowIndex jobNum w :
  isProcessing w = true ->
  isProcessing
    (snd ((processJobFlow env rawJob id rowIndex jobNum ;;
           markAsProcessed id ;;
           updateStats StatSuccess (item_statsAt (env_item env rowIndex)))%js
            w)) = true.
Proof.
  intros H.
  apply (sat_inv (fun w => isProcessing w = true) errorsOnly); [|exact H].
  apply safe_lockedBody; intros; assumption.
Qed.

(** A round of the main loop keeps the run marked as running. *)
Lemma running_kept_by_item env i rawJob w :
  isRunning w = true -> isRunning (snd (runQueueItem env i rawJob w)) = true.
Proof.
  intros H.
  apply (sat_inv (fun w => isRunning w = true) succeeds); [|exact H].
  apply nothrow_runQueueItem; intros; assumption.
Qed.


(* ===================================================================== *)
(** * Items without target URL                                            *)
(* ===================================================================== *)

(** After the loop, without a stop request, the second phase runs and the
    run is closed; the counters and the stored records are those of the
    first phase. *)
Lemma runQueueEpilogue_continues env w :
  stopRequested w = false ->
  (forall i, p2_reload (env_phase2 env) i = Resolved tt
             /\ p2_reloaded (env_phase2 env) i = Resolved tt) ->
  exists w',
    runQueueEpilogue env w = (Ok tt, w')
    /\ queue w' = []
    /\ isRunning w' = false
    /\ processedCount w' = processedCount w
    /\ failedCount w' = failedCount w
    /\ scrapedJobs w' = scrapedJobs w.
Proof.
  intros Hs Hr.
  set (w1 := announced (TPhase1Complete (processedCount w) (failedCount w))
               Ssuccess w).
  set (w2 := pushEvents [EvSleep 2000] (announced TStartingPhase2 Sinfo w1)).
  set (I := fun x => processedCount x = processedCount w
                     /\ failedCount x = failedCount w
                     /\ scrapedJobs x = scrapedJobs w).
  destruct (nothrow_run I (runResumeBuilderQueue env) w2)
    as ([] & w3 & E3 & (Fc & Ff & Fj)).
  { apply nothrow_runResumeBuilderQueue; try untouched. exact Hr. }
  { repeat split. }
  destruct (finished_counters w3) as (Gc & Gf & Gj & Gr & Gq).
  exists (finished w3).
  split.
  { unfold runQueueEpilogue. unfold bind at 1, gets.
    rewrite (bind_ok _ _ _ _ _ (run_broadcastStatus _ _ _)). fold w1.
    unfold bind at 1, gets.
    change (stopRequested w1) with (stopRequested w). rewrite Hs.
    simpl negb. cbv iota.
    rewrite (bind_ok _ _ w1 tt w3).
    - apply run_finishQueue.
    - rewrite (bind_ok _ _ _ _ _ (run_broadcastStatus _ _ _)).
      rewrite (bind_ok _ _ _ tt w2) by reflexivity.
      exact E3. }
  split; [exact Gq|]. split; [exact Gr|].
  split; [now rewrite Gc|]. split; [now rewrite Gf | now rewrite Gj].
Qed.

(** An item whose detail data has no target URL fails with the
    missing-URL error; its round counts it as failed, stores nothing, and
    the loop goes on with the next index.  With two items, the first
    resolving a target URL, loading its page and being stored, the second
    without target URL, and a second phase in which every reload of the
    builder page succeeds, the run ends with one item processed, one
    failed, an empty queue, and the record of the first item as the one
    record added to local storage. *)
Lemma missing_url_fails_only_the_item (env : Env) :
  (forall i rawJob popupData w,
      nth_error (queue w) i = Some rawJob ->
      stopRequested w = false ->
      isProcessing w = false ->
      item_click (env_item env i) = Resolved tt ->
      item_popup (env_item env i) = Resolved popupData ->
      popup_viewFullPostUrl popupData = EmptyString ->
      (forall id jobNum w0,
          fst (processJobFlow env rawJob id i jobNum w0)
          = Throw (JsError noViewUrlMessage))
      /\ exists w',
           runQueueItem env i rawJob w = (Ok tt, w')
           /\ failedCount w' = S (failedCount w)
           /\ processedCount w' = processedCount w
           /\ scrapedJobs w' = scrapedJobs w
           /\ forall fuel,
                runQueueLoop env (S fuel) i w = runQueueLoop env fuel (S i) w')
  /\ (forall job1 job2 popup1 popup2 tab w,
         queue w = [job1; job2] ->
         stopRequested w = false ->
         isProcessing w = false ->
         item_click (env_item env 0) = Resolved tt ->
         item_popup (env_item env 0) = Resolved popup1 ->
         JsString.truthy (popup_viewFullPostUrl popup1) = true ->
         item_tabCreate (env_item env 0) = Resolved tab ->
         item_tabComplete (env_item env 0) = Resolved tt ->
         item_storageGet (env_item env 0) = Resolved tt ->
         item_storageSet (env_item env 0) = Resolved tt ->
         item_stopInFlight (env_item env 0) = false ->
         item_stopInDelay (env_item env 0) = false ->
         item_click (env_item env 1) = Resolved tt ->
         item_popup (env_item env 1) = Resolved popup2 ->
         popup_viewFullPostUrl popup2 = EmptyString ->
         item_stopInFlight (env_item env 1) = false ->
         (forall k, p2_reload (env_phase2 env) k = Resolved tt
                    /\ p2_reloaded (env_phase2 env) k = Resolved tt) ->
         exists w',
           runQueue env w = (Ok tt, w')
           /\ processedCount w' = S (processedCount w)
           /\ failedCount w' = S (failedCount w)
           /\ queue w' = []
           /\ isRunning w' = false
           /\ scrapedJobs w'
              = Some (replaceById (storedJobs w)
                        (payloadOf env 0 job1 (jobIdOf 0 job1) popup1))
           /\ (storedJobs w = [] ->
               storedJobs w' = [payloadOf env 0 job1 (jobIdOf 0 job1) popup1])).
Proof.
  split.
  - intros i rawJob popupData w Hn Hs Hp Hc Hd Hu.
    assert (Ht : JsString.truthy (popup_viewFullPostUrl popupData) = false)
      by (rewrite Hu; reflexivity).
    split.
    + intros id jobNum w0.
      now rewrite (processJobFlow_no_url env rawJob id i jobNum popupData
                     Hc Hd w0 Ht).
    + destruct (runQueueItem_no_url env i rawJob popupData Hc Hd Ht w Hp)
        as (w' & Er & _ & _ & _ & Fc & Ff & Fj & _).
      exists w'. repeat split; try assumption.
      intros fuel. now apply runQueueLoop_next with (rawJob := rawJob).
  - intros job1 job2 popup1 popup2 tab w Hq Hs Hp
      Hc1 Hd1 Hu1 Ht1 Hl1 Hg1 Hs1 Hf1 Hy1 Hc2 Hd2 Hu2 Hf2 Hr.
    assert (Ht2 : JsString.truthy (popup_viewFullPostUrl popup2) = false)
      by (rewrite Hu2; reflexivity).
    (* the first item *)
    destruct (runQueueItem_succeeds env 0 job1 popup1 tab Hc1 Hd1 Hu1 Ht1 Hl1
                w Hp)
      as (wa & Ea & Aq & Ar & Ap & Ac & Af & As & _ & Aj).
    specialize (As Hf1 (or_introl Hy1)). specialize (Aj Hg1 Hs1).
    (* the second item *)
    destruct (runQueueItem_no_url env 1 job2 popup2 Hc2 Hd2 Ht2 wa Ap)
      as (wb & Eb & Bq & Br & Bp & Bc & Bf & Bj & Bs & _).
    specialize (Bs Hf2). rewrite Aq, Hq in Bs.
    specialize (Bs (or_intror (le_n 2))).
    (* the loop *)
    assert (El : runQueueLoop env 2 0 w = (Ok tt, wb)).
    { rewrite (runQueueLoop_next env 1 0 job1 w wa);
        [|rewrite Hq; reflexivity | exact Hs | exact Ea].
      rewrite (runQueueLoop_next env 0 1 job2 wa wb);
        [reflexivity | rewrite Aq, Hq; reflexivity | now rewrite As | exact Eb]. }
    (* the second phase and the shutdown *)
    assert (Hsb : stopRequested wb = false) by (rewrite Bs, As; exact Hs).
    destruct (runQueueEpilogue_continues env wb Hsb Hr)
      as (w' & Ee & Eq & Er & Ec & Ef & Ej).
    exists w'.
    split.
    { unfold runQueue. unfold bind at 1, gets. rewrite Hq. simpl length.
      now rewrite (bind_ok _ _ _ _ _ El). }
    split; [now rewrite Ec, Bc, Ac|].
    split; [now rewrite Ef, Bf, Af|].
    split; [exact Eq|]. split; [exact Er|].
    assert (Hj : scrapedJobs w'
                 = Some (replaceById (storedJobs w)
                           (payloadOf env 0 job1 (jobIdOf 0 job1) popup1)))
      by (now rewrite Ej, Bj, Aj).
    split; [exact Hj|].
    intros He. unfold storedJobs at 1. rewrite Hj, He. reflexivity.
Qed.


(** The end-to-end scenario on the sample platform, with a backend that
    lists no pending record. *)
Lemma missing_url_fails_only_the_item_witness :
  let env := Sample.env Sample.secondWithoutUrl Sample.backendUp in
  let w := Sample.running [Sample.job1; Sample.job2] in
  popup_viewFullPostUrl (Sample.popup EmptyString) = EmptyString
  /\ item_popup (env_item env 1) = Resolved (Sample.popup EmptyString)
  /\ exists w',
       runQueue env w = (Ok tt, w')
       /\ processedCount w' = 1%nat
       /\ failedCount w' = 1%nat
       /\ queue w' = []
       /\ storedJobs w'
          = [payloadOf env 0 Sample.job1 (jobIdOf 0 Sample.job1)
               (Sample.popup Sample.jobUrl)].
Proof.
  intros env w.
  split; [reflexivity|]. split; [reflexivity|].
  destruct (proj2 (missing_url_fails_only_the_item env)
              Sample.job1 Sample.job2
              (Sample.popup Sample.jobUrl) (Sample.popup EmptyString) 42%nat w
              eq_refl eq_refl eq_refl eq_refl eq_refl eq_refl eq_refl eq_refl
              eq_refl eq_refl eq_refl eq_refl eq_refl eq_refl eq_refl eq_refl
              (fun k => conj eq_refl eq_refl))
    as (w' & E & Hc & Hf & Hq & _ & _ & Hj).
  exists w'.
  split; [exact E|]. split; [exact Hc|]. split; [exact Hf|].
  split; [exact Hq | exact (Hj eq_refl)].
Defined.

Example two_items_second_without_url :
  let env := Sample.env Sample.secondWithoutUrl Sample.backendUp in
  let w' := snd (runQueue env (Sample.running [Sample.job1; Sample.job2])) in
  statusesOf (trace w')
  = [(TProcessing (mkJobNum 1 2) "Backend Engineer", Sinfo);
     (TSimulating (mkJobNum 1 2), Sinfo);
     (TOpening (mkJobNum 1 2) "linkedin", Sinfo);
     (TExtractingEmail (mkJobNum 1 2), Sinfo);
     (TDone (mkJobNum 1 2) "Backend Engineer", Ssuccess);
     (TWaiting 5, Sinfo);
     (TProcessing (mkJobNum 2 2) "QA Analyst", Sinfo);
     (TSimulating (mkJobNum 2 2), Sinfo);
     (TFailed (mkJobNum 2 2) "QA Analyst" noViewUrlMessage, Serror);
     (TPhase1Complete 1 1, Ssuccess);
     (TStartingPhase2, Sinfo);
     (TNoPendingJobs, Ssuccess)].
Proof. vm_compute. reflexivity. Qed.

(* ===================================================================== *)
(** * The external tab                                                    *)
(* ===================================================================== *)

(** C8, at the failing input.  The external tab of the first item is
    created and its load times out: the item fails, no closing of the tab
    is attempted, and the tab is still open when the processing of the
    second item begins. *)
Theorem external_tab_left_open_on_load_timeout :
  let env := Sample.env Sample.firstLoadTimeout Sample.backendUp in
  let w := Sample.running [Sample.job1; Sample.job2] in
  exists w1,
    runQueueItem env 0 Sample.job1 w = (Ok tt, w1)
    /\ In (EvRequest (RTabCreate Sample.jobUrl)) (trace w1)
    /\ existsb isTabRemove (trace w1) = false
    /\ openTabs w1 = [42%nat]
    /\ failedCount w1 = 1%nat
    /\ runQueueLoop env 2 0 w = runQueueLoop env 1 1 w1.
Proof.
  intros env w.
  exists (snd (runQueueItem env 0 Sample.job1 w)).
  split; [vm_compute; reflexivity|].
  split; [vm_compute; tauto|].
  split; [vm_compute; reflexivity|].
  split; [vm_compute; reflexivity|].
  split; [vm_compute; reflexivity|].
  vm_compute. reflexivity.
Qed.

(** On the other path, when the tab loads, its closing is requested
    whatever the scraper does. *)
Lemma stepScrape_requests_close env i jobNum tab w :
  In (EvRequest (RTabRemove tab))
     (trace (snd (stepScrape env i jobNum tab w))).
Proof.
  unfold stepScrape.
  destruct (item_scrape (env_item env i)) as [[d|]|ms];
    destruct (item_tabRemove (env_item env i)) as [[]|mr];
    simpl; auto 10.
Qed.

(** The tab is closed when the browser accepts the request. *)
Lemma stepScrape_closes env i jobNum tab w :
  item_tabRemove (env_item env i) = Resolved tt ->
  openTabs (snd (stepScrape env i jobNum tab w)) = removeTab tab (openTabs w).
Proof.
  intros H. unfold stepScrape. rewrite H.
  destruct (item_scrape (env_item env i)) as [[d|]|ms]; reflexivity.
Qed.

(* ===================================================================== *)
(** * A whole run on the sample platform                                  *)
(* ===================================================================== *)

Example start_command_runs_both_phases :
  let env := Sample.env Sample.allOk Sample.backendUp in
  let r := handleStartQueue env (mkStartOptions true) Sample.idle in
  fst r = Ok tt
  /\ processedCount (snd r) = 2%nat
  /\ failedCount (snd r) = 0%nat
  /\ isRunning (snd r) = false
  /\ queue (snd r) = []
  /\ queueActive (snd r) = Some false
  /\ openTabs (snd r) = []
  /\ attempts (snd r) = 2%nat
  /\ length (storedJobs (snd r)) = 2%nat
  /\ stats (snd r)
     = Some (mkStats 2 0 (Some "2026-01-01T00:00:01.000Z")).
Proof. vm_compute. repeat split. Qed.

Example start_without_dashboard_tab :
  let env :=
    mkEnv Sample.hostname
      (mkStartEnv (Resolved tt) (Resolved tt) (Resolved []) (Resolved tt) None)
      Sample.allOk Sample.backendUp Sample.phase2 in
  let r := handleStartQueue env (mkStartOptions false) Sample.idle in
  fst r = Ok tt
  /\ isRunning (snd r) = false
  /\ queueActive (snd r) = Some false
  /\ statusesOf (trace (snd r)) = [(TNoDashboardTab, Serror)].
Proof. vm_compute. repeat split. Qed.

(* ===================================================================== *)
(** * The hash of the fingerprint                                         *)
(* ===================================================================== *)

Lemma toInt32_mod x : toInt32 x mod 2 ^ 32 = x mod 2 ^ 32.
Proof.
  unfold toInt32.
  pose proof (Z.mod_pos_bound x (2 ^ 32) ltac:(lia)) as B.
  destruct (2 ^ 31 <=? x mod 2 ^ 32).
  - replace (x mod 2 ^ 32 - 2 ^ 32) with (x mod 2 ^ 32 + (-1) * 2 ^ 32) by lia.
    rewrite Z.mod_add by lia. apply Z.mod_mod. lia.
  - apply Z.mod_mod. lia.
Qed.

Lemma toInt32_congr a b :
  a mod 2 ^ 32 = b mod 2 ^ 32 -> toInt32 a = toInt32 b.
Proof. unfold toInt32. now intros ->. Qed.

Lemma toInt32_range x : - 2 ^ 31 <= toInt32 x < 2 ^ 31.
Proof.
  unfold toInt32.
  pose proof (Z.mod_pos_bound x (2 ^ 32) ltac:(lia)) as B.
  destruct (2 ^ 31 <=? x mod 2 ^ 32) eqn:E.
  - apply Z.leb_le in E. lia.
  - apply Z.leb_gt in E. lia.
Qed.

(** [(hash << 5) - hash + char] wrapped to 32 bits is [31 * hash + char]
    wrapped to 32 bits, and wrapping the running hash first changes
    nothing. *)
Lemma hashStep_times_31 h h' c :
  h mod 2 ^ 32 = h' mod 2 ^ 32 ->
  hashStep h c = toInt32 (31 * h' + JsString.charCode c).
Proof.
  intros H. unfold hashStep, shl32. apply toInt32_congr.
  rewrite Z.shiftl_mul_pow2 by lia.
  set (cc := JsString.charCode c).
  rewrite Z.add_mod by lia.
  rewrite Zminus_mod, toInt32_mod.
  rewrite Z.mul_mod by lia. rewrite toInt32_mod.
  rewrite <- Z.mul_mod by lia.
  rewrite <- Zminus_mod.
  rewrite <- Z.add_mod by lia.
  replace (h * 2 ^ 5 - h + cc) with (31 * h + cc) by lia.
  rewrite Z.add_mod by lia. rewrite Z.mul_mod by lia. rewrite H.
  rewrite <- Z.mul_mod by lia. now rewrite <- Z.add_mod by lia.
Qed.

Lemma hashFrom_polyHash raw : forall h h',
  h = toInt32 h' -> hashFrom h raw = toInt32 (polyHash h' raw).
Proof.
  induction raw as [|c r IH]; intros h h' H; simpl; [exact H|].
  apply IH. apply hashStep_times_31. rewrite H. apply toInt32_mod.
Qed.

(** X1.  The loop of [generateJobId] wraps the hash to 32 bits in every
    round; the result is the base-31 polynomial over the code units of the
    raw string, computed in unbounded integers and wrapped once at the end
    (the hash of Java's [String.hashCode]).  The number printed in the id
    is therefore at most [2^31]. *)
Theorem generateJobId_is_polynomial_hash (title company : string) :
  let raw := normalize title ++ "::" ++ normalize company in
  hashFrom 0 raw = toInt32 (polyHash 0 raw)
  /\ generateJobId title company
     = "job_" ++ JsString.ofN (Z.abs_N (toInt32 (polyHash 0 raw)))
  /\ (Z.abs_N (toInt32 (polyHash 0 raw)) <= 2 ^ 31)%N.
Proof.
  intros raw.
  assert (H : hashFrom 0 raw = toInt32 (polyHash 0 raw))
    by (apply hashFrom_polyHash; reflexivity).
  split; [exact H|]. split.
  - unfold generateJobId. fold raw. now rewrite H.
  - pose proof (toInt32_range (polyHash 0 raw)) as R.
    apply N2Z.inj_le. rewrite N2Z.inj_abs_N.
    change (Z.of_N (2 ^ 31)) with (2 ^ 31). lia.
Qed.

(* ===================================================================== *)
(** * The list of processed ids                                           *)
(* ===================================================================== *)

Lemma existsb_eqb_In id (ids : list string) :
  existsb (String.eqb id) ids = true <-> In id ids.
Proof.
  rewrite existsb_exists. split.
  - intros (x & Hx & E). apply String.eqb_eq in E. now subst.
  - intros H. exists id. split; [exact H | apply String.eqb_refl].
Qed.

Lemma storedIds_markAsProcessed id w :
  storedIds (snd (markAsProcessed id w))
  = if existsb (String.eqb id) (storedIds w) then storedIds w
    else (storedIds w ++ [id])%list.
Proof. reflexivity. Qed.

(** X2.  The processed ids behave as a set: after [markAsProcessed id] the
    id is reported as processed and every other id is reported as before;
    marking an id twice is marking it once; a list without duplicates stays
    without duplicates; and after [clearProcessedIds] no id is reported as
    processed.  The storage requests of the three functions are taken to be
    accepted, as their definitions have it. *)
Theorem processed_ids_form_a_set (id : string) (w : World) :
  let w' := snd (markAsProcessed id w) in
  isAlreadyProcessed id w' = (Ok true, w')
  /\ (forall other, other <> id ->
        fst (isAlreadyProcessed other w') = fst (isAlreadyProcessed other w))
  /\ markAsProcessed id w' = (Ok tt, w')
  /\ (NoDup (storedIds w) -> NoDup (storedIds w'))
  /\ (forall any,
        fst (isAlreadyProcessed any (snd (clearProcessedIds w'))) = Ok false).
Proof.
  intros w'.
  assert (E : storedIds w'
              = if existsb (String.eqb id) (storedIds w) then storedIds w
                else (storedIds w ++ [id])%list)
    by apply storedIds_markAsProcessed.
  assert (Hin : existsb (String.eqb id) (storedIds w') = true).
  { rewrite E. destruct (existsb (String.eqb id) (storedIds w)) eqn:X.
    - exact X.
    - rewrite existsb_app. simpl. rewrite String.eqb_refl.
      now rewrite orb_true_r. }
  split; [|split; [|split; [|split]]].
  - unfold isAlreadyProcessed, gets. now rewrite Hin.
  - intros other Hne. unfold isAlreadyProcessed, gets. simpl fst.
    f_equal. rewrite E.
    destruct (existsb (String.eqb id) (storedIds w)); [reflexivity|].
    rewrite existsb_app. simpl.
    destruct (String.eqb_spec other id) as [->|_]; [contradiction|].
    now rewrite !orb_false_r.
  - unfold markAsProcessed, modify. fold (storedIds w'). rewrite Hin.
    unfold w', markAsProcessed, modify. simpl snd. fold (storedIds w).
    destruct w; reflexivity.
  - intros Hnd. rewrite E.
    destruct (existsb (String.eqb id) (storedIds w)) eqn:X; [exact Hnd|].
    apply NoDup_app; [exact Hnd | repeat constructor; simpl; tauto |].
    intros x Hx [<-|[]].
    apply existsb_eqb_In in Hx. congruence.
  - reflexivity.
Qed.

(** The same for an id added to a list that holds another one. *)
Lemma processed_ids_form_a_set_witness :
  let w := set_processedIds (Some ["job_1"]) Sample.idle in
  let w' := snd (markAsProcessed "job_2" w) in
  storedIds w' = ["job_1"; "job_2"]
  /\ fst (isAlreadyProcessed "job_1" w') = fst (isAlreadyProcessed "job_1" w)
  /\ NoDup (storedIds w').
Proof.
  intros w w'.
  pose proof (processed_ids_form_a_set "job_2" w) as (_ & H2 & _ & H4 & _).
  split; [reflexivity|]. split.
  - apply H2. discriminate.
  - apply H4. repeat constructor; simpl; tauto.
Defined.

(* ===================================================================== *)
(** * One stored record per id                                            *)
(* ===================================================================== *)

Lemma filter_other_ids id (jobs : list JobPayload) :
  filter (fun j => String.eqb (jobId j) id)
    (filter (fun j => negb (String.eqb (jobId j) id)) jobs) = [].
Proof.
  induction jobs as [|j l IH]; simpl; [reflexivity|].
  destruct (String.eqb (jobId j) id) eqn:E; simpl; [exact IH|].
  now rewrite E.
Qed.

Lemma recordsWithId_replaceById jobs p :
  recordsWithId (jobId p) (replaceById jobs p) = 1%nat.
Proof.
  unfold recordsWithId, replaceById.
  rewrite filter_app, filter_other_ids. simpl.
  now rewrite String.eqb_refl.
Qed.

Lemma NoDup_map_filter {A B} (f : A -> B) (keep : A -> bool) (l : list A) :
  NoDup (map f l) -> NoDup (map f (filter keep l)).
Proof.
  induction l as [|a l IH]; simpl; intros H; [constructor|].
  inversion H as [|x xs Hn Hd]; subst.
  destruct (keep a); simpl; [|now apply IH].
  constructor; [|now apply IH].
  intros Hin. apply Hn.
  apply in_map_iff in Hin. destruct Hin as (y & Ey & Hy).
  apply filter_In in Hy. apply in_map_iff. exists y. tauto.
Qed.

Lemma NoDup_replaceById jobs p :
  NoDup (map jobId jobs) -> NoDup (map jobId (replaceById jobs p)).
Proof.
  intros H. unfold replaceById. rewrite map_app.
  apply NoDup_app.
  - now apply NoDup_map_filter.
  - repeat constructor. simpl. tauto.
  - intros x Hx [<-|[]].
    apply in_map_iff in Hx. destruct Hx as (y & Ey & Hy).
    apply filter_In in Hy. destruct Hy as [_ Hy].
    rewrite Ey, String.eqb_refl in Hy. discriminate.
Qed.

(** X3.  Saving a record replaces the stored record of the same id: after
    [replaceById] exactly one record carries the id, it is the new one and
    it is the last of the list; the records of the other ids are kept, in
    their order; ids that were pairwise distinct stay so; and the list grows
    by one record at most. *)
Theorem replaceById_keeps_one_record_per_id
    (jobs : list JobPayload) (p : JobPayload) :
  recordsWithId (jobId p) (replaceById jobs p) = 1%nat
  /\ last (replaceById jobs p) p = p
  /\ (forall j, In j (replaceById jobs p) -> jobId j = jobId p -> j = p)
  /\ filter (fun j => negb (String.eqb (jobId j) (jobId p)))
       (replaceById jobs p)
     = filter (fun j => negb (String.eqb (jobId j) (jobId p))) jobs
  /\ (NoDup (map jobId jobs) -> NoDup (map jobId (replaceById jobs p)))
  /\ (length (replaceById jobs p) <= S (length jobs))%nat.
Proof.
  split; [apply recordsWithId_replaceById|].
  split; [unfold replaceById; apply last_last|].
  split; [|split; [|split]].
  - intros j Hj E. unfold replaceById in Hj.
    apply in_app_or in Hj. destruct Hj as [Hj|[<-|[]]]; [|reflexivity].
    apply filter_In in Hj. destruct Hj as [_ Hj].
    rewrite E, String.eqb_refl in Hj. discriminate.
  - unfold replaceById. rewrite filter_app. simpl.
    rewrite String.eqb_refl. simpl. rewrite app_nil_r.
    induction jobs as [|j l IH]; simpl; [reflexivity|].
    destruct (String.eqb (jobId j) (jobId p)) eqn:E; simpl; [exact IH|].
    rewrite E. simpl. now rewrite IH.
  - apply NoDup_replaceById.
  - unfold replaceById. rewrite length_app. simpl.
    pose proof (filter_length_le
                  (fun j => negb (String.eqb (jobId j) (jobId p))) jobs).
    lia.
Qed.

(** A store of two records, the first of which is saved again. *)
Lemma replaceById_keeps_one_record_per_id_witness :
  let a := mergePayload Sample.job1 "job_1" (Sample.popup Sample.jobUrl)
             Sample.jobUrl Sample.external (mkEmailData "S" "B")
             "linkedin" "t0" in
  let b := mergePayload Sample.job2 "job_2" (Sample.popup Sample.jobUrl)
             Sample.jobUrl Sample.external (mkEmailData "S" "B")
             "linkedin" "t0" in
  let a' := mergePayload Sample.job1 "job_1" (Sample.popup Sample.jobUrl)
              Sample.jobUrl Sample.external (mkEmailData "S" "B")
              "linkedin" "t1" in
  replaceById [a; b] a' = [b; a']
  /\ NoDup (map jobId (replaceById [a; b] a')).
Proof.
  intros a b a'.
  pose proof (replaceById_keeps_one_record_per_id [a; b] a')
    as (_ & _ & _ & _ & H & _).
  split; [reflexivity|].
  apply H. repeat constructor; simpl; intuition discriminate.
Defined.

(* ===================================================================== *)
(** * The submission client, attempt by attempt                           *)
(* ===================================================================== *)

Lemma sleepsOf_app es2 es1 : sleepsOf (es2 ++ es1) = (sleepsOf es1 ++ sleepsOf es2)%list.
Proof. unfold sleepsOf. now rewrite flat_map_app, rev_app_distr. Qed.

Lemma afterAttempts_afterAttempts n2 es2 n1 es1 w :
  afterAttempts n2 es2 (afterAttempts n1 es1 w)
  = afterAttempts n2 (es2 ++ es1) w.
Proof.
  unfold afterAttempts, pushEvents. simpl. now rewrite app_assoc.
Qed.

Lemma pushEvents_afterAttempts es2 n es1 w :
  pushEvents es2 (afterAttempts n es1 w) = afterAttempts n (es2 ++ es1) w.
Proof.
  unfold afterAttempts, pushEvents. simpl. now rewrite app_assoc.
Qed.

(** One attempt: the counter moves by one, the request is traced, and the
    outcome is the one of the reply. *)
Lemma postJob_attempt env jobData w :
  exists es,
    snd (postJob env jobData w) = afterAttempts (S (attempts w)) es w
    /\ sleepsOf es = []
    /\ fst (postJob env jobData w)
       = match env_attempt env (attempts w) with
         | Response true _ body => Ok body
         | r => match attemptError r with
                | Some m => Throw (JsError m)
                | None => Throw JsUndefined
                end
         end.
Proof.
  unfold postJob.
  destruct (env_attempt env (attempts w)) as [m|m|[|] status body].
  - exists []. repeat split.
  - exists [EvRequest (RPostJob jobData (telegram_config w))]. repeat split.
  - exists [EvRequest (RPostJob jobData (telegram_config w))]. repeat split.
  - exists [EvRequest (RPostJob jobData (telegram_config w))]. repeat split.
Qed.

Lemma postJob_accepted env jobData w status body :
  env_attempt env (attempts w) = Response true status body ->
  exists es,
    postJob env jobData w = (Ok body, afterAttempts (S (attempts w)) es w)
    /\ sleepsOf es = [].
Proof.
  intros H. destruct (postJob_attempt env jobData w) as (es & E1 & E2 & E3).
  rewrite H in E3. exists es. split; [|exact E2].
  destruct (postJob env jobData w) as [o w1]. simpl in *. congruence.
Qed.

Lemma postJob_refused env jobData w :
  attemptError (env_attempt env (attempts w)) <> None ->
  exists m es,
    attemptError (env_attempt env (attempts w)) = Some m
    /\ postJob env jobData w
       = (Throw (JsError m), afterAttempts (S (attempts w)) es w)
    /\ sleepsOf es = [].
Proof.
  intros H. destruct (postJob_attempt env jobData w) as (es & E1 & E2 & E3).
  destruct (attemptError (env_attempt env (attempts w))) as [m|] eqn:Em;
    [|contradiction].
  exists m, es. split; [reflexivity|]. split; [|exact E2].
  assert (E4 : fst (postJob env jobData w) = Throw (JsError m)).
  { rewrite E3. destruct (env_attempt env (attempts w)) as [a|a|[|] s b];
      simpl in Em |- *; try discriminate; congruence. }
  destruct (postJob env jobData w) as [o w1]. simpl in *. congruence.
Qed.

(** The handler of [retry] after a failure with message [m] at attempt
    number [attempt], up to the next round. *)
Lemma retryLoop_after_failure {A} (fn : M A) maxRetries baseDelayMs
    remaining attempt lastError w m w1 :
  fn w = (Throw (JsError m), w1) ->
  retryLoop fn maxRetries baseDelayMs (S remaining) attempt lastError w
  = retryLoop fn maxRetries baseDelayMs remaining (S attempt) (JsError m)
      (pushEvents
         ((if (attempt <? maxRetries)%nat
           then [EvSleep (baseDelayMs * 2 ^ Z.of_nat (attempt - 1))]
           else [])
          ++ [EvLog WARN
                (LRetry attempt maxRetries
                   (baseDelayMs * 2 ^ Z.of_nat (attempt - 1)) m)])
         w1).
Proof.
  intros H. cbn [retryLoop]. rewrite (tryCatch_throw _ _ _ _ _ H).
  destruct (attempt <? maxRetries)%nat; reflexivity.
Qed.

(** Failures followed by an accepted attempt. *)
Lemma retryLoop_first_accepted env jobData maxRetries baseDelayMs :
  forall k remaining attempt lastError w status body,
    (k < remaining)%nat ->
    (attempt + k <= maxRetries)%nat ->
    (forall j, (j < k)%nat ->
       attemptError (env_attempt env (attempts w + j)) <> None) ->
    env_attempt env (attempts w + k) = Response true status body ->
    exists es,
      retryLoop (postJob env jobData) maxRetries baseDelayMs
        remaining attempt lastError w
      = (Ok body, afterAttempts (attempts w + S k) es w)
      /\ sleepsOf es = backoffDelays baseDelayMs attempt k.
Proof.
  induction k as [|k IH];
    intros remaining attempt lastError w status body Hk Ha Hfail Hok;
    (destruct remaining as [|r]; [lia|]).
  - rewrite Nat.add_0_r in Hok.
    destruct (postJob_accepted env jobData w status body Hok) as (es & E & Z).
    exists es. split; [|exact Z].
    cbn [retryLoop]. rewrite (tryCatch_ok _ _ _ _ _ E).
    now rewrite Nat.add_1_r.
  - assert (F0 : attemptError (env_attempt env (attempts w)) <> None).
    { specialize (Hfail O ltac:(lia)). now rewrite Nat.add_0_r in Hfail. }
    destruct (postJob_refused env jobData w F0) as (m & es0 & Em & E0 & Z0).
    rewrite (retryLoop_after_failure _ _ _ _ _ _ _ _ _ E0).
    assert (Hlt : (attempt <? maxRetries)%nat = true)
      by (apply Nat.ltb_lt; lia).
    rewrite Hlt. rewrite pushEvents_afterAttempts.
    set (es1 := (([EvSleep (baseDelayMs * 2 ^ Z.of_nat (attempt - 1))]
                  ++ [EvLog WARN
                        (LRetry attempt maxRetries
                           (baseDelayMs * 2 ^ Z.of_nat (attempt - 1)) m)])
                 ++ es0)%list).
    set (w1 := afterAttempts (S (attempts w)) es1 w).
    assert (A1 : attempts w1 = S (attempts w)) by reflexivity.
    destruct (IH r (S attempt) (JsError m) w1 status body) as (es & E & Z).
    + lia.
    + lia.
    + intros j Hj. rewrite A1.
      replace (S (attempts w) + j)%nat with (attempts w + S j)%nat by lia.
      apply Hfail. lia.
    + rewrite A1.
      replace (S (attempts w) + k)%nat with (attempts w + S k)%nat by lia.
      exact Hok.
    + exists (es ++ es1)%list. split.
      * rewrite E, A1. unfold w1. rewrite afterAttempts_afterAttempts.
        do 2 f_equal. lia.
      * rewrite sleepsOf_app, Z. unfold es1.
        rewrite sleepsOf_app, Z0. reflexivity.
Qed.

(** X4.  The client stops at the first attempt the backend accepts: when
    the first [k] submissions fail ([k] below three) and the next one gets
    an [ok] response, [sendJobToAPI] returns the success result carrying
    that response's body after exactly [k + 1] attempts, having slept one
    second after the first failure and two seconds after the second; only
    the attempt counter and the trace of the worker change. *)
Theorem sendJobToAPI_stops_at_first_accepted_attempt
    (env : Env) (jobData : JobPayload) (w : World)
    (k status : nat) (body : string) :
  (k < 3)%nat ->
  (forall j, (j < k)%nat ->
     attemptError (env_attempt env (attempts w + j)) <> None) ->
  env_attempt env (attempts w + k) = Response true status body ->
  exists es,
    sendJobToAPI env jobData w
    = (Ok (mkApiResult true body EmptyString),
       afterAttempts (attempts w + S k) es w)
    /\ sleepsOf es = firstn k [1000; 2000].
Proof.
  intros Hk Hfail Hok.
  set (w0 := pushEvents [EvLog INFO (LSending (jobId jobData) (title jobData))] w).
  destruct (retryLoop_first_accepted env jobData MAX_RETRIES
              RETRY_BASE_DELAY_MS k MAX_RETRIES 1 JsUndefined w0 status body)
    as (es & E & Z); try (unfold MAX_RETRIES; lia); try assumption.
  exists ((EvLog INFO (LSent (jobId jobData) body) :: es)
          ++ [EvLog INFO (LSending (jobId jobData) (title jobData))])%list.
  split.
  - unfold sendJobToAPI.
    rewrite (bind_ok _ _ w tt w0) by reflexivity.
    erewrite tryCatch_ok; [reflexivity|].
    unfold retry. rewrite (bind_ok _ _ _ _ _ E).
    unfold w0, afterAttempts, pushEvents. simpl.
    now rewrite <- app_assoc.
  - rewrite sleepsOf_app. simpl sleepsOf at 1.
    change (EvLog INFO (LSent (jobId jobData) body) :: es)
      with ([EvLog INFO (LSent (jobId jobData) body)] ++ es)%list.
    rewrite sleepsOf_app, Z. simpl.
    destruct k as [|[|[|k]]]; try lia; reflexivity.
Qed.

(** A backend that answers [503] once and accepts the second attempt. *)
Lemma sendJobToAPI_stops_at_first_accepted_attempt_witness :
  let replies := fun n => match n with
                          | O => Response false 503 "unavailable"
                          | _ => Response true 200 "{}"
                          end in
  let env := Sample.env Sample.allOk replies in
  let job := mergePayload Sample.job1 "job_1" (Sample.popup Sample.jobUrl)
               Sample.jobUrl Sample.external (mkEmailData "S" "B")
               "linkedin" "now" in
  exists es,
    sendJobToAPI env job Sample.idle
    = (Ok (mkApiResult true "{}" EmptyString),
       afterAttempts 2 es Sample.idle)
    /\ sleepsOf es = [1000].
Proof.
  intros replies env job.
  refine (sendJobToAPI_stops_at_first_accepted_attempt env job Sample.idle
            1 200 "{}" _ _ _).
  - lia.
  - intros j Hj. assert (j = O) as -> by lia. simpl. discriminate.
  - reflexivity.
Defined.

(** The loop of [retry] over the submission function, whatever the
    backend replies. *)
Lemma retryLoop_postJob_outcome env jobData maxRetries baseDelayMs :
  forall remaining attempt lastError w,
    exists o n es,
      retryLoop (postJob env jobData) maxRetries baseDelayMs
        (S remaining) attempt lastError w
      = (o, afterAttempts (S n) es w)
      /\ (attempts w <= n <= attempts w + remaining)%nat
      /\ match o with
         | Ok body => exists status, env_attempt env n = Response true status body
         | Throw e =>
             n = (attempts w + remaining)%nat
             /\ exists m, e = JsError m
                          /\ attemptError (env_attempt env n) = Some m
         end.
Proof.
  induction remaining as [|r IH]; intros attempt lastError w.
  - destruct (postJob_attempt env jobData w) as (es & E1 & E2 & E3).
    destruct (env_attempt env (attempts w)) as [m|m|[|] status body] eqn:Er;
      simpl in E3.
    + assert (E : postJob env jobData w
                  = (Throw (JsError m), afterAttempts (S (attempts w)) es w))
        by (destruct (postJob env jobData w); simpl in *; congruence).
      rewrite (retryLoop_after_failure _ _ _ _ _ _ _ _ _ E).
      rewrite pushEvents_afterAttempts.
      eexists _, (attempts w), _. split; [reflexivity|].
      split; [lia|]. split; [lia|]. exists m. now rewrite Er.
    + assert (E : postJob env jobData w
                  = (Throw (JsError m), afterAttempts (S (attempts w)) es w))
        by (destruct (postJob env jobData w); simpl in *; congruence).
      rewrite (retryLoop_after_failure _ _ _ _ _ _ _ _ _ E).
      rewrite pushEvents_afterAttempts.
      eexists _, (attempts w), _. split; [reflexivity|].
      split; [lia|]. split; [lia|]. exists m. now rewrite Er.
    + assert (E : postJob env jobData w
                  = (Ok body, afterAttempts (S (attempts w)) es w))
        by (destruct (postJob env jobData w); simpl in *; congruence).
      cbn [retryLoop]. rewrite (tryCatch_ok _ _ _ _ _ E).
      eexists _, (attempts w), _. split; [reflexivity|].
      split; [lia|]. exists status. exact Er.
    + assert (E : postJob env jobData w
                  = (Throw (JsError ("API error " ++ JsString.ofNat status
                                     ++ ": " ++ body)),
                     afterAttempts (S (attempts w)) es w))
        by (destruct (postJob env jobData w); simpl in *; congruence).
      rewrite (retryLoop_after_failure _ _ _ _ _ _ _ _ _ E).
      rewrite pushEvents_afterAttempts.
      eexists _, (attempts w), _. split; [reflexivity|].
      split; [lia|]. split; [lia|]. eexists. now rewrite Er.
  - destruct (postJob_attempt env jobData w) as (es & E1 & E2 & E3).
    destruct (fst (postJob env jobData w)) as [body|[m|]] eqn:Ef.
    + assert (E : postJob env jobData w
                  = (Ok body, afterAttempts (S (attempts w)) es w))
        by (destruct (postJob env jobData w); simpl in *; congruence).
      cbn [retryLoop]. rewrite (tryCatch_ok _ _ _ _ _ E).
      eexists _, (attempts w), _. split; [reflexivity|].
      split; [lia|].
      destruct (env_attempt env (attempts w)) as [a|a|[|] s b];
        simpl in E3; try discriminate.
      exists s. congruence.
    + assert (E : postJob env jobData w
                  = (Throw (JsError m), afterAttempts (S (attempts w)) es w))
        by (destruct (postJob env jobData w); simpl in *; congruence).
      rewrite (retryLoop_after_failure _ _ _ _ _ _ _ _ _ E).
      rewrite pushEvents_afterAttempts.
      match goal with
      | |- context [retryLoop _ _ _ (S r) (S attempt) (JsError m) ?w1] =>
          destruct (IH (S attempt) (JsError m) w1)
            as (o & n & es' & E' & Hn & Ho)
      end.
      change (attempts (afterAttempts (S (attempts w)) _ w))
        with (S (attempts w)) in Hn, Ho.
      rewrite afterAttempts_afterAttempts in E'.
      exists o, n. eexists. split; [exact E'|].
      split; [lia|].
      destruct o as [b|e]; [exact Ho|].
      destruct Ho as [Hn' Hm]. split; [lia | exact Hm].
    + exfalso.
      destruct (env_attempt env (attempts w)) as [a|a|[|] s b];
        simpl in E3; discriminate.
Qed.

(** The result of the client, whatever the backend replies. *)
Lemma sendJobToAPI_outcome
    (env : Env) (jobData : JobPayload) (w : World) :
  exists r n es,
    sendJobToAPI env jobData w = (Ok r, afterAttempts (S n) es w)
    /\ (attempts w <= n <= attempts w + 2)%nat
    /\ if api_success r
       then (exists status,
               env_attempt env n = Response true status (api_response r))
            /\ api_error r = EmptyString
       else n = (attempts w + 2)%nat
            /\ attemptError (env_attempt env n) = Some (api_error r)
            /\ api_response r = EmptyString.
Proof.
  set (w0 := pushEvents [EvLog INFO (LSending (jobId jobData) (title jobData))] w).
  destruct (retryLoop_postJob_outcome env jobData MAX_RETRIES
              RETRY_BASE_DELAY_MS 2 1 JsUndefined w0)
    as (o & n & es & E & Hn & Ho).
  change (attempts w0) with (attempts w) in Hn, Ho.
  assert (W : forall es', pushEvents es' (afterAttempts (S n) es w0)
                          = afterAttempts (S n)
                              ((es' ++ es)
                               ++ [EvLog INFO (LSending (jobId jobData)
                                                 (title jobData))]) w).
  { intros es'. unfold w0, afterAttempts, pushEvents. simpl.
    now rewrite <- !app_assoc. }
  destruct o as [body|e].
  - exists (mkApiResult true body EmptyString), n.
    eexists. split; [|split; [exact Hn|]].
    + unfold sendJobToAPI.
      rewrite (bind_ok _ _ w tt w0) by reflexivity.
      erewrite tryCatch_ok; [reflexivity|].
      unfold retry. change MAX_RETRIES with 3%nat at 2.
      rewrite (bind_ok _ _ _ _ _ E).
      change ((log INFO (LSent (jobId jobData) body) ;;
               ret (mkApiResult true body EmptyString))%js
                (afterAttempts (S n) es w0))
        with (Ok (mkApiResult true body EmptyString),
              pushEvents [EvLog INFO (LSent (jobId jobData) body)]
                (afterAttempts (S n) es w0)).
      now rewrite W.
    + simpl. split; [exact Ho | reflexivity].
  - destruct Ho as (Hn' & m & -> & Hm).
    exists (mkApiResult false EmptyString m), n.
    eexists. split; [|split; [exact Hn|]].
    + unfold sendJobToAPI.
      rewrite (bind_ok _ _ w tt w0) by reflexivity.
      erewrite tryCatch_throw;
        [|unfold retry; change MAX_RETRIES with 3%nat at 2;
          rewrite (bind_throw _ _ _ _ _ E); reflexivity].
      change ((m0 <- errMessage (JsError m) ;;
               log ERROR (LSendFailed (jobId jobData) m0) ;;
               ret (mkApiResult false EmptyString m0))%js
                (afterAttempts (S n) es w0))
        with (Ok (mkApiResult false EmptyString m),
              pushEvents [EvLog ERROR (LSendFailed (jobId jobData) m)]
                (afterAttempts (S n) es w0)).
      now rewrite W.
    + simpl. repeat split; assumption.
Qed.

(** X5.  [sendJobToAPI] never rejects.  Whatever the backend and the
    configuration store answer, it returns a result after one, two or three
    attempts; a success result carries the body of the last attempt's [ok]
    response and no error; a failure result is returned after the third
    attempt only and carries the error of that attempt; and only the
    attempt counter and the trace of the worker change. *)
Theorem sendJobToAPI_always_returns_a_result
    (env : Env) (jobData : JobPayload) (w : World) :
  exists r n es,
    sendJobToAPI env jobData w = (Ok r, afterAttempts (S n) es w)
    /\ (attempts w <= n <= attempts w + 2)%nat
    /\ if api_success r
       then (exists status,
               env_attempt env n = Response true status (api_response r))
            /\ api_error r = EmptyString
       else n = (attempts w + 2)%nat
            /\ attemptError (env_attempt env n) = Some (api_error r)
            /\ api_response r = EmptyString.
Proof. exact (sendJobToAPI_outcome env jobData w). Qed.

(* ===================================================================== *)
(** * The bookkeeping of a round                                          *)
(* ===================================================================== *)

Section Round.

Variable env : Env.
Variables (i : nat) (rawJob : RawJob).

(** The inter-item delay touches the trace and the stop flag only, and
    the stop flag only when a stop command arrives. *)
Lemma interItemDelay_shape w :
  exists t s,
    interItemDelay env i w = (Ok tt, set_trace t (set_stopRequested s w))
    /\ (item_stopInDelay (env_item env i) = false -> s = stopRequested w).
Proof.
  rewrite run_interItemDelay.
  destruct (_ && _).
  - destruct (item_stopInDelay (env_item env i)).
    + eexists _, true. split; [reflexivity | discriminate].
    + eexists _, (stopRequested w). split; [|reflexivity].
      destruct w; reflexivity.
  - exists (trace w), (stopRequested w). split; [|reflexivity].
    destruct w; reflexivity.
Qed.

(** The body guarded by the lock: either the flow returns, the id is
    marked and a success is added to the statistics, or the flow throws
    an [Error] and neither store is written. *)
Lemma lockedBody_outcome id jobNum w :
  let r := (processJobFlow env rawJob id i jobNum ;;
            markAsProcessed id ;;
            updateStats StatSuccess (item_statsAt (env_item env i)))%js w in
  match fst r with
  | Ok _ =>
      statsOf (snd r)
      = mkStats (S (stats_success (statsOf w))) (stats_failed (statsOf w))
          (Some (item_statsAt (env_item env i)))
      /\ In id (storedIds (snd r))
  | Throw e =>
      (exists msg, e = JsError msg)
      /\ stats (snd r) = stats w
      /\ processedIds (snd r) = processedIds w
  end.
Proof.
  set (flow := processJobFlow env rawJob id i jobNum).
  assert (Fs : stats (snd (flow w)) = stats w).
  { apply (sat_inv (fun x => stats x = stats w) errorsOnly); [|reflexivity].
    apply safe_processJobFlow; untouched. }
  assert (Fi : processedIds (snd (flow w)) = processedIds w).
  { apply (sat_inv (fun x => processedIds x = processedIds w) errorsOnly);
      [|reflexivity].
    apply safe_processJobFlow; untouched. }
  destruct (flow w) as [[[]|e] w3] eqn:Ef; simpl in Fs, Fi.
  - rewrite (bind_ok _ _ _ _ _ Ef). cbv zeta. simpl fst. cbv iota. split.
    + unfold statsOf. simpl. now rewrite Fs.
    + change (In id (storedIds (snd (markAsProcessed id w3)))).
      rewrite storedIds_markAsProcessed.
      destruct (existsb (String.eqb id) (storedIds w3)) eqn:X.
      * now apply existsb_eqb_In.
      * apply in_or_app. right. now left.
  - rewrite (bind_throw _ _ _ _ _ Ef). cbv zeta. simpl.
    split; [|split; assumption].
    apply (safe_run_throw (fun _ => True) flow w e w3); [|exact I|exact Ef].
    apply safe_processJobFlow; intros; exact I.
Qed.

(** A round of the queue loop, for every behaviour of the collaborators. *)
Lemma runQueueItem_round (w : World) :
  exists w',
    runQueueItem env i rawJob w = (Ok tt, w')
    /\ queue w' = queue w
    /\ isRunning w' = isRunning w
    /\ isProcessing w' = isProcessing w
    /\ (item_stopInFlight (env_item env i) = false ->
        item_stopInDelay (env_item env i) = false ->
        stopRequested w' = stopRequested w)
    /\ ((processedCount w' = S (processedCount w)
         /\ failedCount w' = failedCount w
         /\ (isProcessing w = false ->
             statsOf w'
             = mkStats (S (stats_success (statsOf w)))
                 (stats_failed (statsOf w))
                 (Some (item_statsAt (env_item env i)))
             /\ In (jobIdOf i rawJob) (storedIds w')))
        \/ (processedCount w' = processedCount w
            /\ failedCount w' = S (failedCount w)
            /\ isProcessing w = false
            /\ statsOf w'
               = mkStats (stats_success (statsOf w))
                   (S (stats_failed (statsOf w)))
                   (Some (item_statsAt (env_item env i)))
            /\ storedIds w' = storedIds w)).
Proof.
  set (jobNum := mkJobNum (i + 1) (length (queue w))).
  set (w0 := announced (TProcessing jobNum (raw_title rawJob)) Sinfo w).
  set (id := jobIdOf i rawJob).
  set (job := processSingleJob env rawJob id i jobNum).
  pose proof (run_awaiting (item_stopInFlight (env_item env i)) job w0) as Ea.
  destruct (isProcessing w) eqn:Hl.
  - (* the lock is held: the wrapper returns at once *)
    assert (Ej : job w0 = (Ok tt, w0))
      by (apply processSingleJob_held; exact Hl).
    rewrite Ej in Ea. simpl fst in Ea. simpl snd in Ea.
    pose proof (runQueueItem_ok env i rawJob w _ Ea) as Er.
    cbv zeta in Er. fold jobNum in Er.
    match type of Er with
    | _ = interItemDelay env i ?x =>
        destruct (interItemDelay_shape x) as (t & s & Ed & Hs)
    end.
    rewrite Ed in Er. eexists. split; [exact Er|].
    destruct (item_stopInFlight (env_item env i));
      (split; [reflexivity|]); (split; [reflexivity|]);
      (split; [exact Hl|]);
      (split; [intros Hf Hd; first [discriminate Hf | exact (Hs Hd)]|]);
      left;
      (split; [reflexivity|]); (split; [reflexivity|]); discriminate.
  - (* the lock is free *)
    set (held := set_isProcessing true w0).
    set (body := (processJobFlow env rawJob id i jobNum ;;
                  markAsProcessed id ;;
                  updateStats StatSuccess (item_statsAt (env_item env i)))%js).
    pose proof (processSingleJob_free env rawJob id i jobNum w0 Hl) as Ep.
    cbv zeta in Ep. fold held body job in Ep.
    pose proof (lockedBody_frame env i rawJob id jobNum held) as F.
    pose proof (lockedBody_outcome id jobNum held) as O.
    cbv zeta in F, O. fold body in F, O.
    destruct F as ((Fq & Fr & Fd & Fc & Ff) & Fstop & _ & _).
    rewrite Ep in Ea. simpl fst in Ea. simpl snd in Ea.
    destruct (body held) as [[[]|e] w5] eqn:Eb;
      simpl in Fq, Fr, Fc, Ff, Fstop, O, Ea.
    + (* the item was processed *)
      destruct O as [Os Oi].
      pose proof (runQueueItem_ok env i rawJob w _ Ea) as Er.
      cbv zeta in Er. fold jobNum in Er.
      match type of Er with
      | _ = interItemDelay env i ?x =>
          destruct (interItemDelay_shape x) as (t & s & Ed & Hs)
      end.
      rewrite Ed in Er. eexists. split; [exact Er|].
      destruct (item_stopInFlight (env_item env i));
        (split; [exact Fq|]); (split; [exact Fr|]);
        (split; [reflexivity|]);
        (split; [intros Hf Hd;
                 first [discriminate Hf
                       | simpl; rewrite (Hs Hd); exact Fstop]|]);
        left;
        (split; [simpl; now rewrite Fc|]); (split; [exact Ff|]);
        intros _; (split; [exact Os | exact Oi]).
    + (* the item failed *)
      destruct O as ((msg & ->) & Os & Oi).
      pose proof (runQueueItem_failed env i rawJob w _ msg Ea) as Er.
      cbv zeta in Er. fold jobNum in Er.
      match type of Er with
      | _ = interItemDelay env i ?x =>
          destruct (interItemDelay_shape x) as (t & s & Ed & Hs)
      end.
      rewrite Ed in Er. eexists. split; [exact Er|].
      destruct (item_stopInFlight (env_item env i));
        (split; [exact Fq|]); (split; [exact Fr|]);
        (split; [reflexivity|]);
        (split; [intros Hf Hd;
                 first [discriminate Hf
                       | simpl; rewrite (Hs Hd); exact Fstop]|]);
        right;
        (split; [exact Fc|]); (split; [simpl; now rewrite Ff|]);
        (split; [reflexivity|]);
        (split; [unfold statsOf; simpl; now rewrite Os
                | unfold storedIds; simpl; now rewrite Oi]).
Qed.

(** X6.  Every round of the queue loop returns normally and counts its
    item exactly once, whatever the page, the browser and the backend
    answer (the storage requests of [markAsProcessed] and [updateStats]
    are taken to be accepted, as their definitions have it): either the
    session counter of processed items grows by one, or the counter of
    failed items does, and the queue, the run flag and the lock are as
    before;
    the stop flag changes only if a stop command arrives during the round.
    When the lock was free, the persistent statistics move with the
    session counters: after a processed item [getStats] reports one more
    success and [isAlreadyProcessed] answers [true] for the id of the
    item; after a failed item [getStats] reports one more failure and the
    list of processed ids is as before. *)
Theorem every_round_counts_its_item_once (w : World) :
  exists w',
    runQueueItem env i rawJob w = (Ok tt, w')
    /\ queue w' = queue w
    /\ isRunning w' = isRunning w
    /\ isProcessing w' = isProcessing w
    /\ (item_stopInFlight (env_item env i) = false ->
        item_stopInDelay (env_item env i) = false ->
        stopRequested w' = stopRequested w)
    /\ ((processedCount w' = S (processedCount w)
         /\ failedCount w' = failedCount w
         /\ (isProcessing w = false ->
             getStats w'
             = (Ok (mkStats (S (stats_success (statsOf w)))
                      (stats_failed (statsOf w))
                      (Some (item_statsAt (env_item env i)))), w')
             /\ isAlreadyProcessed (jobIdOf i rawJob) w' = (Ok true, w')))
        \/ (processedCount w' = processedCount w
            /\ failedCount w' = S (failedCount w)
            /\ isProcessing w = false
            /\ getStats w'
               = (Ok (mkStats (stats_success (statsOf w))
                        (S (stats_failed (statsOf w)))
                        (Some (item_statsAt (env_item env i)))), w')
            /\ storedIds w' = storedIds w)).
Proof.
  destruct (runQueueItem_round w)
    as (w' & E & Hq & Hr & Hl & Hs & [(Hp & Hf & H)|(Hp & Hf & Hk & Ht & Hi)]).
  - exists w'. repeat (split; [assumption|]). left.
    split; [exact Hp|]. split; [exact Hf|].
    intros Hfree. destruct (H Hfree) as [Ht Hi]. split.
    + unfold getStats, gets. now rewrite Ht.
    + unfold isAlreadyProcessed, gets.
      now rewrite (proj2 (existsb_eqb_In _ _) Hi).
  - exists w'. repeat (split; [assumption|]). right.
    split; [exact Hp|]. split; [exact Hf|]. split; [exact Hk|].
    split; [|exact Hi].
    unfold getStats, gets. now rewrite Ht.
Qed.

End Round.

(** The first round of a run whose scraper is refused by the page. *)
Lemma every_round_counts_its_item_once_witness :
  let env := Sample.env (fun _ => Sample.itemScrapeFails) Sample.backendUp in
  let w := Sample.running [Sample.job1] in
  exists w',
    runQueueItem env 0 Sample.job1 w = (Ok tt, w')
    /\ processedCount w' = 1%nat
    /\ getStats w'
       = (Ok (mkStats 1 0 (Some "2026-01-01T00:00:01.000Z")), w')
    /\ isAlreadyProcessed (jobIdOf 0 Sample.job1) w' = (Ok true, w').
Proof.
  intros env w.
  destruct (every_round_counts_its_item_once env 0 Sample.job1 w)
    as (w' & E & _ & _ & _ & _ & [(Hp & _ & H)|(Hp & Hf & _)]).
  - exists w'. destruct (H eq_refl) as [Hs Hi]. repeat split; assumption.
  - exfalso.
    assert (W : w' = snd (runQueueItem env 0 Sample.job1 w))
      by (rewrite E; reflexivity).
    revert Hf. rewrite W. vm_compute. discriminate.
Defined.

(* ===================================================================== *)
(** * The flow of an item, step by step                                   *)
(* ===================================================================== *)

Section Steps.

Variable env : Env.
Variables (rawJob : RawJob) (id : string) (i : nat) (jobNum : JobNum).

Lemma stepScrape_frame tab w :
  exists w',
    stepScrape env i jobNum tab w
    = (Ok (externalOf (item_scrape (env_item env i))), w')
    /\ sameStore w w'
    /\ In (EvRequest (RTabRemove tab)) (trace w')
    /\ (item_tabRemove (env_item env i) = Resolved tt ->
        openTabs w' = removeTab tab (openTabs w)).
Proof.
  unfold stepScrape.
  destruct (item_scrape (env_item env i)) as [[d|]|ms];
    destruct (item_tabRemove (env_item env i)) as [[]|mr];
    (eexists; split; [reflexivity|];
     split; [repeat split|];
     split; [simpl; auto 10 | intros; try discriminate; reflexivity]).
Qed.

Lemma stepEmail_frame w :
  exists w',
    stepEmail env i jobNum w
    = (Ok (emailOf (item_email (env_item env i))), w')
    /\ sameStore w w'
    /\ openTabs w' = openTabs w
    /\ (forall e, In e (trace w) -> In e (trace w')).
Proof.
  unfold stepEmail, getEmailData.
  destruct (item_email (env_item env i)) as [mail|me];
    (eexists; split; [reflexivity|];
     split; [repeat split|];
     split; [reflexivity | intros; simpl; auto 10]).
Qed.

Lemma stepSaveLocal_frame jobPayload w :
  exists w',
    stepSaveLocal env i jobNum jobPayload w = (Ok tt, w')
    /\ attempts w' = attempts w
    /\ scrapedJobs w'
       = (if storageAccepts (env_item env i)
          then Some (replaceById (storedJobs w) jobPayload)
          else scrapedJobs w)
    /\ openTabs w' = openTabs w
    /\ (forall e, In e (trace w) -> In e (trace w')).
Proof.
  unfold stepSaveLocal, storageAccepts, storedJobs.
  destruct (item_storageGet (env_item env i)) as [[]|mg];
    destruct (item_storageSet (env_item env i)) as [[]|mt];
    (eexists; split; [reflexivity|];
     split; [reflexivity|]; split; [reflexivity|];
     split; [reflexivity | intros; simpl; auto 10]).
Qed.

Lemma stepSendToAPI_shape jobPayload w :
  exists n es,
    stepSendToAPI env jobPayload w = (Ok tt, afterAttempts (S n) es w)
    /\ (attempts w <= n <= attempts w + 2)%nat.
Proof.
  destruct (sendJobToAPI_outcome env jobPayload w)
    as (r & n & es & E & Hn & _).
  unfold stepSendToAPI.
  destruct (api_success r) eqn:Es.
  - exists n, es. split; [|exact Hn].
    erewrite tryCatch_ok; [reflexivity|].
    rewrite (bind_ok _ _ _ _ _ E). now rewrite Es.
  - exists n, ([EvLog WARN (LApiFailedContinuing (api_error r))] ++ es)%list.
    split; [|exact Hn].
    erewrite tryCatch_ok; [reflexivity|].
    rewrite (bind_ok _ _ _ _ _ E). rewrite Es.
    rewrite <- pushEvents_afterAttempts. reflexivity.
Qed.

(** ** Failures before the external tab is open *)

Lemma processJobFlow_click_fails w m :
  item_click (env_item env i) = Rejected m ->
  processJobFlow env rawJob id i jobNum w
  = (Throw (JsError ("Failed to simulate click: " ++ m)),
     pushEvents [EvRequest (RSimulateClick (dashboardTabId w) i)]
       (announced (TSimulating jobNum) Sinfo w)).
Proof.
  intros H. unfold processJobFlow, stepSimulateClick.
  rewrite H. reflexivity.
Qed.

Hypothesis click_ok : item_click (env_item env i) = Resolved tt.

Lemma processJobFlow_popup_fails w m :
  item_popup (env_item env i) = Rejected m ->
  processJobFlow env rawJob id i jobNum w
  = (Throw (JsError ("Popup extraction failed: " ++ m)),
     pushEvents [EvRequest (RClickJobAction (dashboardTabId w) i);
                 EvRequest (RSimulateClick (dashboardTabId w) i)]
       (announced (TSimulating jobNum) Sinfo w)).
Proof.
  intros H.
  unfold processJobFlow, stepSimulateClick, stepPopupData, getPopupData.
  rewrite click_ok, H. reflexivity.
Qed.

Variable popupData : PopupData.
Hypothesis popup_ok : item_popup (env_item env i) = Resolved popupData.
Hypothesis url_ok : JsString.truthy (popup_viewFullPostUrl popupData) = true.

Lemma processJobFlow_create_fails w m :
  item_tabCreate (env_item env i) = Rejected m ->
  processJobFlow env rawJob id i jobNum w
  = (Throw (JsError ("Failed to open/load external tab: " ++ m)),
     pushEvents
       ([EvRequest (RTabCreate (popup_viewFullPostUrl popupData));
         EvStatus
           (TOpening jobNum
              (getDomainGroup (env_hostname env)
                 (popup_viewFullPostUrl popupData)))
           Sinfo (processedCount w) (failedCount w) (length (queue w));
         EvLog INFO
           (LStatus
              (TOpening jobNum
                 (getDomainGroup (env_hostname env)
                    (popup_viewFullPostUrl popupData))))]
        ++ popupEvents i jobNum popupData w) w).
Proof.
  intros H.
  unfold processJobFlow, stepSimulateClick, stepPopupData, getPopupData,
    stepOpenTab.
  rewrite click_ok, popup_ok, H. run_unfold. simpl.
  rewrite url_ok. reflexivity.
Qed.

(** ** After the external tab has loaded *)

Variable tab : nat.
Hypothesis tab_created : item_tabCreate (env_item env i) = Resolved tab.
Hypothesis tab_loaded : item_tabComplete (env_item env i) = Resolved tt.

Lemma removeTab_head tabs : removeTab tab (tab :: tabs) = removeTab tab tabs.
Proof. unfold removeTab. simpl. now rewrite Nat.eqb_refl. Qed.

Lemma processJobFlow_after_load w :
  let p := payloadOf env i rawJob id popupData in
  exists w',
    processJobFlow env rawJob id i jobNum w = (Ok tt, w')
    /\ (attempts w < attempts w' <= attempts w + 3)%nat
    /\ scrapedJobs w'
       = (if storageAccepts (env_item env i)
          then Some (replaceById (storedJobs w) p)
          else scrapedJobs w)
    /\ In (EvRequest (RTabRemove tab)) (trace w')
    /\ (item_tabRemove (env_item env i) = Resolved tt ->
        openTabs w' = removeTab tab (openTabs w)).
Proof.
  intros p.
  rewrite (processJobFlow_opened env rawJob id i jobNum popupData
             click_ok popup_ok url_ok tab tab_created tab_loaded).
  set (w0 := set_openTabs _ _).
  destruct (stepScrape_frame tab w0) as (w1 & E1 & (A1 & _ & J1) & I1 & O1).
  rewrite (bind_ok _ _ _ _ _ E1).
  destruct (stepEmail_frame w1) as (w2 & E2 & (A2 & _ & J2) & O2 & I2).
  rewrite (bind_ok _ _ _ _ _ E2).
  fold (payloadOf env i rawJob id popupData). fold p.
  destruct (stepSaveLocal_frame p w2) as (w3 & E3 & A3 & J3 & O3 & I3).
  rewrite (bind_ok _ _ _ _ _ E3).
  destruct (stepSendToAPI_shape p w3) as (n & es4 & E4 & Hn).
  exists (afterAttempts (S n) es4 w3).
  assert (A : attempts w3 = attempts w)
    by (rewrite A3, A2, A1; reflexivity).
  split; [exact E4|]. split; [simpl; lia|]. split; [|split].
  - change (scrapedJobs (afterAttempts (S n) es4 w3))
      with (scrapedJobs w3).
    rewrite J3. unfold storedJobs. now rewrite J2, J1.
  - simpl. apply in_or_app. right. now apply I3, I2.
  - intros Hr.
    change (openTabs (afterAttempts (S n) es4 w3)) with (openTabs w3).
    rewrite O3, O2, (O1 Hr). apply removeTab_head.
Qed.

End Steps.

(** X7.  An item fails, and only fails, before its external tab is open:
    a rejected click, a rejected detail panel and a rejected creation of
    the tab each end the flow with the error of that step; up to then the
    worker has only broadcast the status lines and sent the requests of the
    steps reached: no tab is open, nothing is stored and nothing is
    submitted. *)
Theorem early_failures_stop_the_flow
    (env : Env) (rawJob : RawJob) (id : string) (i : nat) (jobNum : JobNum)
    (popupData : PopupData) (w : World) (m : string) :
  (item_click (env_item env i) = Rejected m ->
   processJobFlow env rawJob id i jobNum w
   = (Throw (JsError ("Failed to simulate click: " ++ m)),
      pushEvents [EvRequest (RSimulateClick (dashboardTabId w) i)]
        (announced (TSimulating jobNum) Sinfo w)))
  /\ (item_click (env_item env i) = Resolved tt ->
      item_popup (env_item env i) = Rejected m ->
      processJobFlow env rawJob id i jobNum w
      = (Throw (JsError ("Popup extraction failed: " ++ m)),
         pushEvents [EvRequest (RClickJobAction (dashboardTabId w) i);
                     EvRequest (RSimulateClick (dashboardTabId w) i)]
           (announced (TSimulating jobNum) Sinfo w)))
  /\ (item_click (env_item env i) = Resolved tt ->
      item_popup (env_item env i) = Resolved popupData ->
      JsString.truthy (popup_viewFullPostUrl popupData) = true ->
      item_tabCreate (env_item env i) = Rejected m ->
      processJobFlow env rawJob id i jobNum w
      = (Throw (JsError ("Failed to open/load external tab: " ++ m)),
         pushEvents
           ([EvRequest (RTabCreate (popup_viewFullPostUrl popupData));
             EvStatus
               (TOpening jobNum
                  (getDomainGroup (env_hostname env)
                     (popup_viewFullPostUrl popupData)))
               Sinfo (processedCount w) (failedCount w) (length (queue w));
             EvLog INFO
               (LStatus
                  (TOpening jobNum
                     (getDomainGroup (env_hostname env)
                        (popup_viewFullPostUrl popupData))))]
            ++ popupEvents i jobNum popupData w) w)).
Proof.
  split; [|split].
  - apply processJobFlow_click_fails.
  - intros Hc. now apply processJobFlow_popup_fails.
  - intros Hc Hp Hu. now apply processJobFlow_create_fails.
Qed.

(** An item whose detail panel does not answer in time. *)
Lemma early_failures_stop_the_flow_witness :
  let item := {| item_click := Resolved tt;
                 item_popup :=
                   Rejected "Timeout waiting for popup data from dashboard content script";
                 item_tabCreate := Resolved 42%nat;
                 item_tabComplete := Resolved tt;
                 item_scrape := Resolved None;
                 item_tabRemove := Resolved tt;
                 item_email := Resolved (mkEmailData "S" "B");
                 item_storageGet := Resolved tt;
                 item_storageSet := Resolved tt;
                 item_processedAt := "t0";
                 item_statsAt := "t1";
                 item_stopInFlight := false;
                 item_stopInDelay := false |} in
  let env := Sample.env (fun _ => item) Sample.backendUp in
  let w := Sample.running [Sample.job1] in
  exists w',
    processJobFlow env Sample.job1 "job_1" 0 (mkJobNum 1 1) w
    = (Throw (JsError
         "Popup extraction failed: Timeout waiting for popup data from dashboard content script"),
       w')
    /\ openTabs w' = [] /\ scrapedJobs w' = None /\ attempts w' = 0%nat.
Proof.
  intros item env w.
  eexists. split.
  - exact (proj1 (proj2 (early_failures_stop_the_flow env Sample.job1 "job_1"
                           0 (mkJobNum 1 1) (Sample.popup Sample.jobUrl) w _))
             eq_refl eq_refl).
  - repeat split.
Defined.

(** X8.  Once the external tab has loaded, nothing can fail the item: the
    scraper, the closing of the tab, the email request, the local storage
    and the backend may each fail, and [processJobFlow] still returns
    normally.  It has then made between one and three submission attempts;
    the merged record is in the local store exactly when the storage
    accepted both requests, in which case [isJobAlreadyScraped] answers
    [true] for the id of the item, and the store is untouched otherwise. *)
Theorem loaded_item_always_completes
    (env : Env) (rawJob : RawJob) (id : string) (i : nat) (jobNum : JobNum)
    (popupData : PopupData) (tab : nat) (w : World) :
  item_click (env_item env i) = Resolved tt ->
  item_popup (env_item env i) = Resolved popupData ->
  JsString.truthy (popup_viewFullPostUrl popupData) = true ->
  item_tabCreate (env_item env i) = Resolved tab ->
  item_tabComplete (env_item env i) = Resolved tt ->
  exists w',
    processJobFlow env rawJob id i jobNum w = (Ok tt, w')
    /\ (attempts w < attempts w' <= attempts w + 3)%nat
    /\ scrapedJobs w'
       = (if storageAccepts (env_item env i)
          then Some (replaceById (storedJobs w)
                       (payloadOf env i rawJob id popupData))
          else scrapedJobs w)
    /\ (storageAccepts (env_item env i) = true ->
        isJobAlreadyScraped id w' = (Ok true, w')).
Proof.
  intros Hc Hp Hu Ht Hl.
  destruct (processJobFlow_after_load env rawJob id i jobNum Hc popupData
              Hp Hu tab Ht Hl w) as (w' & E & A & J & _).
  exists w'. split; [exact E|]. split; [exact A|]. split; [exact J|].
  intros Ha. rewrite Ha in J.
  unfold isJobAlreadyScraped, gets, storedJobs. rewrite J.
  unfold replaceById. rewrite existsb_app. simpl.
  now rewrite String.eqb_refl, orb_true_r.
Qed.

(** An item whose scraper, email request, storage and backend all fail. *)
Lemma loaded_item_always_completes_witness :
  let item := {| item_click := Resolved tt;
                 item_popup := Resolved (Sample.popup Sample.jobUrl);
                 item_tabCreate := Resolved 42%nat;
                 item_tabComplete := Resolved tt;
                 item_scrape := Rejected "Cannot access contents of the page";
                 item_tabRemove := Rejected "No tab with id: 42";
                 item_email := Rejected "Timeout waiting for email data";
                 item_storageGet := Resolved tt;
                 item_storageSet := Rejected "QUOTA_BYTES quota exceeded";
                 item_processedAt := "t0";
                 item_statsAt := "t1";
                 item_stopInFlight := false;
                 item_stopInDelay := false |} in
  let env := Sample.env (fun _ => item) Sample.backendDown in
  let w := Sample.running [Sample.job1] in
  exists w',
    processJobFlow env Sample.job1 "job_1" 0 (mkJobNum 1 1) w = (Ok tt, w')
    /\ (0 < attempts w' <= 3)%nat
    /\ scrapedJobs w' = None.
Proof.
  intros item env w.
  destruct (loaded_item_always_completes env Sample.job1 "job_1" 0
              (mkJobNum 1 1) (Sample.popup Sample.jobUrl) 42%nat w
              eq_refl eq_refl eq_refl eq_refl eq_refl)
    as (w' & E & A & J & _).
  exists w'. split; [exact E|]. split; [exact A | exact J].
Defined.

(** X9.  When the external tab has loaded, its closing is always
    requested, whatever the scraper does, and when the browser accepts the
    request the tab is no longer among the open tabs at the end of the
    flow. *)
Theorem loaded_tab_is_closed
    (env : Env) (rawJob : RawJob) (id : string) (i : nat) (jobNum : JobNum)
    (popupData : PopupData) (tab : nat) (w : World) :
  item_click (env_item env i) = Resolved tt ->
  item_popup (env_item env i) = Resolved popupData ->
  JsString.truthy (popup_viewFullPostUrl popupData) = true ->
  item_tabCreate (env_item env i) = Resolved tab ->
  item_tabComplete (env_item env i) = Resolved tt ->
  let w' := snd (processJobFlow env rawJob id i jobNum w) in
  In (EvRequest (RTabRemove tab)) (trace w')
  /\ (item_tabRemove (env_item env i) = Resolved tt ->
      openTabs w' = removeTab tab (openTabs w)
      /\ ~ In tab (openTabs w')).
Proof.
  intros Hc Hp Hu Ht Hl w'.
  destruct (processJobFlow_after_load env rawJob id i jobNum Hc popupData
              Hp Hu tab Ht Hl w) as (w1 & E & _ & _ & I1 & O1).
  unfold w'. rewrite E. simpl snd.
  split; [exact I1|]. intros Hr.
  split; [exact (O1 Hr)|].
  rewrite (O1 Hr). unfold removeTab. intros Hin.
  apply filter_In in Hin. destruct Hin as [_ Hin].
  now rewrite Nat.eqb_refl in Hin.
Qed.

(** The scraper is refused by the page; the tab is closed all the same. *)
Lemma loaded_tab_is_closed_witness :
  let env := Sample.env (fun _ => Sample.itemScrapeFails) Sample.backendUp in
  let w := set_openTabs [7%nat] (Sample.running [Sample.job1]) in
  let w' := snd (processJobFlow env Sample.job1 "job_1" 0 (mkJobNum 1 1) w) in
  In (EvRequest (RTabRemove 42)) (trace w')
  /\ openTabs w' = [7%nat].
Proof.
  intros env w w'.
  destruct (loaded_tab_is_closed env Sample.job1 "job_1" 0 (mkJobNum 1 1)
              (Sample.popup Sample.jobUrl) 42%nat w
              eq_refl eq_refl eq_refl eq_refl eq_refl) as [H1 H2].
  split; [exact H1|].
  exact (proj1 (H2 eq_refl)).
Defined.

(* ===================================================================== *)
(** * Returning and throwing, with the world each leaves                  *)
(* ===================================================================== *)

Lemma triple_bind {A B} P (m : M A) (k : A -> M B) R Q E :
  triple P m R E -> (forall a, triple (R a) (k a) Q E) ->
  triple P (bind m k) Q E.
Proof.
  intros Hm Hk w Hw. unfold bind. specialize (Hm w Hw).
  destruct (m w) as [[a|[msg|]] w']; [exact (Hk a w' Hm) | exact Hm | exact Hm].
Qed.

Lemma triple_tryCatch {A} P (m : M A) (h : Exn -> M A) Q E' E :
  triple P m Q E' -> (forall msg, triple E' (h (JsError msg)) Q E) ->
  triple P (tryCatch m h) Q E.
Proof.
  intros Hm Hh w Hw. unfold tryCatch. specialize (Hm w Hw).
  destruct (m w) as [[a|[msg|]] w'];
    [exact Hm | exact (Hh msg w' Hm) | contradiction].
Qed.

Lemma triple_safe {A} I (m : M A) : safe I m -> triple I m (fun _ => I) I.
Proof.
  intros H w Hw. destruct (H w Hw) as [H1 H2].
  destruct (m w) as [[a|[msg|]] w']; simpl in *; auto.
Qed.

Lemma triple_nothrow {A} I (m : M A) E :
  nothrow I m -> triple I m (fun _ => I) E.
Proof.
  intros H w Hw. destruct (H w Hw) as [H1 H2].
  destruct (m w) as [[a|[msg|]] w']; simpl in *; auto; contradiction.
Qed.

Lemma triple_conseq {A} (P P' : World -> Prop) (m : M A)
    (Q Q' : A -> World -> Prop) (E E' : World -> Prop) :
  triple P m Q E ->
  (forall w, P' w -> P w) -> (forall a w, Q a w -> Q' a w) ->
  (forall w, E w -> E' w) ->
  triple P' m Q' E'.
Proof.
  intros H HP HQ HE w Hw. specialize (H w (HP w Hw)).
  destruct (m w) as [[a|[msg|]] w']; auto.
Qed.

Lemma triple_ret {A} (a : A) (Q : A -> World -> Prop) E :
  triple (Q a) (ret a) Q E.
Proof. intros w Hw. exact Hw. Qed.

Lemma idleWorker_finished w : idleWorker (finished w).
Proof. unfold finished. destruct (dashboardTabId w) as [[|t]|]; repeat split. Qed.

Lemma triple_finishQueue P E : triple P finishQueue (fun _ => idleWorker) E.
Proof. intros w _. rewrite run_finishQueue. apply idleWorker_finished. Qed.

(** The rules of the frame lemmas, with their side conditions left to
    [frame_leaf]. *)
Ltac keeps :=
  repeat first
    [ sat_step
    | apply nothrow_log
    | apply nothrow_sleep
    | apply nothrow_broadcastStatus_any
    | apply nothrow_emit_any
    | apply safe_waitForTabComplete
    | apply nothrow_safe;
      first [ apply nothrow_log | apply nothrow_sleep
            | apply nothrow_broadcastStatus_any | apply nothrow_emit_any ] ];
  frame_leaf.

(* ===================================================================== *)
(** * What a whole run keeps                                              *)
(* ===================================================================== *)

Section WholeRun.

Variable env : Env.
Variable I : World -> Prop.

Hypothesis I_trace : forall v w, I w -> I (set_trace v w).
Hypothesis I_attempts : forall v w, I w -> I (set_attempts v w).
Hypothesis I_stop : forall w, I w -> I (set_stopRequested true w).

Lemma I_quiet_of_trace :
  forall e w, isProblemStatus e = false -> I w -> I (set_trace (e :: trace w) w).
Proof. intros e w _. apply I_trace. Qed.

(** The second phase and the shutdown. *)
Hypothesis I_isRunning : forall v w, I w -> I (set_isRunning v w).
Hypothesis I_stopReset : forall w, I w -> I (set_stopRequested false w).
Hypothesis I_dashboardTabId : forall v w, I w -> I (set_dashboardTabId v w).
Hypothesis I_queue : forall v w, I w -> I (set_queue v w).
Hypothesis I_queueActive : forall v w, I w -> I (set_queueActive v w).

Lemma nothrow_finishQueue : nothrow I finishQueue.
Proof.
  intros w Hw. rewrite run_finishQueue. split; [|exact Logic.I].
  unfold finished, pushEvents. simpl.
  apply I_trace, I_queueActive, I_queue, I_dashboardTabId, I_stopReset,
    I_isRunning.
  destruct (dashboardTabId w) as [[|t]|]; auto.
Qed.

Lemma safe_runQueueEpilogue : safe I (runQueueEpilogue env).
Proof.
  unfold runQueueEpilogue.
  apply safe_bind; [keeps|]. intros w0.
  apply safe_bind; [keeps; auto|]. intros _.
  apply safe_bind; [keeps|]. intros stop.
  apply safe_bind; [|intros _; apply nothrow_safe, nothrow_finishQueue].
  destruct (negb stop); [|keeps].
  apply safe_bind; [keeps; auto|]. intros _.
  apply safe_bind; [keeps; auto using I_quiet_of_trace|]. intros _.
  apply safe_runResumeBuilderQueue; auto using I_quiet_of_trace.
Qed.

(** The rounds of the first phase. *)
Hypothesis I_openTabs : forall v w, I w -> I (set_openTabs v w).
Hypothesis I_scrapedJobs : forall v w, I w -> I (set_scrapedJobs v w).
Hypothesis I_processedIds : forall v w, I w -> I (set_processedIds v w).
Hypothesis I_stats : forall v w, I w -> I (set_stats v w).
Hypothesis I_isProcessing : forall v w, I w -> I (set_isProcessing v w).
Hypothesis I_processedCount : forall v w, I w -> I (set_processedCount v w).
Hypothesis I_failedCount : forall v w, I w -> I (set_failedCount v w).

(** The loop of the first phase always returns: every failure of an item
    is caught by its round. *)
Lemma nothrow_runQueueLoop fuel : forall i, nothrow I (runQueueLoop env fuel i).
Proof.
  induction fuel as [|fuel IH]; intros i; simpl; [keeps|].
  apply nothrow_bind; [keeps|]. intros q.
  destruct (i <? length q)%nat eqn:E; [|keeps].
  apply nothrow_bind; [keeps|]. intros [|].
  - apply nothrow_broadcastStatus_any; auto using I_quiet_of_trace.
  - destruct (nth_error q i) as [rawJob|] eqn:En.
    + apply nothrow_bind; [|intros _; apply IH].
      apply nothrow_runQueueItem; auto using I_quiet_of_trace.
    + apply nth_error_None in En. apply Nat.ltb_lt in E. lia.
Qed.

Lemma safe_runQueue : safe I (runQueue env).
Proof.
  unfold runQueue.
  apply safe_bind; [keeps|]. intros n.
  apply safe_bind; [apply nothrow_safe, nothrow_runQueueLoop|]. intros _.
  apply safe_runQueueEpilogue.
Qed.

End WholeRun.

(* ===================================================================== *)
(** * The counters of a run                                               *)
(* ===================================================================== *)

Section Accounting.

Variable env : Env.

Lemma runQueueLoop_accounting fuel : forall i w,
  exists w',
    runQueueLoop env fuel i w = (Ok tt, w')
    /\ queue w' = queue w
    /\ (processedCount w' + failedCount w'
        <= processedCount w + failedCount w + (length (queue w) - i))%nat
    /\ (stopRequested w = false ->
        noStopBelow env (length (queue w)) ->
        (length (queue w) - i <= fuel)%nat ->
        (processedCount w' + failedCount w'
         = processedCount w + failedCount w + (length (queue w) - i))%nat
        /\ stopRequested w' = false).
Proof.
  induction fuel as [|fuel IH]; intros i w.
  - exists w. split; [reflexivity|]. split; [reflexivity|].
    split; [lia|]. intros Hs _ Hf. split; [lia | exact Hs].
  - destruct (Nat.lt_ge_cases i (length (queue w))) as [Hlt|Hge].
    + destruct (stopRequested w) eqn:Es.
      * rewrite (runQueueLoop_stopped env fuel i w Hlt Es).
        eexists. split; [reflexivity|]. split; [reflexivity|].
        split; [simpl; lia | discriminate].
      * destruct (nth_error (queue w) i) as [rawJob|] eqn:En.
        2:{ apply nth_error_None in En. lia. }
        destruct (runQueueItem_round env i rawJob w)
          as (w1 & Er & Hq & _ & _ & Hstop & Hc).
        rewrite (runQueueLoop_next env fuel i rawJob w w1 En Es Er).
        destruct (IH (S i) w1) as (w' & El & Hq' & Hle & Heq).
        exists w'. split; [exact El|]. split; [congruence|].
        rewrite Hq in Hle, Heq.
        assert (Hsum : (processedCount w1 + failedCount w1
                        = S (processedCount w + failedCount w))%nat).
        { destruct Hc as [(Hp & Hf & _)|(Hp & Hf & _)]; lia. }
        split; [lia|].
        intros _ Hno Hfuel.
        destruct (Hno i Hlt) as [Hfl Hdl].
        assert (Es1 : stopRequested w1 = false)
          by (rewrite (Hstop Hfl Hdl); exact Es).
        destruct (Heq Es1 Hno ltac:(lia)) as [Hsum' Hs'].
        split; [lia | exact Hs'].
    + rewrite (runQueueLoop_done env (S fuel) i w Hge).
      exists w. split; [reflexivity|]. split; [reflexivity|].
      split; [lia|]. intros Hs _ _. split; [lia | exact Hs].
Qed.

Lemma runQueueEpilogue_counters w :
  processedCount (snd (runQueueEpilogue env w)) = processedCount w
  /\ failedCount (snd (runQueueEpilogue env w)) = failedCount w.
Proof.
  apply (sat_inv (fun x => processedCount x = processedCount w
                           /\ failedCount x = failedCount w) errorsOnly);
    [|split; reflexivity].
  apply safe_runQueueEpilogue; intros; assumption.
Qed.

End Accounting.

(** X10.  A run counts no item twice and, unless it is stopped, every item
    once: when [runQueue] is over, whether it returned or the second phase
    threw, the two session counters have grown by at most the length of
    the queue in all, and by exactly the length of the queue when no stop
    command was pending or arrived during the first phase.  The storage
    requests of [markAsProcessed] and [updateStats] are taken to be
    accepted, as their definitions have it. *)
Theorem runQueue_counts_every_item (env : Env) (w : World) :
  let w' := snd (runQueue env w) in
  (processedCount w' + failedCount w'
   <= processedCount w + failedCount w + length (queue w))%nat
  /\ (stopRequested w = false ->
      noStopBelow env (length (queue w)) ->
      (processedCount w' + failedCount w'
       = processedCount w + failedCount w + length (queue w))%nat).
Proof.
  intros w'.
  destruct (runQueueLoop_accounting env (length (queue w)) 0 w)
    as (wl & El & _ & Hle & Heq).
  assert (Ew : w' = snd (runQueueEpilogue env wl)).
  { unfold w', runQueue. unfold bind at 1, gets.
    now rewrite (bind_ok _ _ _ _ _ El). }
  destruct (runQueueEpilogue_counters env wl) as [Hp Hf].
  rewrite Ew, Hp, Hf. rewrite Nat.sub_0_r in Hle, Heq.
  split; [exact Hle|].
  intros Hs Hno. exact (proj1 (Heq Hs Hno (Nat.le_refl _))).
Qed.

(** A queue of two items, the second of which has no target URL. *)
Lemma runQueue_counts_every_item_witness :
  let env := Sample.env Sample.secondWithoutUrl Sample.backendUp in
  let w := Sample.running [Sample.job1; Sample.job2] in
  let w' := snd (runQueue env w) in
  (processedCount w' + failedCount w' = 2)%nat.
Proof.
  intros env w w'.
  refine (proj2 (runQueue_counts_every_item env w) eq_refl _).
  intros j Hj. destruct j as [|[|j]]; split; reflexivity.
Defined.

(* ===================================================================== *)
(** * How a start command ends                                            *)
(* ===================================================================== *)

Section Start.

Variable env : Env.

Lemma triple_runQueue :
  triple running (runQueue env) (fun _ => idleWorker) running.
Proof.
  unfold runQueue.
  eapply triple_bind; [apply (triple_nothrow running); keeps|]. intros n.
  eapply triple_bind.
  { apply (triple_nothrow running).
    apply nothrow_runQueueLoop; intros; assumption. }
  intros ?. unfold runQueueEpilogue.
  eapply triple_bind; [apply (triple_nothrow running); keeps|]. intros w0.
  eapply triple_bind; [apply (triple_nothrow running); keeps|]. intros ?.
  eapply triple_bind; [apply (triple_nothrow running); keeps|]. intros stop.
  eapply triple_bind; [|intros ?; apply triple_finishQueue].
  apply (triple_safe running).
  destruct (negb stop); [|keeps].
  apply safe_bind; [keeps|]. intros ?.
  apply safe_bind; [keeps|]. intros ?.
  apply safe_runResumeBuilderQueue; intros; assumption.
Qed.

(** The assertion after the search for the dashboard tab and after the
    request for the collection: the run goes on, or it has been closed. *)
Let goesOn (b : bool) (w : World) : Prop :=
  if b then running w else idleWorker w.

Lemma triple_handleStartQueue options :
  triple (fun w => isRunning w = false) (handleStartQueue env options)
    (fun _ => idleWorker) running.
Proof.
  intros w Hw. unfold handleStartQueue. unfold bind at 1, gets. rewrite Hw.
  assert (H : triple (fun _ => True)
                (log INFO LStarting ;;
                 modify (set_isRunning true) ;;
                 modify (set_stopRequested false) ;;
                 modify (set_processedCount 0) ;;
                 modify (set_failedCount 0) ;;
                 await (start_setActive (env_start env)) ;;
                 modify (set_queueActive (Some true)) ;;
                 (if clearHistory options then
                    await (start_removeHistory (env_start env)) ;;
                    modify (set_processedIds None) ;;
                    modify (set_stats None) ;;
                    log INFO LClearedHistory
                  else ret tt) ;;
                 found <-
                   tryCatch
                     (emit (EvRequest RQueryDashboardTabs) ;;
                      tabs <- await (start_tabs (env_start env)) ;;
                      match tabs with
                      | [] =>
                          broadcastStatus TNoDashboardTab Serror ;;
                          finishQueue ;;
                          ret false
                      | id :: _ =>
                          modify (set_dashboardTabId (Some id)) ;;
                          log INFO (LDashboardTab id) ;;
                          ret true
                      end)
                     (fun err =>
                        log ERROR (LFindTabFailed err) ;;
                        finishQueue ;;
                        ret false) ;;
                 if negb found then ret tt
                 else
                   broadcastStatus TCollecting Sinfo ;;
                   collected <-
                     tryCatch
                       (tab <- gets dashboardTabId ;;
                        emit (EvRequest (RCollectJobs tab)) ;;
                        await (start_collect (env_start env)) ;;
                        ret true)
                       (fun err =>
                          m <- errMessage err ;;
                          broadcastStatus (TCollectFailed m) Serror ;;
                          finishQueue ;;
                          ret false) ;;
                   if negb collected then ret tt
                   else
                     sleep 800 ;;
                     match start_collected (env_start env) with
                     | Some jobs => onJobsCollected jobs
                     | None => ret tt
                     end ;;
                     q <- gets queue ;;
                     match q with
                     | [] =>
                         broadcastStatus TNoNewJobs Swarn ;;
                         sleep 2000 ;;
                         runResumeBuilderQueue env ;;
                         finishQueue
                     | _ :: _ =>
                         broadcastStatus (TFound (length q)) Sinfo ;;
                         runQueue env
                     end)%js
                (fun _ => idleWorker) running).
  2:{ exact (H w Logic.I). }
  clear w Hw.
  eapply triple_bind; [apply (triple_nothrow (fun _ => True)); keeps|].
  intros ?.
  apply (triple_bind _ _ _ (fun _ => running));
    [intros w _; reflexivity|]. intros ?.
  eapply triple_bind; [apply (triple_safe running); keeps|]. intros ?.
  eapply triple_bind; [apply (triple_safe running); keeps|]. intros ?.
  eapply triple_bind; [apply (triple_safe running); keeps|]. intros ?.
  eapply triple_bind; [apply (triple_safe running); keeps|]. intros ?.
  eapply triple_bind; [apply (triple_safe running); keeps|]. intros ?.
  eapply triple_bind.
  { apply (triple_safe running). destruct (clearHistory options); keeps. }
  intros ?.
  apply (triple_bind _ _ _ goesOn).
  { apply (triple_tryCatch _ _ _ _ running).
    - eapply triple_bind; [apply (triple_safe running); keeps|]. intros ?.
      eapply triple_bind; [apply (triple_safe running); keeps|].
      intros [|id tabs].
      + eapply triple_bind; [apply (triple_nothrow running); keeps|].
        intros ?.
        eapply triple_bind; [apply triple_finishQueue|]. intros ?.
        apply (triple_ret false goesOn).
      + eapply triple_bind; [apply (triple_nothrow running); keeps|].
        intros ?.
        eapply triple_bind; [apply (triple_nothrow running); keeps|].
        intros ?.
        apply (triple_ret true goesOn).
    - intros msg.
      eapply triple_bind; [apply (triple_nothrow running); keeps|].
      intros ?.
      eapply triple_bind; [apply triple_finishQueue|]. intros ?.
      apply (triple_ret false goesOn). }
  intros [|]; simpl negb; cbv iota;
    [|apply (triple_ret tt (fun _ => idleWorker))].
  eapply triple_bind; [apply (triple_nothrow running); keeps|]. intros ?.
  apply (triple_bind _ _ _ goesOn).
  { apply (triple_tryCatch _ _ _ _ running).
    - eapply triple_bind; [apply (triple_nothrow running); keeps|].
      intros tab.
      eapply triple_bind; [apply (triple_nothrow running); keeps|].
      intros ?.
      eapply triple_bind; [apply (triple_safe running); keeps|]. intros ?.
      apply (triple_ret true goesOn).
    - intros msg.
      eapply triple_bind; [apply (triple_nothrow running); keeps|].
      intros m.
      eapply triple_bind; [apply (triple_nothrow running); keeps|].
      intros ?.
      eapply triple_bind; [apply triple_finishQueue|]. intros ?.
      apply (triple_ret false goesOn). }
  intros [|]; simpl negb; cbv iota;
    [|apply (triple_ret tt (fun _ => idleWorker))].
  eapply triple_bind; [apply (triple_nothrow running); keeps|]. intros ?.
  eapply triple_bind.
  { apply (triple_nothrow running).
    destruct (start_collected (env_start env)); unfold onJobsCollected;
      keeps. }
  intros ?.
  eapply triple_bind; [apply (triple_nothrow running); keeps|].
  intros [|rawJob q].
  - eapply triple_bind; [apply (triple_nothrow running); keeps|]. intros ?.
    eapply triple_bind; [apply (triple_nothrow running); keeps|]. intros ?.
    eapply triple_bind; [|intros ?; apply triple_finishQueue].
    apply (triple_safe running).
    apply safe_runResumeBuilderQueue; intros; assumption.
  - eapply triple_bind; [apply (triple_nothrow running); keeps|]. intros ?.
    apply triple_runQueue.
Qed.

End Start.

(** X11.  A start command taken up by the idle worker ends in one of two
    ways.  If [handleStartQueue] returns, the run has been closed: the run
    flag and the stop flag are down, the queue is empty and the dashboard
    tab is forgotten; a [GET_STATUS] request is then answered with an idle
    worker and the counters of the run.  If it throws (a rejected storage
    request at the start, or a rejected reload in the second phase), it
    throws an [Error] and the run flag is still up, so that every later
    start command is ignored with a warning.  The statement is about the
    variables of the worker; it says nothing of the stored [queueActive]
    flag, which [finishQueue] writes without awaiting the request.  The
    storage requests of [markAsProcessed] and [updateStats] are taken to be
    accepted, as their definitions have it. *)
Theorem start_ends_idle_or_stays_running
    (env : Env) (options : StartOptions) (w : World) :
  isRunning w = false ->
  match handleStartQueue env options w with
  | (Ok _, w') =>
      isRunning w' = false
      /\ stopRequested w' = false
      /\ dashboardTabId w' = None
      /\ queue w' = []
      /\ onGetStatus w'
         = (Ok (mkStatusReport false false (processedCount w')
                  (failedCount w') 0), w')
  | (Throw e, w') =>
      (exists msg, e = JsError msg)
      /\ isRunning w' = true
      /\ forall env' options',
           handleStartQueue env' options' w'
           = (Ok tt, pushEvents [EvLog WARN LAlreadyRunning] w')
  end.
Proof.
  intros Hw. pose proof (triple_handleStartQueue env options w Hw) as H.
  destruct (handleStartQueue env options w) as [[[]|[msg|]] w'];
    [ | | contradiction].
  - destruct H as (Hr & Hs & Hd & Hq & _).
    split; [exact Hr|]. split; [exact Hs|]. split; [exact Hd|].
    split; [exact Hq|].
    unfold onGetStatus, gets. now rewrite Hr, Hs, Hq.
  - split; [now exists msg|]. split; [exact H|].
    intros env' options'. unfold handleStartQueue.
    unfold bind at 1, gets. now rewrite H.
Qed.

(** A start command whose first storage request is rejected. *)
Lemma start_ends_idle_or_stays_running_witness :
  let start := {| start_setActive := Rejected "storage unavailable";
                  start_removeHistory := Resolved tt;
                  start_tabs := Resolved [7%nat];
                  start_collect := Resolved tt;
                  start_collected := Some [Sample.job1] |} in
  let env := mkEnv Sample.hostname start Sample.allOk Sample.backendUp
               Sample.phase2 in
  exists w',
    handleStartQueue env (mkStartOptions false) Sample.idle
    = (Throw (JsError "storage unavailable"), w')
    /\ isRunning w' = true
    /\ handleStartQueue (Sample.env Sample.allOk Sample.backendUp)
         (mkStartOptions false) w'
       = (Ok tt, pushEvents [EvLog WARN LAlreadyRunning] w').
Proof.
  intros start env.
  pose proof (start_ends_idle_or_stays_running env (mkStartOptions false)
                Sample.idle eq_refl) as H.
  assert (E : handleStartQueue env (mkStartOptions false) Sample.idle
              = (Throw (JsError "storage unavailable"),
                 snd (handleStartQueue env (mkStartOptions false) Sample.idle)))
    by (vm_compute; reflexivity).
  rewrite E in H. destruct H as (_ & Hr & Hi).
  eexists. split; [exact E|]. split; [exact Hr | apply Hi].
Defined.

(** The events added to the trace [t] in the trace [l]. *)
Ltac added_events l t :=
  lazymatch l with
  | t => constr:(@nil Event)
  | ?e :: ?l' => let r := added_events l' t in constr:(e :: r)
  end.

(** One statement of a sequence run in a world given by its fields. *)
Ltac run_step :=
  lazymatch goal with
  | |- exists w', bind ?m ?k ?w = _ /\ _ =>
      let r := eval vm_compute in (m w) in
      lazymatch r with
      | (Ok ?a, ?w1) =>
          rewrite (bind_ok m k w a w1) by (vm_compute; reflexivity)
      | (Throw ?e, ?w1) =>
          rewrite (bind_throw m k w e w1) by (vm_compute; reflexivity)
      end
  end.

Ltac run_steps :=
  repeat first [ run_step | progress (cbn [negb]; cbv iota) ].

Ltac closed_with :=
  unfold closedWith, idleWorker;
  repeat lazymatch goal with
    | |- _ /\ _ => split
    | |- exists es, trace ?W = (es ++ ?t)%list /\ _ =>
        let l := eval vm_compute in (trace W) in
        let t' := eval vm_compute in t in
        let es := added_events l t' in
        exists es; split; vm_compute; reflexivity
    | |- _ = _ => vm_compute; reflexivity
    end.

(** X12.  A start command that cannot set up the run closes it at once:
    when no dashboard tab is open an error status says so; when the search
    for the tab is rejected the failure is logged and no status is
    broadcast; when the dashboard does not take the request to collect the
    jobs an error status carries its message.  In each case
    [handleStartQueue] returns with the worker idle, both counters at zero
    and the stored records untouched. *)
Theorem failed_setup_closes_the_run
    (env : Env) (options : StartOptions) (w : World) :
  isRunning w = false ->
  storageReady env options ->
  (start_tabs (env_start env) = Resolved [] ->
   exists w',
     handleStartQueue env options w = (Ok tt, w')
     /\ closedWith [(TNoDashboardTab, Serror)] w w')
  /\ (forall m,
        start_tabs (env_start env) = Rejected m ->
        exists w',
          handleStartQueue env options w = (Ok tt, w')
          /\ closedWith [] w w'
          /\ In (EvLog ERROR (LFindTabFailed (JsError m))) (trace w'))
  /\ (forall id tabs m,
        start_tabs (env_start env) = Resolved (id :: tabs) ->
        start_collect (env_start env) = Rejected m ->
        exists w',
          handleStartQueue env options w = (Ok tt, w')
          /\ closedWith [(TCollecting, Sinfo); (TCollectFailed m, Serror)]
               w w').
Proof.
  intros Hw [Ha Hh].
  destruct w as [q r s d pc fc lk sj ids st qa tg ot at_ tr].
  simpl in Hw. subst r.
  split; [|split].
  - intros Ht. unfold handleStartQueue. unfold bind at 1, gets.
    cbn [isRunning]. rewrite Ha, Ht.
    destruct options as [[|]]; [rewrite (Hh eq_refl)|];
      destruct d as [[|t]|]; run_steps;
      (eexists; split; [reflexivity|]); closed_with.
  - intros m Ht. unfold handleStartQueue. unfold bind at 1, gets.
    cbn [isRunning]. rewrite Ha, Ht.
    destruct options as [[|]]; [rewrite (Hh eq_refl)|];
      destruct d as [[|t]|]; run_steps;
      (eexists; split; [reflexivity|]);
      (split; [closed_with | vm_compute; auto 10]).
  - intros id tabs m Ht Hc. unfold handleStartQueue. unfold bind at 1, gets.
    cbn [isRunning]. rewrite Ha, Ht, Hc.
    destruct options as [[|]]; [rewrite (Hh eq_refl)|];
      destruct id as [|t]; run_steps;
      (eexists; split; [reflexivity|]); closed_with.
Qed.

(** A start command while no dashboard tab is open. *)
Lemma failed_setup_closes_the_run_witness :
  let start := {| start_setActive := Resolved tt;
                  start_removeHistory := Resolved tt;
                  start_tabs := Resolved [];
                  start_collect := Resolved tt;
                  start_collected := None |} in
  let env := mkEnv Sample.hostname start Sample.allOk Sample.backendUp
               Sample.phase2 in
  exists w',
    handleStartQueue env (mkStartOptions true) Sample.idle = (Ok tt, w')
    /\ closedWith [(TNoDashboardTab, Serror)] Sample.idle w'.
Proof.
  intros start env.
  refine (proj1 (failed_setup_closes_the_run env (mkStartOptions true)
                   Sample.idle eq_refl _) eq_refl).
  split; reflexivity.
Defined.

(* ===================================================================== *)
(** * Frames by the class of the events added                             *)
(* ===================================================================== *)

Section TraceFrame.

Variable env : Env.
Variable ok : Event -> bool.
Variable I : World -> Prop.

Hypothesis I_ok :
  forall e w, ok e = true -> I w -> I (set_trace (e :: trace w) w).
Hypothesis ok_log : forall level text, ok (EvLog level text) = true.
Hypothesis ok_status :
  forall text level p f q, ok (EvStatus text level p f q) = true.
Hypothesis ok_sleep : forall ms, ok (EvSleep ms) = true.

Lemma by_emit e : ok e = true -> nothrow I (emit e).
Proof. intros He. unfold emit. apply nothrow_modify. intros w. now apply I_ok. Qed.

Lemma by_log level text : nothrow I (log level text).
Proof.
  unfold log. destruct (_ <? _)%nat; [apply nothrow_ret|].
  apply by_emit, ok_log.
Qed.

Lemma by_sleep ms : nothrow I (sleep ms).
Proof. apply by_emit, ok_sleep. Qed.

Lemma by_broadcastStatus message level :
  nothrow I (broadcastStatus message level).
Proof.
  unfold broadcastStatus.
  apply nothrow_bind; [apply by_log|]. intros _.
  apply nothrow_bind; [apply nothrow_gets|]. intros w.
  apply by_emit, ok_status.
Qed.

Hypothesis ok_wait :
  forall tab, ok (EvRequest (RTabWaitComplete tab)) = true.

Lemma by_waitForTabComplete tab reply :
  safe I (waitForTabComplete tab reply).
Proof.
  unfold waitForTabComplete.
  apply safe_bind; [apply nothrow_safe, by_emit, ok_wait|]. intros _.
  apply safe_await.
Qed.

Hypothesis I_attempts : forall v w, I w -> I (set_attempts v w).
Hypothesis ok_post :
  forall payload telegram, ok (EvRequest (RPostJob payload telegram)) = true.

Lemma by_postJob jobData : safe I (postJob env jobData).
Proof.
  intros w Hw. unfold postJob.
  assert (H1 : I (set_attempts (S (attempts w)) w)) by now apply I_attempts.
  assert (He : nothrow I (emit (EvRequest (RPostJob jobData (telegram_config w)))))
    by apply by_emit, ok_post.
  destruct (env_attempt env (attempts w)) as [m|m|o status body].
  - simpl. auto.
  - assert (S : safe I (emit (EvRequest (RPostJob jobData (telegram_config w))) ;;
                        @throw string (JsError m))%js).
    { apply safe_bind; [now apply nothrow_safe|]. intros _. apply safe_throw. }
    exact (S _ H1).
  - assert (S : safe I
                  (emit (EvRequest (RPostJob jobData (telegram_config w))) ;;
                   if o then ret body
                   else throw (JsError ("API error " ++ JsString.ofNat status
                                        ++ ": " ++ body)))%js).
    { apply safe_bind; [now apply nothrow_safe|]. intros _.
      destruct o; [apply nothrow_safe, nothrow_ret | apply safe_throw]. }
    exact (S _ H1).
Qed.

Lemma by_retryLoop {A} (fn : M A) maxRetries baseDelayMs :
  safe I fn ->
  forall remaining attempt lastError,
    (remaining = O -> exists msg, lastError = JsError msg) ->
    safe I (retryLoop fn maxRetries baseDelayMs remaining attempt lastError).
Proof.
  intros Hfn. induction remaining as [|r IH]; intros attempt lastError Hl.
  - destruct (Hl eq_refl) as [msg ->]. apply safe_throw.
  - simpl. apply safe_tryCatch; [exact Hfn|]. intros msg.
    apply safe_bind; [apply safe_errMessage|]. intros m.
    apply safe_bind; [apply nothrow_safe, by_log|]. intros _.
    apply safe_bind.
    + destruct (_ <? _)%nat; apply nothrow_safe;
        [apply by_sleep | apply nothrow_ret].
    + intros _. apply IH. intros _. now exists msg.
Qed.

Lemma by_sendJobToAPI jobData : nothrow I (sendJobToAPI env jobData).
Proof.
  unfold sendJobToAPI, MAX_RETRIES.
  apply nothrow_bind; [apply by_log|]. intros _.
  apply nothrow_tryCatch.
  - apply safe_bind.
    + apply by_retryLoop; [apply by_postJob | discriminate].
    + intros r. apply nothrow_safe.
      apply nothrow_bind; [apply by_log|]. intros _. apply nothrow_ret.
  - intros msg.
    apply nothrow_bind; [apply nothrow_errMessage|]. intros m.
    apply nothrow_bind; [apply by_log|]. intros _. apply nothrow_ret.
Qed.

End TraceFrame.

Lemma extendsBy_weaken (ok ok' : Event -> bool) w w' :
  (forall e, ok e = true -> ok' e = true) ->
  extendsBy ok w w' -> extendsBy ok' w w'.
Proof.
  intros H (es & E & F). exists es. split; [exact E|].
  rewrite forallb_forall in *. auto.
Qed.

Lemma extendsBy_step (ok : Event -> bool) w x e :
  ok e = true -> extendsBy ok w x ->
  extendsBy ok w (set_trace (e :: trace x) x).
Proof.
  intros He (es & E & F). exists (e :: es). split.
  - simpl. now rewrite E.
  - simpl. now rewrite He, F.
Qed.

Lemma buildsOf_app es2 es1 :
  buildsOf (es2 ++ es1) = (buildsOf es1 ++ buildsOf es2)%list.
Proof. unfold buildsOf. now rewrite flat_map_app, rev_app_distr. Qed.

Lemma buildsOf_notBuild es : forallb notBuild es = true -> buildsOf es = [].
Proof.
  induction es as [|e es IH]; [reflexivity|].
  intros H. simpl in H. apply andb_prop in H. destruct H as [He Hes].
  change (e :: es) with ([e] ++ es)%list.
  rewrite buildsOf_app, (IH Hes). simpl.
  destruct e as [| | |[]]; try reflexivity; discriminate.
Qed.

Lemma afterBuild_notBuild e : afterBuild e = true -> notBuild e = true.
Proof. unfold afterBuild, notBuild. intros H. now apply andb_prop in H. Qed.

Lemma noReload_afterBuild es :
  forallb afterBuild es = true -> existsb isReload es = false.
Proof.
  induction es as [|e es IH]; simpl; [reflexivity|].
  intros H. apply andb_prop in H. destruct H as [He Hes].
  rewrite (IH Hes). unfold afterBuild in He. apply andb_prop in He.
  destruct He as [_ He]. now destruct (isReload e).
Qed.

(** The events added to the trace of [w] in [w'], for a world [w'] given
    by the steps that lead to it. *)
Ltac extends_by_steps :=
  lazymatch goal with
  | |- extendsBy _ ?w ?w' =>
      let l := eval simpl in (trace w') in
      let t := eval simpl in (trace w) in
      let es := added_events l t in
      exists es; split; reflexivity
  end.

(* ===================================================================== *)
(** * The second phase                                                    *)
(* ===================================================================== *)

Section Phase2.

Variable env : Env.

Lemma resumeLoop_cons job rest i total :
  resumeLoop env (job :: rest) i total
  = (stop <- gets stopRequested ;;
     if stop then ret tt
     else
       broadcastStatus
         (TBuildingResume (mkJobNum (i + 1) total) (title job)) Sinfo ;;
       stepBuildResume env i total job ;;
       stop' <- gets stopRequested ;;
       (if (i <? total - 1)%nat && negb stop' then stepReload env i
        else ret tt) ;;
       resumeLoop env rest (S i) total)%js.
Proof. reflexivity. Qed.

(** A record is sent to the builder page: the round of the record always
    returns; after the request nothing is sent to the builder and the
    page is not reloaded; the stop flag is raised exactly when a stop
    command arrives in the meantime. *)
Lemma stepBuildResume_run i total job w :
  exists w',
    stepBuildResume env i total job w = (Ok tt, w')
    /\ extendsBy afterBuild
         (pushEvents [EvRequest (RBuildResume (dashboardTabId w) job)] w) w'
    /\ stopRequested w'
       = (p2_stopInFlight (env_phase2 env) i || stopRequested w)%bool.
Proof.
  set (w1 := pushEvents [EvRequest (RBuildResume (dashboardTabId w) job)] w).
  set (J := fun x =>
              extendsBy afterBuild w1 x
              /\ stopRequested x
                 = (p2_stopInFlight (env_phase2 env) i
                    || stopRequested w)%bool).
  assert (J_ok : forall e x, afterBuild e = true -> J x ->
                             J (set_trace (e :: trace x) x)).
  { intros e x He [Hx Hs]. split; [now apply extendsBy_step | exact Hs]. }
  assert (J_attempts : forall v x, J x -> J (set_attempts v x)).
  { intros v x Hx. exact Hx. }
  assert (T : triple (fun x => x = w) (stepBuildResume env i total job)
                (fun _ => J) (fun _ => False)).
  { unfold stepBuildResume. apply (triple_tryCatch _ _ _ _ J).
    - apply (triple_bind _ _ _ (fun tab x => x = w /\ tab = dashboardTabId w)).
      { intros x ->. split; reflexivity. }
      intros tab.
      apply (triple_bind _ _ _ (fun _ x => x = w1)).
      { intros x [-> ->]. reflexivity. }
      intros ?.
      apply (triple_bind _ _ _ (fun _ => J)).
      { intros x ->. rewrite run_awaiting.
        destruct (p2_build (env_phase2 env) i) as [b|m];
          destruct (p2_stopInFlight (env_phase2 env) i); simpl;
          (split; [extends_by_steps | reflexivity]). }
      intros [|].
      + apply (triple_nothrow J).
        apply nothrow_bind.
        * apply (by_sendJobToAPI env afterBuild); auto.
        * intros ?. apply (by_broadcastStatus afterBuild); auto.
      + apply (triple_ret tt (fun _ => J)).
    - intros msg. apply (triple_nothrow J).
      apply nothrow_bind; [apply nothrow_errMessage|]. intros m.
      apply nothrow_bind; [apply (by_log afterBuild); auto|]. intros ?.
      apply (by_broadcastStatus afterBuild); auto. }
  specialize (T w eq_refl).
  destruct (stepBuildResume env i total job w) as [[[]|[m|]] w'];
    try contradiction.
  exists w'. split; [reflexivity | exact T].
Qed.

(** The wait and the reload between two records. *)
Lemma stepReload_run i w :
  let r := stepReload env i w in
  extendsBy notBuild w (snd r)
  /\ stopRequested (snd r) = stopRequested w
  /\ errorsOnly (fst r)
  /\ (p2_reload (env_phase2 env) i = Resolved tt ->
      p2_reloaded (env_phase2 env) i = Resolved tt ->
      fst r = Ok tt).
Proof.
  unfold stepReload, waitForTabComplete.
  destruct (p2_reload (env_phase2 env) i) as [[]|m1];
    [destruct (p2_reloaded (env_phase2 env) i) as [[]|m2]|];
    cbv zeta; simpl;
    (split; [extends_by_steps|]); repeat split; intros; discriminate.
Qed.

(** The loop over the pending records sends them to the builder page one
    by one, in their order. *)
Lemma resumeLoop_builds rest : forall i total w,
  let r := resumeLoop env rest i total w in
  exists es k,
    trace (snd r) = (es ++ trace w)%list
    /\ buildsOf es = firstn k rest
    /\ errorsOnly (fst r)
    /\ (stopRequested w = false -> undisturbed (env_phase2 env) ->
        fst r = Ok tt /\ k = length rest /\ stopRequested (snd r) = false).
Proof.
  induction rest as [|job rest IH]; intros i total w.
  - exists [], 0%nat. simpl. repeat split; assumption.
  - rewrite resumeLoop_cons. cbv zeta.
    rewrite (bind_ok _ _ w (stopRequested w) w) by reflexivity.
    destruct (stopRequested w) eqn:Es.
    + exists [], 0%nat. simpl. repeat split; discriminate.
    + rewrite (bind_ok _ _ _ _ _ (run_broadcastStatus _ _ _)).
      set (w0 := announced _ _ w).
      destruct (stepBuildResume_run i total job w0) as (w2 & E2 & X2 & S2).
      rewrite (bind_ok _ _ _ _ _ E2).
      rewrite (bind_ok _ _ w2 (stopRequested w2) w2) by reflexivity.
      change (stopRequested w0) with (stopRequested w) in S2.
      rewrite Es, orb_false_r in S2.
      set (D := if (i <? total - 1)%nat && negb (stopRequested w2)
                then stepReload env i else ret tt).
      assert (HD : extendsBy notBuild w2 (snd (D w2))
                   /\ stopRequested (snd (D w2)) = stopRequested w2
                   /\ errorsOnly (fst (D w2))
                   /\ (undisturbed (env_phase2 env) -> fst (D w2) = Ok tt)).
      { unfold D. destruct (_ && _).
        - destruct (stepReload_run i w2) as (H1 & H2 & H3 & H4).
          repeat split; try assumption.
          intros U. destruct (U i) as (_ & R1 & R2). now apply H4.
        - repeat split. apply extendsBy_refl. }
      destruct HD as (XD & SD & ED & OD).
      destruct X2 as (es2 & T2 & F2).
      destruct XD as (esD & TD & FD).
      assert (B2 : buildsOf es2 = []).
      { apply buildsOf_notBuild. rewrite forallb_forall in *.
        intros e He. now apply afterBuild_notBuild, F2. }
      assert (BD : buildsOf esD = []) by now apply buildsOf_notBuild.
      set (head := [EvRequest (RBuildResume (dashboardTabId w0) job);
                    EvStatus
                      (TBuildingResume (mkJobNum (i + 1) total) (title job))
                      Sinfo (processedCount w) (failedCount w)
                      (length (queue w));
                    EvLog INFO
                      (LStatus
                         (TBuildingResume (mkJobNum (i + 1) total)
                            (title job)))]).
      assert (T0 : trace w2 = ((es2 ++ head) ++ trace w)%list).
      { rewrite T2. unfold head. now rewrite <- app_assoc. }
      destruct (D w2) as [[[]|e] w3] eqn:Ed; simpl in TD, SD, ED, OD.
      * rewrite (bind_ok _ _ _ _ _ Ed).
        destruct (IH (S i) total w3) as (es3 & k3 & T3 & B3 & E3 & C3).
        exists (es3 ++ esD ++ es2 ++ head)%list, (S k3).
        split; [|split; [|split]].
        -- cbv zeta in T3. rewrite T3, TD, T0.
           now rewrite <- !app_assoc.
        -- rewrite !buildsOf_app, B3, BD, B2. reflexivity.
        -- exact E3.
        -- intros _ U.
           assert (S3 : stopRequested w3 = false).
           { rewrite SD, S2. now destruct (U i) as (-> & _). }
           destruct (C3 S3 U) as (H1 & H2 & H3).
           split; [exact H1|]. split; [simpl; now rewrite H2 | exact H3].
      * rewrite (bind_throw _ _ _ _ _ Ed).
        exists (esD ++ es2 ++ head)%list, 1%nat.
        split; [|split; [|split]].
        -- simpl. rewrite TD, T0. now rewrite <- !app_assoc.
        -- rewrite !buildsOf_app, BD, B2. reflexivity.
        -- exact ED.
        -- intros _ U. specialize (OD U). discriminate.
Qed.

End Phase2.

(** A run that ends before any record is sent to the builder page. *)
Ltac no_build :=
  lazymatch goal with
  | |- exists es k, trace ?W = (es ++ ?t)%list /\ _ =>
      let l := eval vm_compute in (trace W) in
      let es := added_events l t in
      exists es, 0%nat;
      split; [vm_compute; reflexivity|];
      split; [reflexivity|];
      split; [intros _; reflexivity|];
      try (intros; split; reflexivity)
  end.

Section Phase2Run.

Variable env : Env.

(** The second phase from the list of pending records on. *)
Lemma runResumeBuilderQueue_fetched w status jobs :
  p2_jobs (env_phase2 env) = JobsResponse true status (Resolved jobs) ->
  runResumeBuilderQueue env w
  = (let pendingJobs := filter (fun job => negb (jdResumeBuilt job)) jobs in
     match pendingJobs with
     | [] => broadcastStatus TNoPendingJobs Ssuccess
     | _ :: _ =>
         broadcastStatus (TBuildingResumes (length pendingJobs)) Sinfo ;;
         navigated <-
           tryCatch
             (tab <- gets dashboardTabId ;;
              emit (EvRequest (RTabUpdate tab resumeBuilderUrl)) ;;
              await (p2_update (env_phase2 env)) ;;
              waitForTabComplete tab (p2_complete (env_phase2 env)) ;;
              sleep 2000 ;;
              ret true)
             (fun err =>
                m <- errMessage err ;;
                broadcastStatus (TNavigateFailed m) Serror ;;
                ret false) ;;
         if navigated then
           resumeLoop env pendingJobs 0 (length pendingJobs) ;;
           broadcastStatus TPhase2Complete Scomplete
         else ret tt
     end)%js
      (pushEvents [EvRequest RGetJobs; EvLog INFO LStartingResumeQueue] w).
Proof.
  intros H. unfold runResumeBuilderQueue. rewrite H. reflexivity.
Qed.

Lemma runResumeBuilderQueue_builds w :
  let r := runResumeBuilderQueue env w in
  exists es k,
    trace (snd r) = (es ++ trace w)%list
    /\ buildsOf es = firstn k (pendingOf (p2_jobs (env_phase2 env)))
    /\ (~ builderReached (env_phase2 env) -> buildsOf es = [])
    /\ (stopRequested w = false ->
        builderReached (env_phase2 env) ->
        undisturbed (env_phase2 env) ->
        fst r = Ok tt
        /\ buildsOf es = pendingOf (p2_jobs (env_phase2 env))).
Proof.
  cbv zeta.
  destruct w as [q r s d pc fc lk sj ids st qa tg ot at_ tr].
  set (w := {| queue := q; isRunning := r; stopRequested := s;
               dashboardTabId := d; processedCount := pc;
               failedCount := fc; isProcessing := lk; scrapedJobs := sj;
               processedIds := ids; stats := st; queueActive := qa;
               telegram_config := tg; openTabs := ot; attempts := at_;
               trace := tr |}).
  change (trace w) with tr.
  destruct (p2_jobs (env_phase2 env)) as [m|[|] status [jobs|m]] eqn:Ej.
  - (* the request is rejected *)
    unfold runResumeBuilderQueue. rewrite Ej. no_build.
  - (* the list of the backend *)
    rewrite (runResumeBuilderQueue_fetched w status jobs Ej).
    unfold pendingOf. cbv zeta.
    destruct (filter (fun job => negb (jdResumeBuilt job)) jobs)
      as [|j l] eqn:Ef; [no_build|].
    set (pending := j :: l).
    destruct (p2_update (env_phase2 env)) as [[]|mu] eqn:Eu;
      [destruct (p2_complete (env_phase2 env)) as [[]|mc] eqn:Ec|].
    + (* the builder page is reached *)
      set (esn := [EvSleep 2000;
                   EvRequest (RTabWaitComplete d);
                   EvRequest (RTabUpdate d resumeBuilderUrl);
                   EvStatus (TBuildingResumes (length pending)) Sinfo pc fc
                     (length q);
                   EvLog INFO (LStatus (TBuildingResumes (length pending)));
                   EvRequest RGetJobs; EvLog INFO LStartingResumeQueue]).
      set (wn := pushEvents esn w).
      rewrite (bind_ok _ _ _ tt
                 (pushEvents (skipn 3 esn) w)) by reflexivity.
      rewrite (bind_ok _ _ _ true wn) by reflexivity.
      cbv iota.
      destruct (resumeLoop_builds env pending 0 (length pending) wn)
        as (es & k & T & B & _ & C).
      cbv zeta in T, C. change (trace wn) with (esn ++ tr)%list in T.
      assert (Bn : buildsOf esn = []) by reflexivity.
      destruct (resumeLoop env pending 0 (length pending) wn)
        as [[[]|e] w3] eqn:El; simpl in T, C.
      * rewrite (bind_ok _ _ _ _ _ El).
        set (tail := [EvStatus TPhase2Complete Scomplete (processedCount w3)
                        (failedCount w3) (length (queue w3));
                      EvLog INFO (LStatus TPhase2Complete)]).
        assert (Bt : buildsOf tail = []) by reflexivity.
        exists (tail ++ es ++ esn)%list, k.
        split; [|split; [|split]].
        -- simpl. rewrite T. now rewrite <- app_assoc.
        -- rewrite !buildsOf_app, B, Bn, Bt. simpl. apply app_nil_r.
        -- intros N. exfalso. apply N. split; assumption.
        -- intros Hs _ U. split; [reflexivity|].
           rewrite !buildsOf_app, B, Bn, Bt.
           destruct (C Hs U) as (_ & Hk & _).
           simpl. rewrite app_nil_r, Hk.
           change (S (length l)) with (length pending).
           apply firstn_all.
      * rewrite (bind_throw _ _ _ _ _ El).
        exists (es ++ esn)%list, k. split; [|split; [|split]].
        -- simpl. rewrite T. now rewrite <- app_assoc.
        -- rewrite !buildsOf_app, B, Bn. reflexivity.
        -- intros N. exfalso. apply N. split; assumption.
        -- intros Hs _ U. destruct (C Hs U) as (H & _). discriminate.
    + (* the page does not finish loading *)
      no_build. intros _ [_ R]. congruence.
    + (* the navigation is rejected *)
      no_build. intros _ [R _]. congruence.
  - (* the body of the response is not a list *)
    unfold runResumeBuilderQueue. rewrite Ej. no_build.
  - unfold runResumeBuilderQueue. rewrite Ej. no_build.
  - unfold runResumeBuilderQueue. rewrite Ej. no_build.
Qed.

End Phase2Run.
(** X13.  The second phase sends to the builder page only records of the
    backend's list whose resume is not built yet, each at most once and in
    the order of the list: the records sent are a prefix of the pending
    ones, of which there are none when the list cannot be fetched, and no
    record is sent when the builder page cannot be reached (the navigation
    or the load that follows is rejected).  When no stop command is pending
    or arrives, the builder page is reached and every reload succeeds, the
    phase returns normally and has sent every pending record. *)
Theorem second_phase_builds_pending_records_in_order (env : Env) (w : World) :
  let r := runResumeBuilderQueue env w in
  exists es k,
    trace (snd r) = (es ++ trace w)%list
    /\ buildsOf es = firstn k (pendingOf (p2_jobs (env_phase2 env)))
    /\ (~ builderReached (env_phase2 env) -> buildsOf es = [])
    /\ (stopRequested w = false ->
        builderReached (env_phase2 env) ->
        undisturbed (env_phase2 env) ->
        fst r = Ok tt
        /\ buildsOf es = pendingOf (p2_jobs (env_phase2 env))).
Proof. exact (runResumeBuilderQueue_builds env w). Qed.

(** A backend that lists one record already built and one pending: the
    pending one is sent when the builder page is reached, and nothing is
    sent when the load of the builder page times out. *)
Lemma second_phase_builds_pending_records_in_order_witness :
  let a := mergePayload Sample.job1 "job_1" (Sample.popup Sample.jobUrl)
             Sample.jobUrl Sample.external (mkEmailData "S" "B")
             "linkedin" "t0" in
  let b := mergePayload Sample.job2 "job_2" (Sample.popup Sample.jobUrl)
             Sample.jobUrl Sample.external (mkEmailData "S" "B")
             "linkedin" "t0" in
  let p2 := fun loaded =>
            {| p2_jobs := JobsResponse true 200
                            (Resolved [builtRecord a "t1"; b]);
               p2_update := Resolved tt;
               p2_complete := loaded;
               p2_build := fun _ => Resolved true;
               p2_builtAt := fun _ => "t2";
               p2_reload := fun _ => Resolved tt;
               p2_reloaded := fun _ => Resolved tt;
               p2_stopInFlight := fun _ => false |} in
  let env := fun loaded =>
             mkEnv Sample.hostname Sample.start Sample.allOk Sample.backendUp
               (p2 loaded) in
  let r := runResumeBuilderQueue (env (Resolved tt)) (Sample.running []) in
  let r' := runResumeBuilderQueue
              (env (Rejected "Timeout waiting for tab 7 to complete"))
              (Sample.running []) in
  (exists es,
     trace (snd r) = (es ++ [])%list /\ buildsOf es = [b] /\ fst r = Ok tt)
  /\ (exists es, trace (snd r') = (es ++ [])%list /\ buildsOf es = []).
Proof.
  intros a b p2 env r r'. split.
  - destruct (second_phase_builds_pending_records_in_order (env (Resolved tt))
                (Sample.running [])) as (es & k & T & _ & _ & C).
    destruct C as [O B].
    + reflexivity.
    + split; reflexivity.
    + intros i. repeat split.
    + exists es. split; [exact T|]. split; [exact B | exact O].
  - destruct (second_phase_builds_pending_records_in_order
                (env (Rejected "Timeout waiting for tab 7 to complete"))
                (Sample.running [])) as (es & k & T & _ & N & _).
    exists es. split; [exact T|]. apply N.
    intros [_ R]. discriminate R.
Defined.

(** X14.  A stop command that arrives while a record is being built ends
    the second phase after that record: the round of the record is
    completed, then the loop is left, so that no later record is sent to
    the builder page and the page is not reloaded. *)
Theorem stop_during_a_build_ends_the_loop
    (env : Env) (job : JobPayload) (rest : list JobPayload)
    (i total : nat) (w : World) :
  stopRequested w = false ->
  p2_stopInFlight (env_phase2 env) i = true ->
  exists w' es,
    resumeLoop env (job :: rest) i total w = (Ok tt, w')
    /\ trace w' = (es ++ trace w)%list
    /\ buildsOf es = [job]
    /\ existsb isReload es = false
    /\ stopRequested w' = true.
Proof.
  intros Hs Hf.
  rewrite resumeLoop_cons.
  rewrite (bind_ok _ _ w (stopRequested w) w) by reflexivity.
  rewrite Hs.
  rewrite (bind_ok _ _ _ _ _ (run_broadcastStatus _ _ _)).
  set (w0 := announced _ _ w).
  destruct (stepBuildResume_run env i total job w0) as (w2 & E2 & X2 & S2).
  rewrite Hf in S2. simpl in S2.
  rewrite (bind_ok _ _ _ _ _ E2).
  rewrite (bind_ok _ _ w2 (stopRequested w2) w2) by reflexivity.
  rewrite S2, andb_false_r.
  rewrite (bind_ok _ _ w2 tt w2) by reflexivity.
  assert (El : resumeLoop env rest (S i) total w2 = (Ok tt, w2)).
  { destruct rest as [|job' rest']; [reflexivity|].
    rewrite resumeLoop_cons.
    rewrite (bind_ok _ _ w2 (stopRequested w2) w2) by reflexivity.
    now rewrite S2. }
  destruct X2 as (es2 & T2 & F2).
  set (head := [EvRequest (RBuildResume (dashboardTabId w0) job);
                EvStatus
                  (TBuildingResume (mkJobNum (i + 1) total) (title job))
                  Sinfo (processedCount w) (failedCount w) (length (queue w));
                EvLog INFO
                  (LStatus
                     (TBuildingResume (mkJobNum (i + 1) total) (title job)))]).
  exists w2, (es2 ++ head)%list.
  split; [exact El|]. split; [|split; [|split]].
  - rewrite T2. unfold head. now rewrite <- app_assoc.
  - rewrite buildsOf_app.
    rewrite (buildsOf_notBuild es2); [reflexivity|].
    rewrite forallb_forall in *. intros e He.
    now apply afterBuild_notBuild, F2.
  - rewrite existsb_app, (noReload_afterBuild es2 F2). reflexivity.
  - exact S2.
Qed.

(** Two pending records, and a stop command during the first build. *)
Lemma stop_during_a_build_ends_the_loop_witness :
  let a := mergePayload Sample.job1 "job_1" (Sample.popup Sample.jobUrl)
             Sample.jobUrl Sample.external (mkEmailData "S" "B")
             "linkedin" "t0" in
  let b := mergePayload Sample.job2 "job_2" (Sample.popup Sample.jobUrl)
             Sample.jobUrl Sample.external (mkEmailData "S" "B")
             "linkedin" "t0" in
  let p2 := {| p2_jobs := JobsResponse true 200 (Resolved [a; b]);
               p2_update := Resolved tt;
               p2_complete := Resolved tt;
               p2_build := fun _ => Resolved true;
               p2_builtAt := fun _ => "t2";
               p2_reload := fun _ => Resolved tt;
               p2_reloaded := fun _ => Resolved tt;
               p2_stopInFlight := fun _ => true |} in
  let env := mkEnv Sample.hostname Sample.start Sample.allOk Sample.backendUp
               p2 in
  exists w' es,
    resumeLoop env [a; b] 0 2 (Sample.running []) = (Ok tt, w')
    /\ trace w' = (es ++ [])%list
    /\ buildsOf es = [a]
    /\ existsb isReload es = false
    /\ stopRequested w' = true.
Proof.
  intros a b p2 env.
  exact (stop_during_a_build_ends_the_loop env a [b] 0 2 (Sample.running [])
           eq_refl eq_refl).
Defined.

(** X15.  The second phase leaves the bookkeeping of the first alone:
    whether it returns or throws, it changes nothing in the worker but the
    trace, the count of submission attempts and the stop flag, which it
    never lowers; the session counters, the queue, the lock, the stored
    records, the processed ids, the statistics and the open tabs are as
    before.  It throws nothing but an [Error]. *)
Theorem second_phase_keeps_the_bookkeeping (env : Env) (w : World) :
  let r := runResumeBuilderQueue env w in
  (exists t a s,
     snd r = set_trace t (set_attempts a (set_stopRequested s w))
     /\ (stopRequested w = true -> s = true))
  /\ errorsOnly (fst r).
Proof.
  set (I := fun x =>
              exists t a s,
                x = set_trace t (set_attempts a (set_stopRequested s w))
                /\ (stopRequested w = true -> s = true)).
  assert (H : safe I (runResumeBuilderQueue env)).
  { apply safe_runResumeBuilderQueue.
    - intros e x _ (t & a & s & -> & Hs).
      exists (e :: t), a, s. split; [reflexivity | exact Hs].
    - intros v x (t & a & s & -> & Hs).
      exists t, v, s. split; [reflexivity | exact Hs].
    - intros x (t & a & s & -> & Hs).
      exists t, a, true. split; reflexivity.
    - intros v x (t & a & s & -> & Hs).
      exists v, a, s. split; [reflexivity | exact Hs]. }
  apply H.
  exists (trace w), (attempts w), (stopRequested w).
  split; [destruct w; reflexivity | tauto].
Qed.

(** The second phase of a run that was stopped before. *)
Lemma second_phase_keeps_the_bookkeeping_witness :
  let env := Sample.env Sample.allOk Sample.backendUp in
  let w := set_stopRequested true (Sample.running [Sample.job1]) in
  stopRequested (snd (runResumeBuilderQueue env w)) = true.
Proof.
  intros env w.
  destruct (second_phase_keeps_the_bookkeeping env w)
    as ((t & a & s & E & Hs) & _).
  rewrite E. simpl. apply Hs. reflexivity.
Defined.

(* ===================================================================== *)
(** * The calls waiting for a message of the dashboard                    *)
(* ===================================================================== *)

Module PendingFacts.
Import Pending.

Lemma nth_error_update_eq id f l :
  nth_error (update id f l) id = option_map f (nth_error l id).
Proof.
  revert id. induction l as [|inv l IH]; intros [|id]; simpl; auto.
Qed.

Lemma nth_error_update_neq id id' f l :
  id <> id' -> nth_error (update id f l) id' = nth_error l id'.
Proof.
  revert id id'. induction l as [|inv l IH]; intros [|id] [|id'] H;
    simpl; auto; try contradiction.
Qed.

Lemma update_app_last f l x :
  update (length l) f (l ++ [x]) = (l ++ [f x])%list.
Proof. induction l as [|inv l IH]; simpl; [reflexivity | now rewrite IH]. Qed.

Lemma update_beyond id f l : (length l <= id)%nat -> update id f l = l.
Proof.
  revert id. induction l as [|inv l IH]; intros [|id] H; simpl in *;
    try reflexivity; try lia.
  rewrite IH by lia. reflexivity.
Qed.

Lemma getSlot_setSlot_eq s v st : getSlot s (setSlot s v st) = v.
Proof. destruct s; reflexivity. Qed.

Lemma getSlot_setSlot_neq s s' v st :
  s <> s' -> getSlot s' (setSlot s v st) = getSlot s' st.
Proof. destruct s, s'; intros H; try reflexivity; contradiction. Qed.

Lemma calls_setSlot s v st : calls (setSlot s v st) = calls st.
Proof. destruct s; reflexivity. Qed.

Lemma getSlot_onCall s id f st : getSlot s (onCall id f st) = getSlot s st.
Proof. destruct s; reflexivity. Qed.

Lemma slot_eq_dec (s s' : Slot) : {s = s'} + {s <> s'}.
Proof. decide equality. Qed.

(** The calls of the state after the resolver of [id] has run. *)
Lemma calls_resolver id data st :
  exists f, calls (resolver id data st) = update id f (calls st)
            /\ forall inv, inv_call (f inv) = inv_call inv.
Proof.
  unfold resolver.
  destruct data as [d|]; [destruct (JsString.truthy (data_error d))|];
    simpl.
  - exists (fun inv => settle (Failed (data_error d)) (disarm inv)). split.
    + generalize (calls st). intros l. revert id.
      induction l as [|inv l IH]; intros [|id]; simpl; auto.
      now rewrite IH.
    + intros inv. unfold settle, disarm. simpl.
      now destruct (inv_promise inv).
  - exists (fun inv => settle (Fulfilled (Some d)) (disarm inv)). split.
    + generalize (calls st). intros l. revert id.
      induction l as [|inv l IH]; intros [|id]; simpl; auto.
      now rewrite IH.
    + intros inv. unfold settle, disarm. simpl.
      now destruct (inv_promise inv).
  - exists (fun inv => settle (Fulfilled None) (disarm inv)). split.
    + generalize (calls st). intros l. revert id.
      induction l as [|inv l IH]; intros [|id]; simpl; auto.
      now rewrite IH.
    + intros inv. unfold settle, disarm. simpl.
      now destruct (inv_promise inv).
Qed.

Lemma getSlot_resolver s id data st :
  getSlot s (resolver id data st) = getSlot s st.
Proof.
  unfold resolver.
  destruct data as [d|]; [destruct (JsString.truthy (data_error d))|];
    destruct s; reflexivity.
Qed.

Lemma update_update id f g l :
  update id f (update id g l) = update id (fun inv => f (g inv)) l.
Proof.
  revert id. induction l as [|inv l IH]; intros [|id]; simpl; auto.
  now rewrite IH.
Qed.

(** A waiting call has one slot. *)
Lemma waitingCall_inj c c' id st :
  waitingCall c id st -> waitingCall c' id st -> c = c'.
Proof. unfold waitingCall. intros H H'. congruence. Qed.

Lemma slotsSound_step st e : slotsSound st -> slotsSound (step st e).
Proof.
  intros [Hs He]. destruct e as [c|s data|id|id message]; simpl.
  - (* a request *)
    split.
    + intros s id Hid.
      destruct (slot_eq_dec (slotOf c) s) as [<-|Hne].
      * rewrite getSlot_setSlot_eq in Hid. injection Hid as <-.
        exists c. split; [reflexivity|].
        unfold waitingCall. rewrite calls_setSlot. simpl.
        rewrite nth_error_app2 by lia. now rewrite Nat.sub_diag.
      * rewrite getSlot_setSlot_neq in Hid by assumption.
        change (getSlot s st = Some id) in Hid.
        destruct (Hs s id Hid) as (c' & Hc' & Hw).
        exists c'. split; [exact Hc'|].
        unfold waitingCall in *. rewrite calls_setSlot. simpl.
        rewrite nth_error_app1; [exact Hw|].
        apply nth_error_Some. congruence.
    + destruct c; exact He.
  - (* a message of the dashboard *)
    unfold onMessage. destruct (getSlot s st) as [id|] eqn:Eid;
      [|split; assumption].
    destruct (Hs s id Eid) as (c & Hc & Hw).
    split.
    + intros s' id' Hid'.
      destruct (slot_eq_dec s s') as [<-|Hne].
      * rewrite getSlot_setSlot_eq in Hid'. discriminate.
      * rewrite getSlot_setSlot_neq, getSlot_resolver in Hid' by assumption.
        destruct (Hs s' id' Hid') as (c' & Hc' & Hw').
        exists c'. split; [exact Hc'|].
        unfold waitingCall. rewrite calls_setSlot.
        destruct (calls_resolver id data st) as (f & -> & _).
        rewrite nth_error_update_neq; [exact Hw'|].
        intros <-. apply Hne.
        rewrite <- Hc, <- Hc'. f_equal.
        exact (waitingCall_inj _ _ _ _ Hw Hw').
    + destruct s; simpl; try exact He; try reflexivity;
        destruct data as [d|];
        [destruct (JsString.truthy (data_error d))| | |];
        try exact He;
        unfold resolver; simpl;
        try (destruct (JsString.truthy (data_error d))); exact He.
  - (* a timer fires *)
    unfold onTimeout.
    destruct (nth_error (calls st) id) as [inv|] eqn:En; [|split; assumption].
    destruct (inv_timer inv) eqn:Et; [|split; assumption].
    split.
    + intros s' id' Hid'. rewrite getSlot_onCall in Hid'.
      destruct (slot_eq_dec (slotOf (inv_call inv)) s') as [<-|Hne].
      * rewrite getSlot_setSlot_eq in Hid'. discriminate.
      * rewrite getSlot_setSlot_neq, getSlot_onCall in Hid' by assumption.
        destruct (Hs s' id' Hid') as (c' & Hc' & Hw').
        exists c'. split; [exact Hc'|].
        unfold waitingCall. simpl. rewrite calls_setSlot. simpl.
        rewrite update_update, nth_error_update_neq; [exact Hw'|].
        intros <-. apply Hne. unfold waitingCall in Hw'.
        rewrite En in Hw'. injection Hw' as ->. exact Hc'.
    + destruct (inv_call inv); exact He.
  - (* the request could not be sent *)
    unfold onSendError.
    destruct (nth_error (calls st) id) as [inv|] eqn:En; [|split; assumption].
    split.
    + intros s' id' Hid'. rewrite getSlot_onCall in Hid'.
      destruct (slot_eq_dec (slotOf (inv_call inv)) s') as [<-|Hne].
      * rewrite getSlot_setSlot_eq in Hid'. discriminate.
      * rewrite getSlot_setSlot_neq, getSlot_onCall in Hid' by assumption.
        destruct (Hs s' id' Hid') as (c' & Hc' & Hw').
        exists c'. split; [exact Hc'|].
        unfold waitingCall. simpl. rewrite calls_setSlot. simpl.
        rewrite update_update, nth_error_update_neq; [exact Hw'|].
        intros <-. apply Hne. unfold waitingCall in Hw'.
        rewrite En in Hw'. injection Hw' as ->. exact Hc'.
    + destruct (inv_call inv); exact He.
Qed.

Lemma slotsSound_initial : slotsSound initial.
Proof. split; [|reflexivity]. intros [] id H; discriminate. Qed.

Lemma slotsSound_run es : forall st, slotsSound st -> slotsSound (run st es).
Proof.
  induction es as [|e es IH]; intros st H; [exact H|].
  simpl. apply IH. now apply slotsSound_step.
Qed.

End PendingFacts.

(** X16.  Whatever requests, messages, timeouts and send errors follow
    one another, a resolver found in a slot of [_pendingResolvers] belongs
    to a call made for that slot whose promise is not settled and whose
    timer is armed, so that the data of a message is never handed to a
    call that is over; and the slot [externalData] is never filled, which
    makes every [EXTERNAL_DATA] message a no-op. *)
Theorem slots_hold_waiting_calls (es : list Pending.Event) :
  Pending.slotsSound (Pending.run Pending.initial es)
  /\ forall data,
       Pending.onMessage Pending.externalData data
         (Pending.run Pending.initial es)
       = Pending.run Pending.initial es.
Proof.
  pose proof (PendingFacts.slotsSound_run es Pending.initial
                PendingFacts.slotsSound_initial) as H.
  split; [exact H|].
  intros data. unfold Pending.onMessage. simpl.
  now rewrite (proj2 H).
Qed.

Module PendingRuns.
Import Pending PendingFacts.

Lemma run_app st es1 es2 : run st (es1 ++ es2) = run (run st es1) es2.
Proof. unfold run. apply fold_left_app. Qed.

Lemma not_fulfilled_settle p inv :
  match p with Fulfilled _ => False | _ => True end ->
  match inv_promise inv with Fulfilled _ => False | _ => True end ->
  match inv_promise (settle p (disarm inv)) with
  | Fulfilled _ => False
  | _ => True
  end.
Proof.
  unfold settle, disarm. simpl.
  destruct (inv_promise inv); simpl; auto.
Qed.

(** The state after the timer of [id] has fired or its request could
    not be sent: the promise of [id] is rejected with [message] if it was
    waiting, its timer is gone, and its slot is empty. *)
Lemma displaced_after_reject id (message : string) inv st id0 :
  nth_error (calls st) id = Some inv ->
  displaced id0 st ->
  displaced id0
    (onCall id (settle (Failed message))
       (setSlot (slotOf (inv_call inv)) None (onCall id disarm st))).
Proof.
  intros En (inv0 & E0 & S0 & P0).
  destruct (Nat.eq_dec id id0) as [->|Hne].
  - rewrite En in E0. injection E0 as <-.
    exists (settle (Failed message) (disarm inv)).
    split; [|split].
    + simpl. rewrite calls_setSlot. simpl.
      rewrite update_update, nth_error_update_eq, En. reflexivity.
    + assert (C : inv_call (settle (Failed message) (disarm inv))
                  = inv_call inv)
        by (unfold settle, disarm; simpl; now destruct (inv_promise inv)).
      rewrite C, getSlot_onCall, getSlot_setSlot_eq. discriminate.
    + now apply not_fulfilled_settle.
  - exists inv0. split; [|split; [|exact P0]].
    + simpl. rewrite calls_setSlot. simpl.
      rewrite update_update, nth_error_update_neq by assumption. exact E0.
    + rewrite getSlot_onCall.
      destruct (slot_eq_dec (slotOf (inv_call inv)) (slotOf (inv_call inv0)))
        as [<-|Hs].
      * rewrite getSlot_setSlot_eq. discriminate.
      * rewrite getSlot_setSlot_neq, getSlot_onCall by assumption.
        exact S0.
Qed.

Lemma displaced_step st e id :
  slotsSound st -> displaced id st -> displaced id (step st e).
Proof.
  intros [Hs _] D. destruct e as [c|s data|id'|id' message]; simpl.
  - (* a request *)
    destruct D as (inv & E & S & P).
    assert (Hlt : (id < length (calls st))%nat)
      by (apply nth_error_Some; congruence).
    exists inv. split; [|split; [|exact P]].
    + rewrite calls_setSlot. simpl. now rewrite nth_error_app1.
    + destruct (slot_eq_dec (slotOf c) (slotOf (inv_call inv))) as [<-|Hne].
      * rewrite getSlot_setSlot_eq. intros H. injection H as H. lia.
      * rewrite getSlot_setSlot_neq by assumption. exact S.
  - (* a message of the dashboard *)
    unfold onMessage. destruct (getSlot s st) as [id'|] eqn:Eid; [|exact D].
    destruct D as (inv & E & S & P).
    destruct (Hs s id' Eid) as (c & Hc & Hw).
    assert (Hne : id' <> id).
    { intros ->. unfold waitingCall in Hw. rewrite E in Hw.
      injection Hw as ->. simpl in S. rewrite Hc in S. contradiction. }
    exists inv. split; [|split; [|exact P]].
    + rewrite calls_setSlot.
      destruct (calls_resolver id' data st) as (f & -> & _).
      now rewrite nth_error_update_neq.
    + destruct (slot_eq_dec s (slotOf (inv_call inv))) as [<-|Hs'].
      * rewrite getSlot_setSlot_eq. discriminate.
      * rewrite getSlot_setSlot_neq, getSlot_resolver by assumption.
        exact S.
  - (* a timer fires *)
    unfold onTimeout.
    destruct (nth_error (calls st) id') as [inv'|] eqn:En; [|exact D].
    destruct (inv_timer inv'); [|exact D].
    now apply displaced_after_reject.
  - (* the request could not be sent *)
    unfold onSendError.
    destruct (nth_error (calls st) id') as [inv'|] eqn:En; [|exact D].
    now apply displaced_after_reject.
Qed.

Lemma displaced_run es : forall st id,
  slotsSound st -> displaced id st -> displaced id (run st es).
Proof.
  induction es as [|e es IH]; intros st id H D; [exact D|].
  simpl. apply IH; [now apply slotsSound_step | now apply displaced_step].
Qed.

(** A request followed by the message of the dashboard. *)
Lemma request_then_message c data st :
  let id := fst (request c st) in
  let st2 := onMessage (slotOf c) data (snd (request c st)) in
  calls st2 = (calls st ++ [mkInvocation c (settledBy data) false])%list
  /\ getSlot (slotOf c) st2 = None.
Proof.
  destruct st as [p e m l].
  unfold onMessage, request, resolver, settledBy.
  destruct c;
    (destruct data as [d|];
     [destruct (JsString.truthy (data_error d)) eqn:Et|]);
    simpl; rewrite ?Et; simpl; rewrite !update_app_last;
    split; reflexivity.
Qed.

End PendingRuns.

(** X17.  A call that has lost its place in the slot, because a second
    call of the same kind was made before the first was answered or
    because the slot was emptied by a timeout or a send error, can no
    longer be fulfilled: whatever follows, its promise stays pending or is
    rejected. *)
Theorem displaced_call_is_never_fulfilled
    (es1 es2 : list Pending.Event) (id : nat) :
  Pending.displaced id (Pending.run Pending.initial es1) ->
  forall value,
    Pending.promiseOf id (Pending.run Pending.initial (es1 ++ es2))
    <> Some (Pending.Fulfilled value).
Proof.
  intros D value.
  rewrite PendingRuns.run_app.
  pose proof (PendingFacts.slotsSound_run es1 Pending.initial
                PendingFacts.slotsSound_initial) as H.
  destruct (PendingRuns.displaced_run es2 _ id H D) as (inv & E & _ & P).
  unfold Pending.promiseOf. rewrite E. simpl.
  intros Hf. injection Hf as Hf. now rewrite Hf in P.
Qed.

(** Two requests for the popup data in a row; the data that arrives goes
    to the second, and the first is left waiting for its timeout. *)
Lemma displaced_call_is_never_fulfilled_witness :
  let es1 := [Pending.Request Pending.GetPopupData;
              Pending.Request Pending.GetPopupData] in
  let data := Some (Pending.mkData EmptyString "{...}") in
  let st := Pending.run Pending.initial
              (es1 ++ [Pending.Message Pending.popupData data]) in
  Pending.promiseOf 1 st = Some (Pending.Fulfilled data)
  /\ Pending.promiseOf 0 st = Some Pending.Waiting
  /\ forall value, Pending.promiseOf 0 st <> Some (Pending.Fulfilled value).
Proof.
  intros es1 data st.
  split; [reflexivity|]. split; [reflexivity|].
  apply (displaced_call_is_never_fulfilled es1
           [Pending.Message Pending.popupData data] 0).
  exists (Pending.mkInvocation Pending.GetPopupData Pending.Waiting true).
  split; [reflexivity|]. split; [discriminate | exact I].
Defined.

(** X18.  A request answered by the dashboard: the promise of the call is
    fulfilled with the data, or rejected with the [error] the data
    carries; the timer of the call is cleared and the slot is emptied, so
    that the timeout of the call, if it still fires, and a second message
    for the slot change nothing. *)
Theorem reply_settles_the_call_once
    (c : Pending.Call) (data : option Pending.Data) (st : Pending.State) :
  let id := fst (Pending.request c st) in
  let st2 := Pending.onMessage (Pending.slotOf c) data
               (snd (Pending.request c st)) in
  Pending.promiseOf id st2 = Some (Pending.settledBy data)
  /\ Pending.getSlot (Pending.slotOf c) st2 = None
  /\ Pending.onTimeout id st2 = st2
  /\ forall data', Pending.onMessage (Pending.slotOf c) data' st2 = st2.
Proof.
  intros id st2.
  destruct (PendingRuns.request_then_message c data st) as [Hc Hs].
  fold st2 in Hc, Hs.
  assert (Hn : nth_error (Pending.calls st2) id
               = Some (Pending.mkInvocation c (Pending.settledBy data) false)).
  { rewrite Hc. unfold id. simpl.
    rewrite nth_error_app2 by lia. now rewrite Nat.sub_diag. }
  split; [|split; [exact Hs|split]].
  - unfold Pending.promiseOf. now rewrite Hn.
  - unfold Pending.onTimeout. now rewrite Hn.
  - intros data'. unfold Pending.onMessage. now rewrite Hs.
Qed.

(** X19.  A request that times out: the promise is rejected with the
    timeout message and the slot is emptied, so that a message arriving
    late is dropped; a following request of the same kind is answered on
    its own, and the rejected call stays rejected. *)
Theorem timeout_frees_the_slot
    (c : Pending.Call) (data : option Pending.Data) (st : Pending.State) :
  let id := fst (Pending.request c st) in
  let st2 := Pending.onTimeout id (snd (Pending.request c st)) in
  let id' := fst (Pending.request c st2) in
  let st4 := Pending.onMessage (Pending.slotOf c) data
               (snd (Pending.request c st2)) in
  Pending.promiseOf id st2 = Some (Pending.Failed (Pending.timeoutMessage c))
  /\ Pending.getSlot (Pending.slotOf c) st2 = None
  /\ Pending.onMessage (Pending.slotOf c) data st2 = st2
  /\ Pending.promiseOf id' st4 = Some (Pending.settledBy data)
  /\ Pending.promiseOf id st4
     = Some (Pending.Failed (Pending.timeoutMessage c)).
Proof.
  intros id st2 id' st4.
  assert (Hc2 : Pending.calls st2
                = (Pending.calls st
                   ++ [Pending.mkInvocation c
                         (Pending.Failed (Pending.timeoutMessage c))
                         false])%list
                /\ Pending.getSlot (Pending.slotOf c) st2 = None).
  { unfold st2, id, Pending.onTimeout, Pending.request. cbv zeta.
    simpl fst. simpl snd.
    rewrite PendingFacts.calls_setSlot. simpl Pending.calls.
    rewrite nth_error_app2 by lia. rewrite Nat.sub_diag. simpl.
    rewrite PendingFacts.getSlot_onCall, PendingFacts.getSlot_setSlot_eq.
    split; [|reflexivity].
    rewrite !PendingFacts.calls_setSlot. simpl.
    rewrite PendingFacts.calls_setSlot. simpl.
    now rewrite !PendingFacts.update_app_last. }
  destruct Hc2 as [Hc2 Hs2].
  destruct (PendingRuns.request_then_message c data st2) as [Hc4 _].
  fold st4 in Hc4.
  assert (Hlen : length (Pending.calls st2) = S (length (Pending.calls st)))
    by (rewrite Hc2, length_app; simpl; lia).
  split; [|split; [exact Hs2|split; [|split]]].
  - unfold Pending.promiseOf. rewrite Hc2. unfold id. simpl.
    rewrite nth_error_app2 by lia. now rewrite Nat.sub_diag.
  - unfold Pending.onMessage. now rewrite Hs2.
  - unfold Pending.promiseOf. rewrite Hc4. unfold id'. simpl.
    rewrite nth_error_app2 by lia. now rewrite Nat.sub_diag.
  - unfold Pending.promiseOf. rewrite Hc4, Hc2. unfold id. simpl.
    rewrite nth_error_app1 by (rewrite length_app; simpl; lia).
    rewrite nth_error_app2 by lia. now rewrite Nat.sub_diag.
Qed.

(* ===================================================================== *)
(** * The local store of records during a run                             *)
(* ===================================================================== *)

Section StoreInvariant.

Variable env : Env.

(** The ids of the stored records are pairwise distinct. *)
Let I (w : World) : Prop := NoDup (storedRecordIds w).

Lemma nothrow_stepSaveLocal_store rowIndex jobNum jobPayload :
  nothrow I (stepSaveLocal env rowIndex jobNum jobPayload).
Proof.
  intros w Hw.
  destruct (stepSaveLocal_frame env rowIndex jobNum jobPayload w)
    as (w' & E & _ & J & _).
  rewrite E. split; [|exact Logic.I].
  unfold I, storedRecordIds, storedJobs in *. simpl snd. rewrite J.
  destruct (storageAccepts (env_item env rowIndex)); [|exact Hw].
  now apply NoDup_replaceById.
Qed.

Lemma safe_processJobFlow_store rawJob id rowIndex jobNum :
  safe I (processJobFlow env rawJob id rowIndex jobNum).
Proof.
  unfold processJobFlow.
  apply safe_bind; [apply safe_stepSimulateClick; keeps|]. intros _.
  apply safe_bind; [apply safe_stepPopupData; keeps|]. intros popupData.
  cbv zeta.
  apply safe_bind; [keeps|]. intros _.
  apply safe_bind; [apply safe_stepOpenTab; keeps|]. intros tab.
  apply safe_bind; [apply nothrow_safe, nothrow_stepScrape; keeps|].
  intros externalData.
  apply safe_bind; [apply nothrow_safe, nothrow_stepEmail; keeps|].
  intros emailData.
  apply safe_bind; [apply nothrow_safe, nothrow_stepSaveLocal_store|].
  intros _.
  apply nothrow_safe, nothrow_stepSendToAPI; keeps.
Qed.

Lemma safe_processSingleJob_store rawJob id rowIndex jobNum :
  safe I (processSingleJob env rawJob id rowIndex jobNum).
Proof.
  unfold processSingleJob.
  apply safe_bind; [keeps|]. intros [|]; [keeps|].
  apply safe_bind; [keeps|]. intros _.
  apply safe_tryFinally; [|keeps].
  apply safe_bind; [apply safe_processJobFlow_store|]. intros _.
  apply safe_bind; [apply nothrow_safe, nothrow_markAsProcessed; keeps|].
  intros _.
  apply nothrow_safe, nothrow_updateStats; keeps.
Qed.

Lemma nothrow_runQueueItem_store i rawJob :
  nothrow I (runQueueItem env i rawJob).
Proof.
  unfold runQueueItem.
  apply nothrow_bind; [keeps|]. intros total.
  apply nothrow_bind; [keeps|]. intros _.
  apply nothrow_bind; [|intros _; apply nothrow_interItemDelay; keeps].
  apply nothrow_tryCatch.
  - apply safe_bind.
    + apply safe_awaiting; [keeps | keeps |].
      apply safe_processSingleJob_store.
    + intros _. apply nothrow_safe, nothrow_itemSucceeded; keeps.
  - intros msg. apply nothrow_itemFailed; keeps.
Qed.

Lemma nothrow_runQueueLoop_store fuel :
  forall i, nothrow I (runQueueLoop env fuel i).
Proof.
  induction fuel as [|fuel IH]; intros i; simpl; [keeps|].
  apply nothrow_bind; [keeps|]. intros q.
  destruct (i <? length q)%nat eqn:E; [|keeps].
  apply nothrow_bind; [keeps|]. intros [|]; [keeps|].
  destruct (nth_error q i) as [rawJob|] eqn:En.
  - apply nothrow_bind; [apply nothrow_runQueueItem_store|].
    intros _. apply IH.
  - apply nth_error_None in En. apply Nat.ltb_lt in E. lia.
Qed.

Lemma safe_runQueue_store : safe I (runQueue env).
Proof.
  unfold runQueue.
  apply safe_bind; [keeps|]. intros n.
  apply safe_bind; [apply nothrow_safe, nothrow_runQueueLoop_store|].
  intros _. apply safe_runQueueEpilogue; keeps.
Qed.

Lemma safe_handleStartQueue_store options :
  safe I (handleStartQueue env options).
Proof.
  unfold handleStartQueue, onJobsCollected.
  repeat first
    [ sat_step
    | apply safe_runQueue_store
    | apply safe_runResumeBuilderQueue
    | apply nothrow_safe, nothrow_finishQueue
    | apply nothrow_safe;
      first [ apply nothrow_log | apply nothrow_sleep
            | apply nothrow_broadcastStatus_any | apply nothrow_emit_any ] ];
    frame_leaf.
Qed.

End StoreInvariant.

(** X20.  The local store never comes to hold two records with the same
    id: if the ids of the stored records are pairwise distinct when a
    start command arrives, they are pairwise distinct when
    [handleStartQueue] is over, whatever the page, the browser, the storage
    and the backend answer and whether it returns or throws; the same holds
    for every round of the queue loop. *)
Theorem stored_record_ids_stay_distinct
    (env : Env) (options : StartOptions) (w : World) :
  NoDup (storedRecordIds w) ->
  NoDup (storedRecordIds (snd (handleStartQueue env options w)))
  /\ forall i rawJob,
       NoDup (storedRecordIds (snd (runQueueItem env i rawJob w))).
Proof.
  intros H. split.
  - exact (proj1 (safe_handleStartQueue_store env options w H)).
  - intros i rawJob.
    exact (proj1 (nothrow_runQueueItem_store env i rawJob w H)).
Qed.

(** A store that already holds the record of the first item. *)
Lemma stored_record_ids_stay_distinct_witness :
  let env := Sample.env Sample.allOk Sample.backendUp in
  let old := mergePayload Sample.job1 (jobIdOf 0 Sample.job1)
               (Sample.popup Sample.jobUrl) Sample.jobUrl Sample.external
               (mkEmailData "S" "B") "linkedin" "earlier" in
  let w := set_scrapedJobs (Some [old]) Sample.idle in
  let w' := snd (handleStartQueue env (mkStartOptions false) w) in
  length (storedJobs w') = 2%nat /\ NoDup (storedRecordIds w').
Proof.
  intros env old w w'.
  split; [vm_compute; reflexivity|].
  assert (H : NoDup (storedRecordIds w))
    by (repeat constructor; simpl; tauto).
  exact (proj1 (stored_record_ids_stay_distinct env (mkStartOptions false)
                  w H)).
Defined.

(* ===================================================================== *)
(** * Ids that coincide                                                   *)
(* ===================================================================== *)

Lemma trimEnd_cons_clean c r :
  JsString.isWhiteSpace c = false ->
  JsString.trimEnd (String c r) = String c (JsString.trimEnd r).
Proof.
  intros H. simpl. destruct (JsString.trimEnd r); [now rewrite H | reflexivity].
Qed.

Lemma normalize_two_clean a b t :
  JsString.isWhiteSpace a = false ->
  JsString.isWhiteSpace b = false ->
  normalize (String a (String b t))
  = String (JsString.lowerChar a)
      (String (JsString.lowerChar b)
         (JsString.toLowerCase (JsString.trimEnd t))).
Proof.
  intros Ha Hb. unfold normalize, JsString.trim.
  cbn [JsString.trimStart]. rewrite Ha.
  now rewrite !trimEnd_cons_clean by assumption.
Qed.

(** X21.  The id does not determine the job: the hash is a polynomial in
    31 over the code units, so a step of one in a code unit is undone by a
    step of 31 in the next.  Titles that begin with [a_] and with [b@] and
    go on alike get the same id with every company. *)
Theorem generateJobId_collides (rest company : string) :
  "a_" ++ rest <> "b@" ++ rest
  /\ normalize ("a_" ++ rest) <> normalize ("b@" ++ rest)
  /\ generateJobId ("a_" ++ rest) company
     = generateJobId ("b@" ++ rest) company.
Proof.
  split; [discriminate|].
  assert (Na : normalize ("a_" ++ rest)
               = "a_" ++ JsString.toLowerCase (JsString.trimEnd rest))
    by (apply normalize_two_clean; reflexivity).
  assert (Nb : normalize ("b@" ++ rest)
               = "b@" ++ JsString.toLowerCase (JsString.trimEnd rest))
    by (apply normalize_two_clean; reflexivity).
  split; [rewrite Na, Nb; discriminate|].
  unfold generateJobId. rewrite Na, Nb. reflexivity.
Qed.

(* ===================================================================== *)
(** * The result of a build                                               *)
(* ===================================================================== *)

Section BuildResult.

Variable env : Env.
Variables (i total : nat) (job : JobPayload) (w : World).

Let jobNum := mkJobNum (i + 1) total.

(** The world when the builder page has been asked and has answered. *)
Let asked : World :=
  let w1 := pushEvents [EvRequest (RBuildResume (dashboardTabId w) job)] w in
  if p2_stopInFlight (env_phase2 env) i then stopped w1 else w1.

Lemma stepBuildResume_declined :
  p2_build (env_phase2 env) i = Resolved false ->
  stepBuildResume env i total job w = (Ok tt, asked).
Proof.
  intros H. unfold stepBuildResume, asked. rewrite H.
  destruct (p2_stopInFlight (env_phase2 env) i); reflexivity.
Qed.

Lemma stepBuildResume_failed m :
  p2_build (env_phase2 env) i = Rejected m ->
  stepBuildResume env i total job w
  = (Ok tt,
     announced (TResumeFailed jobNum (title job) m) Serror
       (pushEvents [EvLog ERROR (LResumeBuildFailed jobNum m)] asked)).
Proof.
  intros H. unfold stepBuildResume, asked. rewrite H.
  destruct (p2_stopInFlight (env_phase2 env) i); reflexivity.
Qed.

Lemma stepBuildResume_built :
  p2_build (env_phase2 env) i = Resolved true ->
  exists n es,
    stepBuildResume env i total job w
    = (Ok tt,
       announced (TResumeBuilt jobNum (title job)) Ssuccess
         (afterAttempts (S n) es asked))
    /\ (attempts w <= n <= attempts w + 2)%nat.
Proof.
  intros H.
  destruct (sendJobToAPI_outcome env
              (builtRecord job (p2_builtAt (env_phase2 env) i)) asked)
    as (r & n & es & E & Hn & _).
  exists n, es. split.
  - unfold stepBuildResume. erewrite tryCatch_ok; [reflexivity|].
    rewrite (bind_ok _ _ w (dashboardTabId w) w) by reflexivity.
    rewrite (bind_ok _ _ w tt
               (pushEvents
                  [EvRequest (RBuildResume (dashboardTabId w) job)] w))
      by reflexivity.
    rewrite (bind_ok _ _ _ true asked).
    + rewrite (bind_ok _ _ _ _ _ E). reflexivity.
    + rewrite run_awaiting, H. unfold asked.
      destruct (p2_stopInFlight (env_phase2 env) i); reflexivity.
  - assert (A : attempts asked = attempts w)
      by (unfold asked; destruct (p2_stopInFlight (env_phase2 env) i);
          reflexivity).
    now rewrite A in Hn.
Qed.

End BuildResult.

(** X22.  The answer of the builder page decides what follows the build
    of a record, and never fails the phase.  When the page reports
    success, the record is submitted to the backend with
    [jdResumeBuilt = true], in one to three attempts, and a success status
    closes the round; when the page declines, the request to the
    page is all that happened: nothing is submitted and no status is
    broadcast; when the request fails, nothing is submitted and
    an error status carries the message. *)
Theorem build_result_decides_the_submission
    (env : Env) (i total : nat) (job : JobPayload) (w : World) :
  let r := stepBuildResume env i total job w in
  let jobNum := mkJobNum (i + 1) total in
  fst r = Ok tt
  /\ (p2_build (env_phase2 env) i = Resolved true ->
      (attempts w < attempts (snd r) <= attempts w + 3)%nat
      /\ exists t,
           trace (snd r)
           = EvStatus (TResumeBuilt jobNum (title job)) Ssuccess
               (processedCount w) (failedCount w) (length (queue w)) :: t)
  /\ (p2_build (env_phase2 env) i = Resolved false ->
      snd r
      = let w1 := pushEvents
                    [EvRequest (RBuildResume (dashboardTabId w) job)] w in
        if p2_stopInFlight (env_phase2 env) i then stopped w1 else w1)
  /\ (forall m,
        p2_build (env_phase2 env) i = Rejected m ->
        attempts (snd r) = attempts w
        /\ exists t,
             trace (snd r)
             = EvStatus (TResumeFailed jobNum (title job) m) Serror
                 (processedCount w) (failedCount w) (length (queue w)) :: t).
Proof.
  intros r jobNum.
  assert (F : fst r = Ok tt).
  { destruct (stepBuildResume_run env i total job w) as (w' & E & _).
    unfold r. now rewrite E. }
  split; [exact F|]. split; [|split].
  - intros H.
    destruct (stepBuildResume_built env i total job w H) as (n & es & E & Hn).
    unfold r. rewrite E. simpl snd. split.
    + simpl. lia.
    + destruct (p2_stopInFlight (env_phase2 env) i); eexists; reflexivity.
  - intros H. unfold r.
    now rewrite (stepBuildResume_declined env i total job w H).
  - intros m H. unfold r.
    rewrite (stepBuildResume_failed env i total job w m H). simpl snd.
    split.
    + destruct (p2_stopInFlight (env_phase2 env) i); reflexivity.
    + destruct (p2_stopInFlight (env_phase2 env) i); eexists; reflexivity.
Qed.

(** A builder page that reports an error for the record. *)
Lemma build_result_decides_the_submission_witness :
  let a := mergePayload Sample.job1 "job_1" (Sample.popup Sample.jobUrl)
             Sample.jobUrl Sample.external (mkEmailData "S" "B")
             "linkedin" "t0" in
  let p2 := {| p2_jobs := JobsResponse true 200 (Resolved [a]);
               p2_update := Resolved tt;
               p2_complete := Resolved tt;
               p2_build := fun _ => Rejected "Apply button not found";
               p2_builtAt := fun _ => "t2";
               p2_reload := fun _ => Resolved tt;
               p2_reloaded := fun _ => Resolved tt;
               p2_stopInFlight := fun _ => false |} in
  let env := mkEnv Sample.hostname Sample.start Sample.allOk Sample.backendUp
               p2 in
  let r := stepBuildResume env 0 1 a (Sample.running []) in
  fst r = Ok tt
  /\ attempts (snd r) = 0%nat
  /\ exists t,
       trace (snd r)
       = EvStatus (TResumeFailed (mkJobNum 1 1) "Backend Engineer"
                     "Apply button not found") Serror 0 0 0 :: t.
Proof.
  intros a p2 env r.
  destruct (build_result_decides_the_submission env 0 1 a (Sample.running []))
    as (F & _ & _ & H).
  split; [exact F|].
  exact (H "Apply button not found" eq_refl).
Defined.

(* ===================================================================== *)
(** * The fallback text of the scraper                                    *)
(* ===================================================================== *)

Module ScrapeFacts.
Import JsString.

Lemma startsWith_app x y q :
  startsWith x q = true -> startsWith (x ++ y) q = true.
Proof.
  revert q. induction x as [|c x IH]; intros [|d q] H.
  - destruct y; reflexivity.
  - discriminate H.
  - reflexivity.
  - simpl in *. apply andb_prop in H. destruct H as [H1 H2].
    now rewrite H1, (IH q H2).
Qed.

Lemma includes_app_l x y q : includes x q = true -> includes (x ++ y) q = true.
Proof.
  induction x as [|c x IH]; simpl.
  - rewrite orb_false_r. intros H.
    destruct q; [|discriminate]. destruct y; reflexivity.
  - intros H. apply orb_prop in H. destruct H as [H|H].
    + pose proof (startsWith_app (String c x) y q H) as H'.
      simpl in H'. now rewrite H'.
    + rewrite (IH H). apply orb_true_r.
Qed.

Lemma includes_app_r x y q : includes y q = true -> includes (x ++ y) q = true.
Proof.
  intros H. induction x as [|c x IH]; simpl; [exact H|].
  rewrite IH. apply orb_true_r.
Qed.

Lemma beforeFirst_prefix s p : exists rest, s = beforeFirst s p ++ rest.
Proof.
  induction s as [|c r IH].
  - exists EmptyString. destruct p; reflexivity.
  - cbn [beforeFirst]. destruct (startsWith (String c r) p).
    + now exists (String c r).
    + destruct IH as (rest & E). exists rest. simpl. now rewrite <- E.
Qed.

Lemma beforeFirst_free s c p :
  includes (beforeFirst s (String c p)) (String c p) = false.
Proof.
  induction s as [|d r IH]; [reflexivity|].
  cbn [beforeFirst].
  destruct (startsWith (String d r) (String c p)) eqn:E; [reflexivity|].
  cbn [includes]. rewrite IH, orb_false_r.
  destruct (startsWith (String d (beforeFirst r (String c p))) (String c p))
    eqn:E'; [|reflexivity].
  destruct (beforeFirst_prefix r (String c p)) as (rest & Er).
  pose proof (startsWith_app _ rest _ E') as H.
  simpl append in H. rewrite <- Er in H. congruence.
Qed.

Lemma beforeFirst_absent s p : includes s p = false -> beforeFirst s p = s.
Proof.
  induction s as [|c r IH].
  - destruct p; reflexivity.
  - cbn [includes beforeFirst]. intros H.
    apply orb_false_elim in H. destruct H as [H1 H2].
    rewrite H1. now rewrite (IH H2).
Qed.

Lemma trimStart_suffix s : exists a, s = a ++ trimStart s.
Proof.
  induction s as [|c r IH]; simpl; [now exists EmptyString|].
  destruct (isWhiteSpace c).
  - destruct IH as (a & E). exists (String c a). simpl. now rewrite <- E.
  - now exists EmptyString.
Qed.

Lemma trimEnd_prefix s : exists b, s = trimEnd s ++ b.
Proof.
  induction s as [|c r IH]; simpl; [now exists EmptyString|].
  destruct IH as (b & E).
  destruct (trimEnd r) as [|d r'] eqn:Er.
  - destruct (isWhiteSpace c).
    + now exists (String c r).
    + exists b. simpl. simpl in E. now rewrite <- E.
  - exists b. simpl. simpl in E. now rewrite <- E.
Qed.

Lemma trim_within s : exists a b, s = a ++ trim s ++ b.
Proof.
  unfold trim.
  destruct (trimStart_suffix s) as (a & Ea).
  destruct (trimEnd_prefix (trimStart s)) as (b & Eb).
  exists a, b. now rewrite <- Eb.
Qed.

Lemma includes_within a x b q :
  includes (a ++ x ++ b) q = false -> includes x q = false.
Proof.
  intros H. destruct (includes x q) eqn:E; [|reflexivity].
  rewrite (includes_app_r a (x ++ b) q) in H; [discriminate|].
  now apply includes_app_l.
Qed.

Lemma append_assoc (x y z : string) : (x ++ y) ++ z = x ++ (y ++ z).
Proof. induction x as [|c x IH]; simpl; [reflexivity | now rewrite IH]. Qed.

Lemma cutAtMarker_prefix s m : exists rest, s = cutAtMarker s m ++ rest.
Proof.
  unfold cutAtMarker. destruct (includes s m).
  - apply beforeFirst_prefix.
  - exists EmptyString. induction s as [|c s IH]; simpl; congruence.
Qed.

Lemma cutAtMarker_free s c p :
  includes (cutAtMarker s (String c p)) (String c p) = false.
Proof.
  unfold cutAtMarker. destruct (includes s (String c p)) eqn:E.
  - apply beforeFirst_free.
  - exact E.
Qed.

(** A marker absent from a text is absent from what is cut out of it. *)
Lemma cutAtMarker_keeps_free s m q :
  includes s q = false -> includes (cutAtMarker s m) q = false.
Proof.
  intros H. destruct (cutAtMarker_prefix s m) as (rest & E).
  rewrite E in H.
  apply (includes_within EmptyString (cutAtMarker s m) rest q). exact H.
Qed.

Lemma cutAtMarkers_prefix s : exists rest, s = cutAtMarkers s ++ rest.
Proof.
  unfold cutAtMarkers. generalize markers. intros l. revert s.
  induction l as [|m l IH]; intros s; simpl.
  - exists EmptyString. induction s as [|c s IH]; simpl; congruence.
  - destruct (cutAtMarker_prefix s m) as (r1 & E1).
    destruct (IH (cutAtMarker s m)) as (r2 & E2).
    exists (r2 ++ r1). rewrite <- append_assoc, <- E2. exact E1.
Qed.

Lemma cutAtMarkers_free s m :
  In m markers -> includes (cutAtMarkers s) m = false.
Proof.
  unfold cutAtMarkers, markers. cbn [fold_left].
  intros [<-|[<-|[<-|[<-|[<-|[]]]]]].
  - do 4 apply cutAtMarker_keeps_free. apply cutAtMarker_free.
  - do 3 apply cutAtMarker_keeps_free. apply cutAtMarker_free.
  - do 2 apply cutAtMarker_keeps_free. apply cutAtMarker_free.
  - apply cutAtMarker_keeps_free. apply cutAtMarker_free.
  - apply cutAtMarker_free.
Qed.

End ScrapeFacts.

(** X23.  The text the scraper takes from the text of the post container,
    when it finds no text block in it, is a piece of that text
    which contains none of the words [Like], [Comment], [Repost], [Send]
    and [Reactions] and neither begins nor ends with white space: the text
    is cut at the first occurrence of each word, also inside a longer word,
    and a text without any of them is only trimmed. *)
Theorem fallbackDescription_is_cut_at_the_markers (innerText : string) :
  (forall marker,
      In marker markers ->
      JsString.includes (fallbackDescription innerText) marker = false)
  /\ (exists before after,
        innerText = before ++ fallbackDescription innerText ++ after)
  /\ JsString.trim (fallbackDescription innerText)
     = fallbackDescription innerText
  /\ ((forall marker,
         In marker markers -> JsString.includes innerText marker = false) ->
      fallbackDescription innerText = JsString.trim innerText).
Proof.
  unfold fallbackDescription.
  split; [|split; [|split]].
  - intros marker Hm.
    destruct (ScrapeFacts.trim_within (cutAtMarkers innerText)) as (a & b & E).
    apply (ScrapeFacts.includes_within a _ b).
    rewrite <- E. now apply ScrapeFacts.cutAtMarkers_free.
  - destruct (ScrapeFacts.cutAtMarkers_prefix innerText) as (rest & E).
    destruct (ScrapeFacts.trim_within (cutAtMarkers innerText)) as (a & b & E').
    exists a, (b ++ rest).
    set (cut := cutAtMarkers innerText) in *.
    set (d := JsString.trim cut) in *.
    rewrite E, E'. now rewrite !ScrapeFacts.append_assoc.
  - apply JsStringFacts.trim_idempotent.
  - intros H. f_equal. unfold cutAtMarkers, markers. cbn [fold_left].
    unfold cutAtMarker.
    rewrite (H "Like") by (simpl; tauto).
    rewrite (H "Comment") by (simpl; tauto).
    rewrite (H "Repost") by (simpl; tauto).
    rewrite (H "Send") by (simpl; tauto).
    now rewrite (H "Reactions") by (simpl; tauto).
Qed.

(** A post followed by the buttons of the feed, and a text in which a
    marker occurs inside a word. *)
Lemma fallbackDescription_is_cut_at_the_markers_witness :
  fallbackDescription "  We are hiring a QA Analyst.  Like Comment Repost"
  = "We are hiring a QA Analyst."
  /\ fallbackDescription "Remote role. Likely start in May." = "Remote role."
  /\ fallbackDescription " Hiring now " = JsString.trim " Hiring now ".
Proof.
  split; [vm_compute; reflexivity|]. split; [vm_compute; reflexivity|].
  apply (proj2 (proj2 (proj2
           (fallbackDescription_is_cut_at_the_markers " Hiring now ")))).
  intros marker [<-|[<-|[<-|[<-|[<-|[]]]]]]; vm_compute; reflexivity.
Defined.

(* ===================================================================== *)
(** * The submission of an item, as the trace shows it                    *)
(* ===================================================================== *)

Section Posts.

Variable env : Env.
Variable jobData : JobPayload.
Variable w : World.

(** The request of the first attempt, with the configuration read from
    the store. *)
Let firstPost : Event := EvRequest (RPostJob jobData (telegram_config w)).

(** The configuration is that of [w], and once an attempt has been made
    the request of the first attempt is in the trace. *)
Let posted (x : World) : Prop :=
  telegram_config x = telegram_config w
  /\ (attempts w <= attempts x)%nat
  /\ ((attempts w < attempts x)%nat -> In firstPost (trace x)).

Hypothesis config_read :
  forall m, env_attempt env (attempts w) <> ConfigRejected m.

Lemma posted_event e x : posted x -> posted (set_trace (e :: trace x) x).
Proof.
  intros (Ht & Hle & Hin). split; [exact Ht|]. split; [exact Hle|].
  intros Hlt. simpl. right. now apply Hin.
Qed.

Lemma posted_postJob : safe posted (postJob env jobData).
Proof.
  intros x (Ht & Hle & Hin). unfold postJob.
  assert (Hx : In firstPost (trace x)
               \/ env_attempt env (attempts x)
                  = env_attempt env (attempts w)
                  /\ attempts x = attempts w).
  { destruct (Nat.eq_dec (attempts x) (attempts w)) as [E|N].
    - right. now rewrite E.
    - left. apply Hin. lia. }
  destruct (env_attempt env (attempts x)) as [m|m|ok status body] eqn:Er.
  - split; [|exact Logic.I].
    split; [exact Ht|]. split; [simpl; lia|]. intros _.
    destruct Hx as [Hx|[Hx _]]; [exact Hx|].
    exfalso. apply (config_read m). now rewrite <- Hx.
  - split; [|exact Logic.I].
    split; [exact Ht|]. split; [simpl; lia|]. intros _. simpl.
    destruct Hx as [Hx|_]; [now right|]. left. unfold firstPost.
    now rewrite Ht.
  - destruct ok; (split; [|exact Logic.I]);
      (split; [exact Ht|]); (split; [simpl; lia|]); intros _; simpl;
      (destruct Hx as [Hx|_]; [now right|]); left; unfold firstPost;
      now rewrite Ht.
Qed.

(** The record is posted: the request of the first attempt is in the
    trace when the client returns. *)
Lemma sendJobToAPI_posts :
  In firstPost (trace (snd (sendJobToAPI env jobData w))).
Proof.
  assert (N : nothrow posted (sendJobToAPI env jobData)).
  { unfold sendJobToAPI, MAX_RETRIES.
    assert (L : forall level text, nothrow posted (log level text)).
    { intros level text.
      apply (by_log (fun _ => true) posted); [|reflexivity].
      intros e x _. apply posted_event. }
    apply nothrow_bind; [apply L|]. intros _.
    apply nothrow_tryCatch.
    - apply safe_bind.
      + apply (by_retryLoop (fun _ => true) posted);
          [intros e x _; apply posted_event | reflexivity | reflexivity
          | apply posted_postJob | discriminate].
      + intros r. apply nothrow_safe.
        apply nothrow_bind; [apply L|]. intros _. apply nothrow_ret.
    - intros msg.
      apply nothrow_bind; [apply nothrow_errMessage|]. intros m.
      apply nothrow_bind; [apply L|]. intros _. apply nothrow_ret. }
  assert (P : posted w) by (split; [reflexivity|]; split; lia).
  destruct (N w P) as [(_ & _ & Hin) _].
  apply Hin.
  destruct (sendJobToAPI_outcome env jobData w) as (r & n & es & E & Hn & _).
  rewrite E. simpl. lia.
Qed.

(** The client says which record it sends. *)
Lemma sendJobToAPI_announces :
  In (EvLog INFO (LSending (jobId jobData) (title jobData)))
     (trace (snd (sendJobToAPI env jobData w))).
Proof.
  set (e := EvLog INFO (LSending (jobId jobData) (title jobData))).
  set (J := fun x => In e (trace x)).
  assert (Je : forall e' x, (fun _ : Event => true) e' = true ->
                            J x -> J (set_trace (e' :: trace x) x)).
  { intros e' x _ Hx. unfold J. simpl. now right. }
  assert (Ja : forall v x, J x -> J (set_attempts v x)).
  { intros v x Hx. exact Hx. }
  unfold sendJobToAPI.
  rewrite (bind_ok _ _ w tt (pushEvents [e] w)) by reflexivity.
  apply (sat_inv J succeeds); [|unfold J; simpl; now left].
  unfold MAX_RETRIES.
  apply nothrow_tryCatch.
  - apply safe_bind.
    + apply (by_retryLoop (fun _ => true) J);
        [exact Je | reflexivity | reflexivity | | discriminate].
      apply (by_postJob env (fun _ => true) J); auto.
    + intros r. apply nothrow_safe.
      apply nothrow_bind;
        [apply (by_log (fun _ => true) J); auto|].
      intros _. apply nothrow_ret.
  - intros msg.
    apply nothrow_bind; [apply nothrow_errMessage|]. intros m.
    apply nothrow_bind; [apply (by_log (fun _ => true) J); auto|].
    intros _. apply nothrow_ret.
Qed.

End Posts.

(** The submission step adds to the trace of the client. *)
Lemma stepSendToAPI_trace env jobPayload w e :
  In e (trace (snd (sendJobToAPI env jobPayload w))) ->
  In e (trace (snd (stepSendToAPI env jobPayload w))).
Proof.
  intros H. unfold stepSendToAPI.
  destruct (sendJobToAPI_outcome env jobPayload w) as (r & n & es & E & _).
  rewrite E in H. simpl in H.
  destruct (api_success r) eqn:Es.
  - erewrite tryCatch_ok;
      [|rewrite (bind_ok _ _ _ _ _ E); rewrite Es; reflexivity].
    exact H.
  - erewrite tryCatch_ok;
      [|rewrite (bind_ok _ _ _ _ _ E); rewrite Es; reflexivity].
    simpl. right. exact H.
Qed.

(* ===================================================================== *)
(** * The round of an item whose external tab is created                  *)
(* ===================================================================== *)

Section Loaded.

Variable env : Env.
Variables (i : nat) (rawJob : RawJob) (popupData : PopupData) (tab : nat).

Hypothesis click_ok : item_click (env_item env i) = Resolved tt.
Hypothesis popup_ok : item_popup (env_item env i) = Resolved popupData.
Hypothesis url_ok : JsString.truthy (popup_viewFullPostUrl popupData) = true.

(** When the tab cannot be created, the item is counted as failed and
    the failure is broadcast; nothing is stored and no submission is
    attempted. *)
Lemma runQueueItem_create_fails w msg :
  isProcessing w = false ->
  item_tabCreate (env_item env i) = Rejected msg ->
  exists w',
    runQueueItem env i rawJob w = (Ok tt, w')
    /\ processedCount w' = processedCount w
    /\ failedCount w' = S (failedCount w)
    /\ scrapedJobs w' = scrapedJobs w
    /\ attempts w' = attempts w
    /\ In (EvStatus
             (TFailed (mkJobNum (i + 1) (length (queue w)))
                (raw_title rawJob)
                ("Failed to open/load external tab: " ++ msg))
             Serror (processedCount w) (S (failedCount w))
             (length (queue w)))
          (trace w').
Proof.
  intros Hfree Hl.
  set (jobNum := mkJobNum (i + 1) (length (queue w))).
  set (w1 := announced (TProcessing jobNum (raw_title rawJob)) Sinfo w).
  set (held := set_isProcessing true w1).
  set (m := "Failed to open/load external tab: " ++ msg).
  set (wt := set_isProcessing false
               (pushEvents (tl (openEvents env i jobNum popupData 0 held))
                  held)).
  assert (Ep : processSingleJob env rawJob (jobIdOf i rawJob) i jobNum w1
               = (Throw (JsError m), wt)).
  { rewrite (processSingleJob_free env rawJob _ i jobNum w1 Hfree).
    fold held.
    rewrite (bind_throw _ _ _ _ _
               (processJobFlow_create_fails env rawJob (jobIdOf i rawJob) i
                  jobNum click_ok popupData popup_ok url_ok held msg Hl)).
    reflexivity. }
  pose proof (run_awaiting (item_stopInFlight (env_item env i))
                (processSingleJob env rawJob (jobIdOf i rawJob) i jobNum) w1)
    as Ea.
  rewrite Ep in Ea. simpl fst in Ea. simpl snd in Ea.
  pose proof (runQueueItem_failed env i rawJob w _ m Ea) as Er.
  rewrite run_interItemDelay in Er.
  eexists. split; [exact Er|].
  match goal with
  | |- context [if ?c then _ else _] => destruct c
  end;
    destruct (item_stopInFlight (env_item env i));
    try destruct (item_stopInDelay (env_item env i));
    repeat split; try reflexivity; simpl; auto 12.
Qed.

Hypothesis tab_created : item_tabCreate (env_item env i) = Resolved tab.

(** When the load of the tab is rejected, the item is counted as failed
    and the failure is broadcast; nothing is stored and no submission is
    attempted. *)
Lemma runQueueItem_load_fails w msg :
  isProcessing w = false ->
  item_tabComplete (env_item env i) = Rejected msg ->
  exists w',
    runQueueItem env i rawJob w = (Ok tt, w')
    /\ processedCount w' = processedCount w
    /\ failedCount w' = S (failedCount w)
    /\ scrapedJobs w' = scrapedJobs w
    /\ attempts w' = attempts w
    /\ In (EvStatus
             (TFailed (mkJobNum (i + 1) (length (queue w)))
                (raw_title rawJob)
                ("Failed to open/load external tab: " ++ msg))
             Serror (processedCount w) (S (failedCount w))
             (length (queue w)))
          (trace w').
Proof.
  intros Hfree Hl.
  set (jobNum := mkJobNum (i + 1) (length (queue w))).
  set (w1 := announced (TProcessing jobNum (raw_title rawJob)) Sinfo w).
  set (held := set_isProcessing true w1).
  set (m := "Failed to open/load external tab: " ++ msg).
  set (wt := set_isProcessing false
               (set_openTabs (tab :: openTabs held)
                  (pushEvents (openEvents env i jobNum popupData tab held)
                     held))).
  assert (Ep : processSingleJob env rawJob (jobIdOf i rawJob) i jobNum w1
               = (Throw (JsError m), wt)).
  { rewrite (processSingleJob_free env rawJob _ i jobNum w1 Hfree).
    fold held.
    rewrite (bind_throw _ _ _ _ _
               (processJobFlow_load_fails env rawJob (jobIdOf i rawJob) i
                  jobNum popupData click_ok popup_ok url_ok tab tab_created
                  held msg Hl)).
    reflexivity. }
  pose proof (run_awaiting (item_stopInFlight (env_item env i))
                (processSingleJob env rawJob (jobIdOf i rawJob) i jobNum) w1)
    as Ea.
  rewrite Ep in Ea. simpl fst in Ea. simpl snd in Ea.
  pose proof (runQueueItem_failed env i rawJob w _ m Ea) as Er.
  rewrite run_interItemDelay in Er.
  eexists. split; [exact Er|].
  match goal with
  | |- context [if ?c then _ else _] => destruct c
  end;
    destruct (item_stopInFlight (env_item env i));
    try destruct (item_stopInDelay (env_item env i));
    repeat split; try reflexivity; simpl; auto 12.
Qed.

Hypothesis tab_loaded : item_tabComplete (env_item env i) = Resolved tt.

(** When the tab loads, the round returns with the item reported as
    [Done]; the count of attempts and the events of the flow are those
    the flow leaves. *)
Lemma runQueueItem_loaded w :
  isProcessing w = false ->
  let id := jobIdOf i rawJob in
  let jobNum := mkJobNum (i + 1) (length (queue w)) in
  exists w4 w',
    processJobFlow env rawJob id i jobNum
      (set_isProcessing true
         (announced (TProcessing jobNum (raw_title rawJob)) Sinfo w))
    = (Ok tt, w4)
    /\ runQueueItem env i rawJob w = (Ok tt, w')
    /\ attempts w' = attempts w4
    /\ (forall e, In e (trace w4) -> In e (trace w'))
    /\ In (EvStatus (TDone jobNum (raw_title rawJob)) Ssuccess
             (S (processedCount w)) (failedCount w) (length (queue w)))
          (trace w').
Proof.
  intros Hfree id jobNum.
  set (w1 := announced (TProcessing jobNum (raw_title rawJob)) Sinfo w).
  set (held := set_isProcessing true w1).
  set (body := (processJobFlow env rawJob id i jobNum ;;
                markAsProcessed id ;;
                updateStats StatSuccess (item_statsAt (env_item env i)))%js).
  destruct (processJobFlow_after_load env rawJob id i jobNum click_ok
              popupData popup_ok url_ok tab tab_created tab_loaded held)
    as (w4 & E4 & _).
  set (w5 := snd (updateStats StatSuccess (item_statsAt (env_item env i))
                    (snd (markAsProcessed id w4)))).
  assert (Ebody : body held = (Ok tt, w5)).
  { unfold body. rewrite (bind_ok _ _ _ _ _ E4). reflexivity. }
  pose proof (lockedBody_frame env i rawJob id jobNum held) as F.
  cbv zeta in F. fold body in F. rewrite Ebody in F. simpl snd in F.
  destruct F as ((Fq & _ & _ & Fc & Ff) & _).
  change (queue held) with (queue w) in Fq.
  change (processedCount held) with (processedCount w) in Fc.
  change (failedCount held) with (failedCount w) in Ff.
  pose proof (processSingleJob_free env rawJob id i jobNum w1 Hfree) as Ep.
  cbv zeta in Ep. fold body held in Ep. rewrite Ebody in Ep.
  simpl fst in Ep. simpl snd in Ep.
  pose proof (run_awaiting (item_stopInFlight (env_item env i))
                (processSingleJob env rawJob id i jobNum) w1) as Ea.
  rewrite Ep in Ea. simpl fst in Ea. simpl snd in Ea.
  pose proof (runQueueItem_ok env i rawJob w _ Ea) as Er.
  rewrite run_interItemDelay in Er.
  exists w4. eexists. split; [exact E4|]. split; [exact Er|].
  assert (T5 : trace w5 = trace w4) by reflexivity.
  assert (A5 : attempts w5 = attempts w4) by reflexivity.
  clearbody w5.
  match goal with
  | |- context [if ?c then _ else _] => destruct c
  end;
    destruct (item_stopInFlight (env_item env i));
    try destruct (item_stopInDelay (env_item env i));
    (split; [exact A5|]);
    (split; [intros e He; rewrite <- T5 in He; simpl; auto 12|]);
    simpl; rewrite Fq, Fc, Ff; auto 12.
Qed.

(** The flow of such an item runs to its end, from any world: the record
    is stored if the storage accepts it and is submitted. *)
Lemma processJobFlow_submits id jobNum h :
  let p := payloadOf env i rawJob id popupData in
  exists w4,
    processJobFlow env rawJob id i jobNum h = (Ok tt, w4)
    /\ (attempts h < attempts w4 <= attempts h + 3)%nat
    /\ scrapedJobs w4
       = (if storageAccepts (env_item env i)
          then Some (replaceById (storedJobs h) p)
          else scrapedJobs h)
    /\ In (EvLog INFO (LSending (jobId p) (title p))) (trace w4)
    /\ ((forall m, env_attempt env (attempts h) <> ConfigRejected m) ->
        In (EvRequest (RPostJob p (telegram_config h))) (trace w4)).
Proof.
  intros p.
  destruct (processJobFlow_after_load env rawJob id i jobNum click_ok
              popupData popup_ok url_ok tab tab_created tab_loaded h)
    as (w4 & E4 & Hx & J & _).
  destruct (processJobFlow_to_submission env rawJob id i jobNum popupData
              click_ok popup_ok url_ok tab tab_created tab_loaded h)
    as (w3 & E3 & A3 & C3 & _).
  fold p in E3, J.
  assert (W4 : w4 = snd (stepSendToAPI env p w3)).
  { rewrite <- E3, E4. reflexivity. }
  exists w4. split; [exact E4|]. split; [exact Hx|]. split; [exact J|].
  split.
  - rewrite W4. apply stepSendToAPI_trace. apply sendJobToAPI_announces.
  - intros Hc. rewrite W4. apply stepSendToAPI_trace.
    rewrite <- C3. apply sendJobToAPI_posts.
    intros m. rewrite A3. apply Hc.
Qed.

(** The round of such an item submits its record: between one and three
    attempts are made, the client names the record, and the request of
    the first attempt carries it unless the configuration cannot be
    read; the item is reported as [Done]. *)
Lemma runQueueItem_submits w :
  isProcessing w = false ->
  let id := jobIdOf i rawJob in
  let jobNum := mkJobNum (i + 1) (length (queue w)) in
  let p := payloadOf env i rawJob id popupData in
  exists w',
    runQueueItem env i rawJob w = (Ok tt, w')
    /\ (attempts w < attempts w' <= attempts w + 3)%nat
    /\ In (EvLog INFO (LSending (jobId p) (title p))) (trace w')
    /\ ((forall m, env_attempt env (attempts w) <> ConfigRejected m) ->
        In (EvRequest (RPostJob p (telegram_config w))) (trace w'))
    /\ In (EvStatus (TDone jobNum (raw_title rawJob)) Ssuccess
             (S (processedCount w)) (failedCount w) (length (queue w)))
          (trace w').
Proof.
  intros Hfree id jobNum p.
  destruct (runQueueItem_loaded w Hfree) as (w4 & w' & E4 & E & A & T & D).
  fold id jobNum in E4, D.
  set (held := set_isProcessing true
                 (announced (TProcessing jobNum (raw_title rawJob)) Sinfo w))
    in *.
  destruct (processJobFlow_after_load env rawJob id i jobNum click_ok
              popupData popup_ok url_ok tab tab_created tab_loaded held)
    as (x & Ex & Hx & _).
  rewrite E4 in Ex. injection Ex as <-.
  change (attempts held) with (attempts w) in Hx.
  destruct (processJobFlow_to_submission env rawJob id i jobNum popupData
              click_ok popup_ok url_ok tab tab_created tab_loaded held)
    as (w3 & E3 & A3 & C3 & _).
  fold p in E3.
  change (attempts held) with (attempts w) in A3.
  change (telegram_config held) with (telegram_config w) in C3.
  assert (W4 : w4 = snd (stepSendToAPI env p w3)).
  { rewrite <- E3, E4. reflexivity. }
  exists w'. split; [exact E|]. split; [rewrite A; exact Hx|].
  split; [|split; [|exact D]].
  - apply T. rewrite W4. apply stepSendToAPI_trace.
    apply sendJobToAPI_announces.
  - intros Hc. apply T. rewrite W4. apply stepSendToAPI_trace.
    rewrite <- C3. apply sendJobToAPI_posts.
    intros m. rewrite A3. apply Hc.
Qed.

End Loaded.

(* ===================================================================== *)
(** * Degraded extraction and failed submission                           *)
(* ===================================================================== *)

(** C5 as stated fails: when the three attempts are exhausted, no status of
    level [error] or [warn] is broadcast; the statuses of the round end
    with [Done], and the item is counted as processed. *)
Lemma exhausted_submission_is_not_broadcast :
  let env := Sample.env Sample.allOk Sample.backendDown in
  let w' := snd (runQueueItem env 0 Sample.job1
                   (Sample.running [Sample.job1; Sample.job2])) in
  attempts w' = 3%nat
  /\ In (EvLog ERROR
           (LSendFailed (jobIdOf 0 Sample.job1) "API error 503: unavailable"))
        (trace w')
  /\ existsb isProblemStatus (trace w') = false
  /\ statusesOf (trace w')
     = [(TProcessing (mkJobNum 1 2) "Backend Engineer", Sinfo);
        (TSimulating (mkJobNum 1 2), Sinfo);
        (TOpening (mkJobNum 1 2) "linkedin", Sinfo);
        (TExtractingEmail (mkJobNum 1 2), Sinfo);
        (TDone (mkJobNum 1 2) "Backend Engineer", Ssuccess);
        (TWaiting 5, Sinfo)]
  /\ processedCount w' = 1%nat
  /\ failedCount w' = 0%nat.
Proof.
  intros env w'.
  split; [vm_compute; reflexivity|].
  split; [vm_compute; tauto|].
  split; [vm_compute; reflexivity|].
  split; [vm_compute; reflexivity|].
  split; vm_compute; reflexivity.
Qed.

(** C5, amended.  When the three submission attempts of an item fail,
    [sendJobToAPI] returns a failure result with the last error instead of
    throwing; the merged record is in local storage when the submission
    starts and is still there when the round ends, provided the storage
    accepted it; no status of level [error] or [warn] is broadcast, the
    item is reported as [Done] on the status channel and counted as
    processed; and the loop goes on with the next index. *)
Theorem exhausted_submission_is_not_fatal
    (env : Env) (i : nat) (rawJob : RawJob) (popupData : PopupData)
    (tab : nat) (w : World) (m1 m2 m3 : string) :
  nth_error (queue w) i = Some rawJob ->
  stopRequested w = false ->
  isProcessing w = false ->
  item_click (env_item env i) = Resolved tt ->
  item_popup (env_item env i) = Resolved popupData ->
  JsString.truthy (popup_viewFullPostUrl popupData) = true ->
  item_tabCreate (env_item env i) = Resolved tab ->
  item_tabComplete (env_item env i) = Resolved tt ->
  item_storageGet (env_item env i) = Resolved tt ->
  item_storageSet (env_item env i) = Resolved tt ->
  attemptError (env_attempt env (attempts w)) = Some m1 ->
  attemptError (env_attempt env (S (attempts w))) = Some m2 ->
  attemptError (env_attempt env (S (S (attempts w)))) = Some m3 ->
  let id := jobIdOf i rawJob in
  let jobNum := mkJobNum (i + 1) (length (queue w)) in
  let p := payloadOf env i rawJob id popupData in
  let held :=
    set_isProcessing true
      (announced (TProcessing jobNum (raw_title rawJob)) Sinfo w) in
  exists w3 ws w',
    processJobFlow env rawJob id i jobNum held = stepSendToAPI env p w3
    /\ scrapedJobs w3 = Some (replaceById (storedJobs w) p)
    /\ sendJobToAPI env p w3 = (Ok (mkApiResult false EmptyString m3), ws)
    /\ attempts ws = S (S (S (attempts w)))
    /\ runQueueItem env i rawJob w = (Ok tt, w')
    /\ scrapedJobs w' = Some (replaceById (storedJobs w) p)
    /\ processedCount w' = S (processedCount w)
    /\ failedCount w' = failedCount w
    /\ extendsBy quiet w w'
    /\ In (EvStatus (TDone jobNum (raw_title rawJob)) Ssuccess
             (S (processedCount w)) (failedCount w) (length (queue w)))
          (trace w')
    /\ forall fuel,
         runQueueLoop env (S fuel) i w = runQueueLoop env fuel (S i) w'.
Proof.
  intros Hn Hs Hp Hc Hd Hu Ht Hl Hg Hset F1 F2 F3 id jobNum p held.
  destruct (processJobFlow_to_submission env rawJob id i jobNum popupData
              Hc Hd Hu tab Ht Hl held) as (w3 & E3 & A3 & _ & J3).
  specialize (J3 Hg Hset).
  assert (F1' : attemptError (env_attempt env (attempts w3)) = Some m1)
    by (rewrite A3; exact F1).
  assert (F2' : attemptError (env_attempt env (S (attempts w3))) = Some m2)
    by (rewrite A3; exact F2).
  assert (F3' : attemptError (env_attempt env (S (S (attempts w3)))) = Some m3)
    by (rewrite A3; exact F3).
  destruct (sendJobToAPI_exhausted env p w3 m1 m2 m3 F1' F2' F3')
    as (ws & Es & As & _ & _).
  destruct (runQueueItem_succeeds env i rawJob popupData tab Hc Hd Hu Ht Hl
              w Hp) as (w' & E & _ & _ & _ & Fc & Ff & _ & X & J).
  destruct (runQueueItem_loaded env i rawJob popupData tab Hc Hd Hu Ht Hl
              w Hp) as (_ & w'' & _ & E' & _ & _ & D).
  rewrite E in E'. injection E' as <-.
  exists w3, ws, w'.
  split; [exact E3|]. split; [exact J3|]. split; [exact Es|].
  split; [rewrite As, A3; reflexivity|].
  split; [exact E|]. split; [exact (J Hg Hset)|].
  split; [exact Fc|]. split; [exact Ff|]. split; [exact X|].
  split; [exact D|].
  intros fuel. now apply runQueueLoop_next with (rawJob := rawJob).
Qed.

Lemma exhausted_submission_is_not_fatal_witness :
  let env := Sample.env Sample.allOk Sample.backendDown in
  let w := Sample.running [Sample.job1; Sample.job2] in
  let p := payloadOf env 0 Sample.job1 (jobIdOf 0 Sample.job1)
             (Sample.popup Sample.jobUrl) in
  attemptError (env_attempt env 2) = Some "API error 503: unavailable"
  /\ exists w3 ws w',
       scrapedJobs w3 = Some [p]
       /\ sendJobToAPI env p w3
          = (Ok (mkApiResult false EmptyString "API error 503: unavailable"),
             ws)
       /\ runQueueItem env 0 Sample.job1 w = (Ok tt, w')
       /\ scrapedJobs w' = Some [p]
       /\ processedCount w' = 1%nat
       /\ In (EvStatus (TDone (mkJobNum 1 2) "Backend Engineer") Ssuccess
                1 0 2) (trace w')
       /\ runQueueLoop env 2 0 w = runQueueLoop env 1 1 w'.
Proof.
  intros env w p.
  split; [reflexivity|].
  destruct (exhausted_submission_is_not_fatal env 0 Sample.job1
              (Sample.popup Sample.jobUrl) 42%nat w
              "API error 503: unavailable" "API error 503: unavailable"
              "API error 503: unavailable"
              eq_refl eq_refl eq_refl eq_refl eq_refl eq_refl eq_refl eq_refl
              eq_refl eq_refl eq_refl eq_refl eq_refl)
    as (w3 & ws & w' & _ & J3 & Es & _ & E & J & Hc & _ & _ & D & Hl).
  exists w3, ws, w'.
  split; [exact J3|]. split; [exact Es|]. split; [exact E|].
  split; [exact J|]. split; [exact Hc|]. split; [exact D | exact (Hl 1%nat)].
Defined.

(** C7 as stated fails, in two ways.  When the scraper fails, the contact
    address of the record is the text [not-provided], not the empty
    string.  And when the external page does not finish loading within its
    budget, the item does not complete: it is counted as failed, its
    failure is broadcast, and nothing is stored or posted. *)
Lemma degraded_claim_fails_on_email_and_timeout :
  (let env := Sample.env (fun _ => Sample.itemScrapeFails) Sample.backendUp in
   let w' := snd (runQueue env (Sample.running [Sample.job1])) in
   exists p,
     scrapedJobs w' = Some [p]
     /\ In (EvRequest (RPostJob p None)) (trace w')
     /\ fullDescription p = EmptyString
     /\ applyEmail p = "not-provided"
     /\ applyEmail p <> EmptyString)
  /\ (let env := Sample.env (fun _ => Sample.itemLoadTimeout)
                   Sample.backendUp in
      let w' := snd (runQueue env (Sample.running [Sample.job1])) in
      item_tabComplete (env_item env 0)
      = Rejected "Timeout waiting for tab 42 to complete"
      /\ processedCount w' = 0%nat
      /\ failedCount w' = 1%nat
      /\ scrapedJobs w' = None
      /\ attempts w' = 0%nat
      /\ existsb isPostJob (trace w') = false
      /\ In (TFailed (mkJobNum 1 1) "Backend Engineer"
               ("Failed to open/load external tab: "
                ++ "Timeout waiting for tab 42 to complete"),
             Serror)
            (statusesOf (trace w'))).
Proof.
  split.
  - intros env w'.
    exists (payloadOf env 0 Sample.job1 (jobIdOf 0 Sample.job1)
              (Sample.popup Sample.jobUrl)).
    split; [vm_compute; reflexivity|].
    split; [vm_compute; tauto|].
    split; [reflexivity|]. split; [reflexivity|].
    vm_compute. discriminate.
  - intros env w'.
    split; [reflexivity|].
    split; [vm_compute; reflexivity|].
    split; [vm_compute; reflexivity|].
    split; [vm_compute; reflexivity|].
    split; [vm_compute; reflexivity|].
    split; [vm_compute; reflexivity|].
    vm_compute. tauto.
Qed.

(** C7, amended.  When the external tab is created and loads, and the
    scraper then fails or returns nothing, the item still completes: the
    merged record has an empty full description, location and experience,
    and [not-provided] as contact address; the flow reaches the submission
    with this record, which is in local storage by then if the storage
    accepted it; the round submits the record (between one and three
    attempts are made, the client names the record, and the request of the
    first attempt carries it unless the configuration cannot be read),
    counts the item as processed, reports it as [Done] and broadcasts no
    error or warning.  When the tab cannot be created, or its load is
    rejected, as it is when it times out, the failure is not degraded: the
    item is counted as failed, the failure is broadcast, and nothing is
    stored or submitted. *)
Theorem degraded_extraction_still_submits
    (env : Env) (i : nat) (rawJob : RawJob) (popupData : PopupData)
    (w : World) :
  isProcessing w = false ->
  item_click (env_item env i) = Resolved tt ->
  item_popup (env_item env i) = Resolved popupData ->
  JsString.truthy (popup_viewFullPostUrl popupData) = true ->
  let id := jobIdOf i rawJob in
  let jobNum := mkJobNum (i + 1) (length (queue w)) in
  let p := payloadOf env i rawJob id popupData in
  (forall tab,
     item_tabCreate (env_item env i) = Resolved tab ->
     item_tabComplete (env_item env i) = Resolved tt ->
     (item_scrape (env_item env i) = Resolved None
      \/ exists msg, item_scrape (env_item env i) = Rejected msg) ->
     (fullDescription p = EmptyString
      /\ location p = EmptyString
      /\ experience p = EmptyString
      /\ applyEmail p = "not-provided")
     /\ (forall num w0,
            exists w3,
              processJobFlow env rawJob id i num w0 = stepSendToAPI env p w3
              /\ (item_storageGet (env_item env i) = Resolved tt ->
                  item_storageSet (env_item env i) = Resolved tt ->
                  scrapedJobs w3 = Some (replaceById (storedJobs w0) p)))
     /\ exists w',
          runQueueItem env i rawJob w = (Ok tt, w')
          /\ processedCount w' = S (processedCount w)
          /\ failedCount w' = failedCount w
          /\ extendsBy quiet w w'
          /\ (item_storageGet (env_item env i) = Resolved tt ->
              item_storageSet (env_item env i) = Resolved tt ->
              scrapedJobs w' = Some (replaceById (storedJobs w) p))
          /\ (attempts w < attempts w' <= attempts w + 3)%nat
          /\ In (EvLog INFO (LSending (jobId p) (title p))) (trace w')
          /\ ((forall m, env_attempt env (attempts w) <> ConfigRejected m) ->
              In (EvRequest (RPostJob p (telegram_config w))) (trace w'))
          /\ In (EvStatus (TDone jobNum (raw_title rawJob)) Ssuccess
                   (S (processedCount w)) (failedCount w) (length (queue w)))
                (trace w'))
  /\ (forall msg,
        (item_tabCreate (env_item env i) = Rejected msg
         \/ exists tab,
              item_tabCreate (env_item env i) = Resolved tab
              /\ item_tabComplete (env_item env i) = Rejected msg) ->
        exists w',
          runQueueItem env i rawJob w = (Ok tt, w')
          /\ processedCount w' = processedCount w
          /\ failedCount w' = S (failedCount w)
          /\ scrapedJobs w' = scrapedJobs w
          /\ attempts w' = attempts w
          /\ In (EvStatus
                   (TFailed jobNum (raw_title rawJob)
                      ("Failed to open/load external tab: " ++ msg))
                   Serror (processedCount w) (S (failedCount w))
                   (length (queue w)))
                (trace w')).
Proof.
  intros Hp Hc Hd Hu id jobNum p.
  split.
  - intros tab Ht Hl Hs. split; [|split].
    + unfold p, payloadOf.
      destruct Hs as [-> | [msg ->]]; repeat split.
    + intros num w0.
      destruct (processJobFlow_to_submission env rawJob id i num popupData
                  Hc Hd Hu tab Ht Hl w0) as (w3 & E & _ & _ & J).
      now exists w3.
    + destruct (runQueueItem_succeeds env i rawJob popupData tab Hc Hd Hu Ht
                  Hl w Hp) as (w' & E & _ & _ & _ & Fc & Ff & _ & X & J).
      destruct (runQueueItem_submits env i rawJob popupData tab Hc Hd Hu Ht
                  Hl w Hp) as (w'' & E' & A & L & P & D).
      rewrite E in E'. injection E' as <-.
      exists w'. repeat split; try assumption; apply A.
  - intros msg [Ht | (tab & Ht & Hl)].
    + exact (runQueueItem_create_fails env i rawJob popupData Hc Hd Hu
               w msg Hp Ht).
    + exact (runQueueItem_load_fails env i rawJob popupData tab Hc Hd Hu Ht
               w msg Hp Hl).
Qed.

(** The scraper is refused by the page; and the page does not finish
    loading. *)
Lemma degraded_extraction_still_submits_witness :
  let env := Sample.env (fun _ => Sample.itemScrapeFails) Sample.backendUp in
  let env' := Sample.env (fun _ => Sample.itemLoadTimeout) Sample.backendUp in
  let w := Sample.running [Sample.job1] in
  let p := payloadOf env 0 Sample.job1 (jobIdOf 0 Sample.job1)
             (Sample.popup Sample.jobUrl) in
  (exists msg, item_scrape (env_item env 0) = Rejected msg)
  /\ applyEmail p = "not-provided"
  /\ (exists w',
        runQueueItem env 0 Sample.job1 w = (Ok tt, w')
        /\ processedCount w' = 1%nat
        /\ scrapedJobs w' = Some [p]
        /\ (0 < attempts w' <= 3)%nat
        /\ In (EvRequest (RPostJob p None)) (trace w'))
  /\ (exists w',
        runQueueItem env' 0 Sample.job1 w = (Ok tt, w')
        /\ failedCount w' = 1%nat
        /\ scrapedJobs w' = None
        /\ attempts w' = 0%nat).
Proof.
  intros env env' w p.
  assert (Hs : exists msg, item_scrape (env_item env 0) = Rejected msg)
    by (eexists; reflexivity).
  split; [exact Hs|].
  destruct (degraded_extraction_still_submits env 0 Sample.job1
              (Sample.popup Sample.jobUrl) w
              eq_refl eq_refl eq_refl eq_refl) as [H _].
  destruct (H 42%nat eq_refl eq_refl (or_intror Hs))
    as ((_ & _ & _ & Ha) & _ & (w' & E & Hc & _ & _ & J & A & _ & P & _)).
  split; [exact Ha|]. split.
  - exists w'. split; [exact E|]. split; [exact Hc|].
    split; [exact (J eq_refl eq_refl)|]. split; [exact A|].
    apply P. intros m. discriminate.
  - destruct (degraded_extraction_still_submits env' 0 Sample.job1
                (Sample.popup Sample.jobUrl) w
                eq_refl eq_refl eq_refl eq_refl) as [_ H'].
    destruct (H' "Timeout waiting for tab 42 to complete"
                (or_intror (ex_intro _ 42%nat (conj eq_refl eq_refl))))
      as (w2 & E2 & _ & Hf & Hj & Ha' & _).
    exists w2. repeat split; assumption.
Defined.

(* ===================================================================== *)
(** * The end-to-end scenario when the second phase fails                 *)
(* ===================================================================== *)

(** C6, at the failing input.  Two items are queued; the first resolves a
    target URL and succeeds end to end, the detail data of the second has
    no target URL.  The first phase goes as expected: the second
    item fails with the missing-URL error, one item is counted as
    processed and one as failed, and the record of the first item is the
    one record in local storage.  In the second phase the reload of the
    builder page is rejected: [runQueue] throws, [finishQueue] is not
    reached, the queue still holds both items and the run flag stays up,
    so that every later start command is ignored. *)
Theorem missing_url_run_left_open_by_rejected_reload :
  let w := Sample.running [Sample.job1; Sample.job2] in
  let r := runQueue ReloadRejected.env w in
  popup_viewFullPostUrl (Sample.popup EmptyString) = EmptyString
  /\ item_popup (env_item ReloadRejected.env 1) = Resolved (Sample.popup EmptyString)
  /\ In (TFailed (mkJobNum 2 2) "QA Analyst" noViewUrlMessage, Serror)
        (statusesOf (trace (snd r)))
  /\ processedCount (snd r) = 1%nat
  /\ failedCount (snd r) = 1%nat
  /\ storedJobs (snd r) = [ReloadRejected.fresh]
  /\ fst r = Throw (JsError "No tab with id: 7.")
  /\ queue (snd r) = [Sample.job1; Sample.job2]
  /\ isRunning (snd r) = true
  /\ existsb (fun e => match e with
                       | EvLog _ LShutDown => true
                       | _ => false
                       end) (trace (snd r)) = false
  /\ forall env' options',
       handleStartQueue env' options' (snd r)
       = (Ok tt, pushEvents [EvLog WARN LAlreadyRunning] (snd r)).
Proof.
  intros w r.
  split; [reflexivity|]. split; [reflexivity|].
  split; [vm_compute; tauto|].
  split; [vm_compute; reflexivity|].
  split; [vm_compute; reflexivity|].
  split; [vm_compute; reflexivity|].
  split; [vm_compute; reflexivity|].
  split; [vm_compute; reflexivity|].
  assert (R : isRunning (snd r) = true) by (vm_compute; reflexivity).
  split; [exact R|].
  split; [vm_compute; reflexivity|].
  intros env' options'. unfold handleStartQueue.
  unfold bind at 1, gets. now rewrite R.
Qed.

(* ===================================================================== *)
(** * What the functions of the worker neither read nor write             *)
(* ===================================================================== *)

Section CommuteRules.

Variable g : World -> World.

Lemma comm_ret {A} (a : A) : commutesWith g (ret a).
Proof. intros w. reflexivity. Qed.

Lemma comm_throw {A} e : commutesWith g (@throw A e).
Proof. intros w. reflexivity. Qed.

Lemma comm_await {A} (r : Reply A) : commutesWith g (await r).
Proof. intros w. destruct r; reflexivity. Qed.

Lemma comm_errMessage e : commutesWith g (errMessage e).
Proof. intros w. destruct e; reflexivity. Qed.

Lemma comm_gets {A} (f : World -> A) :
  (forall w, f (g w) = f w) -> commutesWith g (gets f).
Proof. intros H w. unfold gets. now rewrite H. Qed.

Lemma comm_modify (h : World -> World) :
  (forall w, h (g w) = g (h w)) -> commutesWith g (modify h).
Proof. intros H w. unfold modify. now rewrite H. Qed.

Lemma comm_bind {A B} (m : M A) (k : A -> M B) :
  commutesWith g m -> (forall a, commutesWith g (k a)) ->
  commutesWith g (bind m k).
Proof.
  intros Hm Hk w. unfold bind. rewrite (Hm w).
  destruct (m w) as [[a|e] w']; simpl; [apply Hk | reflexivity].
Qed.

Lemma comm_tryCatch {A} (m : M A) (h : Exn -> M A) :
  commutesWith g m -> (forall e, commutesWith g (h e)) ->
  commutesWith g (tryCatch m h).
Proof.
  intros Hm Hh w. unfold tryCatch. rewrite (Hm w).
  destruct (m w) as [[a|e] w']; simpl; [reflexivity | apply Hh].
Qed.

Lemma comm_tryFinally {A} (m : M A) (f : M unit) :
  commutesWith g m -> commutesWith g f -> commutesWith g (tryFinally m f).
Proof.
  intros Hm Hf w. unfold tryFinally. rewrite (Hm w).
  destruct (m w) as [r w']; simpl. rewrite (Hf w').
  destruct (f w') as [[u|e] w'']; reflexivity.
Qed.

(** A computation that runs as another one does. *)
Lemma comm_same {A} (m m' : M A) :
  (forall w, m w = m' w) -> commutesWith g m' -> commutesWith g m.
Proof. intros E H w. now rewrite !E. Qed.

End CommuteRules.

(** One step of a derivation of [commutesWith]. *)
Ltac comm_step :=
  lazymatch goal with
  | |- commutesWith _ (ret _) => apply comm_ret
  | |- commutesWith _ (throw _) => apply comm_throw
  | |- commutesWith _ (await _) => apply comm_await
  | |- commutesWith _ (errMessage _) => apply comm_errMessage
  | |- commutesWith _ (gets _) => apply comm_gets
  | |- commutesWith _ (modify _) => apply comm_modify
  | |- commutesWith _ (bind _ _) => apply comm_bind; [|intros ?]
  | |- commutesWith _ (tryCatch _ _) => apply comm_tryCatch; [|intros ?]
  | |- commutesWith _ (tryFinally _ _) => apply comm_tryFinally
  | |- commutesWith _ (match ?x with _ => _ end) => destruct x
  | |- commutesWith _ (if ?x then _ else _) => destruct x
  end.

Create HintDb comm discriminated.

Ltac comm_auto :=
  repeat first
    [ solve [eauto 2 with comm nocore]
    | comm_step ].

Section Commute.

Variable env : Env.
Variable g : World -> World.

(** [g] keeps the trace and passes through its setter. *)
Hypothesis g_trace : forall w, trace (g w) = trace w.
Hypothesis g_set_trace : forall v w, g (set_trace v w) = set_trace v (g w).

Lemma comm_emit e : commutesWith g (emit e).
Proof.
  unfold emit. apply comm_modify. intros w.
  now rewrite g_trace, g_set_trace.
Qed.
Local Hint Resolve comm_emit : comm.

Lemma comm_log level text : commutesWith g (log level text).
Proof. unfold log. destruct (_ <? _)%nat; comm_auto. Qed.
Local Hint Resolve comm_log : comm.

Lemma comm_sleep ms : commutesWith g (sleep ms).
Proof. unfold sleep. comm_auto. Qed.
Local Hint Resolve comm_sleep : comm.

Lemma comm_waitForTabComplete tab reply :
  commutesWith g (waitForTabComplete tab reply).
Proof. unfold waitForTabComplete. comm_auto. Qed.
Local Hint Resolve comm_waitForTabComplete : comm.

Lemma comm_retryLoop {A} (fn : M A) maxRetries baseDelayMs :
  commutesWith g fn ->
  forall remaining attempt lastError,
    commutesWith g
      (retryLoop fn maxRetries baseDelayMs remaining attempt lastError).
Proof.
  intros Hfn. induction remaining as [|r IH]; intros attempt lastError;
    simpl; [comm_auto|].
  apply comm_tryCatch; [exact Hfn|]. intros err.
  apply comm_bind; [comm_auto|]. intros m.
  apply comm_bind; [comm_auto|]. intros _.
  apply comm_bind; [comm_auto|]. intros _. apply IH.
Qed.

(** [g] keeps the counters and the queue, which every status carries. *)
Hypothesis g_processedCount : forall w, processedCount (g w) = processedCount w.
Hypothesis g_failedCount : forall w, failedCount (g w) = failedCount w.
Hypothesis g_queue : forall w, queue (g w) = queue w.

Lemma comm_broadcastStatus message level :
  commutesWith g (broadcastStatus message level).
Proof.
  intros w. rewrite !run_broadcastStatus. simpl. f_equal.
  unfold announced, pushEvents.
  now rewrite g_processedCount, g_failedCount, g_queue, g_trace,
    g_set_trace.
Qed.
Local Hint Resolve comm_broadcastStatus : comm.

(** [g] keeps the dashboard tab. *)
Hypothesis g_dashboardTabId : forall w, dashboardTabId (g w) = dashboardTabId w.
Local Hint Resolve g_dashboardTabId : comm.

Lemma comm_getPopupData rowIndex : commutesWith g (getPopupData env rowIndex).
Proof. unfold getPopupData. comm_auto. Qed.

Lemma comm_getEmailData rowIndex : commutesWith g (getEmailData env rowIndex).
Proof. unfold getEmailData. comm_auto. Qed.
Local Hint Resolve comm_getPopupData comm_getEmailData : comm.

Lemma comm_stepSimulateClick rowIndex jobNum :
  commutesWith g (stepSimulateClick env rowIndex jobNum).
Proof. unfold stepSimulateClick. comm_auto. Qed.

Lemma comm_stepPopupData rowIndex jobNum :
  commutesWith g (stepPopupData env rowIndex jobNum).
Proof. unfold stepPopupData. comm_auto. Qed.

Lemma comm_stepEmail rowIndex jobNum :
  commutesWith g (stepEmail env rowIndex jobNum).
Proof. unfold stepEmail. comm_auto. Qed.
Local Hint Resolve comm_stepSimulateClick comm_stepPopupData
  comm_stepEmail : comm.

(** [g] keeps the count of attempts and the configuration, and passes
    through the setter of the count. *)
Hypothesis g_attempts : forall w, attempts (g w) = attempts w.
Hypothesis g_telegram : forall w, telegram_config (g w) = telegram_config w.
Hypothesis g_set_attempts :
  forall v w, g (set_attempts v w) = set_attempts v (g w).

Lemma comm_postJob jobData : commutesWith g (postJob env jobData).
Proof.
  apply (comm_same g _
           (n <- gets attempts ;;
            cfg <- gets telegram_config ;;
            modify (set_attempts (S n)) ;;
            match env_attempt env n with
            | ConfigRejected m => throw (JsError m)
            | FetchRejected m =>
                emit (EvRequest (RPostJob jobData cfg)) ;;
                throw (JsError m)
            | Response ok status body =>
                emit (EvRequest (RPostJob jobData cfg)) ;;
                if ok then ret body
                else throw (JsError ("API error " ++ JsString.ofNat status
                                     ++ ": " ++ body))
            end)%js).
  - intros w. unfold postJob.
    destruct (env_attempt env (attempts w)) as [m|m|[|] status body] eqn:E;
      unfold bind, gets, modify; simpl; rewrite E; reflexivity.
  - apply comm_bind; [apply comm_gets, g_attempts|]. intros n.
    apply comm_bind; [apply comm_gets, g_telegram|]. intros cfg.
    apply comm_bind.
    + apply comm_modify. intros w. symmetry. apply g_set_attempts.
    + intros _. comm_auto.
Qed.

Lemma comm_sendJobToAPI jobData : commutesWith g (sendJobToAPI env jobData).
Proof.
  unfold sendJobToAPI, retry.
  apply comm_bind; [comm_auto|]. intros _.
  apply comm_tryCatch.
  - apply comm_bind; [apply comm_retryLoop, comm_postJob|].
    intros r. comm_auto.
  - intros e. comm_auto.
Qed.
Local Hint Resolve comm_sendJobToAPI : comm.

Lemma comm_stepSendToAPI jobPayload :
  commutesWith g (stepSendToAPI env jobPayload).
Proof. unfold stepSendToAPI. comm_auto. Qed.
Local Hint Resolve comm_stepSendToAPI : comm.

(** [g] keeps the open tabs and the stored records, and passes through
    their setters. *)
Hypothesis g_openTabs : forall w, openTabs (g w) = openTabs w.
Hypothesis g_set_openTabs :
  forall v w, g (set_openTabs v w) = set_openTabs v (g w).
Hypothesis g_scrapedJobs : forall w, scrapedJobs (g w) = scrapedJobs w.
Hypothesis g_set_scrapedJobs :
  forall v w, g (set_scrapedJobs v w) = set_scrapedJobs v (g w).
Local Hint Resolve g_scrapedJobs : comm.

Lemma comm_stepOpenTab rowIndex viewUrl :
  commutesWith g (stepOpenTab env rowIndex viewUrl).
Proof.
  unfold stepOpenTab. comm_auto.
  intros w. now rewrite g_openTabs, g_set_openTabs.
Qed.

Lemma comm_stepScrape rowIndex jobNum tab :
  commutesWith g (stepScrape env rowIndex jobNum tab).
Proof.
  unfold stepScrape. comm_auto;
    intros w; now rewrite g_openTabs, g_set_openTabs.
Qed.

Lemma comm_stepSaveLocal rowIndex jobNum jobPayload :
  commutesWith g (stepSaveLocal env rowIndex jobNum jobPayload).
Proof.
  unfold stepSaveLocal. comm_auto.
  intros w. symmetry. apply g_set_scrapedJobs.
Qed.
Local Hint Resolve comm_stepOpenTab comm_stepScrape comm_stepSaveLocal
  : comm.

Lemma comm_processJobFlow rawJob id rowIndex jobNum :
  commutesWith g (processJobFlow env rawJob id rowIndex jobNum).
Proof. unfold processJobFlow. comm_auto. Qed.
Local Hint Resolve comm_processJobFlow : comm.

(** [g] keeps the processed ids and the statistics, and passes through
    their setters. *)
Hypothesis g_processedIds : forall w, processedIds (g w) = processedIds w.
Hypothesis g_set_processedIds :
  forall v w, g (set_processedIds v w) = set_processedIds v (g w).
Hypothesis g_stats : forall w, stats (g w) = stats w.
Hypothesis g_set_stats : forall v w, g (set_stats v w) = set_stats v (g w).

Lemma comm_markAsProcessed id : commutesWith g (markAsProcessed id).
Proof.
  unfold markAsProcessed. apply comm_modify. intros w. cbv zeta.
  now rewrite g_processedIds, g_set_processedIds.
Qed.

Lemma comm_updateStats type now : commutesWith g (updateStats type now).
Proof.
  unfold updateStats. apply comm_modify. intros w. cbv zeta.
  now rewrite g_stats, g_set_stats.
Qed.
Local Hint Resolve comm_markAsProcessed comm_updateStats : comm.

(** The body guarded by the lock. *)
Lemma comm_lockedBody rawJob id rowIndex jobNum :
  commutesWith g
    (processJobFlow env rawJob id rowIndex jobNum ;;
     markAsProcessed id ;;
     updateStats StatSuccess (item_statsAt (env_item env rowIndex)))%js.
Proof. comm_auto. Qed.

(** [g] keeps the lock and passes through its setter. *)
Hypothesis g_isProcessing : forall w, isProcessing (g w) = isProcessing w.
Hypothesis g_set_isProcessing :
  forall v w, g (set_isProcessing v w) = set_isProcessing v (g w).

Lemma comm_processSingleJob rawJob id rowIndex jobNum :
  commutesWith g (processSingleJob env rawJob id rowIndex jobNum).
Proof.
  unfold processSingleJob.
  apply comm_bind; [apply comm_gets, g_isProcessing|]. intros [|];
    [comm_auto|].
  apply comm_bind.
  { apply comm_modify. intros w. symmetry. apply g_set_isProcessing. }
  intros _. apply comm_tryFinally; [apply comm_lockedBody|].
  apply comm_modify. intros w. symmetry. apply g_set_isProcessing.
Qed.

End Commute.

(* ===================================================================== *)
(** * A stop command while an item is in flight                           *)
(* ===================================================================== *)

(** The round of the item in flight and the rest of the run. *)
Lemma run_after_stop_in_flight
    (env : Env) (i : nat) (rawJob : RawJob) (w : World) (fuel : nat) :
  nth_error (queue w) i = Some rawJob ->
  stopRequested w = false ->
  item_stopInFlight (env_item env i) = true ->
  exists w1 w',
    runQueueItem env i rawJob w = (Ok tt, w1)
    /\ (processedCount w1 + failedCount w1
        = S (processedCount w + failedCount w))%nat
    /\ endsWithItemStatus w1
    /\ (runQueueLoop env (S fuel) i ;; runQueueEpilogue env)%js w = (Ok tt, w')
    /\ extendsBy (fun e => negb (resumesWork e)) w1 w'
    /\ processedCount w' = processedCount w1
    /\ failedCount w' = failedCount w1
    /\ isRunning w' = false.
Proof.
  intros Hn Hs Hf.
  destruct (runQueueItem_stop_in_flight env i rawJob w Hf)
    as (w1 & Er & Hc & Hs1 & Hq & He).
  set (calm := fun e => negb (resumesWork e)).
  assert (Hl : exists wl,
             runQueueLoop env (S fuel) i w = (Ok tt, wl)
             /\ stopRequested wl = true
             /\ processedCount wl = processedCount w1
             /\ failedCount wl = failedCount w1
             /\ extendsBy calm w1 wl).
  { rewrite (runQueueLoop_next env fuel i rawJob w w1 Hn Hs Er).
    destruct fuel as [|fuel'].
    - exists w1. repeat split; [exact Hs1 | apply extendsBy_refl].
    - destruct (Nat.lt_ge_cases (S i) (length (queue w1))) as [Hlt|Hge].
      + rewrite (runQueueLoop_stopped env fuel' (S i) w1 Hlt Hs1).
        exists (announced TStopped Swarn w1).
        repeat split; [exact Hs1|].
        now apply extendsBy_pushEvents.
      + rewrite (runQueueLoop_done env (S fuel') (S i) w1 Hge).
        exists w1. repeat split; [exact Hs1 | apply extendsBy_refl]. }
  destruct Hl as (wl & El & Hsl & Hcl & Hfl & Xl).
  set (ws := announced (TPhase1Complete (processedCount wl) (failedCount wl))
               Ssuccess wl).
  exists w1, (finished ws).
  split; [exact Er|]. split; [exact Hc|]. split; [exact He|].
  split.
  { rewrite (bind_ok _ _ _ _ _ El). now apply runQueueEpilogue_stopped. }
  destruct (finished_counters ws) as (Fc & Ff & _ & Fr & _).
  split.
  { apply (extendsBy_trans calm w1 wl _ Xl).
    apply (extendsBy_trans calm wl ws).
    - now apply extendsBy_pushEvents.
    - apply finished_calm. }
  split; [rewrite Fc; exact Hcl|]. split; [rewrite Ff; exact Hfl | exact Fr].
Qed.


Section StopInFlight.

Variable env : Env.
Variables (i : nat) (rawJob : RawJob) (id : string) (jobNum : JobNum).

(** The routine of an item neither reads nor writes the stop flag. *)
Lemma processSingleJob_ignores_stop b :
  commutesWith (set_stopRequested b)
    (processSingleJob env rawJob id i jobNum).
Proof. apply comm_processSingleJob; intros; reflexivity. Qed.

Variables (popupData : PopupData) (tab : nat).

Hypothesis click_ok : item_click (env_item env i) = Resolved tt.
Hypothesis popup_ok : item_popup (env_item env i) = Resolved popupData.
Hypothesis url_ok : JsString.truthy (popup_viewFullPostUrl popupData) = true.
Hypothesis tab_created : item_tabCreate (env_item env i) = Resolved tab.
Hypothesis tab_loaded : item_tabComplete (env_item env i) = Resolved tt.

(** With the flag raised before its first step, the routine of an item
    whose tab loads runs all its steps. *)
Lemma processSingleJob_under_stop x :
  isProcessing x = false ->
  let p := payloadOf env i rawJob id popupData in
  exists x',
    processSingleJob env rawJob id i jobNum (set_stopRequested true x)
    = (Ok tt, x')
    /\ stopRequested x' = true
    /\ isProcessing x' = false
    /\ (attempts x < attempts x' <= attempts x + 3)%nat
    /\ scrapedJobs x'
       = (if storageAccepts (env_item env i)
          then Some (replaceById (storedJobs x) p)
          else scrapedJobs x)
    /\ In (EvLog INFO (LSending (jobId p) (title p))) (trace x')
    /\ isAlreadyProcessed id x' = (Ok true, x').
Proof.
  intros Hfree p.
  rewrite (processSingleJob_ignores_stop true x).
  set (held := set_isProcessing true x).
  set (body := (processJobFlow env rawJob id i jobNum ;;
                markAsProcessed id ;;
                updateStats StatSuccess (item_statsAt (env_item env i)))%js).
  pose proof (processSingleJob_free env rawJob id i jobNum x Hfree) as Ep.
  cbv zeta in Ep. fold body held in Ep.
  destruct (processJobFlow_submits env i rawJob popupData tab click_ok
              popup_ok url_ok tab_created tab_loaded id jobNum held)
    as (w4 & E4 & A4 & J4 & L4 & _).
  fold p in J4, L4.
  pose proof (lockedBody_outcome env i rawJob id jobNum held) as O.
  cbv zeta in O. fold body in O.
  assert (Ebody : body held
                  = (Ok tt,
                     snd (updateStats StatSuccess
                            (item_statsAt (env_item env i))
                            (snd (markAsProcessed id w4))))).
  { unfold body. rewrite (bind_ok _ _ _ _ _ E4). reflexivity. }
  rewrite Ebody in O, Ep. simpl fst in O, Ep. simpl snd in O, Ep.
  cbv iota in O. destruct O as [_ Hin].
  rewrite Ep. simpl fst. simpl snd.
  eexists. split; [reflexivity|].
  split; [reflexivity|]. split; [reflexivity|].
  split; [exact A4|]. split; [exact J4|]. split; [exact L4|].
  unfold isAlreadyProcessed, gets. f_equal. f_equal.
  apply existsb_eqb_In. exact Hin.
Qed.

End StopInFlight.




(* ===================================================================== *)
(** * Two computations that run alike                                     *)
(* ===================================================================== *)

Section AlikeRules.

Lemma alike_refl {A} (m : M A) : alike m m.
Proof. intros w. reflexivity. Qed.

Lemma alike_bind {A B} (m1 m2 : M A) (k1 k2 : A -> M B) :
  alike m1 m2 -> (forall a, alike (k1 a) (k2 a)) ->
  alike (bind m1 k1) (bind m2 k2).
Proof.
  intros Hm Hk w. unfold bind. rewrite (Hm w).
  destruct (m2 w) as [[a|e] w']; [apply Hk | reflexivity].
Qed.

Lemma alike_tryCatch {A} (m1 m2 : M A) (h1 h2 : Exn -> M A) :
  alike m1 m2 -> (forall e, alike (h1 e) (h2 e)) ->
  alike (tryCatch m1 h1) (tryCatch m2 h2).
Proof.
  intros Hm Hh w. unfold tryCatch. rewrite (Hm w).
  destruct (m2 w) as [[a|e] w']; [reflexivity | apply Hh].
Qed.

Lemma alike_tryFinally {A} (m1 m2 : M A) (f : M unit) :
  alike m1 m2 -> alike (tryFinally m1 f) (tryFinally m2 f).
Proof. intros Hm w. unfold tryFinally. now rewrite (Hm w). Qed.

(** A task that does nothing leaves the computation as it is. *)
Lemma alike_meanwhile_ret {A} (m1 m2 : M A) :
  alike m1 m2 -> alike (meanwhile (ret tt) m1) m2.
Proof.
  intros Hm w. unfold meanwhile. rewrite (Hm w).
  now destruct (m2 w) as [r w'].
Qed.

(** A stop command is a task started while the worker is suspended. *)
Lemma awaiting_meanwhile {A} stop (m : M A) :
  alike (awaiting stop m) (meanwhile (if stop then onStopQueue else ret tt) m).
Proof.
  intros w. unfold awaiting, tryFinally, meanwhile.
  destruct (m w) as [r w']. now destruct stop.
Qed.

End AlikeRules.

Ltac alike_step :=
  lazymatch goal with
  | |- alike ?m ?m => apply alike_refl
  | |- alike (bind _ _) (bind _ _) => apply alike_bind; [|intros ?]
  | |- alike (tryCatch _ _) (tryCatch _ _) => apply alike_tryCatch; [|intros ?]
  | |- alike (tryFinally _ _) (tryFinally _ _) => apply alike_tryFinally
  | |- alike (awaiting _ _) (awaiting _ _) => apply alike_tryFinally
  | |- alike (meanwhile (ret tt) _) _ => apply alike_meanwhile_ret
  | |- alike (match ?x with _ => _ end) (match ?x with _ => _ end) =>
      destruct x
  end.

Create HintDb alike discriminated.

Ltac alike_auto :=
  cbv zeta; repeat first [ alike_step | solve [eauto 1 with alike nocore] ].

(** With no task started at any await, the functions are those of the
    worker. *)
Section Plain.

Variable env : Env.

Lemma processJobFlowMeanwhile_plain rawJob id rowIndex jobNum :
  alike (processJobFlowMeanwhile env (fun _ => ret tt) rawJob id rowIndex
           jobNum)
        (processJobFlow env rawJob id rowIndex jobNum).
Proof. unfold processJobFlowMeanwhile, processJobFlow. alike_auto. Qed.
Local Hint Resolve processJobFlowMeanwhile_plain : alike.

Lemma processSingleJobMeanwhile_plain rawJob id rowIndex jobNum :
  alike (processSingleJobMeanwhile env (fun _ => ret tt) rawJob id rowIndex
           jobNum)
        (processSingleJob env rawJob id rowIndex jobNum).
Proof. unfold processSingleJobMeanwhile, processSingleJob. alike_auto. Qed.
Local Hint Resolve processSingleJobMeanwhile_plain : alike.

Lemma resumeLoopMeanwhile_plain rest : forall i total,
  alike (resumeLoopMeanwhile env (fun _ => ret tt) rest i total)
        (resumeLoop env rest i total).
Proof.
  induction rest as [|job rest IH]; intros i total; simpl; alike_auto.
Qed.
Local Hint Resolve resumeLoopMeanwhile_plain : alike.

Lemma runResumeBuilderQueueMeanwhile_plain :
  alike (runResumeBuilderQueueMeanwhile env (fun _ => ret tt))
        (runResumeBuilderQueue env).
Proof.
  unfold runResumeBuilderQueueMeanwhile, runResumeBuilderQueue. alike_auto.
Qed.
Local Hint Resolve runResumeBuilderQueueMeanwhile_plain : alike.

Lemma runQueueItemMeanwhile_plain i rawJob :
  alike (runQueueItemMeanwhile env (fun _ => ret tt) i rawJob)
        (runQueueItem env i rawJob).
Proof.
  unfold runQueueItemMeanwhile, runQueueItem, interItemDelayMeanwhile,
    interItemDelay.
  alike_auto.
Qed.
Local Hint Resolve runQueueItemMeanwhile_plain : alike.

Lemma runQueueLoopMeanwhile_plain fuel : forall i,
  alike (runQueueLoopMeanwhile env (fun _ => ret tt) fuel i)
        (runQueueLoop env fuel i).
Proof.
  induction fuel as [|fuel IH]; intros i; simpl; alike_auto.
Qed.
Local Hint Resolve runQueueLoopMeanwhile_plain : alike.

Lemma runQueueMeanwhile_plain :
  alike (runQueueMeanwhile env (fun _ => ret tt)) (runQueue env).
Proof.
  unfold runQueueMeanwhile, runQueue, runQueueEpilogueMeanwhile,
    runQueueEpilogue.
  alike_auto.
Qed.
Local Hint Resolve runQueueMeanwhile_plain : alike.

Lemma handleStartQueueMeanwhile_plain options :
  alike (handleStartQueueMeanwhile env (fun _ => ret tt) options)
        (handleStartQueue env options).
Proof. unfold handleStartQueueMeanwhile, handleStartQueue. alike_auto. Qed.

End Plain.

(* ===================================================================== *)
(** * Running alike under an invariant                                    *)
(* ===================================================================== *)

Section AgreeRules.

Lemma agree_same {A} P (m : M A) Q E : triple P m Q E -> agree P m m Q E.
Proof. intros H w Hw. split; [reflexivity | exact (H w Hw)]. Qed.

Lemma agree_bind {A B} P (m1 m2 : M A) (k1 k2 : A -> M B) R Q E :
  agree P m1 m2 R E -> (forall a, agree (R a) (k1 a) (k2 a) Q E) ->
  agree P (bind m1 k1) (bind m2 k2) Q E.
Proof.
  intros Hm Hk w Hw. unfold bind. destruct (Hm w Hw) as [e H]. rewrite e.
  destruct (m2 w) as [[a|[msg|]] w'].
  - exact (Hk a w' H).
  - split; [reflexivity | exact H].
  - contradiction.
Qed.

Lemma agree_tryCatch {A} P (m1 m2 : M A) (h1 h2 : Exn -> M A) Q E' E :
  agree P m1 m2 Q E' ->
  (forall msg, agree E' (h1 (JsError msg)) (h2 (JsError msg)) Q E) ->
  agree P (tryCatch m1 h1) (tryCatch m2 h2) Q E.
Proof.
  intros Hm Hh w Hw. unfold tryCatch. destruct (Hm w Hw) as [e H].
  rewrite e. destruct (m2 w) as [[a|[msg|]] w'].
  - split; [reflexivity | exact H].
  - exact (Hh msg w' H).
  - contradiction.
Qed.

Lemma agree_conseq {A} (P P' : World -> Prop) (m1 m2 : M A)
    (Q Q' : A -> World -> Prop) (E E' : World -> Prop) :
  agree P m1 m2 Q E ->
  (forall w, P' w -> P w) -> (forall a w, Q a w -> Q' a w) ->
  (forall w, E w -> E' w) ->
  agree P' m1 m2 Q' E'.
Proof.
  intros H HP HQ HE w Hw. destruct (H w (HP w Hw)) as [e H']. split; [exact e|].
  destruct (m2 w) as [[a|[msg|]] w']; auto.
Qed.

Variable I : World -> Prop.

Lemma agreeOn_safe {A} (m : M A) : safe I m -> agreeOn I m m.
Proof. intros H. apply agree_same, triple_safe, H. Qed.

Lemma agreeOn_kept {A} (m1 m2 : M A) w :
  agreeOn I m1 m2 -> I w -> m1 w = m2 w /\ I (snd (m2 w)).
Proof.
  intros H Hw. destruct (H w Hw) as [e H']. split; [exact e|].
  destruct (m2 w) as [[a|[msg|]] w']; simpl; [exact H'|exact H'|contradiction].
Qed.

Lemma agreeOn_bind {A B} (m1 m2 : M A) (k1 k2 : A -> M B) :
  agreeOn I m1 m2 -> (forall a, agreeOn I (k1 a) (k2 a)) ->
  agreeOn I (bind m1 k1) (bind m2 k2).
Proof. intros Hm Hk. eapply agree_bind; [exact Hm | exact Hk]. Qed.

Lemma agreeOn_tryCatch {A} (m1 m2 : M A) (h1 h2 : Exn -> M A) :
  agreeOn I m1 m2 ->
  (forall msg, agreeOn I (h1 (JsError msg)) (h2 (JsError msg))) ->
  agreeOn I (tryCatch m1 h1) (tryCatch m2 h2).
Proof. intros Hm Hh. eapply agree_tryCatch; [exact Hm | exact Hh]. Qed.

Lemma agreeOn_tryFinally {A} (m1 m2 : M A) (f : M unit) :
  agreeOn I m1 m2 -> nothrow I f ->
  agreeOn I (tryFinally m1 f) (tryFinally m2 f).
Proof.
  intros Hm Hf w Hw. unfold tryFinally. destruct (Hm w Hw) as [e H].
  rewrite e. split; [reflexivity|].
  destruct (m2 w) as [[a|[msg|]] w']; [| |contradiction];
    destruct (Hf w' H) as [H1 H2];
    destruct (f w') as [[u|e'] w'']; simpl in *;
      first [exact H1 | contradiction].
Qed.

(** The task started during the await may differ on the two sides, as
    long as the two tasks run alike where [I] holds. *)
Lemma agreeOn_meanwhile {A} (o1 o2 : M unit) (m1 m2 : M A) :
  agreeOn I o1 o2 -> agreeOn I m1 m2 ->
  agreeOn I (meanwhile o1 m1) (meanwhile o2 m2).
Proof.
  intros Ho Hm w Hw. unfold meanwhile. destruct (Hm w Hw) as [e H].
  rewrite e.
  destruct (m2 w) as [[a|[msg|]] w']; [| |contradiction];
    destruct (agreeOn_kept o1 o2 w' Ho H) as [e' H'];
    rewrite e'; (split; [reflexivity | exact H']).
Qed.

End AgreeRules.

Ltac agree_step :=
  lazymatch goal with
  | |- agreeOn _ (bind _ _) (bind _ _) => apply agreeOn_bind; [|intros ?]
  | |- agreeOn _ (tryCatch _ _) (tryCatch _ _) =>
      apply agreeOn_tryCatch; [|intros ?]
  | |- agreeOn _ (meanwhile _ _) (meanwhile _ _) => apply agreeOn_meanwhile
  | |- agreeOn _ (match ?x with _ => _ end) (match ?x with _ => _ end) =>
      destruct x
  | |- agreeOn _ ?m ?m => apply agreeOn_safe
  end.

(** The functions of a run with two families of tasks that run alike where
    [I] holds. *)
Section Agreement.

Variable env : Env.
Variable I : World -> Prop.

Hypothesis I_trace : forall v w, I w -> I (set_trace v w).
Hypothesis I_attempts : forall v w, I w -> I (set_attempts v w).
Hypothesis I_openTabs : forall v w, I w -> I (set_openTabs v w).
Hypothesis I_scrapedJobs : forall v w, I w -> I (set_scrapedJobs v w).
Hypothesis I_processedIds : forall v w, I w -> I (set_processedIds v w).
Hypothesis I_stats : forall v w, I w -> I (set_stats v w).

Let I_quiet :
  forall e w, isProblemStatus e = false -> I w ->
              I (set_trace (e :: trace w) w).
Proof. intros e w _ Hw. now apply I_trace. Qed.

Section Item.

Variables o1 o2 : nat -> M unit.
Hypothesis tasks : forall k, agreeOn I (o1 k) (o2 k).

Lemma agreeOn_processJobFlowMeanwhile rawJob id rowIndex jobNum :
  agreeOn I (processJobFlowMeanwhile env o1 rawJob id rowIndex jobNum)
            (processJobFlowMeanwhile env o2 rawJob id rowIndex jobNum).
Proof.
  unfold processJobFlowMeanwhile. cbv zeta.
  agree_step.
  { agree_step; [apply tasks|]. agree_step.
    apply safe_stepSimulateClick; assumption. }
  agree_step.
  { agree_step; [apply tasks|]. agree_step.
    apply safe_stepPopupData; assumption. }
  agree_step.
  { agree_step. apply nothrow_safe, nothrow_broadcastStatus;
      [assumption | reflexivity]. }
  agree_step.
  { agree_step; [apply tasks|]. agree_step.
    apply safe_stepOpenTab; assumption. }
  agree_step.
  { agree_step; [apply tasks|]. agree_step.
    apply nothrow_safe, nothrow_stepScrape; assumption. }
  agree_step.
  { agree_step; [apply tasks|]. agree_step.
    apply nothrow_safe, nothrow_stepEmail; assumption. }
  agree_step.
  { agree_step; [apply tasks|]. agree_step.
    apply nothrow_safe, nothrow_stepSaveLocal; assumption. }
  agree_step; [apply tasks|]. agree_step.
  apply nothrow_safe, nothrow_stepSendToAPI; assumption.
Qed.

Lemma agreeOn_lockedBodyMeanwhile rawJob id rowIndex jobNum :
  agreeOn I
    (processJobFlowMeanwhile env o1 rawJob id rowIndex jobNum ;;
     meanwhile (o1 7%nat) (markAsProcessed id) ;;
     meanwhile (o1 8%nat)
       (updateStats StatSuccess (item_statsAt (env_item env rowIndex))))%js
    (processJobFlowMeanwhile env o2 rawJob id rowIndex jobNum ;;
     meanwhile (o2 7%nat) (markAsProcessed id) ;;
     meanwhile (o2 8%nat)
       (updateStats StatSuccess (item_statsAt (env_item env rowIndex))))%js.
Proof.
  agree_step; [apply agreeOn_processJobFlowMeanwhile|].
  agree_step.
  { agree_step; [apply tasks|]. agree_step.
    apply nothrow_safe, nothrow_markAsProcessed; assumption. }
  agree_step; [apply tasks|]. agree_step.
  apply nothrow_safe, nothrow_updateStats; assumption.
Qed.

Hypothesis I_isProcessing : forall v w, I w -> I (set_isProcessing v w).

Lemma agreeOn_processSingleJobMeanwhile rawJob id rowIndex jobNum :
  agreeOn I (processSingleJobMeanwhile env o1 rawJob id rowIndex jobNum)
            (processSingleJobMeanwhile env o2 rawJob id rowIndex jobNum).
Proof.
  unfold processSingleJobMeanwhile.
  agree_step; [agree_step; apply nothrow_safe, nothrow_gets|].
  agree_step; [agree_step; apply nothrow_safe, nothrow_ret|].
  agree_step.
  { agree_step. apply nothrow_safe, nothrow_modify.
    intros w. apply I_isProcessing. }
  apply agreeOn_tryFinally; [apply agreeOn_lockedBodyMeanwhile|].
  apply nothrow_modify. intros w. apply I_isProcessing.
Qed.

End Item.

Hypothesis I_isProcessing : forall v w, I w -> I (set_isProcessing v w).
Hypothesis I_stop : forall w, I w -> I (set_stopRequested true w).
Hypothesis I_processedCount : forall v w, I w -> I (set_processedCount v w).
Hypothesis I_failedCount : forall v w, I w -> I (set_failedCount v w).

Variables o1 o2 : Await -> M unit.
Hypothesis tasks : forall p, agreeOn I (o1 p) (o2 p).

Lemma agreeOn_awaiting {A} stop (m1 m2 : M A) :
  agreeOn I m1 m2 -> agreeOn I (awaiting stop m1) (awaiting stop m2).
Proof.
  intros H. unfold awaiting. apply agreeOn_tryFinally; [exact H|].
  destruct stop; [|apply nothrow_ret].
  apply nothrow_onStopQueue; assumption.
Qed.

Ltac leaf :=
  first
    [ apply nothrow_safe;
      first [ apply nothrow_gets | apply nothrow_ret
            | apply nothrow_log; assumption
            | apply nothrow_sleep; assumption
            | apply nothrow_broadcastStatus_any; assumption
            | apply nothrow_emit_any; assumption ]
    | apply safe_await
    | apply safe_errMessage
    | apply safe_throw
    | apply safe_waitForTabComplete; assumption ].

Ltac agree_auto :=
  cbv zeta;
  repeat first
    [ apply tasks
    | apply agreeOn_awaiting
    | agree_step
    | leaf ].

Lemma agreeOn_interItemDelayMeanwhile i :
  agreeOn I (interItemDelayMeanwhile env o1 i)
            (interItemDelayMeanwhile env o2 i).
Proof. unfold interItemDelayMeanwhile. agree_auto. Qed.

Lemma agreeOn_runQueueItemMeanwhile i rawJob :
  agreeOn I (runQueueItemMeanwhile env o1 i rawJob)
            (runQueueItemMeanwhile env o2 i rawJob).
Proof.
  unfold runQueueItemMeanwhile. cbv zeta.
  agree_step; [agree_auto|].
  agree_step; [agree_auto|].
  agree_step; [|apply agreeOn_interItemDelayMeanwhile].
  agree_step.
  - agree_step.
    + apply agreeOn_awaiting.
      apply agreeOn_processSingleJobMeanwhile; [|assumption].
      intros k. apply tasks.
    + agree_step. apply nothrow_safe, nothrow_itemSucceeded; assumption.
  - agree_step; [apply tasks|]. agree_step.
    apply nothrow_safe, nothrow_itemFailed; assumption.
Qed.

Lemma agreeOn_runQueueLoopMeanwhile fuel : forall i,
  agreeOn I (runQueueLoopMeanwhile env o1 fuel i)
            (runQueueLoopMeanwhile env o2 fuel i).
Proof.
  induction fuel as [|fuel IH]; intros i; simpl; [agree_auto|].
  agree_step; [agree_auto|].
  agree_step; [|agree_auto].
  agree_step; [agree_auto|].
  agree_step; [agree_auto|].
  agree_step; [|agree_auto].
  agree_step; [apply agreeOn_runQueueItemMeanwhile | apply IH].
Qed.

Lemma safe_sendJobToAPI jobData : safe I (sendJobToAPI env jobData).
Proof. apply nothrow_safe, nothrow_sendJobToAPI; assumption. Qed.

Lemma agreeOn_resumeLoopMeanwhile rest : forall i total,
  agreeOn I (resumeLoopMeanwhile env o1 rest i total)
            (resumeLoopMeanwhile env o2 rest i total).
Proof.
  induction rest as [|job rest IH]; intros i total; simpl; [agree_auto|].
  agree_step; [agree_auto|].
  agree_step; [agree_auto|]. cbv zeta.
  agree_step; [agree_auto|].
  agree_step.
  - agree_step.
    + agree_step; [agree_auto|]. agree_step; [agree_auto|].
      agree_step; [agree_auto|].
      agree_step; [|agree_auto].
      agree_step; [|agree_auto].
      agree_step; [apply tasks|]. agree_step. apply safe_sendJobToAPI.
    + agree_auto.
  - agree_step; [agree_auto|].
    agree_step; [|apply IH]. agree_auto.
Qed.

Lemma agreeOn_runResumeBuilderQueueMeanwhile :
  agreeOn I (runResumeBuilderQueueMeanwhile env o1)
            (runResumeBuilderQueueMeanwhile env o2).
Proof.
  unfold runResumeBuilderQueueMeanwhile.
  agree_step; [agree_auto|].
  agree_step.
  { agree_step; [|agree_auto].
    agree_step; [agree_auto|].
    agree_step; [apply tasks|].
    destruct (p2_jobs (env_phase2 env)) as [m|[|] status json];
      agree_auto. }
  agree_step; [|agree_auto]. cbv zeta.
  agree_step; [agree_auto|].
  agree_step; [agree_auto|].
  agree_step; [agree_auto|].
  agree_step; [|agree_auto].
  agree_step; [apply agreeOn_resumeLoopMeanwhile | agree_auto].
Qed.

End Agreement.

(* ===================================================================== *)
(** * One item and one run at a time                                      *)
(* ===================================================================== *)

(** While the lock is held, an entry into [processSingleJob] is a task
    that does nothing. *)
Lemma secondEntries_held arrives envs jobs ids rows nums k :
  agreeOn (fun w => isProcessing w = true)
    (secondEntries arrives envs jobs ids rows nums k) (ret tt).
Proof.
  intros w Hw. unfold secondEntries. destruct (arrives k).
  - rewrite (processSingleJob_held _ _ _ _ _ _ Hw). split; [reflexivity|].
    exact Hw.
  - split; [reflexivity | exact Hw].
Qed.

(** While a run is active, a start command is a task that logs the
    warning. *)
Lemma startCommands_running arrives envs opts p :
  agreeOn running (startCommands arrives envs opts p)
    (ignoredCommands arrives p).
Proof.
  intros w Hw. unfold startCommands, ignoredCommands. destruct (arrives p).
  - unfold handleStartQueue. unfold bind at 1, gets. rewrite Hw.
    split; [reflexivity | exact Hw].
  - split; [reflexivity | exact Hw].
Qed.

Section OneItem.

Variable env : Env.
Variables o1 o2 : nat -> M unit.
Hypothesis tasks : forall k, agreeOn (fun w => isProcessing w = true) (o1 k) (o2 k).

(** Tasks that run alike while the lock is held leave the routine of an
    item the same: the lock is held at each of its awaits. *)
Lemma processSingleJobMeanwhile_alike rawJob id rowIndex jobNum :
  alike (processSingleJobMeanwhile env o1 rawJob id rowIndex jobNum)
        (processSingleJobMeanwhile env o2 rawJob id rowIndex jobNum).
Proof.
  unfold processSingleJobMeanwhile.
  apply alike_bind; [apply alike_refl|]. intros [|]; [apply alike_refl|].
  assert (H : agreeOn (fun w => isProcessing w = true)
                (processJobFlowMeanwhile env o1 rawJob id rowIndex jobNum ;;
                 meanwhile (o1 7%nat) (markAsProcessed id) ;;
                 meanwhile (o1 8%nat)
                   (updateStats StatSuccess
                      (item_statsAt (env_item env rowIndex))))%js
                (processJobFlowMeanwhile env o2 rawJob id rowIndex jobNum ;;
                 meanwhile (o2 7%nat) (markAsProcessed id) ;;
                 meanwhile (o2 8%nat)
                   (updateStats StatSuccess
                      (item_statsAt (env_item env rowIndex))))%js).
  { apply agreeOn_lockedBodyMeanwhile; try (intros; assumption).
    exact tasks. }
  intros w. unfold bind at 1 4, modify. unfold tryFinally.
  destruct (H (set_isProcessing true w) eq_refl) as [e _].
  now rewrite e.
Qed.

End OneItem.

Section OneRun.

Variable env : Env.
Variables o1 o2 : Await -> M unit.
Hypothesis tasks : forall p, agreeOn running (o1 p) (o2 p).

Lemma agree_runQueueEpilogueMeanwhile :
  agree running (runQueueEpilogueMeanwhile env o1)
    (runQueueEpilogueMeanwhile env o2) (fun _ => idleWorker) running.
Proof.
  unfold runQueueEpilogueMeanwhile.
  eapply agree_bind; [apply agree_same, (triple_nothrow running); keeps|].
  intros w0.
  eapply agree_bind; [apply agree_same, (triple_nothrow running); keeps|].
  intros ?.
  eapply agree_bind; [apply agree_same, (triple_nothrow running); keeps|].
  intros stop.
  apply (agree_bind _ _ _ _ _ (fun _ => running));
    [|intros ?; apply agree_same, triple_finishQueue].
  destruct (negb stop); [|apply agreeOn_safe; keeps].
  apply agreeOn_bind; [apply agreeOn_safe; keeps|]. intros ?.
  apply agreeOn_bind.
  - apply agreeOn_meanwhile; [apply tasks | apply agreeOn_safe; keeps].
  - intros ?.
    apply agreeOn_runResumeBuilderQueueMeanwhile;
      try (intros; assumption). exact tasks.
Qed.

Lemma agree_runQueueMeanwhile :
  agree running (runQueueMeanwhile env o1) (runQueueMeanwhile env o2)
    (fun _ => idleWorker) running.
Proof.
  unfold runQueueMeanwhile.
  eapply agree_bind; [apply agree_same, (triple_nothrow running); keeps|].
  intros n.
  eapply agree_bind; [|intros ?; apply agree_runQueueEpilogueMeanwhile].
  apply agreeOn_runQueueLoopMeanwhile; try (intros; assumption).
  exact tasks.
Qed.

(** The assertion after the search for the dashboard tab and after the
    request for the collection: the run goes on, or it has been closed. *)
Let goesOn (b : bool) (w : World) : Prop :=
  if b then running w else idleWorker w.

Lemma agree_handleStartQueueMeanwhile options :
  agree (fun w => isRunning w = false)
    (handleStartQueueMeanwhile env o1 options)
    (handleStartQueueMeanwhile env o2 options)
    (fun _ => idleWorker) running.
Proof.
  unfold handleStartQueueMeanwhile.
  apply (agree_bind _ _ _ _ _
           (fun (a : bool) w => a = false /\ isRunning w = false)).
  { intros w Hw. split; [reflexivity|]. simpl. auto. }
  intros [|]; [intros w [Hf _]; discriminate|].
  eapply agree_conseq with (P := fun _ => True) (Q := fun _ => idleWorker)
                           (E := running); auto.
  eapply agree_bind;
    [apply agree_same, (triple_nothrow (fun _ => True)); keeps|].
  intros ?.
  apply (agree_bind _ _ _ _ _ (fun _ => running));
    [intros w _; split; reflexivity|]. intros ?.
  eapply agree_bind; [apply agree_same, (triple_safe running); keeps|].
  intros ?.
  eapply agree_bind; [apply agree_same, (triple_safe running); keeps|].
  intros ?.
  eapply agree_bind; [apply agree_same, (triple_safe running); keeps|].
  intros ?.
  eapply agree_bind.
  { apply agreeOn_meanwhile; [apply tasks | apply agreeOn_safe; keeps]. }
  intros ?.
  eapply agree_bind; [apply agree_same, (triple_safe running); keeps|].
  intros ?.
  apply (agree_bind _ _ _ _ _ (fun _ => running)).
  { destruct (clearHistory options); [|apply agreeOn_safe; keeps].
    apply agreeOn_bind.
    - apply agreeOn_meanwhile; [apply tasks | apply agreeOn_safe; keeps].
    - intros ?. apply agreeOn_safe; keeps. }
  intros ?.
  apply (agree_bind _ _ _ _ _ goesOn).
  { apply (agree_tryCatch _ _ _ _ _ _ running).
    - eapply agree_bind; [apply agree_same, (triple_safe running); keeps|].
      intros ?.
      eapply agree_bind.
      { apply agreeOn_meanwhile; [apply tasks | apply agreeOn_safe; keeps]. }
      intros [|id tabs].
      + eapply agree_bind;
          [apply agree_same, (triple_nothrow running); keeps|].
        intros ?.
        eapply agree_bind; [apply agree_same, triple_finishQueue|].
        intros ?.
        apply agree_same, (triple_ret false goesOn).
      + eapply agree_bind;
          [apply agree_same, (triple_nothrow running); keeps|].
        intros ?.
        eapply agree_bind;
          [apply agree_same, (triple_nothrow running); keeps|].
        intros ?.
        apply agree_same, (triple_ret true goesOn).
    - intros msg.
      eapply agree_bind;
        [apply agree_same, (triple_nothrow running); keeps|].
      intros ?.
      eapply agree_bind; [apply agree_same, triple_finishQueue|]. intros ?.
      apply agree_same, (triple_ret false goesOn). }
  intros [|]; simpl negb; cbv iota;
    [|apply agree_same, (triple_ret tt (fun _ => idleWorker))].
  eapply agree_bind; [apply agree_same, (triple_nothrow running); keeps|].
  intros ?.
  apply (agree_bind _ _ _ _ _ goesOn).
  { apply (agree_tryCatch _ _ _ _ _ _ running).
    - eapply agree_bind;
        [apply agree_same, (triple_nothrow running); keeps|].
      intros tab.
      eapply agree_bind;
        [apply agree_same, (triple_nothrow running); keeps|].
      intros ?.
      eapply agree_bind.
      { apply agreeOn_meanwhile; [apply tasks | apply agreeOn_safe; keeps]. }
      intros ?.
      apply agree_same, (triple_ret true goesOn).
    - intros msg.
      eapply agree_bind;
        [apply agree_same, (triple_nothrow running); keeps|].
      intros m.
      eapply agree_bind;
        [apply agree_same, (triple_nothrow running); keeps|].
      intros ?.
      eapply agree_bind; [apply agree_same, triple_finishQueue|]. intros ?.
      apply agree_same, (triple_ret false goesOn). }
  intros [|]; simpl negb; cbv iota;
    [|apply agree_same, (triple_ret tt (fun _ => idleWorker))].
  eapply agree_bind.
  { apply agreeOn_meanwhile; [apply tasks | apply agreeOn_safe; keeps]. }
  intros ?.
  eapply agree_bind.
  { apply agree_same, (triple_nothrow running).
    destruct (start_collected (env_start env)); unfold onJobsCollected;
      keeps. }
  intros ?.
  eapply agree_bind; [apply agree_same, (triple_nothrow running); keeps|].
  intros [|rawJob q].
  - eapply agree_bind;
      [apply agree_same, (triple_nothrow running); keeps|].
    intros ?.
    eapply agree_bind.
    { apply agreeOn_meanwhile; [apply tasks | apply agreeOn_safe; keeps]. }
    intros ?.
    eapply agree_bind;
      [|intros ?; apply agree_same, triple_finishQueue].
    apply agreeOn_runResumeBuilderQueueMeanwhile;
      try (intros; assumption). exact tasks.
  - eapply agree_bind;
      [apply agree_same, (triple_nothrow running); keeps|].
    intros ?.
    apply agree_runQueueMeanwhile.
Qed.

(** Tasks that run alike while a run is active leave a start command the
    same: the run flag is up at each of its awaits. *)
Lemma handleStartQueueMeanwhile_alike options :
  alike (handleStartQueueMeanwhile env o1 options)
        (handleStartQueueMeanwhile env o2 options).
Proof.
  intros w. destruct (isRunning w) eqn:Hw.
  - unfold handleStartQueueMeanwhile. unfold bind, gets. now rewrite Hw.
  - exact (proj1 (agree_handleStartQueueMeanwhile options w Hw)).
Qed.

End OneRun.

(** A start command whose first storage request is rejected leaves with the
    run flag up. *)
Lemma handleStartQueue_rejected_at_first_await env options w m :
  isRunning w = false ->
  start_setActive (env_start env) = Rejected m ->
  handleStartQueue env options w
  = (Throw (JsError m),
     set_failedCount 0
       (set_processedCount 0
          (set_stopRequested false
             (set_isRunning true (pushEvents [EvLog INFO LStarting] w))))).
Proof.
  intros Hw Hs. unfold handleStartQueue.
  rewrite (bind_ok _ _ w false w) by (unfold gets; now rewrite Hw).
  cbv iota.
  rewrite (bind_ok _ _ w tt (pushEvents [EvLog INFO LStarting] w))
    by reflexivity.
  rewrite (bind_ok (modify (set_isRunning true)) _ _ tt _ eq_refl).
  rewrite (bind_ok (modify (set_stopRequested false)) _ _ tt _ eq_refl).
  rewrite (bind_ok (modify (set_processedCount 0)) _ _ tt _ eq_refl).
  rewrite (bind_ok (modify (set_failedCount 0)) _ _ tt _ eq_refl).
  rewrite Hs.
  rewrite (bind_throw (await (Rejected m)) _ _ (JsError m) _ eq_refl).
  reflexivity.
Qed.

(** C2.  One item and one run at a time.  Entering [processSingleJob]
    while the lock is held returns at once and changes nothing; from a
    free lock the routine runs the item with the lock held and releases it
    whether the item succeeds or throws.  The steps under the lock neither
    read nor write it, and the lock is held at every await of the item:
    entries into [processSingleJob] made while the routine is suspended in
    any of its steps, for any jobs, leave its outcome and the world it
    leaves as they are without them.  A start command received while a run
    is active only logs a warning.  A start command that is taken up
    raises the run flag before its first await and the flag stays up until
    [finishQueue]: start commands that arrive at any of the awaits of the
    command (its setup, the steps of the items, the delays between them,
    the second phase), with any options, act as the mere log of the
    warning does; with no command arriving, the function with the awaits
    marked is [handleStartQueue] itself.  A start command whose first
    storage request is rejected throws with the run flag up; and whenever
    a start command taken up by an idle worker returns, the flag is down,
    and whenever it throws, the flag is up.  A task started during an
    await is run when the awaited step returns. *)
Theorem single_flight (env : Env) :
  (forall rawJob id rowIndex jobNum w,
      isProcessing w = true ->
      processSingleJob env rawJob id rowIndex jobNum w = (Ok tt, w))
  /\ (forall rawJob id rowIndex jobNum w,
         isProcessing w = false ->
         let body :=
           (processJobFlow env rawJob id rowIndex jobNum ;;
            markAsProcessed id ;;
            updateStats StatSuccess (item_statsAt (env_item env rowIndex)))%js in
         let held := set_isProcessing true w in
         processSingleJob env rawJob id rowIndex jobNum w
           = (fst (body held), set_isProcessing false (snd (body held)))
         /\ isProcessing (snd (body held)) = true
         /\ isProcessing
              (snd (processSingleJob env rawJob id rowIndex jobNum w)) = false)
  /\ (forall b rawJob id rowIndex jobNum w,
         let body :=
           (processJobFlow env rawJob id rowIndex jobNum ;;
            markAsProcessed id ;;
            updateStats StatSuccess (item_statsAt (env_item env rowIndex)))%js in
         body (set_isProcessing b w)
         = (fst (body w), set_isProcessing b (snd (body w))))
  /\ (forall arrives envs jobs ids rows nums rawJob id rowIndex jobNum w,
         processSingleJobMeanwhile env
           (secondEntries arrives envs jobs ids rows nums)
           rawJob id rowIndex jobNum w
         = processSingleJob env rawJob id rowIndex jobNum w)
  /\ (forall options w,
         isRunning w = true ->
         handleStartQueue env options w
           = (Ok tt, pushEvents [EvLog WARN LAlreadyRunning] w))
  /\ (forall i rawJob w,
         isRunning w = true ->
         isRunning (snd (runQueueItem env i rawJob w)) = true)
  /\ (forall arrives envs opts options w,
         handleStartQueueMeanwhile env (startCommands arrives envs opts)
           options w
         = handleStartQueueMeanwhile env (ignoredCommands arrives) options w)
  /\ (forall options w,
         handleStartQueueMeanwhile env (fun _ => ret tt) options w
         = handleStartQueue env options w)
  /\ (forall options w m,
         isRunning w = false ->
         start_setActive (env_start env) = Rejected m ->
         exists w',
           handleStartQueue env options w = (Throw (JsError m), w')
           /\ isRunning w' = true)
  /\ (forall options w,
         isRunning w = false ->
         match handleStartQueue env options w with
         | (Ok _, w') => isRunning w' = false
         | (Throw _, w') => isRunning w' = true
         end).
Proof.
  split; [|split; [|split; [|split; [|split; [|split; [|split; [|split;
    [|split]]]]]]]].
  - intros rawJob id rowIndex jobNum w H.
    now apply processSingleJob_held.
  - intros rawJob id rowIndex jobNum w H body held.
    pose proof (processSingleJob_free env rawJob id rowIndex jobNum w H) as E.
    cbv zeta in E. fold body held in E.
    split; [exact E|]. split.
    + apply lock_kept_by_body. reflexivity.
    + rewrite E. reflexivity.
  - intros b rawJob id rowIndex jobNum w body.
    apply (comm_lockedBody env (set_isProcessing b)); intros; reflexivity.
  - intros arrives envs jobs ids rows nums rawJob id rowIndex jobNum w.
    rewrite <- (processSingleJobMeanwhile_plain env rawJob id rowIndex jobNum w).
    apply processSingleJobMeanwhile_alike.
    intros k. apply secondEntries_held.
  - intros options w H.
    unfold handleStartQueue, bind, gets. now rewrite H.
  - intros i rawJob w H. now apply running_kept_by_item.
  - intros arrives envs opts options w.
    apply handleStartQueueMeanwhile_alike.
    intros p. apply startCommands_running.
  - intros options w. apply handleStartQueueMeanwhile_plain.
  - intros options w m Hw Hs. eexists. split.
    + now apply handleStartQueue_rejected_at_first_await.
    + reflexivity.
  - intros options w Hw.
    pose proof (triple_handleStartQueue env options w Hw) as T.
    destruct (handleStartQueue env options w) as [[u|[msg|]] w'].
    + exact (proj1 T).
    + exact T.
    + contradiction.
Qed.

(** The worker in the middle of an item and of a run; and a run of two
    items from the idle worker during which a start command arrives at
    every await: the run is started once, each command is ignored, and
    both items are processed. *)
Lemma single_flight_witness :
  let env := Sample.env Sample.allOk Sample.backendUp in
  let busy := set_isProcessing true (Sample.running [Sample.job1; Sample.job2]) in
  let again :=
    startCommands (fun _ => true) (fun _ => env)
      (fun _ => mkStartOptions true) in
  let w' :=
    snd (handleStartQueueMeanwhile env again (mkStartOptions false)
           Sample.idle) in
  isProcessing busy = true
  /\ isRunning busy = true
  /\ processSingleJob env Sample.job2 "job_2" 1 (mkJobNum 2 2) busy = (Ok tt, busy)
  /\ handleStartQueue env (mkStartOptions false) busy
     = (Ok tt, pushEvents [EvLog WARN LAlreadyRunning] busy)
  /\ isProcessing
       (snd (processSingleJob env Sample.job1 "job_1" 0 (mkJobNum 1 2)
               (Sample.running [Sample.job1; Sample.job2]))) = false
  /\ length (filter startsRun (trace w')) = 1%nat
  /\ length (filter ignoresStart (trace w')) = 25%nat
  /\ processedCount w' = 2%nat
  /\ isRunning w' = false.
Proof.
  intros env busy again w'.
  destruct (single_flight env) as (G & L & _ & _ & S & _ & A & _).
  split; [reflexivity|]. split; [reflexivity|].
  split; [apply G; reflexivity|].
  split; [apply S; reflexivity|].
  split; [apply L; reflexivity|].
  unfold w', again. rewrite A.
  split; [vm_compute; reflexivity|].
  split; [vm_compute; reflexivity|].
  split; vm_compute; reflexivity.
Defined.
